(* ===== verification/_CoqProject ===== *)
-Q . S2P
Prelude.v
Prog.v
Rely.v
Json.v
RunDomain.v
WorkspaceDomain.v
RbacDomain.v
VariableDomain.v
TenancyDomain.v
IdentityDomain.v
FleetDomain.v
Store.v
Outbox.v
RunRepo.v
WorkspaceRepo.v
TenancyRepo.v
IdentityRepo.v
FleetRepo.v
FleetText.v
Compose.v
Principal.v
RbacRepo.v
Ports.v
Registry.v
Execution.v
AuditLog.v
Cursor.v
WorkspaceApp.v
VariableApp.v
RbacApp.v
TenancyApp.v
IdentityApp.v
Envelope.v
Secrets.v
FleetMachines.v
FleetFiles.v
DeployExecutor.v
Worker.v
RateLimit.v
Http.v
HttpTenancy.v
HttpIdentity.v
HttpWorkspace.v
HttpSecrets.v
HttpFleet.v
Stream.v
Mux.v
Wiring.v
Routes.v
HttpScenario.v
FleetLife.v
Scenario.v
RegistrySpec.v
WorkerSpec.v
RbacSpec.v
Gates.v
RbacMutations.v
WorkspaceSpec.v
ExecutionSpec.v
Writes.v
OutboxSpec.v
AuditSpec.v
VariableSpec.v
LockInvariant.v
Interleaving.v
HttpSpec.v
RoutesSpec.v
PurgeSpec.v
TenancySpec.v
Credentials.v
IdentitySpec.v
SessionSpec.v
FleetTextSpec.v
ComposeSpec.v
SecretsSpec.v
FleetSpec.v
ExecutorSpec.v
FleetScenario.v
FleetExamples.v
ApiExamples.v
