(* ===== verification/Prelude.v ===== *)
(** * A control plane for infrastructure runs, verified

    The program is a multi-tenant control plane (cmd/control-plane) in Go: a
    modular monolith of bounded contexts over one PostgreSQL database, with
    Redis for coordination between replicas, gRPC to worker processes, Vault
    for secrets and SSH for its fleet of machines.  Each context has a
    domain, services (application), and adapters (postgres, http, grpc,
    vault, redisstream); a context asks another only through a port, and
    main.go wires the ports.  This library models the contexts' domains,
    services, repositories and HTTP handlers, the route table with its
    middlewares, the deploy executor, the worker registry and the worker,
    statement by statement where the database is concerned, and proves what
    they are there for.

    ** How effects are modelled

    - Prog: a service is a [prog], a sequence of atomic steps on a shared
      world; [exec] runs one alone, [pool_steps] interleaves the steps of any
      number of them.  Go's [(value, err)] is [res], [err] an [error] value;
      [try] leaves it to the caller.  Rely is rely/guarantee reasoning for
      threads that own identifiers.
    - Store: the database is a record of finite maps, one per table.
      [Table] is the interface of a table: its rows, primary key, row-level
      security policy, CHECK, UNIQUE and foreign keys, what deleting a row
      is blocked by and what it takes along (migrations/*.sql).  A
      transaction ([txn]) is one atomic step that commits or rolls back;
      [faults] schedules the failures of the database, so every theorem
      without [faults w = []] also covers lost connections and crashes of
      the database between any two steps.  Statements of concurrent
      transactions are not interleaved: a method whose statements could be
      is modelled as the separate transactions the code makes of it.
    - A [World] is the database, a clock, the uuids still to be drawn, the
      scheduled faults, and a component [aux] for what is outside the
      database (Redis and the registries, Vault).

    ** The components: source, model, theorems

    - Execution (internal/execution): RunDomain, RunRepo, Execution, and the
      worker registry in Registry.  ExecutionSpec states each service's
      outcome on every branch; LockInvariant and Interleaving show that the
      workspace lock survives every interleaving; RegistrySpec is about
      dispatch, bounded queues and cancel routing.
    - Workspace, Variables, RBAC, Tenancy, Identity, Audit (internal/...):
      <Context>Domain, <Context>Repo, <Context>App and <Context>Spec (but
      VariableApp has its repository, AuditLog all of Audit).
      RbacSpec reduces the authorization queries to the rule the
      documentation states, [allowed]; Gates says what the checks at the
      head of a service establish.  PurgeSpec refines the purges to an
      abstract erasure; Credentials and IdentitySpec follow tokens and keys
      through any interleaving; AuditSpec shows that the pages are the log.
    - Outbox (internal/platform/outbox): Outbox and OutboxSpec; Writes is
      the catalogue of writes that lets a property of the database be shown
      for all requests at once.
    - Fleet (internal/fleet): FleetDomain, FleetRepo; FleetText and Compose
      are the pure functions on text and YAML trees; FleetMachines and
      FleetFiles the services; DeployExecutor the background task.
      FleetTextSpec and ComposeSpec specify the pure functions, FleetLife
      the state machine of an operation under any interleaving, ExecutorSpec
      that an operation ends and which variables it sees, FleetSpec single
      services.
    - Secrets (internal/secrets, internal/platform/envelope): Envelope,
      Secrets, SecretsSpec.
    - Worker (cmd/worker, internal/worker/engine): Worker, WorkerSpec.
    - Platform: RateLimit (internal/platform/ratelimit), Http and HttpSpec
      (httpserver, idempotency), Principal (request contexts), Ports (the
      ports as classes with the laws their clients use), Wiring (the
      instances main.go wires).
    - The API (internal/*/adapters/http, cmd/control-plane/main.go): a
      handler is a function from a request to a program that yields the
      response.  Json is what encoding/json makes of a body and a value;
      HttpTenancy (with RBAC), HttpIdentity, HttpWorkspace (with variables
      and runs), HttpSecrets (with the audit log), HttpFleet and Stream (the
      live log of an operation) hold the handlers, Cursor the text of a page
      cursor, Mux net/http's patterns, Routes the table.  RoutesSpec is about
      every route at once: each request is answered, nothing happens without
      a credential, someone outside an organization gets nothing of it, no
      two routes conflict.  SessionSpec follows a login to the requests its
      token admits, and a watcher to the end of the operation.
    - Scenario, FleetScenario and HttpScenario are concrete worlds and texts;
      witnesses and counterexamples are evaluated on them, those of
      RoutesSpec and SessionSpec in ApiExamples.

    ** Parameters

    Code that is not the repository's is a parameter, with its documented
    behaviour as named laws where a theorem needs it, and an instance that
    obeys them in Scenario or FleetScenario: Redis ([RedisOps], [RedisLaws]),
    Vault's KV engine ([VaultAPI], [VaultLaws]), AES-GCM, BLAKE2b and the
    random source ([Aead], [AeadLaws]), bcrypt and SHA-256 ([Crypto]), JWTs
    ([JWTLaws]), YAML, the grammar of JSON ([JSON]), the text of a time
    ([TimeText], [TimeTextLaws]), SSH ([SSHRunner]), and the order in which
    Go walks a map.  A [error_text] parameter is [err.Error()].  The rate
    limiters of the routes are given as their critical sections; RateLimit
    models and bounds what such a section decides.

    ** Bounds and fuel

    Every function is total by structure: no definition takes fuel but the
    loops the code bounds itself (fifty names in [try_names], twenty
    candidates in a poll, a hundred events in a batch) and the drivers of
    unbounded loops ([Relay_Run n] is [n] ticks).  Integers are [Z]; no
    modelled computation comes near 64 bits but for durations, which are
    nanoseconds in [Z].

    ** Not modelled, and why

    - Logging, metrics, tracing, configuration, migrations, TLS, server start
      and shutdown, generated gRPC code: no state of the program depends on
      them.
    - Of net/http: request paths that are not clean (ServeMux redirects
      them), the Allow header of a 405, and a client that hangs up while a
      response is written.
    - GRANTs, malformed uuids (22P02), collations, CHECKs a constructor
      already implies, and constraints an UPDATE could violate except
      through [update_unique].
    - Concurrency inside one transaction (see above); Purge and the deletion
      of workspaces are left out of the interleaving theorem of the lock.
    - The SSH client: it speaks a protocol of a library. *)
From stdpp Require Export prelude strings gmap list sorting.
From Stdlib Require Export ZArith Lia.

#[export] Set Default Goal Selector "!".

(** ** Errors *)

(** The bounded context a sentinel error belongs to: every context of the
    code declares its own copy of [ErrForbidden] and friends, and
    [errors.Is] never confuses two of them. *)
Inductive context :=
| Execution | Workspaces | Rbac | Tenancy | Variables | AuditLog | Platform
| Identity | Secrets | Fleet.

(** The error values that cross function boundaries in the modelled code. *)
Inductive error :=
| PgError (code : string)
| ErrNoRows
| ErrRedis
| GrpcStatus (code : string)
| ErrJSON
| ErrForbidden (c : context)
| ValidationError (c : context) (msg : string)
| ErrOrganizationArchived (c : context)
| ErrOrganizationNotFound
| ErrWorkspaceNotFound (c : context)
| ErrProjectNotFound (c : context)
| ErrEnvironmentNotFound
| ErrScopeNotFound
| ErrVariableNotFound
| ErrRunNotFound
| ErrWorkspaceLocked
| ErrRunAlreadyTerminal
| ErrInvalidTransition
| ErrNoWorkerAvailable
| ErrRoleNotFound
| ErrRoleAlreadyExists
| ErrInvalidToken
| ErrSecretBackend
| ErrOrganizationAlreadyArchived
| ErrOrganizationSlugTaken
| ErrProjectAlreadyExists
| ErrTeamNotFound
| ErrTeamAlreadyExists
| ErrUserNotFound
| ErrUserAlreadyExists
| ErrInvalidCredentials
| ErrServiceAccountNotFound
| ErrAPIKeyInvalid
| ErrRefreshTokenInvalid
| ErrPasswordResetTokenInvalid
| ErrSecretMountNotFound
| ErrMachineNotFound
| ErrMachineHasHistory
| ErrMachineNameTaken
| ErrNetworkNotFound
| ErrNetworkInUse
| ErrVolumeNotFound
| ErrVolumeInUse
| ErrComposeFileNotFound
| ErrGlobalComposeFileExists
| ErrComposeFileHasHistory
| ErrFleetVariableNotFound
| ErrVariableKeyTaken
| ErrOperationNotFound
| ErrInvalidMasterKey
| ErrCrypto
| ErrYAML (msg : string)
| ErrSSH (msg : string)
| ErrPanic.

#[export] Instance context_eq_dec : EqDecision context.
Proof. solve_decision. Defined.
#[export] Instance error_eq_dec : EqDecision error.
Proof. solve_decision. Defined.

(** ** Results: Go's [(value, error)] pairs *)

Inductive res (A : Type) :=
| Ok (a : A)
| Err (e : error).
Arguments Ok {_} _.
Arguments Err {_} _.

#[export] Instance res_eq_dec `{EqDecision A} : EqDecision (res A).
Proof. solve_decision. Defined.

#[export] Instance res_ret : MRet res := @Ok.
#[export] Instance res_bind : MBind res := λ A B f r,
  match r with Ok a => f a | Err e => Err e end.

Definition is_ok {A} (r : res A) : bool :=
  match r with Ok _ => true | Err _ => false end.

(** [if !b { return err }] *)
Definition check (b : bool) (e : error) : res () :=
  if b then Ok () else Err e.

(** ** Go's [any]

    The values [yaml.Unmarshal] and the Vault client put into an [any].
    [AOther] is a scalar that is neither a string nor a boolean, or a mapping
    whose keys are not all strings, by the text [%v] prints. *)
Inductive any :=
| ANull
| AString (s : string)
| ABool (b : bool)
| AOther (text : string)
| AList (l : list any)
| AMap (m : gmap string any).

(** [v.(map[string]any)], [v.(string)] and [v.([]any)] of a value that may be
    missing *)
Definition as_map (v : option any) : option (gmap string any) :=
  match v with Some (AMap m) => Some m | _ => None end.
Definition as_string (v : option any) : option string :=
  match v with Some (AString s) => Some s | _ => None end.
Definition as_list (v : option any) : list any :=
  match v with Some (AList l) => l | _ => [] end.

(** ** Booleans of the code *)

Notation "x =ₛ y" := (bool_decide (x = y :> string)) (at level 70, no associativity) : stdpp_scope.
Notation "x ∈ₛ l" := (bool_decide (x ∈ l)) (at level 70, no associativity) : stdpp_scope.

(** ** Automation *)

Create HintDb prog.
Create Rewrite HintDb prog.

(** Split a conjunction of booleans, in the goal or a hypothesis. *)
Ltac bools :=
  repeat match goal with
  | H : _ && _ = true |- _ => apply andb_true_iff in H as [? ?]
  | H : bool_decide _ = true |- _ => apply bool_decide_eq_true in H
  | H : bool_decide _ = false |- _ => apply bool_decide_eq_false in H
  | H : negb _ = true |- _ => apply negb_true_iff in H
  | H : negb _ = false |- _ => apply negb_false_iff in H
  end.

(** Case analysis on every scrutinee of the goal's matches. *)
Ltac case_all := repeat (case_match; simplify_eq/=).

(** The value a list of optional results yields first. *)
Fixpoint first_some {A} (l : list (option A)) : option A :=
  match l with
  | [] => None
  | Some a :: _ => Some a
  | None :: l => first_some l
  end.

(** Sequencing over a list where the first error wins. *)
Fixpoint mapr {A B} (f : A → res B) (l : list A) : res (list B) :=
  match l with
  | [] => Ok []
  | x :: l => y ← f x; ys ← mapr f l; Ok (y :: ys)
  end.

Lemma mapr_ok {A B} (f : A → res B) l ys :
  mapr f l = Ok ys ↔ Forall2 (λ x y, f x = Ok y) l ys.
Proof.
  revert ys; induction l as [|x l IH]; intros ys; simpl.
  - split; [intros [= <-]; constructor | inversion 1; done].
  - destruct (f x) as [y|e] eqn:Hx; simpl.
    + destruct (mapr f l) as [zs|e] eqn:Hl; simpl.
      * split.
        -- intros [= <-]. constructor; [done|]. by apply IH.
        -- inversion 1 as [|? y' ? ys' Hy Hys]; subst.
           apply IH in Hys. congruence.
      * split; [done|]. inversion 1 as [|? y' ? ys' Hy Hys]; subst.
        apply IH in Hys. congruence.
    + split; [done|]. inversion 1; congruence.
Qed.

(** A filter that everything passes. *)
Lemma filter_all {A} (P : A → Prop) `{!∀ x, Decision (P x)} (l : list A) :
  Forall P l → filter P l = l.
Proof. induction 1 as [|x l Hx _ IH]; [done|]. by rewrite filter_cons_True, IH. Qed.
