(* ===== verification/Prog.v ===== *)
(** * Effectful programs as sequences of atomic steps

    Every service method of the control plane is a sequence of calls that
    each take effect atomically on the shared world: a database transaction,
    a critical section of the worker registry, a command to the coordination
    store.  [prog W A] is the free language of such sequences.  The same
    term is given two meanings: [exec] runs it alone, and [pool_step]
    interleaves the atomic steps of any number of programs. *)
From S2P Require Import Prelude.

(** A program: it returns, fails with an error, or performs one atomic step
    and continues with the result (the [(value, err)] pair Go code tests). *)
Inductive prog (W A : Type) : Type :=
| Ret (a : A)
| Throw (e : error)
| Atomic {B : Type} (tx : W → res B * W) (k : res B → prog W A).
Arguments Ret {W A} _.
Arguments Throw {W A} _.
Arguments Atomic {W A B} _ _.

#[export] Instance prog_ret W : MRet (prog W) := λ A a, Ret a.

#[export] Instance prog_bind W : MBind (prog W) := λ A B f,
  fix go (p : prog W A) : prog W B :=
    match p with
    | Ret a => f a
    | Throw e => Throw e
    | Atomic tx k => Atomic tx (λ r, go (k r))
    end.

(** One atomic step whose error is returned at once:
    [v, err := step(); if err != nil { return err }]. *)
Definition call {W A} (tx : W → res A * W) : prog W A :=
  Atomic tx (λ r, match r with Ok a => Ret a | Err e => Throw e end).

(** [v, err := p()] with [err] left for the caller to inspect. *)
Fixpoint try {W A} (p : prog W A) : prog W (res A) :=
  match p with
  | Ret a => Ret (Ok a)
  | Throw e => Ret (Err e)
  | Atomic tx k => Atomic tx (λ r, try (k r))
  end.

(** [if !b { return err }] *)
Definition ensure {W} (b : bool) (e : error) : prog W () :=
  if b then Ret () else Throw e.

(** [return r] for a pure result [r]. *)
Definition lift {W A} (r : res A) : prog W A :=
  match r with Ok a => Ret a | Err e => Throw e end.

(** [for _, x := range l { body }] where the body ends its iteration with
    [Ret] ([continue]) or leaves the loop with an error. *)
Fixpoint range {W A} (l : list A) (body : A → prog W ()) : prog W () :=
  match l with
  | [] => Ret ()
  | x :: l => body x ≫= λ _, range l body
  end.

Definition void {W A} (p : prog W A) : prog W () := p ≫= λ _, Ret ().

(** ** Running a program alone *)

Fixpoint exec {W A} (p : prog W A) (w : W) : res A * W :=
  match p with
  | Ret a => (Ok a, w)
  | Throw e => (Err e, w)
  | Atomic tx k => let '(r, w') := tx w in exec (k r) w'
  end.

Section exec_laws.
Context {W : Type}.

Lemma exec_bind {A B} (p : prog W A) (f : A → prog W B) w :
  exec (p ≫= f) w =
    match exec p w with
    | (Ok a, w') => exec (f a) w'
    | (Err e, w') => (Err e, w')
    end.
Proof.
  revert w; induction p as [a|e|B' tx k IH]; intros w; simpl; try done.
  destruct (tx w) as [r w']. apply IH.
Qed.

Lemma exec_call {A} (tx : W → res A * W) w : exec (call tx) w = tx w.
Proof. simpl. by destruct (tx w) as [[a|e] w']. Qed.

Lemma exec_try {A} (p : prog W A) w :
  exec (try p) w = let '(r, w') := exec p w in (Ok r, w').
Proof.
  revert w; induction p as [a|e|B tx k IH]; intros w; simpl; try done.
  destruct (tx w) as [r w']. apply IH.
Qed.

Lemma exec_ensure b e (w : W) :
  exec (ensure b e) w = (if b then Ok () else Err e, w).
Proof. by destruct b. Qed.

Lemma exec_lift {A} (r : res A) (w : W) : exec (lift r) w = (r, w).
Proof. by destruct r. Qed.

Lemma exec_ret {A} (a : A) (w : W) : exec (Ret a) w = (Ok a, w).
Proof. done. Qed.

Lemma exec_throw {A} e (w : W) : exec (Throw (A:=A) e) w = (Err e, w).
Proof. done. Qed.

(** A program that ran to [Ok] through a bind ran both halves to [Ok]. *)
Lemma exec_bind_ok {A B} (p : prog W A) (f : A → prog W B) w b w' :
  exec (p ≫= f) w = (Ok b, w') →
  ∃ a w1, exec p w = (Ok a, w1) ∧ exec (f a) w1 = (Ok b, w').
Proof. rewrite exec_bind. destruct (exec p w) as [[a|e] w1]; naive_solver. Qed.

Lemma exec_ensure_ok b e (w w' : W) x :
  exec (ensure b e) w = (Ok x, w') → b = true ∧ w' = w.
Proof. destruct b; naive_solver. Qed.
End exec_laws.

(** A run on a concrete world, as one proposition to evaluate. *)
Lemma exec_ok_intro {W A} (p : prog W A) w (P : A → W → Prop) :
  match exec p w with (Ok a, w') => P a w' | _ => False end →
  ∃ a w', exec p w = (Ok a, w') ∧ P a w'.
Proof. destruct (exec p w) as [[a|e] w']; [eauto|done]. Qed.

(** A run that is only looked at to see that it succeeds. *)
Lemma exec_ok_run {W A} (p : prog W A) w (P : A → W → Prop) :
  is_ok (exec p w).1 = true → (∀ a w', exec p w = (Ok a, w') → P a w') →
  ∃ a w', exec p w = (Ok a, w') ∧ P a w'.
Proof. destruct (exec p w) as [[a|e] w']; [eauto|done]. Qed.

Lemma exec_err_intro {W A} (p : prog W A) w (P : error → W → Prop) :
  match exec p w with (Err e, w') => P e w' | _ => False end →
  ∃ e w', exec p w = (Err e, w') ∧ P e w'.
Proof. destruct (exec p w) as [[a|e] w']; [done|eauto]. Qed.

#[export] Hint Rewrite @exec_bind @exec_call @exec_try @exec_ensure @exec_lift
  @exec_ret @exec_throw : prog.

(** ** Guarantees: what every atomic step of a program may do to the world *)

Fixpoint steps_in {W A} (R : W → W → Prop) (p : prog W A) : Prop :=
  match p with
  | Atomic tx k => (∀ w, R w (tx w).2) ∧ ∀ r, steps_in R (k r)
  | _ => True
  end.

Section guarantee.
Context {W : Type} (R : W → W → Prop).

Lemma steps_in_bind {A B} (p : prog W A) (f : A → prog W B) :
  steps_in R p → (∀ a, steps_in R (f a)) → steps_in R (p ≫= f).
Proof.
  intros Hp Hf; induction p as [a|e|B' tx k IH]; simpl; [done..|].
  destruct Hp as [Htx Hk]. split; [done|]. intros r. apply IH, Hk.
Qed.

Lemma steps_in_call {A} (tx : W → res A * W) :
  (∀ w, R w (tx w).2) → steps_in R (call tx).
Proof. intros H; split; [done|]. by intros [a|e]. Qed.

Lemma steps_in_try {A} (p : prog W A) : steps_in R p → steps_in R (try p).
Proof.
  induction p as [a|e|B tx k IH]; simpl; [done..|].
  intros [Htx Hk]; split; [done|]. intros r; apply IH, Hk.
Qed.

Lemma steps_in_ensure b e : steps_in R (ensure b e).
Proof. by destruct b. Qed.

Lemma steps_in_lift {A} (r : res A) : steps_in R (lift r).
Proof. by destruct r. Qed.

Lemma steps_in_range {A} (l : list A) body :
  (∀ x, steps_in R (body x)) → steps_in R (range l body).
Proof. intros H; induction l; simpl; [done|]. by apply steps_in_bind. Qed.

Lemma steps_in_void {A} (p : prog W A) : steps_in R p → steps_in R (void p).
Proof. intros; by apply steps_in_bind. Qed.

Lemma steps_in_exec `{!Reflexive R, !Transitive R} {A} (p : prog W A) w :
  steps_in R p → R w (exec p w).2.
Proof.
  revert w; induction p as [a|e|B tx k IH]; intros w; simpl; [done..|].
  intros [Htx Hk]. specialize (Htx w). destruct (tx w) as [r w']; simpl in *.
  etrans; [exact Htx|]. by apply IH.
Qed.
End guarantee.

#[export] Hint Resolve steps_in_bind steps_in_call steps_in_try steps_in_ensure
  steps_in_lift steps_in_range steps_in_void : prog.

Lemma steps_in_mono {W A} (R R' : W → W → Prop) (p : prog W A) :
  (∀ w w', R w w' → R' w w') → steps_in R p → steps_in R' p.
Proof.
  intros HR; induction p as [a|e|B tx k IH]; simpl; [done..|].
  intros [Htx Hk]; split; [eauto|]. intros r; eapply IH, Hk.
Qed.

(** ** Interleavings *)

(** One atomic step of a program, if it has one left. *)
Definition pstep {W A} (p : prog W A) (w : W) : option (prog W A * W) :=
  match p with
  | Atomic tx k => let '(r, w') := tx w in Some (k r, w')
  | _ => None
  end.

Section pool.
Context {W : Type}.
(** [env]: what the environment may do between steps (time passes, a
    transaction is doomed to fail).  [spawns]: the requests that may
    arrive. *)
Context (env : W → W → Prop) (spawns : prog W () → Prop).

Definition pool : Type := list (prog W ()).

Inductive pool_step : W * pool → W * pool → Prop :=
| step_thread i p p' w w' ps :
    ps !! i = Some p → pstep p w = Some (p', w') →
    pool_step (w, ps) (w', <[i := p']> ps)
| step_env w w' ps : env w w' → pool_step (w, ps) (w', ps)
| step_spawn p w ps : spawns p → pool_step (w, ps) (w, ps ++ [p]).

Definition pool_steps := rtc pool_step.

Lemma pstep_steps_in (R : W → W → Prop) (p p' : prog W ()) w w' :
  steps_in R p → pstep p w = Some (p', w') → R w w' ∧ steps_in R p'.
Proof.
  destruct p as [| |B tx k]; simpl; [done..|].
  intros [Htx Hk]. specialize (Htx w).
  destruct (tx w) as [r w1]; intros [= <- <-]. split; [done|apply Hk].
Qed.

(** The rely/guarantee argument: if every atomic step of every request,
    and the environment, stays within [R], so does any interleaving. *)
Lemma pool_steps_in (R : W → W → Prop) `{!Reflexive R, !Transitive R} c c' :
  (∀ w w', env w w' → R w w') →
  (∀ p, spawns p → steps_in R p) →
  Forall (steps_in R) c.2 →
  pool_steps c c' →
  R c.1 c'.1 ∧ Forall (steps_in R) c'.2.
Proof.
  intros Henv Hsp Hc Hsteps.
  induction Hsteps as [c|c1 c2 c3 Hstep _ IH]; [done|].
  assert (R c1.1 c2.1 ∧ Forall (steps_in R) c2.2) as [HR12 Hc2].
  { destruct Hstep as [i p p' w w' ps Hi Hp|w w' ps He|p w ps Hp]; simpl in *.
    - pose proof (Forall_lookup_1 _ _ _ _ Hc Hi) as Hpi.
      destruct (pstep_steps_in R p p' w w' Hpi Hp). split; [done|].
      by apply Forall_insert.
    - split; [by apply Henv|done].
    - split; [reflexivity|]. apply Forall_app; split; [done|].
      constructor; [by apply Hsp|constructor]. }
  destruct (IH Hc2) as [HR23 ?]. split; [by etrans|done].
Qed.

(** An executable scheduler: [sched sch c] runs the thread named by each
    entry of [sch] for one step. *)
Definition sched_step (c : W * pool) (i : nat) : W * pool :=
  match c.2 !! i with
  | Some p =>
      match pstep p c.1 with
      | Some (p', w') => (w', <[i := p']> c.2)
      | None => c
      end
  | None => c
  end.

Definition sched (sch : list nat) (c : W * pool) : W * pool :=
  foldl sched_step c sch.

Lemma sched_steps sch c : pool_steps c (sched sch c).
Proof.
  unfold sched. revert c; induction sch as [|i sch IH]; intros c; simpl; [done|].
  etrans; [|apply IH]. destruct c as [w ps]. unfold sched_step; simpl.
  destruct (ps !! i) as [p|] eqn:Hi; [|done].
  destruct (pstep p w) as [[p' w']|] eqn:Hp; [|done].
  apply rtc_once. by eapply step_thread.
Qed.
End pool.
