(* ===== verification/Rely.v ===== *)
(** * Rely/guarantee reasoning with owned identifiers

    [safe O K p Φ]: a thread that owns the fresh identifiers [O] and knows
    [K] about the world may run [p] among others.  Each of its atomic steps
    keeps the invariant and stays within its guarantee [G O], and what it
    knows after a step is stable under the steps of threads owning other
    identifiers.  [Φ] describes how it ends.  [pool_safe] lifts this to any
    interleaving of any number of threads. *)
From S2P Require Import Prelude Prog.

Section rely.
Context {W : Type}.
Context (Inv : W → Prop) (G : gset string → W → W → Prop) (drawn : W → string → Prop).

Definition stable (O : gset string) (K : W → Prop) : Prop :=
  ∀ O2 w w', O2 ## O → Inv w → Inv w' → G O2 w w' → K w → K w'.

(** A step may give up identifiers and acquire freshly drawn ones. *)
Definition own_step (O O' : gset string) (w w' : W) : Prop :=
  ∀ x, x ∈ O' → x ∈ O ∨ (¬ drawn w x ∧ drawn w' x).

Definition owned (O : gset string) (w : W) : Prop := ∀ x, x ∈ O → drawn w x.

Fixpoint safe {A} (O : gset string) (K : W → Prop) (p : prog W A)
    (Φ : res A → gset string → (W → Prop) → Prop) : Prop :=
  match p with
  | Ret a => Φ (Ok a) O K
  | Throw e => Φ (Err e) O K
  | Atomic tx k =>
      ∀ w, Inv w → K w → owned O w →
        Inv (tx w).2 ∧ G O w (tx w).2 ∧
        ∃ O' K', own_step O O' w (tx w).2 ∧ stable O' K' ∧ K' (tx w).2 ∧
          safe O' K' (k (tx w).1) Φ
  end.

(** The end of a thread about which nothing is claimed. *)
Definition any {A} : res A → gset string → (W → Prop) → Prop := λ _ _ _, True.

(** ** Rules *)

Lemma safe_bind {A B} O K (p : prog W A) (f : A → prog W B) Φ :
  safe O K p (λ r O' K', match r with
                         | Ok a => safe O' K' (f a) Φ
                         | Err e => Φ (Err e) O' K'
                         end) →
  safe O K (p ≫= f) Φ.
Proof.
  revert O K; induction p as [a|e|B' tx k IH]; intros O K; simpl; [done..|].
  intros H w Hi HK Ho. destruct (H w Hi HK Ho) as (?&?&O'&K'&?&?&?&Hs).
  split_and!; [done..|]. exists O', K'. split_and!; [done..|]. by apply IH.
Qed.

Lemma safe_try {A} O K (p : prog W A) Φ :
  safe O K p (λ r O' K', Φ (Ok r) O' K') → safe O K (try p) Φ.
Proof.
  revert O K; induction p as [a|e|B' tx k IH]; intros O K; simpl; [done..|].
  intros H w Hi HK Ho. destruct (H w Hi HK Ho) as (?&?&O'&K'&?&?&?&Hs).
  split_and!; [done..|]. exists O', K'. split_and!; [done..|]. by apply IH.
Qed.

Lemma safe_mono {A} O K (p : prog W A) (Φ Ψ : res A → gset string → (W → Prop) → Prop) :
  (∀ r O' K', Φ r O' K' → Ψ r O' K') → safe O K p Φ → safe O K p Ψ.
Proof.
  intros HΦ. revert O K; induction p as [a|e|B' tx k IH]; intros O K; simpl; [auto..|].
  intros H w Hi HK Ho. destruct (H w Hi HK Ho) as (?&?&O'&K'&?&?&?&Hs).
  split_and!; [done..|]. exists O', K'. split_and!; [done..|]. by apply IH.
Qed.

Lemma safe_call {A} O K (tx : W → res A * W) Φ :
  (∀ w, Inv w → K w → owned O w →
     Inv (tx w).2 ∧ G O w (tx w).2 ∧
     ∃ O' K', own_step O O' w (tx w).2 ∧ stable O' K' ∧ K' (tx w).2 ∧
       Φ (tx w).1 O' K') →
  safe O K (call tx) Φ.
Proof.
  intros H w Hi HK Ho. destruct (H w Hi HK Ho) as (?&?&O'&K'&?&?&?&Hs).
  split_and!; [done..|]. exists O', K'. split_and!; [done..|].
  by destruct (tx w).1.
Qed.

Lemma own_step_refl O w w' : own_step O O w w'.
Proof. intros x Hx; by left. Qed.

Lemma own_step_sub O O' w w' : O' ⊆ O → own_step O O' w w'.
Proof. intros Hs x Hx; left. by apply Hs. Qed.

(** What a step that everybody may take looks like: reads, and whatever
    touches neither the invariant nor the guarantees. *)
Definition silent (w w' : W) : Prop :=
  (Inv w → Inv w') ∧ ∀ O, G O w w'.

Lemma safe_silent {A} O K (p : prog W A) (Φ : res A → gset string → (W → Prop) → Prop) :
  stable O K → steps_in silent p → (∀ r, Φ r O K) → safe O K p Φ.
Proof.
  intros HK. induction p as [a|e|B tx k IH]; simpl; [auto..|].
  intros [Htx Hk] HΦ w Hi HKw Ho. destruct (Htx w) as (Hinv & HG).
  split_and!; [by apply Hinv|by apply HG|].
  exists O, K. split_and!; [apply own_step_refl|done| |by apply IH].
  apply (HK ∅ w); [set_solver|done|by apply Hinv|by apply HG|done].
Qed.

(** A thread may forget what it owns and knows. *)
Lemma safe_forget {A} O K (p : prog W A) :
  (∀ O' w w', G ∅ w w' → G O' w w') →
  safe ∅ (λ _, True) p any → safe O K p any.
Proof.
  intros Hmono. destruct p as [a|e|B tx k]; simpl; [done..|].
  intros Hp w Hi _ _. destruct (Hp w Hi I) as (Hi' & HG & O' & K' & Hos & Hst & HK' & Hs).
  { intros x Hx. set_solver. }
  split_and!; [done|by apply Hmono|]. exists O', K'. split_and!; [|done..].
  intros x Hx. destruct (Hos x Hx); [set_solver|by right].
Qed.

Lemma safe_seq {A B} O K (p : prog W A) (f : A → prog W B) :
  (∀ O' w w', G ∅ w w' → G O' w w') →
  safe O K p any → (∀ a, safe ∅ (λ _, True) (f a) any) → safe O K (p ≫= f) any.
Proof.
  intros Hmono Hp Hf. apply safe_bind. eapply safe_mono; [|exact Hp].
  intros [a|e] O' K' _; [|done]. by apply safe_forget.
Qed.

Lemma safe_try_any {A B} O K (p : prog W A) (f : res A → prog W B) :
  (∀ O' w w', G ∅ w w' → G O' w w') →
  safe O K p any → (∀ r, safe ∅ (λ _, True) (f r) any) → safe O K (try p ≫= f) any.
Proof.
  intros Hmono Hp Hf. apply safe_bind, safe_try. eapply safe_mono; [|exact Hp].
  intros r O' K' _. by apply safe_forget.
Qed.

Lemma safe_range {A} (l : list A) body :
  (∀ O' w w', G ∅ w w' → G O' w w') →
  (∀ x, safe ∅ (λ _, True) (body x) any) → safe ∅ (λ _, True) (range l body) any.
Proof.
  intros Hmono Hbody. induction l as [|x l IH]; simpl; [done|].
  by apply safe_seq.
Qed.

(** ** Interleavings *)

(** Identifiers stay drawn, whoever steps. *)
Context (drawn_mono : ∀ O w w' x, G O w w' → drawn w x → drawn w' x).

(** One thread of a pool in which every thread is safe. *)
Record thread_ok (w : W) (O : gset string) (p : prog W ()) : Prop := {
  tok_owned : owned O w;
  tok_safe : ∃ K, stable O K ∧ K w ∧ safe O K p any;
}.

Definition disjoint_owners (Os : list (gset string)) : Prop :=
  ∀ i j Oi Oj, i ≠ j → Os !! i = Some Oi → Os !! j = Some Oj → Oi ## Oj.

Record pool_ok (c : W * list (prog W ())) (Os : list (gset string)) : Prop := {
  pok_inv : Inv c.1;
  pok_disjoint : disjoint_owners Os;
  pok_threads : Forall2 (thread_ok c.1) Os c.2;
}.

Lemma thread_ok_step w w' O O2 p :
  O2 ## O → Inv w → Inv w' → G O2 w w' → thread_ok w O p → thread_ok w' O p.
Proof using drawn_mono.
  intros Hd Hi Hi' HG [Ho (K & Hst & HK & Hs)]. split.
  - intros x Hx. eapply drawn_mono; [done|]. by apply Ho.
  - exists K. split_and!; [done| |done]. by apply (Hst O2 w).
Qed.

Lemma pool_ok_thread c Os i p p' w' :
  pool_ok c Os → c.2 !! i = Some p → pstep p c.1 = Some (p', w') →
  ∃ O O', Os !! i = Some O ∧ G O c.1 w' ∧ own_step O O' c.1 w' ∧
    pool_ok (w', <[i := p']> c.2) (<[i := O']> Os).
Proof using drawn_mono.
  destruct c as [w ps]; intros [Hinv Hdisj Hth] Hi Hp; simpl in *.
  destruct (Forall2_lookup_r _ _ _ _ _ Hth Hi) as (O & HO & [Hown (K & Hst & HK & Hs)]).
  destruct p as [| |B tx k]; simpl in Hp; [done..|].
  destruct (Hs w Hinv HK Hown) as (Hinv' & HG & O' & K' & Hos & Hst' & HK' & Hs').
  destruct (tx w) as [r w1] eqn:Htx; simpl in *. simplify_eq.
  assert (Hother : ∀ j Oj, i ≠ j → Os !! j = Some Oj → O' ## Oj).
  { intros j Oj Hij HOj x Hx Hxj. destruct (Hos x Hx) as [HxO|[Hnd _]].
    - pose proof (Hdisj i j O Oj Hij HO HOj). set_solver.
    - apply Hnd. destruct (Forall2_lookup_l _ _ _ _ _ Hth HOj) as (pj & _ & [Hownj _]).
      by apply Hownj. }
  exists O, O'. split_and!; [done..|]. split; simpl; [done| |].
  - intros a b Oa Ob Hab Ha Hb.
    apply list_lookup_insert_Some in Ha as [(<- & <- & _)|[? Ha]];
      apply list_lookup_insert_Some in Hb as [(? & ? & _)|[? Hb]]; subst; try done.
    + by apply (Hother b).
    + symmetry. by apply (Hother a).
    + by apply (Hdisj a b).
  - apply Forall2_same_length_lookup. split.
    { rewrite !length_insert. by eapply Forall2_length. }
    intros j Oj pj HOj Hpj.
    apply list_lookup_insert_Some in HOj as [(<- & <- & _)|[Hij HOj]].
    + rewrite list_lookup_insert_eq in Hpj by (by eapply lookup_lt_Some). simplify_eq.
      split; [|by exists K'].
      intros x Hx. destruct (Hos x Hx) as [HxO|[_ ?]]; [|done].
      eapply drawn_mono; [done|]. by apply Hown.
    + rewrite list_lookup_insert_ne in Hpj by done.
      eapply (thread_ok_step w w' Oj O).
      * by apply (Hdisj i j).
      * done.
      * done.
      * done.
      * by eapply (Forall2_lookup_lr _ _ _ _ _ _ Hth).
Qed.

Lemma pool_ok_env w w' ps Os :
  Inv w' → G ∅ w w' → pool_ok (w, ps) Os → pool_ok (w', ps) Os.
Proof using drawn_mono.
  intros Hi' HG [Hi Hd Hth]; split; [done..|]. simpl in *.
  eapply Forall2_impl; [exact Hth|]. intros O p.
  apply (thread_ok_step w w' O ∅); [set_solver|done..].
Qed.

Lemma pool_ok_spawn w ps p Os :
  safe ∅ (λ _, True) p any → pool_ok (w, ps) Os → pool_ok (w, ps ++ [p]) (Os ++ [∅]).
Proof.
  intros Hs [Hi Hd Hth]; split; simpl in *; [done| |].
  - intros i j Oi Oj Hij Hi' Hj.
    apply lookup_snoc_Some in Hi' as [[? Hi']|[? <-]]; [|set_solver].
    apply lookup_snoc_Some in Hj as [[? Hj]|[? <-]]; [|set_solver].
    by apply (Hd i j).
  - apply Forall2_app; [done|]. constructor; [|constructor]. split; [intros x Hx; set_solver|].
    exists (λ _, True). by split_and!.
Qed.

(** Nobody in the pool owns an identifier of [O]. *)
Definition unowned (O : gset string) (Os : list (gset string)) : Prop :=
  Forall (λ Oi, Oi ## O) Os.

Lemma pool_ok_step (env : W → W → Prop) (spawns : prog W () → Prop) c c' O K Os :
  (∀ w w', Inv w → env w w' → Inv w' ∧ G ∅ w w') →
  (∀ p, spawns p → safe ∅ (λ _, True) p any) →
  stable O K → owned O c.1 → K c.1 → unowned O Os → pool_ok c Os →
  pool_step env spawns c c' →
  owned O c'.1 ∧ K c'.1 ∧ ∃ Os', unowned O Os' ∧ pool_ok c' Os'.
Proof using drawn_mono.
  intros Henv Hsp HK Hown Hw Hun Hok Hstep.
  destruct Hstep as [i p p' w w' ps Hi Hp|w w' ps He|p w ps Hp]; simpl in *.
  - destruct (pool_ok_thread (w, ps) Os i p p' w') as (Oi & O' & HOi & HG & Hos & Hok');
      [done..|]. simpl in *.
    pose proof (Forall_lookup_1 _ _ _ _ Hun HOi) as Hd. simpl in Hd.
    split_and!.
    + intros x Hx. eapply drawn_mono; [done|]. by apply Hown.
    + apply (HK Oi w); [done|by destruct Hok|by destruct Hok'|done|done].
    + exists (<[i := O']> Os). split; [|done]. apply Forall_insert; [done|].
      intros x Hx HxO. destruct (Hos x Hx) as [?|[Hnd _]]; [set_solver|].
      by apply Hnd, Hown.
  - destruct (Henv w w') as [Hi' HG]; [by destruct Hok|done|].
    split_and!.
    + intros x Hx. eapply drawn_mono; [done|]. by apply Hown.
    + apply (HK ∅ w); [set_solver|by destruct Hok|done..].
    + exists Os. split; [done|]. by eapply pool_ok_env.
  - split_and!; [done..|]. exists (Os ++ [∅]). split.
    + apply Forall_app; split; [done|]. repeat constructor. set_solver.
    + apply pool_ok_spawn; [by apply Hsp|done].
Qed.

(** Whatever safe requests arrive, and however their steps interleave with
    each other and with the environment's, the invariant holds, and so does
    every fact about identifiers that none of them owns. *)
Lemma pool_safe (env : W → W → Prop) (spawns : prog W () → Prop) c c' :
  (∀ w w', Inv w → env w w' → Inv w' ∧ G ∅ w w') →
  (∀ p, spawns p → safe ∅ (λ _, True) p any) →
  Inv c.1 → Forall (λ p, safe ∅ (λ _, True) p any) c.2 →
  pool_steps env spawns c c' →
  Inv c'.1 ∧ ∀ O K, stable O K → owned O c.1 → K c.1 → K c'.1.
Proof using drawn_mono.
  intros Henv Hsp Hinv Hall Hsteps.
  assert (pool_ok c ((λ _, ∅) <$> c.2)) as Hok.
  { split; [done| |].
    - intros i j Oi Oj _ Hi Hj.
      rewrite list_lookup_fmap in Hi. apply fmap_Some in Hi as (? & _ & ->). set_solver.
    - rewrite Forall2_fmap_l. apply Forall_Forall2_diag.
      eapply Forall_impl; [exact Hall|]. intros p Hp.
      split; [intros x Hx; set_solver|]. exists (λ _, True). by split_and!. }
  assert (∀ O, unowned O ((λ _, ∅) <$> c.2)) as Hun.
  { intros O. apply Forall_fmap, Forall_true. intros p. simpl. set_solver. }
  revert Hok Hun. generalize ((λ _ : prog W (), ∅ : gset string) <$> c.2). intros Os Hok Hun.
  assert (∀ O K, stable O K → owned O c.1 → K c.1 → unowned O Os →
    K c'.1 ∧ Inv c'.1) as Hend.
  { clear Hinv Hall Hun. intros O K HK. revert Os Hok.
    induction Hsteps as [c|c1 c2 c3 Hstep _ IH]; intros Os Hok Hown Hw Hun;
      [by destruct Hok|].
    destruct (pool_ok_step env spawns c1 c2 O K Os) as (? & ? & Os' & ? & ?); [done..|].
    by eapply IH. }
  split.
  - apply (Hend ∅ (λ _, True)); [done|intros x Hx; set_solver|done|by apply Hun].
  - intros O K HK Hown Hw. by apply (Hend O K).
Qed.
End rely.
