(* ===== verification/Json.v ===== *)
(** * JSON values and how Go decodes them (encoding/json)

    The grammar of the text is the decoder's business: [json_decode] is the
    first value of a stream of bytes, as [json.NewDecoder(r).Decode] reads it.
    What the code relies on is modelled: which members fill the fields of a
    struct, what [null] and a missing member leave, what does not fit. *)
From Stdlib Require Import Ascii.
From S2P Require Import Prelude.

(** [JInt] is a literal without fraction and exponent, [JNumber] any other. *)
Inductive json :=
| JNull
| JBool (b : bool)
| JInt (n : Z)
| JNumber (literal : string)
| JString (s : string)
| JArray (l : list json)
| JObject (members : list (string * json)).

(** What [Decode] finds: [io.EOF], no JSON, or a value. *)
Inductive decoded :=
| EndOfInput
| Malformed (text : string)
| Decoded (v : json).

(** [json_unmarshal]: the one value a text is, as [json.Unmarshal] has it;
    [json_misfit type v]: the text of the error of a value that does not fit
    a type; [json_marshal]: the bytes of a value; [format_time]: a time in the
    layout ["2006-01-02T15:04:05Z07:00"]; [parse_time]: the inverse, of what
    [UnmarshalJSON] of a time accepts. *)
Class JSON := {
  json_decode : string → decoded;
  json_unmarshal : string → option json;
  json_marshal : json → string;
  json_misfit : string → json → string;
  format_time : Z → string;
  parse_time : string → option Z;
}.

(** ** Keys

    A member fills the field whose name is its key up to simple case folding:
    the long s and the Kelvin sign fold to ASCII letters. *)
Definition fold_char (c : ascii) : ascii :=
  if (65 <=? nat_of_ascii c)%nat && (nat_of_ascii c <=? 90)%nat
  then ascii_of_nat (nat_of_ascii c + 32) else c.

Fixpoint fold_key (s : string) : string :=
  match s with
  | EmptyString => EmptyString
  | String "197" (String "191" s) => String "s" (fold_key s)
  | String "226" (String "132" (String "170" s)) => String "k" (fold_key s)
  | String c s => String (fold_char c) (fold_key s)
  end.

(** ** Decoders

    A decoder overwrites a value with what a JSON value says, and fails when
    the type does not fit. *)
Definition decoder (A : Type) : Type := json → A → option A.

Definition dec_string : decoder string := λ v a,
  match v with JNull => Some a | JString s => Some s | _ => None end.
Definition dec_bool : decoder bool := λ v a,
  match v with JNull => Some a | JBool b => Some b | _ => None end.
(** [int] is 64 bits wide. *)
Definition dec_int : decoder Z := λ v a,
  match v with
  | JNull => Some a
  | JInt n => if bool_decide (- 2 ^ 63 ≤ n < 2 ^ 63)%Z then Some n else None
  | _ => None
  end.
(** A pointer: [null] makes it nil. *)
Definition dec_ptr {A} (zero : A) (d : decoder A) : decoder (option A) := λ v a,
  match v with JNull => Some None | _ => Some <$> d v (default zero a) end.
Definition dec_slice {A} (zero : A) (d : decoder A) : decoder (list A) := λ v a,
  match v with
  | JNull => Some []
  | JArray l => mapM (λ v, d v zero) l
  | _ => None
  end.
(** [time.Time] *)
Definition dec_time `{!JSON} : decoder Z := λ v a,
  match v with JNull => Some a | JString s => parse_time s | _ => None end.

(** One field of a struct: every member with its name, in their order. *)
Definition member {A} (members : list (string * json)) (name : string) (d : decoder A)
    (zero : A) : option A :=
  foldl (λ acc kv, if fold_key kv.1 =ₛ fold_key name then acc ≫= d kv.2 else acc)
    (Some zero) members.

(** A struct, by what its fields are filled with; [null] changes nothing. *)
Definition dec_struct {A} (fill : A → list (string * json) → option A) : decoder A := λ v a,
  match v with JNull => Some a | JObject members => fill a members | _ => None end.

(** ** Encoding *)

(** [*string] and [[]string]; a nil slice is [null]. *)
Definition j_pointer {A} (f : A → json) (a : option A) : json :=
  match a with Some a => f a | None => JNull end.
Definition j_strings (l : list string) : json := JArray (map JString l).
Definition j_time `{!JSON} (t : Z) : json := JString (format_time t).

(** [omitempty] *)
Definition omit_nil {A} (name : string) (f : A → json) (a : option A) : list (string * json) :=
  match a with Some a => [(name, f a)] | None => [] end.
Definition omit_empty (name s : string) : list (string * json) :=
  if s =ₛ "" then [] else [(name, JString s)].

(** [map[string]any{"data": l}] *)
Definition j_data (l : list json) : json := JObject [("data", JArray l)].

(** ** Laws of decoding *)

Lemma member_nil {A} name (d : decoder A) zero : member [] name d zero = Some zero.
Proof. done. Qed.

Lemma member_missing {A} members name (d : decoder A) zero :
  Forall (λ kv, fold_key kv.1 ≠ fold_key name) members →
  member members name d zero = Some zero.
Proof.
  unfold member. induction 1 as [|kv members Hkv _ IH]; simpl; [done|].
  by case_bool_decide.
Qed.

Lemma foldl_none {A B} (f : A → B → option A) (g : B → bool) l :
  foldl (λ acc b, if g b then acc ≫= λ a, f a b else acc) None l = None.
Proof. induction l as [|b l IH]; simpl; [done|]. by destruct (g b). Qed.

Lemma member_app {A} l1 l2 name (d : decoder A) zero :
  member (l1 ++ l2) name d zero = a ← member l1 name d zero; member l2 name d a.
Proof.
  unfold member. rewrite foldl_app.
  destruct (foldl _ (Some zero) l1) as [a|]; [done|].
  apply (foldl_none (λ a kv, d kv.2 a) (λ kv, fold_key kv.1 =ₛ fold_key name)).
Qed.

Lemma member_one {A} key v name (d : decoder A) zero :
  fold_key key = fold_key name → member [(key, v)] name d zero = d v zero.
Proof. unfold member. simpl. by case_bool_decide. Qed.

(** A field whose name no other member has is read back as it was written. *)
Lemma member_here {A} l1 l2 key v name (d : decoder A) zero :
  fold_key key = fold_key name →
  Forall (λ kv, fold_key kv.1 ≠ fold_key name) (l1 ++ l2) →
  member (l1 ++ (key, v) :: l2) name d zero = d v zero.
Proof.
  intros Hk [H1 H2]%Forall_app. rewrite member_app, member_missing by done. simpl.
  rewrite (member_app [(key, v)] l2), member_one by done.
  destruct (d v zero) as [a|]; simpl; [by apply member_missing|done].
Qed.
