(* ===== verification/RunDomain.v ===== *)
(** * Execution domain: the Run aggregate (internal/execution/domain/run.go) *)
From S2P Require Import Prelude.

(** [RunStatus], the closed set of statuses. *)
Inductive RunStatus :=
| RunStatusQueued | RunStatusPlanning | RunStatusPlanned | RunStatusPolicyCheck
| RunStatusAwaitingApproval | RunStatusApplying | RunStatusApplied
| RunStatusFailed | RunStatusErrored | RunStatusCanceled.

#[export] Instance RunStatus_eq_dec : EqDecision RunStatus.
Proof. solve_decision. Defined.

Definition IsTerminal (s : RunStatus) : bool :=
  match s with
  | RunStatusApplied | RunStatusFailed | RunStatusErrored | RunStatusCanceled => true
  | _ => false
  end.

Inductive RunTrigger :=
| RunTriggerManual | RunTriggerVCSPush | RunTriggerVCSPR | RunTriggerScheduled
| RunTriggerAPI.

#[export] Instance RunTrigger_eq_dec : EqDecision RunTrigger.
Proof. solve_decision. Defined.

Record StaleRunCandidate := {
  cand_OrganizationID : string;
  cand_RunID : string;
  cand_WorkspaceID : string;
}.

(** Times are instants in nanoseconds. *)
Record Run := mkRun {
  run_ID : string;
  run_OrganizationID : string;
  run_WorkspaceID : string;
  run_Trigger : RunTrigger;
  run_TriggeredBy : string;
  run_Status : RunStatus;
  run_PlanOutputRef : option string;
  run_ApplyOutputRef : option string;
  run_CreatedAt : Z;
  run_StartedAt : option Z;
  run_FinishedAt : option Z;
}.

#[export] Instance Run_eq_dec : EqDecision Run.
Proof. solve_decision. Defined.

(** The assignment [r.Status = s; r.FinishedAt = f] of the transitions. *)
Definition set_status (s : RunStatus) (f : option Z) (r : Run) : Run :=
  mkRun (run_ID r) (run_OrganizationID r) (run_WorkspaceID r) (run_Trigger r)
    (run_TriggeredBy r) s (run_PlanOutputRef r) (run_ApplyOutputRef r)
    (run_CreatedAt r) (run_StartedAt r) f.

(** [r.StartedAt = t] *)
Definition set_started (t : option Z) (r : Run) : Run :=
  mkRun (run_ID r) (run_OrganizationID r) (run_WorkspaceID r) (run_Trigger r)
    (run_TriggeredBy r) (run_Status r) (run_PlanOutputRef r) (run_ApplyOutputRef r)
    (run_CreatedAt r) t (run_FinishedAt r).

(** [r.ApplyOutputRef = o] *)
Definition set_output (o : option string) (r : Run) : Run :=
  mkRun (run_ID r) (run_OrganizationID r) (run_WorkspaceID r) (run_Trigger r)
    (run_TriggeredBy r) (run_Status r) (run_PlanOutputRef r) o
    (run_CreatedAt r) (run_StartedAt r) (run_FinishedAt r).

(** [NewRun]; [id] and [now] are what [uuid.NewString] and [time.Now] give. *)
Definition NewRun (id : string) (now : Z)
    (organizationID workspaceID triggeredByUserID : string) : res Run :=
  if (organizationID =ₛ "") || (workspaceID =ₛ "") then
    Err (ValidationError Execution "organization_id and workspace_id are required")
  else if triggeredByUserID =ₛ "" then
    Err (ValidationError Execution "triggered_by is required")
  else Ok (mkRun id organizationID workspaceID RunTriggerManual triggeredByUserID
             RunStatusQueued None None now None None).

Definition Cancel (now : Z) (r : Run) : res Run :=
  if IsTerminal (run_Status r) then Err ErrRunAlreadyTerminal
  else Ok (set_status RunStatusCanceled (Some now) r).

Definition MarkApplied (now : Z) (r : Run) : res Run :=
  if bool_decide (run_Status r ≠ RunStatusApplying) then Err ErrInvalidTransition
  else Ok (set_status RunStatusApplied (Some now) r).

Definition MarkFailed (now : Z) (r : Run) : res Run :=
  if bool_decide (run_Status r ≠ RunStatusApplying) then Err ErrInvalidTransition
  else Ok (set_status RunStatusFailed (Some now) r).

(** ** The aggregate's state machine *)

(** The transitions the aggregate's own methods offer. *)
Inductive run_step (now : Z) : Run → Run → Prop :=
| step_cancel r r' : Cancel now r = Ok r' → run_step now r r'
| step_applied r r' : MarkApplied now r = Ok r' → run_step now r r'
| step_failed r r' : MarkFailed now r = Ok r' → run_step now r r'.

(** A finish time is recorded exactly by the terminal transitions. *)
Definition run_wf (r : Run) : Prop :=
  is_Some (run_FinishedAt r) ↔ IsTerminal (run_Status r) = true.

Section machine.
Implicit Types (r : Run) (now : Z).

Lemma NewRun_ok id now o ws u r :
  NewRun id now o ws u = Ok r ↔
  o ≠ "" ∧ ws ≠ "" ∧ u ≠ "" ∧
  r = mkRun id o ws RunTriggerManual u RunStatusQueued None None now None None.
Proof.
  unfold NewRun. repeat case_bool_decide; simpl; naive_solver.
Qed.

Lemma NewRun_wf id now o ws u r : NewRun id now o ws u = Ok r → run_wf r.
Proof.
  intros (_ & _ & _ & ->)%NewRun_ok. split; simpl; [by intros [? ?]|done].
Qed.

Lemma Cancel_ok now r r' :
  Cancel now r = Ok r' ↔
  IsTerminal (run_Status r) = false ∧ r' = set_status RunStatusCanceled (Some now) r.
Proof. unfold Cancel. destruct (IsTerminal _); naive_solver. Qed.

Lemma MarkApplied_ok now r r' :
  MarkApplied now r = Ok r' ↔
  run_Status r = RunStatusApplying ∧ r' = set_status RunStatusApplied (Some now) r.
Proof. unfold MarkApplied. case_bool_decide; naive_solver. Qed.

Lemma MarkFailed_ok now r r' :
  MarkFailed now r = Ok r' ↔
  run_Status r = RunStatusApplying ∧ r' = set_status RunStatusFailed (Some now) r.
Proof. unfold MarkFailed. case_bool_decide; naive_solver. Qed.

Lemma run_step_inv now r r' :
  run_step now r r' →
  IsTerminal (run_Status r) = false ∧
  ∃ s, IsTerminal s = true ∧ r' = set_status s (Some now) r.
Proof.
  destruct 1 as [r r' H|r r' H|r r' H].
  - apply Cancel_ok in H as [? ->]. split; [done|]. by exists RunStatusCanceled.
  - apply MarkApplied_ok in H as [Hs ->]. rewrite Hs. split; [done|]. by exists RunStatusApplied.
  - apply MarkFailed_ok in H as [Hs ->]. rewrite Hs. split; [done|]. by exists RunStatusFailed.
Qed.

(** The whole life of an aggregate: its status changes at most once, to a
    terminal one, whatever methods are called in whatever order. *)
Lemma run_life (step := λ r r', ∃ now, run_step now r r') r r' :
  rtc step r r' → r' = r ∨
    (IsTerminal (run_Status r) = false ∧
     ∃ s now, IsTerminal s = true ∧ r' = set_status s (Some now) r).
Proof.
  induction 1 as [r|r1 r2 r3 [now Hs] Hrest IH]; [by left|].
  apply run_step_inv in Hs as (Hnt & s & Hs & ->).
  destruct IH as [->|[Ht _]].
  - right; eauto.
  - simpl in Ht. congruence.
Qed.
End machine.
