(* ===== verification/WorkspaceDomain.v ===== *)
(** * Workspace domain (internal/workspace/domain): Environments, Workspaces *)
From S2P Require Import Prelude.
From Stdlib Require Import Ascii.

Definition is_lower (c : ascii) : bool :=
  bool_decide (97 ≤ nat_of_ascii c ≤ 122).
Definition is_upper (c : ascii) : bool :=
  bool_decide (65 ≤ nat_of_ascii c ≤ 90).
Definition is_digit (c : ascii) : bool :=
  bool_decide (48 ≤ nat_of_ascii c ≤ 57).
Definition is_alnum (c : ascii) : bool := is_lower c || is_upper c || is_digit c.

(** [`[a-zA-Z0-9_-]`] *)
Definition is_name_char (c : ascii) : bool :=
  is_alnum c || bool_decide (c = "_"%char) || bool_decide (c = "-"%char).

(** [namePattern = ^[a-zA-Z0-9][a-zA-Z0-9_-]*$] *)
Definition namePattern (s : string) : bool :=
  match s with
  | EmptyString => false
  | String c s => is_alnum c && forallb is_name_char (String.list_ascii_of_string s)
  end.

Record Environment := mkEnvironment {
  env_ID : string;
  env_OrganizationID : string;
  env_ProjectID : string;
  env_Name : string;
  env_PromotionRank : Z;
  env_RequiresApproval : bool;
  env_CreatedAt : Z;
}.

Definition NewEnvironment (id : string) (now : Z)
    (organizationID projectID name : string) (promotionRank : Z)
    (requiresApproval : bool) : res Environment :=
  if (organizationID =ₛ "") || (projectID =ₛ "") then
    Err (ValidationError Workspaces "organization_id and project_id are required")
  else if negb (namePattern name) then
    Err (ValidationError Workspaces
      ("name " +:+ name +:+ " must start with a letter/digit and contain only letters, digits, - or _"))
  else Ok (mkEnvironment id organizationID projectID name promotionRank
             requiresApproval now).

(** [ExecutionEngine] is a Go string type; these are its constants. *)
Definition ExecutionEngineTerraform := "terraform".
Definition ExecutionEngineOpenTofu := "opentofu".
Definition ExecutionEngineAnsible := "ansible".
Definition ExecutionEngineHelm := "helm".
Definition ExecutionEngineCompose := "compose".
Definition ExecutionEnginePacker := "packer".
Definition ExecutionEngineKubespray := "kubespray".
Definition ExecutionEngineK8s := "kubernetes".

(** [ExecutionEngine.valid]: compose is retired for new workspaces. *)
Definition engine_valid (e : string) : bool :=
  e ∈ₛ [ExecutionEngineTerraform; ExecutionEngineOpenTofu; ExecutionEngineAnsible;
        ExecutionEngineHelm; ExecutionEnginePacker; ExecutionEngineKubespray;
        ExecutionEngineK8s].

Record Workspace := mkWorkspace {
  ws_ID : string;
  ws_OrganizationID : string;
  ws_ProjectID : string;
  ws_EnvironmentID : option string;
  ws_Name : string;
  ws_ExecutionEngine : string;
  ws_VCSLinkID : option string;
  ws_CurrentStateVersionID : option string;
  ws_Locked : bool;
  ws_LockedByRunID : option string;
  ws_CreatedAt : Z;
}.

#[export] Instance Workspace_eq_dec : EqDecision Workspace.
Proof. solve_decision. Defined.

Definition NewWorkspace (id : string) (now : Z) (organizationID projectID : string)
    (environmentID : option string) (name engine : string) : res Workspace :=
  if (organizationID =ₛ "") || (projectID =ₛ "") then
    Err (ValidationError Workspaces "organization_id and project_id are required")
  else if negb (namePattern name) then
    Err (ValidationError Workspaces
      "name must start with a letter/digit and contain only letters, digits, - or _")
  else if negb (engine_valid engine) then
    Err (ValidationError Workspaces
      "execution_engine must be one of terraform, opentofu, ansible, helm, packer, kubespray, kubernetes - compose is no longer available here, link a Compose file to this project instead")
  else Ok (mkWorkspace id organizationID projectID environmentID name engine
             None None false None now).

(** The two assignments of the lock columns. *)
Definition set_lock (locked : bool) (by_run : option string) (w : Workspace) : Workspace :=
  mkWorkspace (ws_ID w) (ws_OrganizationID w) (ws_ProjectID w) (ws_EnvironmentID w)
    (ws_Name w) (ws_ExecutionEngine w) (ws_VCSLinkID w) (ws_CurrentStateVersionID w)
    locked by_run (ws_CreatedAt w).

(** [lock_status {unlocked | locked(run_id)}]: the two columns agree. *)
Definition lock_wf (w : Workspace) : Prop :=
  ws_Locked w = true ↔ is_Some (ws_LockedByRunID w).

Lemma NewWorkspace_ok id now o p env name engine w :
  NewWorkspace id now o p env name engine = Ok w ↔
  o ≠ "" ∧ p ≠ "" ∧ namePattern name = true ∧ engine_valid engine = true ∧
  w = mkWorkspace id o p env name engine None None false None now.
Proof.
  unfold NewWorkspace. repeat case_bool_decide; simpl; [naive_solver..|].
  destruct (namePattern name), (engine_valid engine); naive_solver.
Qed.

Lemma NewWorkspace_lock_wf id now o p env name engine w :
  NewWorkspace id now o p env name engine = Ok w → lock_wf w.
Proof.
  intros (_ & _ & _ & _ & ->)%NewWorkspace_ok. split; simpl; [done|by intros [? ?]].
Qed.

(** The retired engine is refused for a new workspace, every other one of
    the closed set is accepted. *)
Lemma engine_valid_spec e :
  engine_valid e = true ↔
  e ≠ ExecutionEngineCompose ∧
  e ∈ [ExecutionEngineTerraform; ExecutionEngineOpenTofu; ExecutionEngineAnsible;
       ExecutionEngineHelm; ExecutionEngineCompose; ExecutionEnginePacker;
       ExecutionEngineKubespray; ExecutionEngineK8s].
Proof.
  unfold engine_valid. rewrite bool_decide_eq_true.
  split.
  - intros H. split; [|set_solver].
    intros ->. revert H. apply (bool_decide_unpack _). by vm_compute.
  - intros [Hne H]. set_solver.
Qed.
