(* ===== verification/RbacDomain.v ===== *)
(** * RBAC domain (internal/rbac/domain): permissions, roles, bindings *)
From S2P Require Import Prelude.

(** [Permission] is a Go string type; these are its constants. *)
Definition PermissionOrganizationRead := "organization:read".
Definition PermissionOrganizationManage := "organization:manage".
Definition PermissionWorkspaceRead := "workspace:read".
Definition PermissionWorkspaceManage := "workspace:manage".
Definition PermissionWorkspaceApply := "workspace:apply".
Definition PermissionWorkspaceDelete := "workspace:delete".
Definition PermissionOrganizationDelete := "organization:delete".
Definition PermissionProjectRead := "project:read".
Definition PermissionProjectManage := "project:manage".
Definition PermissionProjectDelete := "project:delete".
Definition PermissionMachineRead := "machine:read".
Definition PermissionMachineManage := "machine:manage".
Definition PermissionMachineDelete := "machine:delete".
Definition PermissionNetworkVolumeRead := "network_volume:read".
Definition PermissionNetworkVolumeManage := "network_volume:manage".
Definition PermissionNetworkVolumeDelete := "network_volume:delete".
Definition PermissionComposeFileRead := "compose_file:read".
Definition PermissionComposeFileManage := "compose_file:manage".
Definition PermissionComposeFileDelete := "compose_file:delete".
Definition PermissionOperationRead := "operation:read".
Definition PermissionOperationDeploy := "operation:deploy".

(** The keys of the [AllPermissions] map (every value is [true]). *)
Definition AllPermissions : list string := [
  PermissionOrganizationRead; PermissionOrganizationManage; PermissionOrganizationDelete;
  PermissionProjectRead; PermissionProjectManage; PermissionProjectDelete;
  PermissionWorkspaceRead; PermissionWorkspaceManage; PermissionWorkspaceApply;
  PermissionWorkspaceDelete;
  PermissionMachineRead; PermissionMachineManage; PermissionMachineDelete;
  PermissionNetworkVolumeRead; PermissionNetworkVolumeManage; PermissionNetworkVolumeDelete;
  PermissionComposeFileRead; PermissionComposeFileManage; PermissionComposeFileDelete;
  PermissionOperationRead; PermissionOperationDeploy].

Definition RoleOwner := "owner".
Definition RoleAdmin := "admin".
Definition RoleWrite := "write".
Definition RoleRead := "read".

(** [BuiltinRoles], as the pairs of the map. *)
Definition BuiltinRoles : list (string * list string) := [
  (RoleOwner, [
    PermissionOrganizationRead; PermissionOrganizationManage; PermissionOrganizationDelete;
    PermissionProjectRead; PermissionProjectManage; PermissionProjectDelete;
    PermissionWorkspaceRead; PermissionWorkspaceManage; PermissionWorkspaceApply;
    PermissionWorkspaceDelete;
    PermissionMachineRead; PermissionMachineManage; PermissionMachineDelete;
    PermissionNetworkVolumeRead; PermissionNetworkVolumeManage; PermissionNetworkVolumeDelete;
    PermissionComposeFileRead; PermissionComposeFileManage; PermissionComposeFileDelete;
    PermissionOperationRead; PermissionOperationDeploy]);
  (RoleAdmin, [
    PermissionOrganizationRead; PermissionOrganizationManage;
    PermissionProjectRead; PermissionProjectManage;
    PermissionWorkspaceRead; PermissionWorkspaceManage; PermissionWorkspaceApply;
    PermissionMachineRead; PermissionMachineManage;
    PermissionNetworkVolumeRead; PermissionNetworkVolumeManage;
    PermissionComposeFileRead; PermissionComposeFileManage;
    PermissionOperationRead; PermissionOperationDeploy]);
  (RoleWrite, [
    PermissionOrganizationRead;
    PermissionProjectRead;
    PermissionWorkspaceRead; PermissionWorkspaceManage; PermissionWorkspaceApply;
    PermissionMachineRead; PermissionMachineManage;
    PermissionNetworkVolumeRead; PermissionNetworkVolumeManage;
    PermissionComposeFileRead; PermissionComposeFileManage;
    PermissionOperationRead; PermissionOperationDeploy]);
  (RoleRead, [
    PermissionOrganizationRead;
    PermissionProjectRead;
    PermissionWorkspaceRead;
    PermissionMachineRead;
    PermissionNetworkVolumeRead;
    PermissionComposeFileRead;
    PermissionOperationRead])].

Record Role := mkRole {
  role_ID : string;
  role_OrganizationID : option string;
  role_Name : string;
  role_Permissions : list string;
}.

Definition NewRole (id organizationID name : string) (permissions : list string) : res Role :=
  if organizationID =ₛ "" then Err (ValidationError Rbac "organization_id is required")
  else if name =ₛ "" then Err (ValidationError Rbac "name is required")
  else if bool_decide (length permissions = 0) then
    Err (ValidationError Rbac "permissions must not be empty")
  else Ok (mkRole id (Some organizationID) name permissions).

Definition SubjectTypeUser := "user".
Definition SubjectTypeTeam := "team".
Definition SubjectTypeServiceAccount := "service_account".
Definition ScopeTypeOrganization := "organization".
Definition ScopeTypeProject := "project".
Definition ScopeTypeWorkspace := "workspace".
Definition EffectAllow := "allow".
Definition EffectDeny := "deny".

Definition ValidSubjectTypes := [SubjectTypeUser; SubjectTypeTeam; SubjectTypeServiceAccount].
Definition ValidScopeTypes := [ScopeTypeOrganization; ScopeTypeProject; ScopeTypeWorkspace].
Definition ValidEffects := [EffectAllow; EffectDeny].

Record RoleBinding := mkRoleBinding {
  rb_ID : string;
  rb_OrganizationID : string;
  rb_RoleID : string;
  rb_SubjectType : string;
  rb_SubjectID : string;
  rb_ScopeType : string;
  rb_ScopeID : string;
  rb_Effect : string;
  rb_CreatedAt : Z;
}.

#[export] Instance RoleBinding_eq_dec : EqDecision RoleBinding.
Proof. solve_decision. Defined.

Definition NewRoleBinding (id : string) (now : Z)
    (organizationID roleID subjectType subjectID scopeType scopeID effect : string)
    : RoleBinding :=
  mkRoleBinding id organizationID roleID subjectType subjectID scopeType scopeID
    effect now.

Definition NewOrganizationScopeBinding (id : string) (now : Z)
    (organizationID roleID userID : string) : RoleBinding :=
  mkRoleBinding id organizationID roleID SubjectTypeUser userID
    ScopeTypeOrganization organizationID EffectAllow now.

(** The permissions of a built-in role, by name. *)
Definition builtin_permissions (name : string) : list string :=
  default [] (snd <$> head (filter (λ r, r.1 = name) BuiltinRoles)).

Lemma NewRole_ok id o name ps r :
  NewRole id o name ps = Ok r ↔
  o ≠ "" ∧ name ≠ "" ∧ ps ≠ [] ∧ r = mkRole id (Some o) name ps.
Proof.
  unfold NewRole. repeat case_bool_decide; try naive_solver;
    destruct ps; naive_solver.
Qed.
