(* ===== verification/VariableDomain.v ===== *)
(** * Variables domain (internal/variables/domain/variable.go) *)
From S2P Require Import Prelude WorkspaceDomain.
From Stdlib Require Import Ascii.

Definition VScopeOrganization := "organization".
Definition VScopeProject := "project".
Definition VScopeEnvironment := "environment".
Definition VScopeWorkspace := "workspace".

(** [ScopeCascadeOrder]: narrowest scope first. *)
Definition ScopeCascadeOrder :=
  [VScopeWorkspace; VScopeEnvironment; VScopeProject; VScopeOrganization].

Definition scope_valid (s : string) : bool :=
  s ∈ₛ [VScopeOrganization; VScopeProject; VScopeEnvironment; VScopeWorkspace].
Definition category_valid (c : string) : bool :=
  c ∈ₛ ["env_var"; "engine_var"; "file_template"].
Definition sensitivity_valid (s : string) : bool := (s =ₛ "plain") || (s =ₛ "sensitive").

(** [keyPattern = ^[A-Za-z_][A-Za-z0-9_]*$] *)
Definition key_head (c : ascii) : bool :=
  is_upper c || is_lower c || bool_decide (c = "_"%char).
Definition keyPattern (s : string) : bool :=
  match s with
  | EmptyString => false
  | String c s =>
      key_head c && forallb (λ c, key_head c || is_digit c) (String.list_ascii_of_string s)
  end.

Record SecretReference := mkSecretReference {
  sr_MountID : string;
  sr_Path : string;
}.

(** [Variable] (the name is taken by the vernacular). *)
Record VariableT := mkVariable {
  var_ID : string;
  var_OrganizationID : string;
  var_ScopeType : string;
  var_ScopeID : string;
  var_Key : string;
  var_Category : string;
  var_Sensitivity : string;
  var_Value : string;
  var_SecretRef : option SecretReference;
  var_CreatedAt : Z;
}.

Definition validateVariableFields
    (organizationID scopeType scopeID key category sensitivity : string) : res () :=
  if (organizationID =ₛ "") || (scopeID =ₛ "") then
    Err (ValidationError Variables "organization_id and scope_id are required")
  else if negb (scope_valid scopeType) then
    Err (ValidationError Variables ("invalid scope_type: " +:+ scopeType))
  else if negb (keyPattern key) then
    Err (ValidationError Variables "key must match ^[A-Za-z_][A-Za-z0-9_]*$")
  else if negb (category_valid category) then
    Err (ValidationError Variables ("invalid category: " +:+ category))
  else if negb (sensitivity_valid sensitivity) then
    Err (ValidationError Variables ("invalid sensitivity: " +:+ sensitivity))
  else Ok ().

Definition NewVariable (id : string) (now : Z)
    (organizationID scopeType scopeID key category sensitivity value : string)
    : res VariableT :=
  validateVariableFields organizationID scopeType scopeID key category sensitivity;;
  Ok (mkVariable id organizationID scopeType scopeID key category sensitivity value
        None now).

Definition NewVariableWithSecretRef (id : string) (now : Z)
    (organizationID scopeType scopeID key category sensitivity mountID path : string)
    : res VariableT :=
  validateVariableFields organizationID scopeType scopeID key category sensitivity;;
  if (mountID =ₛ "") || (path =ₛ "") then
    Err (ValidationError Variables "secret_mount_id and secret_path are required")
  else
    Ok (mkVariable id organizationID scopeType scopeID key category sensitivity ""
          (Some (mkSecretReference mountID path)) now).

(** Value XOR SecretRef, as the aggregate promises it: a secret-backed
    variable carries no value of its own. *)
Definition value_xor_secret (v : VariableT) : Prop :=
  match var_SecretRef v with
  | Some sr => var_Value v = "" ∧ sr_MountID sr ≠ "" ∧ sr_Path sr ≠ ""
  | None => True
  end.

Lemma NewVariable_xor id now o st sid k c s v x :
  NewVariable id now o st sid k c s v = Ok x → value_xor_secret x.
Proof.
  unfold NewVariable, mbind, res_bind. intros H.
  destruct (validateVariableFields o st sid k c s); simplify_eq. done.
Qed.

Lemma NewVariableWithSecretRef_xor id now o st sid k c s m p x :
  NewVariableWithSecretRef id now o st sid k c s m p = Ok x → value_xor_secret x.
Proof.
  unfold NewVariableWithSecretRef, mbind, res_bind. intros H.
  destruct (validateVariableFields o st sid k c s); simplify_eq.
  repeat case_bool_decide; simplify_eq/=. done.
Qed.
