(* ===== verification/TenancyDomain.v ===== *)
(** * Tenancy domain (internal/tenancy/domain), and the rows of the outbox,
    the audit log and the idempotency keys *)
From Stdlib Require Import Ascii.
From S2P Require Import Prelude WorkspaceDomain.

(** [slugPattern = ^[a-z0-9]+(-[a-z0-9]+)*$]: words of lower-case letters and
    digits joined by single hyphens.  [inside] says that the current word has
    a character already. *)
Definition is_slug_char (c : ascii) : bool := is_lower c || is_digit c.

Fixpoint slug_from (inside : bool) (s : string) : bool :=
  match s with
  | EmptyString => inside
  | String c s =>
      if is_slug_char c then slug_from true s
      else bool_decide (c = "-"%char) && inside && slug_from false s
  end.
Definition slugPattern (s : string) : bool := slug_from false s.

Definition OrganizationStatusActive := "active".
Definition OrganizationStatusArchived := "archived".

(** [Settings] and [Quota] are left out: [NewOrganization] makes them empty
    and nothing changes them. *)
Record Organization := mkOrganization {
  org_ID : string;
  org_Name : string;
  org_Slug : string;
  org_Status : string;
  org_ArchivedAt : option Z;
  org_CreatedAt : Z;
}.

Definition bad_slug (slug : string) : error :=
  ValidationError Tenancy ("slug " +:+ slug +:+ " must be lowercase alphanumeric with hyphens").

Definition NewOrganization (id : string) (now : Z) (name slug : string) : res Organization :=
  if name =ₛ "" then Err (ValidationError Tenancy "name is required")
  else if negb (slugPattern slug) then Err (bad_slug slug)
  else Ok (mkOrganization id name slug OrganizationStatusActive None now).

Definition Archive (now : Z) (o : Organization) : res Organization :=
  if org_Status o =ₛ OrganizationStatusArchived then Err ErrOrganizationAlreadyArchived
  else Ok (mkOrganization (org_ID o) (org_Name o) (org_Slug o) OrganizationStatusArchived
             (Some now) (org_CreatedAt o)).

(** [blocked_at] set means the member is suspended in this organization. *)
Record OrganizationMembership := mkMembership {
  om_ID : string;
  om_OrganizationID : string;
  om_UserID : string;
  om_JoinedAt : Z;
  om_BlockedAt : option Z;
}.

Definition NewOrganizationMembership (id : string) (now : Z) (organizationID userID : string)
    : OrganizationMembership :=
  mkMembership id organizationID userID now None.

Record Project := mkProject {
  proj_ID : string;
  proj_OrganizationID : string;
  proj_Name : string;
  proj_Slug : string;
  proj_Description : string;
  proj_CreatedAt : Z;
}.

Definition NewProject (id : string) (now : Z)
    (organizationID name slug description : string) : res Project :=
  if organizationID =ₛ "" then Err (ValidationError Tenancy "organization_id is required")
  else if name =ₛ "" then Err (ValidationError Tenancy "name is required")
  else if negb (slugPattern slug) then Err (bad_slug slug)
  else Ok (mkProject id organizationID name slug description now).

Record Team := mkTeam {
  team_ID : string;
  team_OrganizationID : string;
  team_Name : string;
  team_CreatedAt : Z;
}.

Definition NewTeam (id : string) (now : Z) (organizationID name : string) : res Team :=
  if organizationID =ₛ "" then Err (ValidationError Tenancy "organization_id is required")
  else if name =ₛ "" then Err (ValidationError Tenancy "name is required")
  else Ok (mkTeam id organizationID name now).

Record TeamMembership := mkTeamMembership {
  tm_ID : string;
  tm_TeamID : string;
  tm_OrganizationID : string;
  tm_UserID : string;
  tm_JoinedAt : Z;
}.

Definition NewTeamMembership (id : string) (now : Z) (teamID organizationID userID : string)
    : TeamMembership :=
  mkTeamMembership id teamID organizationID userID now.

(** A row of [outbox_events].  Every payload the code writes is a JSON
    object with string values; the model keeps the object, since marshalling
    it and reading it back is the identity on such objects. *)
Record OutboxEvent := mkOutboxEvent {
  oe_ID : string;
  oe_OrganizationID : string;
  oe_EventType : string;
  oe_Payload : gmap string string;
  oe_OccurredAt : Z;
  oe_PublishedAt : option Z;
}.

(** [internal/audit/domain/entry.go] *)
Record Entry := mkEntry {
  entry_ID : string;
  entry_OrganizationID : string;
  entry_SourceEventID : string;
  entry_Actor : string;
  entry_Action : string;
  entry_TargetType : string;
  entry_TargetID : string;
  entry_Metadata : gmap string string;
  entry_CreatedAt : Z;
}.

Definition NewEntry (id : string) (now : Z)
    (organizationID sourceEventID actor action targetType targetID : string)
    (metadata : gmap string string) : Entry :=
  mkEntry id organizationID sourceEventID actor action targetType targetID metadata now.

(** A row of [idempotency_keys]. *)
Record IdempotencyKey := mkIdempotencyKey {
  ik_ID : string;
  ik_OrganizationID : string;
  ik_RequestingUserID : string;
  ik_Key : string;
  ik_ResponseStatus : Z;
  ik_ResponseBody : string;
  ik_CreatedAt : Z;
}.
