(* ===== verification/IdentityDomain.v ===== *)
(** * Identity domain (internal/identity/domain): users, their tokens, API
    keys and service accounts *)
From Stdlib Require Import Ascii.
From S2P Require Import Prelude.

(** ** Users *)

(** [AuthSource] is a Go string type; these are its constants. *)
Definition AuthSourceLocal := "local".
Definition AuthSourceOIDC := "oidc".
Definition AuthSourceSAML := "saml".
Definition AuthSourceLDAP := "ldap".

Definition auth_source_valid (a : string) : bool :=
  a ∈ₛ [AuthSourceLocal; AuthSourceOIDC; AuthSourceSAML; AuthSourceLDAP].

(** [[^@\s]]: [\s] is tab, newline, form feed, carriage return and space. *)
Definition is_space (c : ascii) : bool :=
  bool_decide (nat_of_ascii c ∈ [9; 10; 12; 13; 32]).
Definition is_email_char (c : ascii) : bool :=
  negb (bool_decide (c = "@"%char)) && negb (is_space c).

(** What follows the first [@], if there is one. *)
Fixpoint after_at (l : list ascii) : option (list ascii) :=
  match l with
  | [] => None
  | c :: l => if bool_decide (c = "@"%char) then Some l else after_at l
  end.

(** A dot with something before it and something after it. *)
Definition inner_dot (l : list ascii) : bool :=
  existsb (λ c, bool_decide (c = "."%char)) (removelast (tail l)).

(** [emailPattern = ^[^@\s]+@[^@\s]+\.[^@\s]+$] *)
Definition emailPattern (s : string) : bool :=
  let l := String.list_ascii_of_string s in
  match after_at l with
  | Some rest =>
      forallb (λ c, negb (is_space c)) l && forallb is_email_char rest && inner_dot rest &&
      match l with c :: _ => negb (bool_decide (c = "@"%char)) | [] => false end
  | None => false
  end.

Record User := mkUser {
  user_ID : string;
  user_Username : string;
  user_Email : string;
  user_AuthSource : string;
  user_ExternalID : option string;
  user_Status : string;
  user_MFAEnrolled : bool;
  user_CreatedAt : Z;
  user_IsPlatformAdmin : bool;
  user_PasswordHash : option string;
}.

Definition set_password (hash : option string) (u : User) : User :=
  mkUser (user_ID u) (user_Username u) (user_Email u) (user_AuthSource u) (user_ExternalID u)
    (user_Status u) (user_MFAEnrolled u) (user_CreatedAt u) (user_IsPlatformAdmin u) hash.
Definition set_admin (admin : bool) (u : User) : User :=
  mkUser (user_ID u) (user_Username u) (user_Email u) (user_AuthSource u) (user_ExternalID u)
    (user_Status u) (user_MFAEnrolled u) (user_CreatedAt u) admin (user_PasswordHash u).

Definition SetPasswordHash (hash : string) (u : User) : res User :=
  if negb (user_AuthSource u =ₛ AuthSourceLocal) then
    Err (ValidationError Identity "only local auth_source users can have a password")
  else Ok (set_password (Some hash) u).

Definition NewUser (id : string) (now : Z) (username email authSource : string) : res User :=
  if username =ₛ "" then Err (ValidationError Identity "username is required")
  else if negb (emailPattern email) then
    Err (ValidationError Identity ("email " +:+ email +:+ " is not valid"))
  else if negb (auth_source_valid authSource) then
    Err (ValidationError Identity
      ("auth_source " +:+ authSource +:+ " must be one of local, oidc, saml, ldap"))
  else Ok (mkUser id username email authSource None "active" false now false None).

(** ** Tokens *)

Definition second_ns : Z := 1000000000.
Definition RefreshTokenTTL : Z := 30 * 24 * 3600 * second_ns.
Definition PasswordResetTokenTTL : Z := 30 * 60 * second_ns.
Definition DefaultAPIKeyTTL : Z := 365 * 24 * 3600 * second_ns.

Record RefreshToken := mkRefreshToken {
  rt_ID : string;
  rt_UserID : string;
  rt_TokenHash : string;
  rt_ExpiresAt : Z;
  rt_RevokedAt : option Z;
  rt_CreatedAt : Z;
}.

Definition NewRefreshToken (id : string) (now : Z) (userID tokenHash : string) : RefreshToken :=
  mkRefreshToken id userID tokenHash (now + RefreshTokenTTL) None now.

(** [RefreshToken.Valid] *)
Definition refresh_valid (now : Z) (t : RefreshToken) : bool :=
  bool_decide (rt_RevokedAt t = None) && bool_decide (now < rt_ExpiresAt t)%Z.

Record PasswordResetToken := mkPasswordResetToken {
  prt_ID : string;
  prt_UserID : string;
  prt_TokenHash : string;
  prt_ExpiresAt : Z;
  prt_UsedAt : option Z;
  prt_CreatedAt : Z;
}.

Definition NewPasswordResetToken (id : string) (now : Z) (userID tokenHash : string)
    : PasswordResetToken :=
  mkPasswordResetToken id userID tokenHash (now + PasswordResetTokenTTL) None now.

(** [PasswordResetToken.Valid] *)
Definition reset_valid (now : Z) (t : PasswordResetToken) : bool :=
  bool_decide (prt_UsedAt t = None) && bool_decide (now < prt_ExpiresAt t)%Z.

(** ** Service accounts and API keys *)

Record ServiceAccount := mkServiceAccount {
  sa_ID : string;
  sa_OrganizationID : string;
  sa_Name : string;
  sa_Description : string;
  sa_CreatedAt : Z;
}.

Definition NewServiceAccount (id : string) (now : Z) (organizationID name description : string)
    : res ServiceAccount :=
  if organizationID =ₛ "" then Err (ValidationError Identity "organization_id is required")
  else if name =ₛ "" then Err (ValidationError Identity "name is required")
  else Ok (mkServiceAccount id organizationID name description now).

Definition APIKeyOwnerTypeUser := "user".
Definition APIKeyOwnerTypeServiceAccount := "service_account".

Record APIKey := mkAPIKey {
  ak_ID : string;
  ak_OwnerType : string;
  ak_OwnerID : string;
  ak_Name : string;
  ak_KeyHash : string;
  ak_Scopes : list string;
  ak_ExpiresAt : Z;
  ak_LastUsedAt : option Z;
  ak_RevokedAt : option Z;
  ak_CreatedAt : Z;
}.

Definition set_last_used (t : Z) (k : APIKey) : APIKey :=
  mkAPIKey (ak_ID k) (ak_OwnerType k) (ak_OwnerID k) (ak_Name k) (ak_KeyHash k) (ak_Scopes k)
    (ak_ExpiresAt k) (Some t) (ak_RevokedAt k) (ak_CreatedAt k).
Definition set_revoked (t : Z) (k : APIKey) : APIKey :=
  mkAPIKey (ak_ID k) (ak_OwnerType k) (ak_OwnerID k) (ak_Name k) (ak_KeyHash k) (ak_Scopes k)
    (ak_ExpiresAt k) (ak_LastUsedAt k) (Some t) (ak_CreatedAt k).

Definition NewAPIKey (id : string) (now : Z) (ownerType ownerID name keyHash : string)
    (scopes : list string) (expiresAt : option Z) : res APIKey :=
  if negb (ownerType ∈ₛ [APIKeyOwnerTypeUser; APIKeyOwnerTypeServiceAccount]) then
    Err (ValidationError Identity "owner_type must be one of: user, service_account")
  else if ownerID =ₛ "" then Err (ValidationError Identity "owner_id is required")
  else if name =ₛ "" then Err (ValidationError Identity "name is required")
  else
    let key expiry := mkAPIKey id ownerType ownerID name keyHash scopes expiry None None now in
    match expiresAt with
    | None => Ok (key (now + DefaultAPIKeyTTL)%Z)
    | Some t =>
        if bool_decide (now < t)%Z then Ok (key t)
        else Err (ValidationError Identity "expires_at must be in the future")
    end.

(** [APIKey.Valid] *)
Definition key_valid (now : Z) (k : APIKey) : bool :=
  bool_decide (ak_RevokedAt k = None) && bool_decide (now < ak_ExpiresAt k)%Z.

(** A row of [api_keys]: the key and the organization it was created in. *)
Record APIKeyRow := mkAPIKeyRow {
  akr_OrganizationID : string;
  akr_Key : APIKey;
}.
