(* ===== verification/FleetDomain.v ===== *)
(** * Secrets and Fleet domains (internal/secrets/domain, internal/fleet/domain):
    secret mounts, machines, networks, volumes, compose files, their
    variables and attachments, and operations

    [[]byte] fields hold opaque bytes and are strings here; a nil slice is
    the empty string, which the code cannot tell from it ([len]). *)
From S2P Require Import Prelude.

(** ** Secrets *)

Definition BackendTypeVault := "vault".

(** [BackendType.Valid] *)
Definition backend_valid (b : string) : bool :=
  b ∈ₛ [BackendTypeVault; "aws_secrets_manager"; "azure_keyvault"; "gcp_secret_manager"].

Record SecretMount := mkSecretMount {
  sm_ID : string;
  sm_OrganizationID : string;
  sm_Name : string;
  sm_BackendType : string;
  sm_Address : string;
  sm_RoleID : string;
  sm_EncryptedSecretID : string;
  sm_SecretIDNonce : string;
  sm_SecretIDSalt : string;
  sm_CreatedAt : Z;
}.

(** The first requirement that is not met, or [Ok]. *)
Fixpoint require_all (c : context) (rs : list (bool * string)) : res () :=
  match rs with
  | [] => Ok ()
  | (met, msg) :: rs => if met : bool then require_all c rs else Err (ValidationError c msg)
  end.

Definition given (s : string) : bool := negb (s =ₛ "").

Definition NewSecretMount (id : string) (now : Z)
    (organizationID name backendType address roleID encryptedSecretID nonce salt : string)
    : res SecretMount :=
  require_all Secrets [
    (given organizationID, "organization_id is required");
    (given name, "name is required");
    (backend_valid backendType, "backend_type " +:+ backendType +:+
      " must be one of vault, aws_secrets_manager, azure_keyvault, gcp_secret_manager");
    (given address, "address is required");
    (given roleID, "role_id is required");
    (given encryptedSecretID && given nonce && given salt, "secret_id is required")];;
  Ok (mkSecretMount id organizationID name backendType address roleID
        encryptedSecretID nonce salt now).

(** ** Machines *)

Definition ConnectionStatusUnknown := "unknown".
Definition ConnectionStatusOnline := "online".
Definition ConnectionStatusUnreachable := "unreachable".
Definition DockerStatusUnknown := "unknown".
Definition DockerStatusOK := "ok".
Definition DockerStatusMissing := "missing".
Definition DockerStatusError := "error".
Definition CredentialTypeSSHKey := "ssh_key".
Definition CredentialTypeSSHPassword := "ssh_password".
Definition CredentialStorageVault := "vault".
Definition CredentialStorageLocal := "local".

Definition credential_type_valid (c : string) : bool :=
  (c =ₛ CredentialTypeSSHKey) || (c =ₛ CredentialTypeSSHPassword).
Definition credential_storage_valid (c : string) : bool :=
  (c =ₛ CredentialStorageVault) || (c =ₛ CredentialStorageLocal).

(** Fleet's own [SecretReference]. *)
Record FleetSecretReference := mkFleetSecretReference {
  fsr_MountID : string;
  fsr_Path : string;
}.

Record Machine := mkMachine {
  mach_ID : string;
  mach_OrganizationID : string;
  mach_Name : string;
  mach_Host : string;
  mach_SSHPort : Z;
  mach_SSHUser : string;
  mach_CredentialType : string;
  mach_CredentialStorage : string;
  mach_CredentialRef : FleetSecretReference;
  mach_EncryptedCredential : string;
  mach_CredentialNonce : string;
  mach_CredentialSalt : string;
  mach_DeployBasePath : string;
  mach_ConnectionStatus : string;
  mach_DockerStatus : string;
  mach_LastCheckedAt : option Z;
  mach_Archived : bool;
  mach_CreatedAt : Z;
}.

(** The checks both constructors share, around their own one. *)
Definition machine_fields (organizationID name host : string) (sshPort : Z)
    (sshUser credentialType : string) (own : bool * string) (deployBasePath : string) : res () :=
  require_all Fleet [
    (given organizationID, "organization_id is required");
    (given name, "name is required");
    (given host, "host is required");
    (bool_decide (1 ≤ sshPort ≤ 65535)%Z, "ssh_port must be between 1 and 65535");
    (given sshUser, "ssh_user is required");
    (credential_type_valid credentialType, "credential_type " +:+ credentialType +:+
      " must be one of ssh_key, ssh_password");
    own;
    (given deployBasePath, "deploy_base_path is required")].

Definition NewMachine (id : string) (now : Z) (organizationID name host : string) (sshPort : Z)
    (sshUser credentialType : string) (credentialRef : FleetSecretReference)
    (deployBasePath : string) : res Machine :=
  machine_fields organizationID name host sshPort sshUser credentialType
    (given (fsr_MountID credentialRef) && given (fsr_Path credentialRef),
     "credential mount_id and path are required") deployBasePath;;
  Ok (mkMachine id organizationID name host sshPort sshUser credentialType
        CredentialStorageVault credentialRef "" "" "" deployBasePath
        ConnectionStatusUnknown DockerStatusUnknown None false now).

Definition NewMachineWithLocalCredential (id : string) (now : Z)
    (organizationID name host : string) (sshPort : Z) (sshUser credentialType : string)
    (encryptedCredential nonce salt deployBasePath : string) : res Machine :=
  machine_fields organizationID name host sshPort sshUser credentialType
    (given encryptedCredential && given nonce && given salt,
     "encrypted credential, nonce, and salt are all required") deployBasePath;;
  Ok (mkMachine id organizationID name host sshPort sshUser credentialType
        CredentialStorageLocal (mkFleetSecretReference "" "") encryptedCredential nonce salt
        deployBasePath ConnectionStatusUnknown DockerStatusUnknown None false now).

(** [RecordConnectionCheck] *)
Definition RecordConnectionCheck (status docker : string) (at_ : Z) (m : Machine) : Machine :=
  mkMachine (mach_ID m) (mach_OrganizationID m) (mach_Name m) (mach_Host m) (mach_SSHPort m)
    (mach_SSHUser m) (mach_CredentialType m) (mach_CredentialStorage m) (mach_CredentialRef m)
    (mach_EncryptedCredential m) (mach_CredentialNonce m) (mach_CredentialSalt m)
    (mach_DeployBasePath m) status docker (Some at_) (mach_Archived m) (mach_CreatedAt m).

(** ** Networks and volumes *)

Record Network := mkNetwork {
  net_ID : string;
  net_OrganizationID : string;
  net_Name : string;
  net_External : bool;
  net_CreatedBy : string;
  net_CreatedAt : Z;
}.

Definition NewNetwork (id : string) (now : Z) (organizationID name createdBy : string)
    (external : bool) : res Network :=
  require_all Fleet [
    (given organizationID, "organization_id is required");
    (given name, "name is required");
    (given createdBy, "created_by is required")];;
  Ok (mkNetwork id organizationID name external createdBy now).

Record Volume := mkVolume {
  vol_ID : string;
  vol_OrganizationID : string;
  vol_Name : string;
  vol_HostPath : string;
  vol_CreatedBy : string;
  vol_CreatedAt : Z;
}.

Definition NewVolume (id : string) (now : Z) (organizationID name hostPath createdBy : string)
    : res Volume :=
  require_all Fleet [
    (given organizationID, "organization_id is required");
    (given name, "name is required");
    (given hostPath, "host_path is required");
    (given createdBy, "created_by is required")];;
  Ok (mkVolume id organizationID name hostPath createdBy now).

(** ** Compose files, attachments and variables *)

Record ComposeFile := mkComposeFile {
  cf_ID : string;
  cf_OrganizationID : string;
  cf_Name : string;
  cf_IsGlobal : bool;
  cf_ComposeContent : string;
  cf_CreatedBy : string;
  cf_CreatedAt : Z;
}.

Definition NewComposeFile (id : string) (now : Z)
    (organizationID name composeContent createdBy : string) (isGlobal : bool)
    : res ComposeFile :=
  require_all Fleet [
    (given organizationID, "organization_id is required");
    (given name, "name is required");
    (given createdBy, "created_by is required")];;
  Ok (mkComposeFile id organizationID name isGlobal composeContent createdBy now).

(** [SetContent] *)
Definition set_content (content : string) (c : ComposeFile) : ComposeFile :=
  mkComposeFile (cf_ID c) (cf_OrganizationID c) (cf_Name c) (cf_IsGlobal c) content
    (cf_CreatedBy c) (cf_CreatedAt c).

(** Rows of [compose_file_networks], [compose_file_volumes] and
    [compose_file_projects]. *)
Record NetworkAttachment := mkNetworkAttachment {
  na_ID : string;
  na_OrganizationID : string;
  na_ComposeFileID : string;
  na_NetworkID : string;
}.
Record VolumeAttachment := mkVolumeAttachment {
  va_ID : string;
  va_OrganizationID : string;
  va_ComposeFileID : string;
  va_VolumeID : string;
  va_ContainerPath : string;
}.
Record ProjectAttachment := mkProjectAttachment {
  pa_ID : string;
  pa_OrganizationID : string;
  pa_ComposeFileID : string;
  pa_ProjectID : string;
}.

Definition VarTypeKV := "kv".
Definition VarTypeSecret := "secret".
Definition VarTypeEnv := "env".
Definition VarTypeFileTemplate := "file_template".
Definition VarTypeConfigFile := "config_file".

Definition var_type_valid (t : string) : bool :=
  t ∈ₛ [VarTypeKV; VarTypeSecret; VarTypeEnv; VarTypeFileTemplate; VarTypeConfigFile].
Definition RequiresFileTargetPath (t : string) : bool :=
  (t =ₛ VarTypeFileTemplate) || (t =ₛ VarTypeConfigFile).

(** Fleet's [Variable]. *)
Record FleetVariable := mkFleetVariable {
  fv_ID : string;
  fv_OrganizationID : string;
  fv_ComposeFileID : string;
  fv_Key : string;
  fv_VarType : string;
  fv_Value : string;
  fv_SecretRef : option FleetSecretReference;
  fv_FileTargetPath : string;
  fv_CreatedAt : Z;
}.

Definition validateFleetVariableFields
    (organizationID composeFileID key varType fileTargetPath : string) : res () :=
  require_all Fleet [
    (given organizationID && given composeFileID,
     "organization_id and compose_file_id are required");
    (given key, "key is required");
    (var_type_valid varType, "invalid var_type: " +:+ varType);
    (negb (RequiresFileTargetPath varType) || given fileTargetPath,
     "file_target_path is required for var_type " +:+ varType)].

Definition NewFleetVariable (id : string) (now : Z)
    (organizationID composeFileID key varType value fileTargetPath : string)
    : res FleetVariable :=
  validateFleetVariableFields organizationID composeFileID key varType fileTargetPath;;
  if varType =ₛ VarTypeSecret then
    Err (ValidationError Fleet "var_type secret must be created via NewVariableWithSecretRef")
  else Ok (mkFleetVariable id organizationID composeFileID key varType value None
             fileTargetPath now).

Definition NewFleetVariableWithSecretRef (id : string) (now : Z)
    (organizationID composeFileID key mountID path : string) : res FleetVariable :=
  validateFleetVariableFields organizationID composeFileID key VarTypeSecret "";;
  require_all Fleet
    [(given mountID && given path, "secret_mount_id and secret_path are required")];;
  Ok (mkFleetVariable id organizationID composeFileID key VarTypeSecret ""
        (Some (mkFleetSecretReference mountID path)) "" now).

(** ** Operations *)

(** [ComposeSubcommand]: the recognized operation types and what they run. *)
Definition ComposeSubcommand (t : string) : option string :=
  match list_find (λ e, e.1 = t)
    [("deploy", "up -d"); ("up", "up -d"); ("down", "down"); ("restart", "restart");
     ("pull", "pull"); ("build", "build"); ("stop", "stop"); ("start", "start");
     ("remove", "rm -f -s"); ("config", "config"); ("create", "create"); ("kill", "kill");
     ("pause", "pause"); ("ps", "ps"); ("unpause", "unpause")] with
  | Some (_, (_, cmd)) => Some cmd
  | None => None
  end.

(** [OperationType.Valid] *)
Definition operation_type_valid (t : string) : bool :=
  bool_decide (is_Some (ComposeSubcommand t)).

Definition OperationStatusQueued := "queued".
Definition OperationStatusRunning := "running".
Definition OperationStatusSuccess := "success".
Definition OperationStatusFailed := "failed".

Record Operation := mkOperation {
  op_ID : string;
  op_OrganizationID : string;
  op_ComposeFileID : string;
  op_MachineID : string;
  op_OperationType : string;
  op_Status : string;
  op_TriggeredBy : string;
  op_CreatedAt : Z;
  op_StartedAt : option Z;
  op_FinishedAt : option Z;
  op_ExitCode : option Z;
  op_Output : string;
}.

Definition NewOperation (id : string) (now : Z)
    (organizationID composeFileID machineID opType triggeredBy : string) : res Operation :=
  require_all Fleet [
    (given organizationID, "organization_id is required");
    (given composeFileID, "compose_file_id is required");
    (given machineID, "machine_id is required");
    (operation_type_valid opType, "operation_type " +:+ opType +:+
      " is not a recognized operation type");
    (given triggeredBy, "triggered_by is required")];;
  Ok (mkOperation id organizationID composeFileID machineID opType OperationStatusQueued
        triggeredBy now None None None "").
