(* ===== verification/Store.v ===== *)
(** * The database, transactions and row-level security

    The tables the modelled code reads and writes, the sessions it opens on
    them, and [txn], the [Begin ... defer Rollback ... Commit] block every
    repository method is made of. *)
From S2P Require Import Prelude Prog RunDomain WorkspaceDomain RbacDomain VariableDomain.
From S2P Require Import TenancyDomain IdentityDomain FleetDomain.

(** The tables of Identity, and those of Secrets and Fleet. *)
Record IdentityDB := mkIdentityDB {
  i_users : gmap string User;
  i_refresh_tokens : gmap string RefreshToken;
  i_password_reset_tokens : gmap string PasswordResetToken;
  i_api_keys : gmap string APIKeyRow;
}.

Record FleetDB := mkFleetDB {
  f_secret_mounts : gmap string SecretMount;
  f_machines : gmap string Machine;
  f_networks : gmap string Network;
  f_volumes : gmap string Volume;
  f_compose_files : gmap string ComposeFile;
  f_compose_file_networks : gmap string NetworkAttachment;
  f_compose_file_volumes : gmap string VolumeAttachment;
  f_compose_file_projects : gmap string ProjectAttachment;
  f_fleet_variables : gmap string FleetVariable;
  f_operations : gmap string Operation;
}.

Record DB := mkDB {
  organizations : gmap string Organization;
  organization_memberships : gmap string OrganizationMembership;
  service_accounts : gmap string ServiceAccount;
  projects : gmap string Project;
  environments : gmap string Environment;
  workspaces : gmap string Workspace;
  runs : gmap string Run;
  variables : gmap string VariableT;
  roles : gmap string Role;
  role_bindings : gmap string RoleBinding;
  teams : gmap string Team;
  team_memberships : gmap string TeamMembership;
  outbox_events : gmap string OutboxEvent;
  audit_entries : gmap string Entry;
  idempotency_keys : gmap string IdempotencyKey;
  identity_db : IdentityDB;
  fleet_db : FleetDB;
}.

Notation users d := (i_users (identity_db d)).
Notation refresh_tokens d := (i_refresh_tokens (identity_db d)).
Notation password_reset_tokens d := (i_password_reset_tokens (identity_db d)).
Notation api_keys d := (i_api_keys (identity_db d)).
Notation secret_mounts d := (f_secret_mounts (fleet_db d)).
Notation machines d := (f_machines (fleet_db d)).
Notation networks d := (f_networks (fleet_db d)).
Notation volumes d := (f_volumes (fleet_db d)).
Notation compose_files d := (f_compose_files (fleet_db d)).
Notation compose_file_networks d := (f_compose_file_networks (fleet_db d)).
Notation compose_file_volumes d := (f_compose_file_volumes (fleet_db d)).
Notation compose_file_projects d := (f_compose_file_projects (fleet_db d)).
Notation fleet_variables d := (f_fleet_variables (fleet_db d)).
Notation operations d := (f_operations (fleet_db d)).

Definition empty_db : DB :=
  mkDB ∅ ∅ ∅ ∅ ∅ ∅ ∅ ∅ ∅ ∅ ∅ ∅ ∅ ∅ ∅
    (mkIdentityDB ∅ ∅ ∅ ∅) (mkFleetDB ∅ ∅ ∅ ∅ ∅ ∅ ∅ ∅ ∅ ∅).

(** What one table is: its rows by primary key, who may see a row
    ([rls], the policy of the migrations: [None] is a session that never set
    [app.current_org_id]), the CHECK constraints of a row that its domain's
    constructor does not imply, which two rows a UNIQUE constraint other than
    the primary key forbids together, the rows its foreign keys need, the
    rows of other tables that keep it from being deleted, and those that ON
    DELETE CASCADE deletes with it. *)
Class Table (R : Type) := {
  tget : DB → gmap string R;
  tset : gmap string R → DB → DB;
  pk : R → string;
  rls : option string → R → bool;
  checks : R → bool;
  tunique : R → R → bool;
  fk : DB → R → bool;
  blocked : DB → R → bool;
  cascade : list string → DB → DB;
}.

(** [REFERENCES t (id)] *)
Definition references {A} (m : gmap string A) (id : string) : bool :=
  bool_decide (is_Some (m !! id)).

(** A row with property [P]. *)
Definition child {A} (m : gmap string A) (P : A → bool) : bool :=
  existsb P (map_to_list m).*2.

(** The rows without property [P]. *)
Definition drop_rows {A} (P : A → bool) (m : gmap string A) : gmap string A :=
  filter (λ kr, P kr.2 = false) m.

(** The common policy: [organization_id = current_setting(...)]. *)
Definition tenant_is (org : string) (t : option string) : bool :=
  bool_decide (t = Some org).

(** A row that [REFERENCES organizations (id)]. *)
Definition org_has_rows (d : DB) (o : string) : bool :=
  child (organization_memberships d) (λ x, om_OrganizationID x =ₛ o) ||
  child (service_accounts d) (λ x, sa_OrganizationID x =ₛ o) ||
  child (projects d) (λ x, proj_OrganizationID x =ₛ o) ||
  child (environments d) (λ x, env_OrganizationID x =ₛ o) ||
  child (workspaces d) (λ x, ws_OrganizationID x =ₛ o) ||
  child (runs d) (λ x, run_OrganizationID x =ₛ o) ||
  child (variables d) (λ x, var_OrganizationID x =ₛ o) ||
  child (roles d) (λ x, bool_decide (role_OrganizationID x = Some o)) ||
  child (role_bindings d) (λ x, rb_OrganizationID x =ₛ o) ||
  child (teams d) (λ x, team_OrganizationID x =ₛ o) ||
  child (team_memberships d) (λ x, tm_OrganizationID x =ₛ o) ||
  child (outbox_events d) (λ x, oe_OrganizationID x =ₛ o) ||
  child (audit_entries d) (λ x, entry_OrganizationID x =ₛ o) ||
  child (idempotency_keys d) (λ x, ik_OrganizationID x =ₛ o) ||
  child (api_keys d) (λ x, akr_OrganizationID x =ₛ o) ||
  child (secret_mounts d) (λ x, sm_OrganizationID x =ₛ o) ||
  child (machines d) (λ x, mach_OrganizationID x =ₛ o) ||
  child (networks d) (λ x, net_OrganizationID x =ₛ o) ||
  child (volumes d) (λ x, vol_OrganizationID x =ₛ o) ||
  child (compose_files d) (λ x, cf_OrganizationID x =ₛ o) ||
  child (compose_file_networks d) (λ x, na_OrganizationID x =ₛ o) ||
  child (compose_file_volumes d) (λ x, va_OrganizationID x =ₛ o) ||
  child (compose_file_projects d) (λ x, pa_OrganizationID x =ₛ o) ||
  child (fleet_variables d) (λ x, fv_OrganizationID x =ₛ o) ||
  child (operations d) (λ x, op_OrganizationID x =ₛ o).

(** ON DELETE CASCADE reaches the attachments and the variables of a compose
    file only. *)
Definition drop_attachments (Pn : NetworkAttachment → bool) (Pv : VolumeAttachment → bool)
    (Pp : ProjectAttachment → bool) (Pf : FleetVariable → bool) (d : DB) : DB :=
  mkDB (organizations d) (organization_memberships d) (service_accounts d) (projects d)
    (environments d) (workspaces d) (runs d) (variables d) (roles d) (role_bindings d) (teams d)
    (team_memberships d) (outbox_events d) (audit_entries d) (idempotency_keys d)
    (identity_db d)
    (mkFleetDB (secret_mounts d) (machines d) (networks d) (volumes d) (compose_files d)
      (drop_rows Pn (compose_file_networks d)) (drop_rows Pv (compose_file_volumes d))
      (drop_rows Pp (compose_file_projects d)) (drop_rows Pf (fleet_variables d))
      (operations d)).

(** [compose_files_one_global_per_org] *)
Definition one_global (a b : ComposeFile) : bool :=
  cf_IsGlobal a && cf_IsGlobal b && (cf_OrganizationID a =ₛ cf_OrganizationID b).

#[export] Instance organization_table : Table Organization := {|
  tget := organizations;
  tset m d := mkDB m (organization_memberships d) (service_accounts d) (projects d)
    (environments d) (workspaces d) (runs d) (variables d) (roles d) (role_bindings d) (teams d)
    (team_memberships d) (outbox_events d) (audit_entries d) (idempotency_keys d)
    (identity_db d) (fleet_db d);
  pk := org_ID; rls := λ t o, tenant_is (org_ID o) t;
  checks r := true;
  tunique a b := org_Slug a =ₛ org_Slug b;
  fk d r := true;
  blocked d r := org_has_rows d (org_ID r);
  cascade ids d := d |}.

#[export] Instance membership_table : Table OrganizationMembership := {|
  tget := organization_memberships;
  tset m d := mkDB (organizations d) m (service_accounts d) (projects d) (environments d)
    (workspaces d) (runs d) (variables d) (roles d) (role_bindings d) (teams d)
    (team_memberships d) (outbox_events d) (audit_entries d) (idempotency_keys d)
    (identity_db d) (fleet_db d);
  pk := om_ID; rls := λ t r, tenant_is (om_OrganizationID r) t;
  checks r := true;
  tunique a b := (om_OrganizationID a =ₛ om_OrganizationID b) && (om_UserID a =ₛ om_UserID b);
  fk d r := references (organizations d) (om_OrganizationID r) &&
    references (users d) (om_UserID r);
  blocked d r := false;
  cascade ids d := d |}.

#[export] Instance service_account_table : Table ServiceAccount := {|
  tget := service_accounts;
  tset m d := mkDB (organizations d) (organization_memberships d) m (projects d)
    (environments d) (workspaces d) (runs d) (variables d) (roles d) (role_bindings d) (teams d)
    (team_memberships d) (outbox_events d) (audit_entries d) (idempotency_keys d)
    (identity_db d) (fleet_db d);
  pk := sa_ID; rls := λ t r, tenant_is (sa_OrganizationID r) t;
  checks r := true;
  tunique a b := (sa_OrganizationID a =ₛ sa_OrganizationID b) && (sa_Name a =ₛ sa_Name b);
  fk d r := references (organizations d) (sa_OrganizationID r);
  blocked d r := false;
  cascade ids d := d |}.

#[export] Instance project_table : Table Project := {|
  tget := projects;
  tset m d := mkDB (organizations d) (organization_memberships d) (service_accounts d) m
    (environments d) (workspaces d) (runs d) (variables d) (roles d) (role_bindings d) (teams d)
    (team_memberships d) (outbox_events d) (audit_entries d) (idempotency_keys d)
    (identity_db d) (fleet_db d);
  pk := proj_ID; rls := λ t r, tenant_is (proj_OrganizationID r) t;
  checks r := true;
  tunique a b := (proj_OrganizationID a =ₛ proj_OrganizationID b) && (proj_Slug a =ₛ proj_Slug b);
  fk d r := references (organizations d) (proj_OrganizationID r);
  blocked d r := child (environments d) (λ x, env_ProjectID x =ₛ proj_ID r) ||
    child (workspaces d) (λ x, ws_ProjectID x =ₛ proj_ID r);
  cascade ids d := drop_attachments (λ _, false) (λ _, false) (λ a, pa_ProjectID a ∈ₛ ids) (λ _, false) d |}.

#[export] Instance environment_table : Table Environment := {|
  tget := environments;
  tset m d := mkDB (organizations d) (organization_memberships d) (service_accounts d)
    (projects d) m (workspaces d) (runs d) (variables d) (roles d) (role_bindings d) (teams d)
    (team_memberships d) (outbox_events d) (audit_entries d) (idempotency_keys d)
    (identity_db d) (fleet_db d);
  pk := env_ID; rls := λ t r, tenant_is (env_OrganizationID r) t;
  checks r := true;
  tunique a b := (env_ProjectID a =ₛ env_ProjectID b) && (env_Name a =ₛ env_Name b);
  fk d r := references (organizations d) (env_OrganizationID r) &&
    references (projects d) (env_ProjectID r);
  blocked d r := false;
  cascade ids d := d |}.

#[export] Instance workspace_table : Table Workspace := {|
  tget := workspaces;
  tset m d := mkDB (organizations d) (organization_memberships d) (service_accounts d)
    (projects d) (environments d) m (runs d) (variables d) (roles d) (role_bindings d) (teams d)
    (team_memberships d) (outbox_events d) (audit_entries d) (idempotency_keys d)
    (identity_db d) (fleet_db d);
  pk := ws_ID; rls := λ t r, tenant_is (ws_OrganizationID r) t;
  checks r := true;
  tunique a b := (ws_ProjectID a =ₛ ws_ProjectID b) && (ws_Name a =ₛ ws_Name b);
  fk d r := references (organizations d) (ws_OrganizationID r) &&
    references (projects d) (ws_ProjectID r);
  blocked d r := child (runs d) (λ x, run_WorkspaceID x =ₛ ws_ID r);
  cascade ids d := d |}.

#[export] Instance run_table : Table Run := {|
  tget := runs;
  tset m d := mkDB (organizations d) (organization_memberships d) (service_accounts d)
    (projects d) (environments d) (workspaces d) m (variables d) (roles d) (role_bindings d)
    (teams d) (team_memberships d) (outbox_events d) (audit_entries d) (idempotency_keys d)
    (identity_db d) (fleet_db d);
  pk := run_ID; rls := λ t r, tenant_is (run_OrganizationID r) t;
  checks r := true;
  tunique a b := false;
  fk d r := references (organizations d) (run_OrganizationID r) &&
    references (workspaces d) (run_WorkspaceID r);
  blocked d r := false;
  cascade ids d := d |}.

#[export] Instance variable_table : Table VariableT := {|
  tget := variables;
  tset m d := mkDB (organizations d) (organization_memberships d) (service_accounts d)
    (projects d) (environments d) (workspaces d) (runs d) m (roles d) (role_bindings d)
    (teams d) (team_memberships d) (outbox_events d) (audit_entries d) (idempotency_keys d)
    (identity_db d) (fleet_db d);
  pk := var_ID; rls := λ t r, tenant_is (var_OrganizationID r) t;
  checks r := true;
  tunique a b := (var_ScopeType a =ₛ var_ScopeType b) &&
    (var_ScopeID a =ₛ var_ScopeID b) && (var_Key a =ₛ var_Key b);
  fk d r := references (organizations d) (var_OrganizationID r);
  blocked d r := false;
  cascade ids d := d |}.

(** [roles_isolation]: built-in roles are visible to every session. *)
#[export] Instance role_table : Table Role := {|
  tget := roles;
  tset m d := mkDB (organizations d) (organization_memberships d) (service_accounts d)
    (projects d) (environments d) (workspaces d) (runs d) (variables d) m (role_bindings d)
    (teams d) (team_memberships d) (outbox_events d) (audit_entries d) (idempotency_keys d)
    (identity_db d) (fleet_db d);
  pk := role_ID; rls := λ t r,
    match role_OrganizationID r with None => true | Some o => tenant_is o t end;
  checks r := true;
  tunique a b := bool_decide (role_OrganizationID a = role_OrganizationID b) &&
    (role_Name a =ₛ role_Name b);
  fk d r := match role_OrganizationID r with
    | None => true | Some o => references (organizations d) o end;
  blocked d r := child (role_bindings d) (λ x, rb_RoleID x =ₛ role_ID r);
  cascade ids d := d |}.

#[export] Instance role_binding_table : Table RoleBinding := {|
  tget := role_bindings;
  tset m d := mkDB (organizations d) (organization_memberships d) (service_accounts d)
    (projects d) (environments d) (workspaces d) (runs d) (variables d) (roles d) m (teams d)
    (team_memberships d) (outbox_events d) (audit_entries d) (idempotency_keys d)
    (identity_db d) (fleet_db d);
  pk := rb_ID; rls := λ t r, tenant_is (rb_OrganizationID r) t;
  checks r := true;
  tunique a b := (rb_RoleID a =ₛ rb_RoleID b) && (rb_SubjectType a =ₛ rb_SubjectType b) &&
    (rb_SubjectID a =ₛ rb_SubjectID b) && (rb_ScopeType a =ₛ rb_ScopeType b) &&
    (rb_ScopeID a =ₛ rb_ScopeID b);
  fk d r := references (organizations d) (rb_OrganizationID r) &&
    references (roles d) (rb_RoleID r);
  blocked d r := false;
  cascade ids d := d |}.

#[export] Instance team_table : Table Team := {|
  tget := teams;
  tset m d := mkDB (organizations d) (organization_memberships d) (service_accounts d)
    (projects d) (environments d) (workspaces d) (runs d) (variables d) (roles d)
    (role_bindings d) m (team_memberships d) (outbox_events d) (audit_entries d)
    (idempotency_keys d) (identity_db d) (fleet_db d);
  pk := team_ID; rls := λ t r, tenant_is (team_OrganizationID r) t;
  checks r := true;
  tunique a b := (team_OrganizationID a =ₛ team_OrganizationID b) && (team_Name a =ₛ team_Name b);
  fk d r := references (organizations d) (team_OrganizationID r);
  blocked d r := child (team_memberships d) (λ x, tm_TeamID x =ₛ team_ID r);
  cascade ids d := d |}.

#[export] Instance team_membership_table : Table TeamMembership := {|
  tget := team_memberships;
  tset m d := mkDB (organizations d) (organization_memberships d) (service_accounts d)
    (projects d) (environments d) (workspaces d) (runs d) (variables d) (roles d)
    (role_bindings d) (teams d) m (outbox_events d) (audit_entries d) (idempotency_keys d)
    (identity_db d) (fleet_db d);
  pk := tm_ID; rls := λ t r, tenant_is (tm_OrganizationID r) t;
  checks r := true;
  tunique a b := (tm_TeamID a =ₛ tm_TeamID b) && (tm_UserID a =ₛ tm_UserID b);
  fk d r := references (organizations d) (tm_OrganizationID r) &&
    references (teams d) (tm_TeamID r) &&
    references (users d) (tm_UserID r);
  blocked d r := false;
  cascade ids d := d |}.

(** [outbox_events] has no row-level security at all. *)
#[export] Instance outbox_table : Table OutboxEvent := {|
  tget := outbox_events;
  tset m d := mkDB (organizations d) (organization_memberships d) (service_accounts d)
    (projects d) (environments d) (workspaces d) (runs d) (variables d) (roles d)
    (role_bindings d) (teams d) (team_memberships d) m (audit_entries d) (idempotency_keys d)
    (identity_db d) (fleet_db d);
  pk := oe_ID; rls := λ t e, true;
  checks r := true;
  tunique a b := false;
  fk d r := references (organizations d) (oe_OrganizationID r);
  blocked d r := false;
  cascade ids d := d |}.

#[export] Instance entry_table : Table Entry := {|
  tget := audit_entries;
  tset m d := mkDB (organizations d) (organization_memberships d) (service_accounts d)
    (projects d) (environments d) (workspaces d) (runs d) (variables d) (roles d)
    (role_bindings d) (teams d) (team_memberships d) (outbox_events d) m (idempotency_keys d)
    (identity_db d) (fleet_db d);
  pk := entry_ID; rls := λ t r, tenant_is (entry_OrganizationID r) t;
  checks r := true;
  tunique a b := entry_SourceEventID a =ₛ entry_SourceEventID b;
  fk d r := references (organizations d) (entry_OrganizationID r);
  blocked d r := false;
  cascade ids d := d |}.

#[export] Instance idempotency_table : Table IdempotencyKey := {|
  tget := idempotency_keys;
  tset m d := mkDB (organizations d) (organization_memberships d) (service_accounts d)
    (projects d) (environments d) (workspaces d) (runs d) (variables d) (roles d)
    (role_bindings d) (teams d) (team_memberships d) (outbox_events d) (audit_entries d) m
    (identity_db d) (fleet_db d);
  pk := ik_ID; rls := λ t r, tenant_is (ik_OrganizationID r) t;
  checks r := true;
  tunique a b := (ik_OrganizationID a =ₛ ik_OrganizationID b) &&
    (ik_RequestingUserID a =ₛ ik_RequestingUserID b) && (ik_Key a =ₛ ik_Key b);
  fk d r := references (organizations d) (ik_OrganizationID r);
  blocked d r := false;
  cascade ids d := d |}.

(** The identity tables have no row-level security. *)
#[export] Instance user_table : Table User := {|
  tget := λ d, users d;
  tset m d := mkDB (organizations d) (organization_memberships d) (service_accounts d)
    (projects d) (environments d) (workspaces d) (runs d) (variables d) (roles d)
    (role_bindings d) (teams d) (team_memberships d) (outbox_events d) (audit_entries d)
    (idempotency_keys d)
    (mkIdentityDB m (refresh_tokens d) (password_reset_tokens d) (api_keys d)) (fleet_db d);
  pk := user_ID; rls := λ t u, true;
  checks r := true;
  tunique a b := (user_Username a =ₛ user_Username b) || (user_Email a =ₛ user_Email b);
  fk d r := true;
  blocked d r := child (organization_memberships d) (λ x, om_UserID x =ₛ user_ID r) ||
    child (team_memberships d) (λ x, tm_UserID x =ₛ user_ID r) ||
    child (refresh_tokens d) (λ x, rt_UserID x =ₛ user_ID r) ||
    child (password_reset_tokens d) (λ x, prt_UserID x =ₛ user_ID r) ||
    child (networks d) (λ x, net_CreatedBy x =ₛ user_ID r) ||
    child (volumes d) (λ x, vol_CreatedBy x =ₛ user_ID r) ||
    child (compose_files d) (λ x, cf_CreatedBy x =ₛ user_ID r) ||
    child (operations d) (λ x, op_TriggeredBy x =ₛ user_ID r);
  cascade ids d := d |}.

#[export] Instance refresh_token_table : Table RefreshToken := {|
  tget := λ d, refresh_tokens d;
  tset m d := mkDB (organizations d) (organization_memberships d) (service_accounts d)
    (projects d) (environments d) (workspaces d) (runs d) (variables d) (roles d)
    (role_bindings d) (teams d) (team_memberships d) (outbox_events d) (audit_entries d)
    (idempotency_keys d) (mkIdentityDB (users d) m (password_reset_tokens d) (api_keys d))
    (fleet_db d);
  pk := rt_ID; rls := λ t r, true;
  checks r := true;
  tunique a b := rt_TokenHash a =ₛ rt_TokenHash b;
  fk d r := references (users d) (rt_UserID r);
  blocked d r := false;
  cascade ids d := d |}.

#[export] Instance reset_token_table : Table PasswordResetToken := {|
  tget := λ d, password_reset_tokens d;
  tset m d := mkDB (organizations d) (organization_memberships d) (service_accounts d)
    (projects d) (environments d) (workspaces d) (runs d) (variables d) (roles d)
    (role_bindings d) (teams d) (team_memberships d) (outbox_events d) (audit_entries d)
    (idempotency_keys d) (mkIdentityDB (users d) (refresh_tokens d) m (api_keys d)) (fleet_db d);
  pk := prt_ID; rls := λ t r, true;
  checks r := true;
  tunique a b := prt_TokenHash a =ₛ prt_TokenHash b;
  fk d r := references (users d) (prt_UserID r);
  blocked d r := false;
  cascade ids d := d |}.

#[export] Instance api_key_table : Table APIKeyRow := {|
  tget := λ d, api_keys d;
  tset m d := mkDB (organizations d) (organization_memberships d) (service_accounts d)
    (projects d) (environments d) (workspaces d) (runs d) (variables d) (roles d)
    (role_bindings d) (teams d) (team_memberships d) (outbox_events d) (audit_entries d)
    (idempotency_keys d) (mkIdentityDB (users d) (refresh_tokens d) (password_reset_tokens d) m)
    (fleet_db d);
  pk := λ k, ak_ID (akr_Key k); rls := λ t k, true;
  checks r := true;
  tunique a b := ak_KeyHash (akr_Key a) =ₛ ak_KeyHash (akr_Key b);
  fk d r := references (organizations d) (akr_OrganizationID r);
  blocked d r := false;
  cascade ids d := d |}.

#[export] Instance secret_mount_table : Table SecretMount := {|
  tget := λ d, secret_mounts d;
  tset m d := mkDB (organizations d) (organization_memberships d) (service_accounts d)
    (projects d) (environments d) (workspaces d) (runs d) (variables d) (roles d)
    (role_bindings d) (teams d) (team_memberships d) (outbox_events d) (audit_entries d)
    (idempotency_keys d) (identity_db d)
    (mkFleetDB m (machines d) (networks d) (volumes d) (compose_files d)
      (compose_file_networks d) (compose_file_volumes d) (compose_file_projects d)
      (fleet_variables d) (operations d));
  pk := sm_ID; rls := λ t r, tenant_is (sm_OrganizationID r) t;
  checks r := true;
  tunique a b := (sm_OrganizationID a =ₛ sm_OrganizationID b) && (sm_Name a =ₛ sm_Name b);
  fk d r := references (organizations d) (sm_OrganizationID r);
  blocked d r := false;
  cascade ids d := d |}.

#[export] Instance machine_table : Table Machine := {|
  tget := λ d, machines d;
  tset m d := mkDB (organizations d) (organization_memberships d) (service_accounts d)
    (projects d) (environments d) (workspaces d) (runs d) (variables d) (roles d)
    (role_bindings d) (teams d) (team_memberships d) (outbox_events d) (audit_entries d)
    (idempotency_keys d) (identity_db d)
    (mkFleetDB (secret_mounts d) m (networks d) (volumes d) (compose_files d)
      (compose_file_networks d) (compose_file_volumes d) (compose_file_projects d)
      (fleet_variables d) (operations d));
  pk := mach_ID; rls := λ t r, tenant_is (mach_OrganizationID r) t;
  checks r := true;
  tunique a b := (mach_OrganizationID a =ₛ mach_OrganizationID b) && (mach_Name a =ₛ mach_Name b);
  fk d r := references (organizations d) (mach_OrganizationID r);
  blocked d r := child (operations d) (λ x, op_MachineID x =ₛ mach_ID r);
  cascade ids d := d |}.

#[export] Instance network_table : Table Network := {|
  tget := λ d, networks d;
  tset m d := mkDB (organizations d) (organization_memberships d) (service_accounts d)
    (projects d) (environments d) (workspaces d) (runs d) (variables d) (roles d)
    (role_bindings d) (teams d) (team_memberships d) (outbox_events d) (audit_entries d)
    (idempotency_keys d) (identity_db d)
    (mkFleetDB (secret_mounts d) (machines d) m (volumes d) (compose_files d)
      (compose_file_networks d) (compose_file_volumes d) (compose_file_projects d)
      (fleet_variables d) (operations d));
  pk := net_ID; rls := λ t r, tenant_is (net_OrganizationID r) t;
  checks r := true;
  tunique a b := (net_OrganizationID a =ₛ net_OrganizationID b) && (net_Name a =ₛ net_Name b);
  fk d r := references (organizations d) (net_OrganizationID r) &&
    references (users d) (net_CreatedBy r);
  blocked d r := false;
  cascade ids d := drop_attachments (λ a, na_NetworkID a ∈ₛ ids) (λ _, false) (λ _, false) (λ _, false) d |}.

#[export] Instance volume_table : Table Volume := {|
  tget := λ d, volumes d;
  tset m d := mkDB (organizations d) (organization_memberships d) (service_accounts d)
    (projects d) (environments d) (workspaces d) (runs d) (variables d) (roles d)
    (role_bindings d) (teams d) (team_memberships d) (outbox_events d) (audit_entries d)
    (idempotency_keys d) (identity_db d)
    (mkFleetDB (secret_mounts d) (machines d) (networks d) m (compose_files d)
      (compose_file_networks d) (compose_file_volumes d) (compose_file_projects d)
      (fleet_variables d) (operations d));
  pk := vol_ID; rls := λ t r, tenant_is (vol_OrganizationID r) t;
  checks r := true;
  tunique a b := (vol_OrganizationID a =ₛ vol_OrganizationID b) && (vol_Name a =ₛ vol_Name b);
  fk d r := references (organizations d) (vol_OrganizationID r) &&
    references (users d) (vol_CreatedBy r);
  blocked d r := false;
  cascade ids d := drop_attachments (λ _, false) (λ a, va_VolumeID a ∈ₛ ids) (λ _, false) (λ _, false) d |}.

#[export] Instance compose_file_table : Table ComposeFile := {|
  tget := λ d, compose_files d;
  tset m d := mkDB (organizations d) (organization_memberships d) (service_accounts d)
    (projects d) (environments d) (workspaces d) (runs d) (variables d) (roles d)
    (role_bindings d) (teams d) (team_memberships d) (outbox_events d) (audit_entries d)
    (idempotency_keys d) (identity_db d)
    (mkFleetDB (secret_mounts d) (machines d) (networks d) (volumes d) m
      (compose_file_networks d) (compose_file_volumes d) (compose_file_projects d)
      (fleet_variables d) (operations d));
  pk := cf_ID; rls := λ t r, tenant_is (cf_OrganizationID r) t;
  checks r := true;
  tunique a b := (cf_OrganizationID a =ₛ cf_OrganizationID b) && (cf_Name a =ₛ cf_Name b) ||
    one_global a b;
  fk d r := references (organizations d) (cf_OrganizationID r) &&
    references (users d) (cf_CreatedBy r);
  blocked d r := child (operations d) (λ x, op_ComposeFileID x =ₛ cf_ID r);
  cascade ids d := drop_attachments (λ a, na_ComposeFileID a ∈ₛ ids)
    (λ a, va_ComposeFileID a ∈ₛ ids) (λ a, pa_ComposeFileID a ∈ₛ ids)
    (λ v, fv_ComposeFileID v ∈ₛ ids) d |}.

#[export] Instance network_attachment_table : Table NetworkAttachment := {|
  tget := λ d, compose_file_networks d;
  tset m d := mkDB (organizations d) (organization_memberships d) (service_accounts d)
    (projects d) (environments d) (workspaces d) (runs d) (variables d) (roles d)
    (role_bindings d) (teams d) (team_memberships d) (outbox_events d) (audit_entries d)
    (idempotency_keys d) (identity_db d)
    (mkFleetDB (secret_mounts d) (machines d) (networks d) (volumes d) (compose_files d) m
      (compose_file_volumes d) (compose_file_projects d) (fleet_variables d) (operations d));
  pk := na_ID; rls := λ t r, tenant_is (na_OrganizationID r) t;
  checks r := true;
  tunique a b := (na_ComposeFileID a =ₛ na_ComposeFileID b) && (na_NetworkID a =ₛ na_NetworkID b);
  fk d r := references (organizations d) (na_OrganizationID r) &&
    references (compose_files d) (na_ComposeFileID r) &&
    references (networks d) (na_NetworkID r);
  blocked d r := false;
  cascade ids d := d |}.

#[export] Instance volume_attachment_table : Table VolumeAttachment := {|
  tget := λ d, compose_file_volumes d;
  tset m d := mkDB (organizations d) (organization_memberships d) (service_accounts d)
    (projects d) (environments d) (workspaces d) (runs d) (variables d) (roles d)
    (role_bindings d) (teams d) (team_memberships d) (outbox_events d) (audit_entries d)
    (idempotency_keys d) (identity_db d)
    (mkFleetDB (secret_mounts d) (machines d) (networks d) (volumes d) (compose_files d)
      (compose_file_networks d) m (compose_file_projects d) (fleet_variables d) (operations d));
  pk := va_ID; rls := λ t r, tenant_is (va_OrganizationID r) t;
  checks r := true;
  tunique a b := (va_ComposeFileID a =ₛ va_ComposeFileID b) && (va_VolumeID a =ₛ va_VolumeID b);
  fk d r := references (organizations d) (va_OrganizationID r) &&
    references (compose_files d) (va_ComposeFileID r) &&
    references (volumes d) (va_VolumeID r);
  blocked d r := false;
  cascade ids d := d |}.

#[export] Instance project_attachment_table : Table ProjectAttachment := {|
  tget := λ d, compose_file_projects d;
  tset m d := mkDB (organizations d) (organization_memberships d) (service_accounts d)
    (projects d) (environments d) (workspaces d) (runs d) (variables d) (roles d)
    (role_bindings d) (teams d) (team_memberships d) (outbox_events d) (audit_entries d)
    (idempotency_keys d) (identity_db d)
    (mkFleetDB (secret_mounts d) (machines d) (networks d) (volumes d) (compose_files d)
      (compose_file_networks d) (compose_file_volumes d) m (fleet_variables d) (operations d));
  pk := pa_ID; rls := λ t r, tenant_is (pa_OrganizationID r) t;
  checks r := true;
  tunique a b := (pa_ComposeFileID a =ₛ pa_ComposeFileID b) && (pa_ProjectID a =ₛ pa_ProjectID b);
  fk d r := references (organizations d) (pa_OrganizationID r) &&
    references (compose_files d) (pa_ComposeFileID r) &&
    references (projects d) (pa_ProjectID r);
  blocked d r := false;
  cascade ids d := d |}.

#[export] Instance fleet_variable_table : Table FleetVariable := {|
  tget := λ d, fleet_variables d;
  tset m d := mkDB (organizations d) (organization_memberships d) (service_accounts d)
    (projects d) (environments d) (workspaces d) (runs d) (variables d) (roles d)
    (role_bindings d) (teams d) (team_memberships d) (outbox_events d) (audit_entries d)
    (idempotency_keys d) (identity_db d)
    (mkFleetDB (secret_mounts d) (machines d) (networks d) (volumes d) (compose_files d)
      (compose_file_networks d) (compose_file_volumes d) (compose_file_projects d) m
      (operations d));
  pk := fv_ID; rls := λ t r, tenant_is (fv_OrganizationID r) t;
  checks r := true;
  tunique a b := (fv_ComposeFileID a =ₛ fv_ComposeFileID b) && (fv_Key a =ₛ fv_Key b);
  fk d r := references (organizations d) (fv_OrganizationID r) &&
    references (compose_files d) (fv_ComposeFileID r);
  blocked d r := false;
  cascade ids d := d |}.

#[export] Instance operation_table : Table Operation := {|
  tget := λ d, operations d;
  tset m d := mkDB (organizations d) (organization_memberships d) (service_accounts d)
    (projects d) (environments d) (workspaces d) (runs d) (variables d) (roles d)
    (role_bindings d) (teams d) (team_memberships d) (outbox_events d) (audit_entries d)
    (idempotency_keys d) (identity_db d)
    (mkFleetDB (secret_mounts d) (machines d) (networks d) (volumes d) (compose_files d)
      (compose_file_networks d) (compose_file_volumes d) (compose_file_projects d)
      (fleet_variables d) m);
  pk := op_ID; rls := λ t r, tenant_is (op_OrganizationID r) t;
  checks r := op_OperationType r ∈ₛ
    ["deploy"; "up"; "down"; "restart"; "pull"; "build"; "stop"; "start"; "remove"];
  tunique a b := false;
  fk d r := references (organizations d) (op_OrganizationID r) &&
    references (compose_files d) (op_ComposeFileID r) &&
    references (machines d) (op_MachineID r) &&
    references (users d) (op_TriggeredBy r);
  blocked d r := false;
  cascade ids d := d |}.

(** ** The world *)

(** Besides the database: the clock, the supply of fresh uuids, which of the
    coming external calls fail ([faults], consumed one per call; no entry
    means no failure) and the state [aux] of the other components. *)
Record World (X : Type) := mkWorld {
  db : DB;
  clock : Z;
  uuid_at : nat → string;
  uuid_next : nat;
  faults : list bool;
  aux : X;
}.
Arguments mkWorld {X} _ _ _ _ _ _.
Arguments db {X} _.
Arguments clock {X} _.
Arguments uuid_at {X} _ _.
Arguments uuid_next {X} _.
Arguments faults {X} _.
Arguments aux {X} _.

Section world.
Context {X : Type}.
Implicit Types w : World X.

Definition set_db (d : DB) w : World X :=
  mkWorld d (clock w) (uuid_at w) (uuid_next w) (faults w) (aux w).
Definition set_clock (t : Z) w : World X :=
  mkWorld (db w) t (uuid_at w) (uuid_next w) (faults w) (aux w).
Definition set_faults (fs : list bool) w : World X :=
  mkWorld (db w) (clock w) (uuid_at w) (uuid_next w) fs (aux w).
Definition set_aux (x : X) w : World X :=
  mkWorld (db w) (clock w) (uuid_at w) (uuid_next w) (faults w) x.
Definition next_uuid w : World X :=
  mkWorld (db w) (clock w) (uuid_at w) (S (uuid_next w)) (faults w) (aux w).
End world.

(** A session of the non-superuser role, with the tenant [set_config] gave
    it if any, or of root, which bypasses row-level security. *)
Inductive session :=
| AppRole (tenant : option string)
| Root.

Definition visible `{Table R} (s : session) (r : R) : bool :=
  match s with AppRole t => rls t r | Root => true end.

(** ** Statements *)

(** A statement sequence inside one transaction. *)
Definition Tx (X A : Type) : Type := session → World X → res A * World X.

#[export] Instance tx_ret X : MRet (Tx X) := λ A a s w, (Ok a, w).
#[export] Instance tx_bind X : MBind (Tx X) := λ A B f t s w,
  match t s w with (Ok a, w') => f a s w' | (Err e, w') => (Err e, w') end.

Section statements.
Context {X : Type}.

Definition tx_fail {A} (e : error) : Tx X A := λ s w, (Err e, w).
(** SQL [now()] *)
Definition sql_now : Tx X Z := λ s w, (Ok (clock w), w).
(** [uuid.NewString()] *)
Definition tx_uuid : Tx X string := λ s w, (Ok (uuid_at w (uuid_next w)), next_uuid w).

Definition rows `{Table R} (d : DB) : list R := (map_to_list (tget d)).*2.

(** [SELECT ... WHERE P] *)
Definition select `{Table R} (P : R → bool) : Tx X (list R) := λ s w,
  (Ok (filter (λ r, visible s r && P r) (rows (db w))), w).

(** [SELECT EXISTS (SELECT 1 ... WHERE P)] *)
Definition exists_where `{Table R} (P : R → bool) : Tx X bool := λ s w,
  (Ok (existsb (λ r, visible s r && P r) (rows (db w))), w).

(** [SELECT ... WHERE id = $id AND P], at most one row *)
Definition select_pk `{Table R} (id : string) (P : R → bool) : Tx X (option R) := λ s w,
  (Ok (r ← tget (db w) !! id; if visible s r && P r then Some r else None), w).

(** [UPDATE ... SET f WHERE id = $id AND P]: the number of rows affected *)
Definition update_pk `{Table R} (id : string) (P : R → bool) (f : R → R) : Tx X nat :=
  λ s w,
  match tget (db w) !! id with
  | Some r =>
      if visible s r && P r then
        (Ok 1, set_db (tset (<[id := f r]> (tget (db w))) (db w)) w)
      else (Ok 0, w)
  | None => (Ok 0, w)
  end.

(** [UPDATE ... SET f WHERE P] *)
Definition update_where `{Table R} (P : R → bool) (f : R → R) : Tx X nat := λ s w,
  (Ok (length (filter (λ r, visible s r && P r) (rows (db w)))),
   set_db (tset ((λ r, if visible s r && P r then f r else r) <$> tget (db w)) (db w)) w).

(** [UPDATE ... WHERE id = $id AND P] of a column of a UNIQUE constraint:
    another row may have the new value already. *)
Definition update_unique `{Table R} (id : string) (P : R → bool) (f : R → R) : Tx X nat :=
  λ s w,
  if match tget (db w) !! id with
     | Some r => visible s r && P r &&
         existsb (λ kr, negb (kr.1 =ₛ id) && tunique (f r) kr.2) (map_to_list (tget (db w)))
     | None => false
     end
  then (Err (PgError "23505"), w)
  else update_pk id P f s w.

(** The rows [DELETE ... WHERE P] is about, and what is left without them and
    without what cascades from them. *)
Definition doomed `{Table R} (P : R → bool) (s : session) (d : DB) : list R :=
  filter (λ r, visible s r && P r) (rows d).
Definition delete_rows `{Table R} (P : R → bool) (s : session) (d : DB) : DB :=
  cascade (R:=R) (pk <$> doomed P s d)
    (tset (filter (λ kr, visible s kr.2 && P kr.2 = false) (tget d)) d).

(** [DELETE ... WHERE P]: refused while a row of another table would be left
    without the row it references. *)
Definition delete_where `{Table R} (P : R → bool) : Tx X nat := λ s w,
  let d := delete_rows P s (db w) in
  if existsb (blocked d) (doomed P s (db w)) then (Err (PgError "23503"), w)
  else (Ok (length (doomed P s (db w))), set_db d w).

(** A row that a UNIQUE constraint forbids beside [r], whoever owns it. *)
Definition conflicts `{Table R} (r : R) (d : DB) : bool :=
  existsb (tunique r) (rows d).

(** [INSERT INTO ...]: the policy's check, then the constraints. *)
Definition insert_row `{Table R} (r : R) : Tx X () := λ s w,
  if negb (visible s r) then (Err (PgError "42501"), w)
  else if negb (checks r) then (Err (PgError "23514"), w)
  else if bool_decide (is_Some (tget (db w) !! pk r)) || conflicts r (db w)
  then (Err (PgError "23505"), w)
  else if negb (fk (db w) r) then (Err (PgError "23503"), w)
  else (Ok (), set_db (tset (<[pk r := r]> (tget (db w))) (db w)) w).

(** [INSERT INTO ... ON CONFLICT (unique key) DO NOTHING] *)
Definition insert_or_nothing `{Table R} (r : R) : Tx X () := λ s w,
  if negb (visible s r) then (Err (PgError "42501"), w)
  else if negb (checks r) then (Err (PgError "23514"), w)
  else if conflicts r (db w) then (Ok (), w)
  else if bool_decide (is_Some (tget (db w) !! pk r)) then (Err (PgError "23505"), w)
  else if negb (fk (db w) r) then (Err (PgError "23503"), w)
  else (Ok (), set_db (tset (<[pk r := r]> (tget (db w))) (db w)) w).

(** [if errors.As(err, &pgErr) && pgErr.Code == code { return e }] *)
Definition on_code {A} (code : string) (e : error) (t : Tx X A) : Tx X A := λ s w,
  match t s w with
  | (Err (PgError c), w') => (Err (if c =ₛ code then e else PgError c), w')
  | r => r
  end.

(** [SELECT ... WHERE id = $id AND P], [ErrNoRows] mapped to [e] *)
Definition get_row `{Table R} (id : string) (P : R → bool) (e : error) : Tx X R :=
  row ← select_pk id P;
  match row with Some r => mret r | None => tx_fail e end.

(** [SELECT ... WHERE P] scanned into one value, [ErrNoRows] mapped to [e] *)
Definition first_row `{Table R} (P : R → bool) (e : error) : Tx X R :=
  rs ← select P;
  match rs with [] => tx_fail e | r :: _ => mret r end.

(** [if tag.RowsAffected() == 0 { return e }] *)
Definition affected (e : error) (t : Tx X nat) : Tx X () :=
  n ← t;
  if bool_decide (n = 0) then tx_fail e else mret ().

(** ** Transactions *)

(** [Begin], the statements, then [Commit]; an error rolls the database
    back.  A fault (connection loss, serialization failure, a violated
    constraint outside the model) rolls back too and is returned as an
    error; [uuid]s already drawn stay drawn. *)
Definition run_txn {A} (s : session) (t : Tx X A) (w : World X) : res A * World X :=
  match faults w with
  | true :: fs => (Err (PgError "08006"), set_faults fs w)
  | fs =>
      match t s (set_faults (tail fs) w) with
      | (Ok a, w') => (Ok a, w')
      | (Err e, w') => (Err e, set_db (db w) w')
      end
  end.

Definition txn {A} (s : session) (t : Tx X A) : prog (World X) A :=
  call (run_txn s t).

(** A transaction scoped to one organization:
    [SELECT set_config('app.current_org_id', $1, true)]. *)
Definition org_txn {A} (organizationID : string) (t : Tx X A) : prog (World X) A :=
  txn (AppRole (Some organizationID)) t.

(** [time.Now()] and [uuid.NewString()] outside any transaction. *)
Definition time_now : prog (World X) Z := call (λ w, (Ok (clock w), w)).
Definition new_uuid : prog (World X) string :=
  call (λ w, (Ok (uuid_at w (uuid_next w)), next_uuid w)).
End statements.

(** ** Laws *)

Section store_laws.
Context {X : Type}.
Implicit Types w : World X.

(** With no fault due, a transaction is its statements, or nothing. *)
Lemma run_txn_nofault {A} s (t : Tx X A) w :
  faults w = [] →
  run_txn s t w =
    match t s w with
    | (Ok a, w') => (Ok a, w')
    | (Err e, w') => (Err e, set_db (db w) w')
    end.
Proof. intros Hf. unfold run_txn. rewrite Hf. destruct w; simpl in *; by subst. Qed.

(** Atomicity: a transaction that does not return [Ok] leaves every table
    as it found it. *)
Lemma run_txn_atomic {A} s (t : Tx X A) w e w' :
  run_txn s t w = (Err e, w') → db w' = db w.
Proof.
  unfold run_txn. destruct (faults w) as [|[] fs]; simpl.
  - destruct (t s _) as [[a|e'] w1]; naive_solver.
  - naive_solver.
  - destruct (t s _) as [[a|e'] w1]; naive_solver.
Qed.

(** A relation on databases that the statements respect is respected by
    the transaction, faults and rollback included. *)
Lemma run_txn_rel {A} (R : DB → DB → Prop) `{!Reflexive R} s (t : Tx X A) w :
  (∀ w, R (db w) (db (t s w).2)) → R (db w) (db (run_txn s t w).2).
Proof.
  intros Ht. unfold run_txn. destruct (faults w) as [|[] fs]; simpl.
  - specialize (Ht (set_faults [] w)).
    destruct (t s _) as [[a|e'] w1]; simpl in *; done.
  - done.
  - specialize (Ht (set_faults fs w)).
    destruct (t s _) as [[a|e'] w1]; simpl in *; done.
Qed.

Lemma tx_bind_eq {A B} (t : Tx X A) (f : A → Tx X B) s w :
  (t ≫= f) s w =
    match t s w with (Ok a, w') => f a s w' | (Err e, w') => (Err e, w') end.
Proof. done. Qed.

Lemma elem_of_rows `{Table R} (d : DB) (r : R) :
  r ∈ rows d ↔ ∃ id, tget d !! id = Some r.
Proof.
  unfold rows. rewrite list_elem_of_fmap. split.
  - intros ([id r'] & -> & Hin%elem_of_map_to_list). eauto.
  - intros [id Hid]. exists (id, r). split; [done|]. by apply elem_of_map_to_list.
Qed.

Lemma existsb_rows `{Table R} (d : DB) (P : R → bool) :
  existsb P (rows d) = true ↔ ∃ id r, tget d !! id = Some r ∧ P r = true.
Proof.
  rewrite existsb_exists. split.
  - intros (r & Hin%list_elem_of_In & HP). apply elem_of_rows in Hin as [id Hid]. eauto.
  - intros (id & r & Hid & HP). exists r. split; [|done].
    apply list_elem_of_In, elem_of_rows. eauto.
Qed.

Lemma existsb_rows_false `{Table R} (d : DB) (P : R → bool) :
  existsb P (rows d) = false ↔ ∀ id r, tget d !! id = Some r → P r = false.
Proof.
  split.
  - intros Hf id r Hid. destruct (P r) eqn:HP; [|done].
    assert (existsb P (rows d) = true) by (apply existsb_rows; eauto). congruence.
  - intros Hall. destruct (existsb P (rows d)) eqn:He; [|done].
    apply existsb_rows in He as (id & r & Hid & HP).
    rewrite (Hall id r Hid) in HP. done.
Qed.
End store_laws.

#[export] Hint Rewrite @tx_bind_eq : prog.

(** ** Guarantees of statements

    [tx_in R s t]: the statements [t], run in session [s], only take the
    database along [R]; [txn_in]: so does the transaction made of them. *)
Definition tx_in {X A} (R : DB → DB → Prop) (s : session) (t : Tx X A) : Prop :=
  ∀ w, R (db w) (db (t s w).2).

Section tx_in.
Context {X : Type} (R : DB → DB → Prop) `{!Reflexive R, !Transitive R}.
Context (s : session).

Lemma tx_in_ret {A} (a : A) : tx_in (X:=X) R s (mret a).
Proof. by intros w. Qed.
Lemma tx_in_fail {A} e : tx_in (A:=A) (X:=X) R s (tx_fail e).
Proof. by intros w. Qed.
Lemma tx_in_now : tx_in (X:=X) R s sql_now.
Proof. by intros w. Qed.
Lemma tx_in_uuid : tx_in (X:=X) R s tx_uuid.
Proof. by intros w. Qed.
Lemma tx_in_select `{Table T} (P : T → bool) : tx_in (X:=X) R s (select P).
Proof. by intros w. Qed.
Lemma tx_in_exists `{Table T} (P : T → bool) : tx_in (X:=X) R s (exists_where P).
Proof. by intros w. Qed.
Lemma tx_in_select_pk `{Table T} id (P : T → bool) : tx_in (X:=X) R s (select_pk id P).
Proof. by intros w. Qed.

Lemma tx_in_bind {A B} (t : Tx X A) (f : A → Tx X B) :
  tx_in R s t → (∀ a, tx_in R s (f a)) → tx_in R s (t ≫= f).
Proof using Transitive0.
  intros Ht Hf w. rewrite tx_bind_eq. specialize (Ht w).
  destruct (t s w) as [[a|e] w1]; simpl in *; [|done].
  by etrans; [|apply Hf].
Qed.

Lemma tx_in_on_code {A} code e (t : Tx X A) : tx_in R s t → tx_in R s (on_code code e t).
Proof.
  intros Ht w. specialize (Ht w). unfold on_code. destruct (t s w) as [[a|[]] w1]; simpl in *; done.
Qed.

Lemma tx_in_get_row `{Table T} id (P : T → bool) e : tx_in (X:=X) R s (get_row id P e).
Proof using Reflexive0. intros w. unfold get_row, mbind, tx_bind, select_pk. by repeat case_match; simplify_eq/=. Qed.

Lemma tx_in_first_row `{Table T} (P : T → bool) e : tx_in (X:=X) R s (first_row P e).
Proof using Reflexive0. intros w. unfold first_row, mbind, tx_bind, select. by repeat case_match; simplify_eq/=. Qed.

Lemma tx_in_affected e (t : Tx X nat) : tx_in R s t → tx_in R s (affected e t).
Proof using Reflexive0.
  intros Ht w. specialize (Ht w). unfold affected. rewrite tx_bind_eq.
  destruct (t s w) as [[n|e'] w1]; simpl in *; [by case_match|done].
Qed.

Lemma tx_in_update_pk `{Table T} id (P : T → bool) f :
  (∀ d r, tget d !! id = Some r → visible s r = true → P r = true →
     R d (tset (<[id := f r]> (tget d)) d)) →
  tx_in (X:=X) R s (update_pk id P f).
Proof using Reflexive0.
  intros HR w. unfold update_pk.
  destruct (tget (db w) !! id) as [r|] eqn:Hr; [|done].
  destruct (visible s r && P r) eqn:Hb; [|done]. bools. by apply HR.
Qed.

Lemma tx_in_insert `{Table T} (r : T) :
  (∀ d, tget d !! pk r = None → visible s r = true → conflicts r d = false →
     fk d r = true → R d (tset (<[pk r := r]> (tget d)) d)) →
  tx_in (X:=X) R s (insert_row r).
Proof using Reflexive0.
  intros HR w. unfold insert_row.
  destruct (visible s r) eqn:Hv; simpl; [|done]. destruct (checks r); simpl; [|done].
  destruct (tget (db w) !! pk r) eqn:Hp.
  { by rewrite bool_decide_true by eauto. }
  rewrite bool_decide_false by (intros []; done). simpl.
  destruct (conflicts r (db w)) eqn:Hc; [done|].
  destruct (fk (db w) r) eqn:Hf; [|done]. by apply HR.
Qed.

Lemma tx_in_insert_or_nothing `{Table T} (r : T) :
  (∀ d, tget d !! pk r = None → visible s r = true → conflicts r d = false →
     fk d r = true → R d (tset (<[pk r := r]> (tget d)) d)) →
  tx_in (X:=X) R s (insert_or_nothing r).
Proof using Reflexive0.
  intros HR w. unfold insert_or_nothing.
  destruct (visible s r) eqn:Hv; simpl; [|done]. destruct (checks r); simpl; [|done].
  destruct (conflicts r (db w)) eqn:Hc; [done|].
  destruct (tget (db w) !! pk r) eqn:Hp.
  { by rewrite bool_decide_true by eauto. }
  rewrite bool_decide_false by (intros []; done). simpl.
  destruct (fk (db w) r) eqn:Hf; [|done]. by apply HR.
Qed.

Lemma tx_in_delete `{Table T} (P : T → bool) :
  (∀ d, R d (delete_rows P s d)) → tx_in (X:=X) R s (delete_where P).
Proof using Reflexive0. intros HR w. unfold delete_where. by case_match. Qed.

Lemma tx_in_update_unique `{Table T} id (P : T → bool) f :
  (∀ d r, tget d !! id = Some r → visible s r = true → P r = true →
     R d (tset (<[id := f r]> (tget d)) d)) →
  tx_in (X:=X) R s (update_unique id P f).
Proof using Reflexive0.
  intros HR w. unfold update_unique. case_match; [done|]. by apply tx_in_update_pk.
Qed.

Lemma tx_in_update_where `{Table T} (P : T → bool) f :
  (∀ d, R d (tset ((λ r, if visible s r && P r then f r else r) <$> tget d) d)) →
  tx_in (X:=X) R s (update_where P f).
Proof. intros HR w. apply HR. Qed.

Lemma run_txn_in {A} (t : Tx X A) : tx_in R s t → ∀ w, R (db w) (db (run_txn s t w).2).
Proof using Reflexive0. intros Ht w. by apply run_txn_rel. Qed.

Lemma txn_in {A} (t : Tx X A) :
  tx_in R s t → steps_in (λ w w', R (db w) (db w')) (txn s t).
Proof using Reflexive0. intros Ht. apply steps_in_call. by apply run_txn_in. Qed.
End tx_in.

#[export] Hint Resolve tx_in_ret tx_in_fail tx_in_now tx_in_uuid tx_in_select
  tx_in_exists tx_in_select_pk : prog.

(** Go through the statements of a transaction, leaving the writes. *)
Ltac tx_in_steps :=
  repeat first
    [ apply tx_in_bind; [try typeclasses eauto| |intros ?]
    | apply tx_in_ret; typeclasses eauto | apply tx_in_fail; typeclasses eauto
    | apply tx_in_now; typeclasses eauto | apply tx_in_uuid; typeclasses eauto
    | apply tx_in_select; typeclasses eauto | apply tx_in_exists; typeclasses eauto
    | apply tx_in_select_pk; typeclasses eauto | apply tx_in_get_row; typeclasses eauto
    | apply tx_in_first_row; typeclasses eauto | apply tx_in_on_code
    | apply tx_in_affected; [typeclasses eauto|]
    | case_match ].

(** ** What a statement did *)

(** The row [id] as a session's statement [WHERE id = ... AND P] finds it. *)
Definition row_at `{Table T} (s : session) (d : DB) (id : string) (P : T → bool) : option T :=
  r ← tget d !! id; if visible s r && P r then Some r else None.

Definition put_row `{Table T} (id : string) (r : T) (d : DB) : DB :=
  tset (<[id := r]> (tget d)) d.

Lemma row_at_Some `{Table T} s d id (P : T → bool) r :
  row_at s d id P = Some r ↔ tget d !! id = Some r ∧ visible s r = true ∧ P r = true.
Proof.
  unfold row_at. destruct (tget d !! id) as [x|]; simpl; [|naive_solver].
  destruct (visible s x && P x) eqn:Hb.
  - bools. naive_solver.
  - apply andb_false_iff in Hb. split; [done|]. intros ([= ->] & ? & ?).
    destruct Hb; congruence.
Qed.

Section statement_laws.
Context {X : Type}.
Implicit Types (w : World X) (s : session).

Lemma insert_row_ok `{Table T} (r : T) s w w' u :
  insert_row r s w = (Ok u, w') ↔
  (visible s r = true ∧ checks r = true) ∧ tget (db w) !! pk r = None ∧
  conflicts r (db w) = false ∧ fk (db w) r = true ∧
  w' = set_db (tset (<[pk r := r]> (tget (db w))) (db w)) w.
Proof.
  unfold insert_row. destruct u, (visible s r), (checks r); simpl; [|naive_solver..].
  destruct (tget (db w) !! pk r) eqn:Hp.
  { rewrite bool_decide_true by eauto. simpl. naive_solver. }
  rewrite bool_decide_false by (intros []; done). simpl.
  destruct (conflicts r (db w)); [naive_solver|].
  destruct (fk (db w) r); naive_solver.
Qed.

(** An insertion that its table accepts. *)
Lemma insert_row_fails `{Table T} (r : T) s w e w' :
  insert_row r s w = (Err e, w') →
  w' = w ∧
  (visible s r = false ∧ e = PgError "42501" ∨
   checks r = false ∧ e = PgError "23514" ∨
   (is_Some (tget (db w) !! pk r) ∨ conflicts r (db w) = true) ∧ e = PgError "23505" ∨
   fk (db w) r = false ∧ e = PgError "23503").
Proof.
  unfold insert_row. destruct (visible s r); simpl; [|naive_solver].
  destruct (checks r); simpl; [|naive_solver].
  case_bool_decide; simpl; [naive_solver|].
  destruct (conflicts r (db w)); [naive_solver|].
  destruct (fk (db w) r); naive_solver.
Qed.

(** A DELETE on a table no foreign key refers to. *)
Lemma delete_where_free `{Table T} (P : T → bool) s w :
  (∀ d r, blocked (R:=T) d r = false) →
  delete_where P s w =
    (Ok (length (doomed P s (db w))), set_db (delete_rows P s (db w)) w).
Proof.
  intros Hb. unfold delete_where.
  destruct (existsb _ _) eqn:He; [|done].
  apply existsb_exists in He as (r & _ & Hr). by rewrite Hb in Hr.
Qed.

Lemma delete_where_ok `{Table T} (P : T → bool) s w n w' :
  delete_where P s w = (Ok n, w') →
  n = length (doomed P s (db w)) ∧ w' = set_db (delete_rows P s (db w)) w ∧
  ∀ r, r ∈ doomed P s (db w) → blocked (delete_rows P s (db w)) r = false.
Proof.
  unfold delete_where. destruct (existsb _ _) eqn:He; [done|]. intros [= <- <-].
  split_and!; [done..|]. intros r Hr. destruct (blocked _ r) eqn:Hb; [|done].
  exfalso. assert (existsb (blocked (delete_rows P s (db w))) (doomed P s (db w)) = true);
    [|congruence]. apply existsb_exists. exists r. split; [by apply list_elem_of_In|done].
Qed.

Lemma update_pk_ok `{Table T} id (P : T → bool) f s w n w' :
  update_pk id P f s w = (Ok n, w') ↔
  (n = 1 ∧ ∃ r, tget (db w) !! id = Some r ∧ visible s r = true ∧ P r = true ∧
     w' = set_db (tset (<[id := f r]> (tget (db w))) (db w)) w) ∨
  (n = 0 ∧ w' = w ∧ ∀ r, tget (db w) !! id = Some r → visible s r && P r = false).
Proof.
  unfold update_pk. split.
  - destruct (tget (db w) !! id) as [r|].
    + destruct (visible s r && P r) eqn:Hb; intros [= <- <-].
      * bools. left. eauto 10.
      * right. split_and!; [done..|]. by intros ? [= <-].
    + intros [= <- <-]. by right.
  - intros [(-> & r & -> & -> & -> & ->)|(-> & -> & Hn)]; [done|].
    destruct (tget (db w) !! id) as [r|]; [|done].
    by rewrite (Hn r).
Qed.

Lemma select_pk_ok `{Table T} id (P : T → bool) s w o w' :
  select_pk id P s w = (Ok o, w') ↔
  w' = w ∧ o = row_at s (db w) id P.
Proof. unfold select_pk, row_at. naive_solver. Qed.

Lemma update_pk_row `{Table T} id (P : T → bool) f s w n w' :
  update_pk id P f s w = (Ok n, w') →
  match row_at s (db w) id P with
  | Some r => n = 1 ∧ w' = set_db (put_row id (f r) (db w)) w
  | None => n = 0 ∧ w' = w
  end.
Proof.
  intros [(-> & r & Hr & Hv & HP & ->)|(-> & -> & Hn)]%update_pk_ok; unfold row_at.
  - rewrite Hr. simpl. by rewrite Hv, HP.
  - destruct (tget (db w) !! id) as [r|]; simpl; [|done]. by rewrite (Hn r).
Qed.

Lemma update_pk_none `{Table T} id (P : T → bool) f s w :
  row_at s (db w) id P = None → update_pk id P f s w = (Ok 0, w).
Proof.
  unfold row_at, update_pk. destruct (tget (db w) !! id) as [r|]; simpl; [|done].
  by destruct (visible s r && P r).
Qed.

Lemma update_pk_some `{Table T} id (P : T → bool) f s w r :
  row_at s (db w) id P = Some r →
  update_pk id P f s w = (Ok 1, set_db (put_row id (f r) (db w)) w).
Proof. intros (Hr & Hv & HP)%row_at_Some. unfold update_pk. by rewrite Hr, Hv, HP. Qed.

Lemma exists_where_ok `{Table T} (P : T → bool) s w b w' :
  exists_where P s w = (Ok b, w') ↔
  w' = w ∧ b = existsb (λ r, visible s r && P r) (rows (db w)).
Proof. unfold exists_where. naive_solver. Qed.

(** What an [Ok] transaction did: its statements, from the same database. *)
Lemma run_txn_ok {A} s (t : Tx X A) w a w' :
  run_txn s t w = (Ok a, w') →
  ∃ fs, t s (set_faults fs w) = (Ok a, w').
Proof.
  unfold run_txn. destruct (faults w) as [|[] fs]; simpl.
  - exists []. destruct (t s _) as [[]]; naive_solver.
  - done.
  - exists fs. destruct (t s _) as [[]]; naive_solver.
Qed.

Lemma tx_ret_ok {A} (a b : A) s w w' :
  (mret a : Tx X A) s w = (Ok b, w') ↔ b = a ∧ w' = w.
Proof. split; [by intros [= <- <-]|by intros [-> ->]]. Qed.

Lemma tx_fail_ok {A} e (b : A) s w w' : (tx_fail e : Tx X A) s w = (Ok b, w') ↔ False.
Proof. done. Qed.

Lemma sql_now_ok s w w' t : (sql_now : Tx X Z) s w = (Ok t, w') ↔ t = clock w ∧ w' = w.
Proof. split; [by intros [= <- <-]|by intros [-> ->]]. Qed.

Lemma tx_uuid_ok s w w' id :
  (tx_uuid : Tx X string) s w = (Ok id, w') ↔ id = uuid_at w (uuid_next w) ∧ w' = next_uuid w.
Proof. split; [by intros [= <- <-]|by intros [-> ->]]. Qed.

Lemma select_ok `{Table T} (P : T → bool) s w l w' :
  select P s w = (Ok l, w') ↔
  w' = w ∧ l = filter (λ r, visible s r && P r) (rows (db w)).
Proof. split; [by intros [= <- <-]|by intros [-> ->]]. Qed.

Lemma elem_of_selected `{Table T} s d (P : T → bool) r :
  r ∈ filter (λ r, visible s r && P r) (rows d) ↔
  (∃ id, tget d !! id = Some r) ∧ visible s r = true ∧ P r = true.
Proof.
  rewrite list_elem_of_filter, elem_of_rows, Is_true_true, andb_true_iff. naive_solver.
Qed.

Lemma on_code_ok {A} code e (t : Tx X A) s w a w' :
  on_code code e t s w = (Ok a, w') ↔ t s w = (Ok a, w').
Proof. unfold on_code. destruct (t s w) as [[b|[]] w1]; naive_solver. Qed.

Lemma get_row_ok `{Table T} id (P : T → bool) e s w r w' :
  get_row id P e s w = (Ok r, w') ↔ w' = w ∧ row_at s (db w) id P = Some r.
Proof.
  unfold get_row. rewrite tx_bind_eq. change (select_pk id P s w) with (Ok (row_at s (db w) id P), w).
  destruct (row_at s (db w) id P) as [x|].
  - split; [by intros [= -> ->]|by intros [-> [= ->]]].
  - split; [done|by intros [_ ?]].
Qed.

Lemma first_row_ok `{Table T} (P : T → bool) e s w r w' :
  first_row P e s w = (Ok r, w') →
  w' = w ∧ ∃ k, tget (db w) !! k = Some r ∧ visible s r = true ∧ P r = true.
Proof.
  unfold first_row, mbind, tx_bind, select. cbn [fst snd].
  destruct (filter _ (rows (db w))) as [|x l] eqn:Hl; [done|]. intros [= <- <-]. split; [done|].
  assert (x ∈ filter (λ r, visible s r && P r) (rows (db w))) as Hx by (rewrite Hl; set_solver).
  apply elem_of_selected in Hx as ([k Hk] & Hv & HP). eauto.
Qed.

Lemma affected_ok e (t : Tx X nat) s w w' u :
  affected e t s w = (Ok u, w') ↔ ∃ n, t s w = (Ok n, w') ∧ n ≠ 0.
Proof.
  destruct u. unfold affected. rewrite tx_bind_eq. destruct (t s w) as [[n|e'] w1].
  - destruct (decide (n = 0)) as [->|Hn].
    + rewrite bool_decide_true by done. split; [done|]. by intros (? & [= <- <-] & ?).
    + rewrite bool_decide_false by done. split; [intros [= <-]; eauto|].
      by intros (? & [= <- <-] & _).
  - split; [done|]. by intros (? & ? & _).
Qed.

Lemma tx_bind_ok {A B} (t : Tx X A) (f : A → Tx X B) s w b w' :
  (t ≫= f) s w = (Ok b, w') ↔
  ∃ a w1, t s w = (Ok a, w1) ∧ f a s w1 = (Ok b, w').
Proof. rewrite tx_bind_eq. destruct (t s w) as [[]]; naive_solver. Qed.
End statement_laws.

(** ** What transactions never touch

    No statement moves the clock, the other components' state or the supply
    of uuids, except to draw from it. *)
Definition wframe {X} (w w' : World X) : Prop :=
  clock w' = clock w ∧ aux w' = aux w ∧ uuid_at w' = uuid_at w ∧ uuid_next w ≤ uuid_next w'.

#[export] Instance wframe_preorder {X} : PreOrder (@wframe X).
Proof.
  split.
  - intros w. by split_and!.
  - intros w1 w2 w3 (?&?&?&?) (?&?&?&?). split_and!; [congruence..|lia].
Qed.

Definition tx_frame {X A} (t : Tx X A) : Prop := ∀ s w,
  wframe w (t s w).2 ∧ faults (t s w).2 = faults w.

Section tx_frame.
Context {X : Type}.

Lemma tx_frame_ret {A} (a : A) : tx_frame (X:=X) (mret a).
Proof. by intros s w. Qed.
Lemma tx_frame_fail {A} e : tx_frame (X:=X) (A:=A) (tx_fail e).
Proof. by intros s w. Qed.
Lemma tx_frame_now : tx_frame (X:=X) sql_now.
Proof. by intros s w. Qed.
Lemma tx_frame_uuid : tx_frame (X:=X) tx_uuid.
Proof. intros s w. split; [|done]. split_and!; simpl; auto. Qed.
Lemma tx_frame_select `{Table T} (P : T → bool) : tx_frame (X:=X) (select P).
Proof. by intros s w. Qed.
Lemma tx_frame_exists `{Table T} (P : T → bool) : tx_frame (X:=X) (exists_where P).
Proof. by intros s w. Qed.
Lemma tx_frame_select_pk `{Table T} id (P : T → bool) : tx_frame (X:=X) (select_pk id P).
Proof. by intros s w. Qed.
Lemma tx_frame_update_pk `{Table T} id (P : T → bool) f : tx_frame (X:=X) (update_pk id P f).
Proof. intros s w. unfold update_pk. by repeat case_match. Qed.
Lemma tx_frame_update_where `{Table T} (P : T → bool) f : tx_frame (X:=X) (update_where P f).
Proof. by intros s w. Qed.
Lemma tx_frame_delete `{Table T} (P : T → bool) : tx_frame (X:=X) (delete_where P).
Proof. intros s w. unfold delete_where. by case_match. Qed.
Lemma tx_frame_update_unique `{Table T} id (P : T → bool) f :
  tx_frame (X:=X) (update_unique id P f).
Proof. intros s w. unfold update_unique. case_match; [done|]. apply tx_frame_update_pk. Qed.
Lemma tx_frame_insert `{Table T} (r : T) : tx_frame (X:=X) (insert_row r).
Proof. intros s w. unfold insert_row. by repeat case_match. Qed.
Lemma tx_frame_insert_or_nothing `{Table T} (r : T) : tx_frame (X:=X) (insert_or_nothing r).
Proof. intros s w. unfold insert_or_nothing. by repeat case_match. Qed.

Lemma tx_frame_bind {A B} (t : Tx X A) (f : A → Tx X B) :
  tx_frame t → (∀ a, tx_frame (f a)) → tx_frame (t ≫= f).
Proof.
  intros Ht Hf s w. rewrite tx_bind_eq. destruct (Ht s w) as [Hw Hfs].
  destruct (t s w) as [[a|e] w1]; simpl in *; [|done].
  destruct (Hf a s w1). split; [by etrans|congruence].
Qed.

Lemma tx_frame_on_code {A} code e (t : Tx X A) : tx_frame t → tx_frame (on_code code e t).
Proof.
  intros Ht s w. specialize (Ht s w). unfold on_code. destruct (t s w) as [[a|[]] w1]; simpl in *; done.
Qed.
Lemma tx_frame_get_row `{Table T} id (P : T → bool) e : tx_frame (X:=X) (get_row id P e).
Proof. apply tx_frame_bind; [apply tx_frame_select_pk|intros [r|]]; by intros s w. Qed.
Lemma tx_frame_first_row `{Table T} (P : T → bool) e : tx_frame (X:=X) (first_row P e).
Proof. apply tx_frame_bind; [apply tx_frame_select|intros [|r l]]; by intros s w. Qed.
Lemma tx_frame_affected e (t : Tx X nat) : tx_frame t → tx_frame (affected e t).
Proof. intros Ht. apply tx_frame_bind; [done|intros n]. case_match; by intros s w. Qed.

Lemma run_txn_frame {A} s (t : Tx X A) w : tx_frame t → wframe w (run_txn s t w).2.
Proof.
  intros Ht. unfold run_txn. destruct (faults w) as [|[] fs]; simpl; [|by split_and!|].
  - destruct (Ht s (set_faults [] w)) as [??]. by destruct (t s _) as [[a|e] w1].
  - destruct (Ht s (set_faults fs w)) as [??]. by destruct (t s _) as [[a|e] w1].
Qed.

(** A transaction uses up the failure scheduled for it, and no other. *)
Lemma run_txn_faults {A} s (t : Tx X A) w :
  tx_frame t → faults (run_txn s t w).2 = tail (faults w).
Proof.
  intros Ht. unfold run_txn. destruct (faults w) as [|[] fs]; simpl; [|done|].
  - destruct (Ht s (set_faults [] w)) as [??]. by destruct (t s _) as [[a|e] w1].
  - destruct (Ht s (set_faults fs w)) as [??]. by destruct (t s _) as [[a|e] w1].
Qed.
End tx_frame.

Ltac tx_frame_steps :=
  repeat first
    [ apply tx_frame_bind; [|intros ?]
    | apply tx_frame_ret | apply tx_frame_fail | apply tx_frame_now | apply tx_frame_uuid
    | apply tx_frame_select | apply tx_frame_exists | apply tx_frame_select_pk
    | apply tx_frame_update_pk | apply tx_frame_update_where | apply tx_frame_delete
    | apply tx_frame_insert | apply tx_frame_insert_or_nothing | apply tx_frame_update_unique
    | apply tx_frame_get_row | apply tx_frame_first_row | apply tx_frame_on_code
    | apply tx_frame_affected
    | case_match ].

(** What a transaction did, in the two cases that matter to its caller. *)
Lemma run_txn_cases {X A} s (t : Tx X A) (w : World X) :
  tx_frame t →
  let '(r, w') := run_txn s t w in
  wframe w w' ∧
  match r with
  | Err _ => db w' = db w
  | Ok a => ∃ fs, t s (set_faults fs w) = (Ok a, w')
  end.
Proof.
  intros Ht. pose proof (run_txn_frame s t w Ht) as Hf.
  destruct (run_txn s t w) as [[a|e] w'] eqn:Hr; simpl in Hf; split; try done.
  - by eapply run_txn_ok.
  - by eapply run_txn_atomic.
Qed.

(** A program that is one transaction: what it did, whether it committed or
    not. *)
Lemma exec_txn {X A} s (t : Tx X A) w r w' :
  tx_frame t → exec (txn s t) w = (r, w') →
  wframe w w' ∧
  match r with
  | Err _ => db w' = db w
  | Ok a => ∃ fs, t s (set_faults fs w) = (Ok a, w')
  end.
Proof.
  intros Ht. unfold txn. rewrite exec_call. intros H.
  pose proof (run_txn_cases s t w Ht) as Hc. by rewrite H in Hc.
Qed.

(** A transaction that failed: its statements did, or the connection was
    lost. *)
Lemma exec_txn_err {X A} s (t : Tx X A) (w : World X) e w' :
  exec (txn s t) w = (Err e, w') →
  e = PgError "08006" ∨ ∃ fs w1, t s (set_faults fs w) = (Err e, w1).
Proof.
  unfold txn. rewrite exec_call. unfold run_txn.
  destruct (faults w) as [|[] fs]; [| intros [= <- _]; by left |];
    destruct (t s _) as [[a|e'] w1] eqn:Ht; intros [= <- _]; right; eauto.
Qed.

(** Statements that cannot fail by themselves. *)
Definition tx_total {X A} (t : Tx X A) : Prop := ∀ s w, ∃ a, (t s w).1 = Ok a.

Lemma tx_total_bind {X A B} (t : Tx X A) (f : A → Tx X B) :
  tx_total t → (∀ a, tx_total (f a)) → tx_total (t ≫= f).
Proof.
  intros Ht Hf s w. rewrite tx_bind_eq. destruct (Ht s w) as [a Ha].
  destruct (t s w) as [r w1]; simpl in Ha; subst. apply Hf.
Qed.

Ltac tx_total_steps :=
  repeat first
    [ apply tx_total_bind; [|intros ?]
    | case_match
    | solve [intros ? ?; eexists; reflexivity]
    | solve [intros ? ?; unfold update_pk, insert_or_nothing; repeat case_match; eexists; reflexivity] ].

Lemma exec_txn_total {X A} s (t : Tx X A) (w : World X) e w' :
  tx_total t → exec (txn s t) w = (Err e, w') → e = PgError "08006".
Proof.
  intros Ht [?|(fs & w1 & H)]%exec_txn_err; [done|].
  destruct (Ht s (set_faults fs w)) as [a Ha]. by rewrite H in Ha.
Qed.

(** With no failure scheduled, it fails only if its statements do. *)
Lemma exec_txn_nofault {X A} s (t : Tx X A) (w : World X) :
  tx_frame t → faults w = [] →
  exec (txn s t) w =
    match t s w with
    | (Ok a, w') => (Ok a, w')
    | (Err e, w') => (Err e, set_db (db w) w')
    end ∧ faults (exec (txn s t) w).2 = [].
Proof.
  intros Ht Hf. unfold txn. rewrite exec_call. split; [by apply run_txn_nofault|].
  rewrite run_txn_faults by done. by rewrite Hf.
Qed.

(** A transaction whose statements cannot fail here commits, unless the
    connection is lost. *)
Lemma exec_txn_sure {X A} s (t : Tx X A) (w : World X) a d r w' :
  (∀ w1, db w1 = db w → t s w1 = (Ok a, set_db d w1)) →
  exec (txn s t) w = (r, w') →
  (r = Ok a ∧ db w' = d ∨ r = Err (PgError "08006") ∧ db w' = db w ∧ faults w ≠ []) ∧
  faults w' = tail (faults w) ∧ clock w' = clock w.
Proof.
  intros Ht. unfold txn. rewrite exec_call. unfold run_txn.
  destruct (faults w) as [|[] fs]; [| by intros [= <- <-]; simpl; auto |];
    rewrite Ht by done; intros [= <- <-]; simpl; auto.
Qed.

(** No failure scheduled before, none after. *)
Definition healthy {X} (w w' : World X) : Prop := faults w = [] → faults w' = [].

#[export] Instance healthy_preorder {X} : PreOrder (@healthy X).
Proof. unfold healthy. split; [by intros w|]. intros w1 w2 w3. auto. Qed.

Lemma healthy_txn {X A} s (t : Tx X A) : tx_frame t → steps_in healthy (txn s t).
Proof.
  intros Ht. apply steps_in_call. intros w Hf. by rewrite run_txn_faults, Hf.
Qed.

Lemma healthy_exec {X A} (p : prog (World X) A) w r w' :
  steps_in healthy p → exec p w = (r, w') → faults w = [] → faults w' = [].
Proof. intros Hp He Hf. pose proof (steps_in_exec healthy p w Hp) as H. rewrite He in H. auto. Qed.

(** Read the statements of a committed transaction off [H]. *)
Ltac tx_inv H :=
  lazymatch type of H with
  | mret _ _ _ = _ => apply tx_ret_ok in H as [? ?]
  | tx_fail _ _ _ = _ => apply tx_fail_ok in H; destruct H
  | mbind _ _ _ _ = _ =>
      let a := fresh "a" in let w := fresh "w" in let Ha := fresh "Hst" in
      apply tx_bind_ok in H as (a & w & Ha & H);
      lazymatch type of Ha with
      | sql_now _ _ = _ => apply sql_now_ok in Ha as [-> ->]
      | tx_uuid _ _ = _ => apply tx_uuid_ok in Ha as [-> ->]
      | mret _ _ _ = _ => apply tx_ret_ok in Ha as [-> ->]
      | _ => idtac
      end;
      tx_inv H
  | _ => idtac
  end.

(** ** Programs that leave the database alone *)

Definition calm {X} (w w' : World X) : Prop :=
  db w' = db w ∧ clock w' = clock w ∧ uuid_at w' = uuid_at w ∧ uuid_next w ≤ uuid_next w' ∧
  healthy w w'.

#[export] Instance calm_preorder {X} : PreOrder (@calm X).
Proof.
  split.
  - intros w. by split_and!.
  - intros w1 w2 w3 (?&?&?&?&?) (?&?&?&?&?).
    split_and!; [congruence..|lia|]. by etrans.
Qed.

Lemma calm_txn {X A} s (t : Tx X A) :
  tx_frame t → tx_in eq s t → steps_in calm (txn s t).
Proof.
  intros Hf Ht. apply steps_in_call. intros w.
  destruct (run_txn_frame s t w Hf) as (? & _ & ? & ?).
  pose proof (run_txn_in eq s t Ht w). split_and!; [done..|].
  intros Hn. by rewrite run_txn_faults, Hn.
Qed.

Lemma calm_exec {X A} (p : prog (World X) A) w r w' :
  steps_in calm p → exec p w = (r, w') → calm w w'.
Proof. intros Hp He. pose proof (steps_in_exec calm p w Hp) as H. by rewrite He in H. Qed.

(** Read [exec (p ≫= f) w = (r, w')] as [p]'s run, then [f]'s. *)
Lemma exec_bind_inv {W A B} (p : prog W A) (f : A → prog W B) w r w' :
  exec (p ≫= f) w = (r, w') →
  (∃ e, exec p w = (Err e, w') ∧ r = Err e) ∨
  (∃ a w1, exec p w = (Ok a, w1) ∧ exec (f a) w1 = (r, w')).
Proof. rewrite exec_bind. destruct (exec p w) as [[a|e] w1]; naive_solver. Qed.

(** Go through the statements of a program that only reads. *)
Ltac calm_steps :=
  repeat first
    [ exact I
    | match goal with |- steps_in _ (lift ?r) => by destruct r end
    | match goal with |- steps_in _ (ensure ?b _) => by destruct b end
    | apply steps_in_bind; [|intros ?]
    | apply steps_in_try | apply steps_in_void
    | apply steps_in_range; intros ?
    | apply calm_txn; [solve [tx_frame_steps]|solve [tx_in_steps]]
    | apply steps_in_call; intros ?; by split_and!; unfold healthy; simpl; auto
    | case_match ].

(** ** Properties of the database that requests keep *)

Section keeping.
Context (P : DB → Prop).

Definition preserves (d d' : DB) : Prop := P d → P d'.
Definition keeping {X} (w w' : World X) : Prop := preserves (db w) (db w').

#[export] Instance preserves_preorder : PreOrder preserves.
Proof. unfold preserves. split; [by intros d|]. intros d1 d2 d3. auto. Qed.
#[export] Instance keeping_preorder {X} : PreOrder (@keeping X).
Proof. unfold keeping. split; [intros w; reflexivity|]. intros w1 w2 w3 ??. by etrans. Qed.

Context {X : Type}.

Lemma calm_keeping {A} (p : prog (World X) A) : steps_in calm p → steps_in keeping p.
Proof. apply steps_in_mono. intros w w' [Hd _]. unfold keeping. by rewrite Hd. Qed.

Lemma keeping_txn {A} s (t : Tx X A) : tx_in preserves s t → steps_in keeping (txn s t).
Proof. apply (txn_in preserves). Qed.

(** If every request keeps [P], so does any interleaving of them, while the
    environment leaves the database alone. *)
Lemma keeping_pool (request : prog (World X) () → Prop) c c' :
  (∀ p, request p → steps_in keeping p) → Forall request c.2 →
  pool_steps (λ w w', db w' = db w) request c c' → P (db c.1) → P (db c'.1).
Proof.
  intros Hreq Hall Hsteps.
  eapply (pool_steps_in _ request keeping c c'); [|exact Hreq| |exact Hsteps].
  - intros w w' Hd. unfold keeping. by rewrite Hd.
  - eapply Forall_impl; [exact Hall|exact Hreq].
Qed.
End keeping.
