(* ===== verification/Outbox.v ===== *)
(** * The transactional outbox (internal/platform/outbox)

    [Write] adds an event inside the caller's transaction; [relayBatch] is
    one tick of the relay. *)
From S2P Require Import Prelude Prog TenancyDomain Store.

(** What a subscriber receives. *)
Record Event := mkEvent {
  ev_ID : string;
  ev_OrganizationID : string;
  ev_EventType : string;
  ev_Payload : gmap string string;
  ev_OccurredAt : Z;
}.

Definition event_of (e : OutboxEvent) : Event :=
  mkEvent (oe_ID e) (oe_OrganizationID e) (oe_EventType e) (oe_Payload e) (oe_OccurredAt e).

Definition set_published (t : Z) (e : OutboxEvent) : OutboxEvent :=
  mkOutboxEvent (oe_ID e) (oe_OrganizationID e) (oe_EventType e) (oe_Payload e)
    (oe_OccurredAt e) (Some t).

Definition unpublished (e : OutboxEvent) : bool := bool_decide (oe_PublishedAt e = None).

(** [ORDER BY occurred_at] *)
Definition earlier (a b : OutboxEvent) : Prop := (oe_OccurredAt a ≤ oe_OccurredAt b)%Z.
#[export] Instance earlier_dec a b : Decision (earlier a b).
Proof. unfold earlier. apply _. Defined.

Section outbox.
Context {X : Type}.

(** [outbox.Write] *)
Definition Write (organizationID eventType : string) (payload : gmap string string)
    : Tx X () :=
  id ← tx_uuid;
  now ← sql_now;
  insert_row (mkOutboxEvent id organizationID eventType payload now None).

(** A JSON object literal with string values. *)
Definition payload (l : list (string * string)) : gmap string string := list_to_map l.

(** [payload->>'key'] / the zero value of a missing field *)
Definition field (key : string) (p : gmap string string) : string := default "" (p !! key).

Definition Handler : Type := Event → prog (World X) ().

Definition unpublished_batch : Tx X (list Event) :=
  es ← select unpublished;
  mret (event_of <$> take 100 (merge_sort earlier es)).

Definition mark_published (id : string) : Tx X () :=
  now ← sql_now;
  _ ← update_pk id (λ _, true) (set_published now);
  mret ().

(** The body of the relay's loop over a batch. *)
Definition relay_one (handler : Handler) (e : Event) : prog (World X) () :=
  r ← try (handler e);
  match r with
  | Err _ => Ret () (* logged; the event stays unpublished *)
  | Ok _ => txn (AppRole None) (mark_published (ev_ID e))
  end.

(** [Relay.relayBatch] *)
Definition relayBatch (handler : Handler) : prog (World X) () :=
  events ← txn (AppRole None) unpublished_batch;
  range events (relay_one handler).

(** [Relay.Run] up to its [n]-th tick: a failed batch is logged. *)
Fixpoint Relay_Run (handler : Handler) (n : nat) : prog (World X) () :=
  match n with
  | 0 => Ret ()
  | S n => void (try (relayBatch handler));; Relay_Run handler n
  end.
End outbox.
Arguments Handler : clear implicits.

(** ** Laws *)

(** The row [Write] adds. *)
Definition add_event (ev : OutboxEvent) (d : DB) : DB :=
  tset (<[oe_ID ev := ev]> (outbox_events d)) d.

Definition new_event {X} (w : World X) (organizationID eventType : string)
    (p : gmap string string) : OutboxEvent :=
  mkOutboxEvent (uuid_at w (uuid_next w)) organizationID eventType p (clock w) None.

Section outbox_laws.
Context {X : Type}.
Implicit Types w : World X.

Lemma Write_frame o t p : tx_frame (X:=X) (Write o t p).
Proof. unfold Write. tx_frame_steps. Qed.

Lemma Write_ok o t p s w w' u :
  Write o t p s w = (Ok u, w') →
  outbox_events (db w) !! oe_ID (new_event w o t p) = None ∧
  is_Some (organizations (db w) !! o) ∧
  db w' = add_event (new_event w o t p) (db w).
Proof.
  unfold Write. intros H. cbn in H. apply insert_row_ok in H as (_ & Hn & _ & Hfk & ->).
  split_and!; [done| |done]. simpl in Hfk. unfold references in Hfk. by bools.
Qed.

(** The statements of [Write] only add a row to the outbox. *)
Lemma Write_in (R : DB → DB → Prop) `{!Reflexive R, !Transitive R} s o t p :
  (∀ ev d, outbox_events d !! oe_ID ev = None → R d (add_event ev d)) →
  tx_in (X:=X) R s (Write o t p).
Proof.
  intros HR. unfold Write. tx_in_steps. apply tx_in_insert; [done|].
  intros d Hd _ _ _. by apply HR.
Qed.
End outbox_laws.

