(* ===== verification/RunRepo.v ===== *)
(** * The run repository (internal/execution/adapters/postgres) *)
From S2P Require Import Prelude Prog RunDomain TenancyDomain WorkspaceDomain Store Outbox.

(** The columns [status, plan_output_ref, apply_output_ref, started_at,
    finished_at] of [run], written over the row [row]. *)
Definition overwrite (run row : Run) : Run :=
  mkRun (run_ID row) (run_OrganizationID row) (run_WorkspaceID row) (run_Trigger row)
    (run_TriggeredBy row) (run_Status run) (run_PlanOutputRef run) (run_ApplyOutputRef run)
    (run_CreatedAt row) (run_StartedAt run) (run_FinishedAt run).

(** The event of a terminal transition, if [Update] has one for it. *)
Definition update_event (s : RunStatus) : option string :=
  match s with
  | RunStatusCanceled => Some "RunCanceled"
  | RunStatusApplied => Some "RunApplied"
  | RunStatusFailed => Some "RunFailed"
  | _ => None
  end.

Definition later_created (a b : Run) : Prop := (run_CreatedAt b ≤ run_CreatedAt a)%Z.
#[export] Instance later_created_dec a b : Decision (later_created a b).
Proof. unfold later_created. apply _. Defined.

Definition is_status (s : RunStatus) (r : Run) : bool := bool_decide (run_Status r = s).
Definition in_org (organizationID : string) (r : Run) : bool :=
  run_OrganizationID r =ₛ organizationID.

Section run_repository.
Context {X : Type}.

Definition RunRepository_Create (run : Run) : prog (World X) () :=
  org_txn (run_OrganizationID run) (
    insert_row run;;
    Write (run_OrganizationID run) "RunQueued" (payload
      [("actor", run_TriggeredBy run); ("target_type", "run");
       ("target_id", run_ID run); ("workspace_id", run_WorkspaceID run)])).

Definition RunRepository_GetByID (organizationID id : string) : prog (World X) Run :=
  org_txn organizationID (
    row ← select_pk id (in_org organizationID);
    match row with
    | None => tx_fail ErrRunNotFound
    | Some run => mret run
    end).

Definition RunRepository_ListByWorkspace (organizationID workspaceID : string)
    : prog (World X) (list Run) :=
  org_txn organizationID (
    rs ← select (λ r, in_org organizationID r && (run_WorkspaceID r =ₛ workspaceID));
    mret (merge_sort later_created rs)).

Definition RunRepository_Update (run : Run) (actorUserID : string) : prog (World X) () :=
  org_txn (run_OrganizationID run) (
    _ ← update_pk (run_ID run) (in_org (run_OrganizationID run)) (overwrite run);
    match update_event (run_Status run) with
    | Some eventType =>
        Write (run_OrganizationID run) eventType (payload
          [("actor", actorUserID); ("target_type", "run");
           ("target_id", run_ID run); ("workspace_id", run_WorkspaceID run)])
    | None => mret ()
    end).

Definition RunRepository_TryStartApplying (organizationID runID workspaceID : string)
    : prog (World X) bool :=
  org_txn organizationID (
    now ← sql_now;
    n ← update_pk runID (λ r, in_org organizationID r && is_status RunStatusQueued r)
          (λ r, set_started (Some now) (set_status RunStatusApplying (run_FinishedAt r) r));
    if bool_decide (n = 0) then mret false
    else
      Write organizationID "RunApplying" (payload
        [("actor", "system"); ("target_type", "run");
         ("target_id", runID); ("workspace_id", workspaceID)]);;
      mret true).

Definition RunRepository_RevertToQueued (organizationID runID : string)
    : prog (World X) () :=
  org_txn organizationID (
    _ ← update_pk runID (λ r, in_org organizationID r && is_status RunStatusApplying r)
          (λ r, set_started None (set_status RunStatusQueued (run_FinishedAt r) r));
    mret ()).

(** Runs on the pool without a tenant: [outbox_events] has no row-level
    security. *)
Definition RunRepository_FindStaleApplyingRuns (olderThan : Z)
    : prog (World X) (list StaleRunCandidate) :=
  txn (AppRole None) (
    es ← select (λ e, (oe_EventType e =ₛ "RunApplying") &&
                      bool_decide (oe_OccurredAt e < olderThan)%Z);
    mret (map (λ e, {| cand_OrganizationID := oe_OrganizationID e;
                   cand_RunID := field "target_id" (oe_Payload e);
                   cand_WorkspaceID := field "workspace_id" (oe_Payload e) |}) es)).

Definition RunRepository_MarkErroredIfStillApplying (organizationID runID : string)
    : prog (World X) bool :=
  org_txn organizationID (
    now ← sql_now;
    n ← update_pk runID (λ r, in_org organizationID r && is_status RunStatusApplying r)
          (λ r, set_status RunStatusErrored (Some now) r);
    if bool_decide (n = 0) then mret false
    else
      Write organizationID "RunErrored" (payload
        [("actor", "system"); ("target_type", "run"); ("target_id", runID);
         ("reason", "stale run reaper: no completion reported before timeout")]);;
      mret true).
End run_repository.

(** ** Laws *)

Definition set_run (run : Run) (d : DB) : DB := tset (<[run_ID run := run]> (runs d)) d.

(** Name the event a transaction is known to have added. *)
Ltac added_event H :=
  match type of H with
  | _ = add_event ?ev _ => exists ev; split_and!; try exact H; simpl
  end.

Section run_repository_laws.
Context {X : Type}.
Implicit Types w : World X.

Lemma RunRepository_Create_exec run w r w' :
  exec (RunRepository_Create run) w = (r, w') →
  wframe w w' ∧
  match r with
  | Err _ => db w' = db w
  | Ok _ =>
      runs (db w) !! run_ID run = None ∧
      is_Some (workspaces (db w) !! run_WorkspaceID run) ∧
      is_Some (organizations (db w) !! run_OrganizationID run) ∧
      ∃ ev, oe_EventType ev = "RunQueued" ∧ oe_OrganizationID ev = run_OrganizationID run ∧
        oe_PublishedAt ev = None ∧
        oe_Payload ev = payload [("actor", run_TriggeredBy run); ("target_type", "run");
          ("target_id", run_ID run); ("workspace_id", run_WorkspaceID run)] ∧
        outbox_events (db w) !! oe_ID ev = None ∧
        db w' = add_event ev (set_run run (db w))
  end.
Proof.
  intros H. apply exec_txn in H as [Hf Hr];
    [|tx_frame_steps; apply Write_frame].
  split; [done|]. destruct r as [[]|e]; [|done]. destruct Hr as [fs Hr].
  apply tx_bind_ok in Hr as ([] & w1 & Hi & Hw).
  apply insert_row_ok in Hi as (_ & Hn & _ & Hfk & ->).
  apply Write_ok in Hw as (Hev & _ & Hdb). simpl in *. unfold references in Hfk. bools.
  split_and!; [done..|]. by added_event Hdb.
Qed.

Lemma RunRepository_GetByID_exec o id w r w' :
  exec (RunRepository_GetByID o id) w = (r, w') →
  wframe w w' ∧ db w' = db w ∧
  match r with
  | Err _ => True
  | Ok run => runs (db w) !! id = Some run ∧ run_OrganizationID run = o
  end.
Proof.
  intros H. apply exec_txn in H as [Hf Hr]; [|tx_frame_steps].
  split; [done|]. destruct r as [run|e]; [|done]. destruct Hr as [fs Hr].
  tx_inv Hr. apply select_pk_ok in Hst as [-> ->].
  destruct (row_at _ _ _ _) as [x|] eqn:Hx; tx_inv Hr. subst.
  apply row_at_Some in Hx as (Hx & _ & Ho). unfold in_org in Ho. by bools.
Qed.

(** The row of organization [o]'s run [id], if it satisfies [P]. *)
Definition run_row (d : DB) (o id : string) (P : Run → bool) : option Run :=
  row_at (AppRole (Some o)) d id (λ r, in_org o r && P r).

Lemma run_row_Some d o id P row :
  run_row d o id P = Some row ↔
  runs d !! id = Some row ∧ run_OrganizationID row = o ∧ P row = true.
Proof.
  unfold run_row, in_org. rewrite row_at_Some. simpl. unfold tenant_is.
  rewrite andb_true_iff, !bool_decide_eq_true. naive_solver.
Qed.

Lemma run_row_None d o id P :
  run_row d o id P = None ↔
  ∀ row, runs d !! id = Some row → run_OrganizationID row = o → P row = false.
Proof.
  split.
  - intros Hn row Hrow Ho. destruct (P row) eqn:HP; [|done].
    assert (run_row d o id P = Some row) by (by apply run_row_Some). congruence.
  - intros Hall. destruct (run_row d o id P) as [row|] eqn:Hr; [|done].
    apply run_row_Some in Hr as (Hr & Ho & HP). by rewrite (Hall row) in HP.
Qed.

(** The database after [Update]'s own statement. *)
Definition updated (run : Run) (d : DB) : DB :=
  match run_row d (run_OrganizationID run) (run_ID run) (λ _, true) with
  | Some row => put_row (run_ID run) (overwrite run row) d
  | None => d
  end.

Lemma RunRepository_Update_exec run actor w r w' :
  exec (RunRepository_Update run actor) w = (r, w') →
  wframe w w' ∧
  match r with
  | Err _ => db w' = db w
  | Ok _ =>
      match update_event (run_Status run) with
      | None => db w' = updated run (db w)
      | Some t => ∃ ev, oe_EventType ev = t ∧ oe_OrganizationID ev = run_OrganizationID run ∧
          outbox_events (db w) !! oe_ID ev = None ∧ db w' = add_event ev (updated run (db w))
      end
  end.
Proof.
  intros H. apply exec_txn in H as [Hf Hr]; [|tx_frame_steps; apply Write_frame].
  split; [done|]. destruct r as [[]|e]; [|done]. destruct Hr as [fs Hr]. tx_inv Hr.
  apply update_pk_row in Hst.
  assert (w0 = set_db (updated run (db w)) (set_faults fs w)) as ->.
  { unfold updated, run_row. simpl in Hst.
    destruct (row_at (AppRole (Some (run_OrganizationID run))) (db w) (run_ID run)
      (λ r, in_org (run_OrganizationID run) r && true)) as [row|] eqn:Hrow.
    - apply row_at_Some in Hrow as (Hl & Hv & Hb). rewrite andb_true_r in Hb.
      rewrite (proj2 (row_at_Some _ _ _ _ row)) in Hst by done. by destruct Hst.
    - destruct (row_at _ _ _ (in_org _)) as [row|] eqn:Hrow' in Hst.
      + apply row_at_Some in Hrow' as (Hl & Hv & Hb).
        rewrite (proj2 (row_at_Some _ _ _ _ row)) in Hrow; [done|]. by rewrite Hb.
      + by destruct Hst as [_ ->]. }
  destruct (update_event (run_Status run)) as [t|]; [|by tx_inv Hr; subst].
  apply Write_ok in Hr as (Hn & _ & Hdb). simpl in Hn, Hdb.
  assert (outbox_events (updated run (db w)) = outbox_events (db w)) as Hou.
  { unfold updated. by destruct (run_row _ _ _ _). }
  rewrite Hou in Hn. by added_event Hdb.
Qed.

Definition start_run (now : Z) (r : Run) : Run :=
  set_started (Some now) (set_status RunStatusApplying (run_FinishedAt r) r).

Lemma RunRepository_TryStartApplying_exec o id ws w r w' :
  exec (RunRepository_TryStartApplying o id ws) w = (r, w') →
  wframe w w' ∧
  match r with
  | Err _ => db w' = db w
  | Ok true => ∃ row ev, run_row (db w) o id (is_status RunStatusQueued) = Some row ∧
      oe_EventType ev = "RunApplying" ∧ oe_OrganizationID ev = o ∧
      oe_Payload ev = payload [("actor", "system"); ("target_type", "run");
        ("target_id", id); ("workspace_id", ws)] ∧
      oe_OccurredAt ev = clock w ∧
      outbox_events (db w) !! oe_ID ev = None ∧
      db w' = add_event ev (put_row id (start_run (clock w) row) (db w))
  | Ok false => run_row (db w) o id (is_status RunStatusQueued) = None ∧ db w' = db w
  end.
Proof.
  intros H. apply exec_txn in H as [Hf Hr]; [|tx_frame_steps; apply Write_frame].
  split; [done|]. destruct r as [b|e]; [|done]. destruct Hr as [fs Hr]. tx_inv Hr.
  apply update_pk_row in Hst. fold (run_row (db (set_faults fs w)) o id (is_status RunStatusQueued)) in Hst.
  destruct (run_row _ _ _ _) as [row|] eqn:Hrow; destruct Hst as [-> ->]; simpl in Hr; tx_inv Hr.
  - apply Write_ok in Hst as (Hn & _ & Hdb). subst. simpl in *.
    exists row. by added_event Hdb.
  - by subst.
Qed.

Lemma RunRepository_RevertToQueued_exec o id w r w' :
  exec (RunRepository_RevertToQueued o id) w = (r, w') →
  wframe w w' ∧
  match r with
  | Err _ => db w' = db w
  | Ok _ => db w' = match run_row (db w) o id (is_status RunStatusApplying) with
                    | Some row => put_row id (set_started None
                        (set_status RunStatusQueued (run_FinishedAt row) row)) (db w)
                    | None => db w
                    end
  end.
Proof.
  intros H. apply exec_txn in H as [Hf Hr]; [|tx_frame_steps].
  split; [done|]. destruct r as [[]|e]; [|done]. destruct Hr as [fs Hr]. tx_inv Hr.
  apply update_pk_row in Hst. fold (run_row (db (set_faults fs w)) o id (is_status RunStatusApplying)) in Hst.
  simpl in Hst. subst. by destruct (run_row _ _ _ _); destruct Hst as [_ ->].
Qed.

Lemma RunRepository_MarkErroredIfStillApplying_exec o id w r w' :
  exec (RunRepository_MarkErroredIfStillApplying o id) w = (r, w') →
  wframe w w' ∧
  match r with
  | Err _ => db w' = db w
  | Ok true => ∃ row ev, run_row (db w) o id (is_status RunStatusApplying) = Some row ∧
      oe_EventType ev = "RunErrored" ∧ oe_OrganizationID ev = o ∧
      outbox_events (db w) !! oe_ID ev = None ∧
      db w' = add_event ev
                (put_row id (set_status RunStatusErrored (Some (clock w)) row) (db w))
  | Ok false => run_row (db w) o id (is_status RunStatusApplying) = None ∧ db w' = db w
  end.
Proof.
  intros H. apply exec_txn in H as [Hf Hr]; [|tx_frame_steps; apply Write_frame].
  split; [done|]. destruct r as [b|e]; [|done]. destruct Hr as [fs Hr]. tx_inv Hr.
  apply update_pk_row in Hst. fold (run_row (db (set_faults fs w)) o id (is_status RunStatusApplying)) in Hst.
  destruct (run_row _ _ _ _) as [row|] eqn:Hrow; destruct Hst as [-> ->]; simpl in Hr; tx_inv Hr.
  - apply Write_ok in Hst as (Hn & _ & Hdb). subst. simpl in *.
    exists row. by added_event Hdb.
  - by subst.
Qed.
End run_repository_laws.
