(* ===== verification/WorkspaceRepo.v ===== *)
(** * The workspace and environment repositories
    (internal/workspace/adapters/postgres) *)
From S2P Require Import Prelude Prog RunDomain RbacDomain VariableDomain WorkspaceDomain Store.

Definition ws_in_org (organizationID : string) (w : Workspace) : bool :=
  ws_OrganizationID w =ₛ organizationID.
Definition env_in_org (organizationID : string) (e : Environment) : bool :=
  env_OrganizationID e =ₛ organizationID.

Definition ws_earlier (a b : Workspace) : Prop := (ws_CreatedAt a ≤ ws_CreatedAt b)%Z.
#[export] Instance ws_earlier_dec a b : Decision (ws_earlier a b).
Proof. unfold ws_earlier. apply _. Defined.

(** [ORDER BY promotion_rank, created_at] *)
Definition env_before (a b : Environment) : Prop :=
  (env_PromotionRank a < env_PromotionRank b)%Z ∨
  env_PromotionRank a = env_PromotionRank b ∧ (env_CreatedAt a ≤ env_CreatedAt b)%Z.
#[export] Instance env_before_dec a b : Decision (env_before a b).
Proof. unfold env_before. apply _. Defined.

Section workspace_repository.
Context {X : Type}.

Definition WorkspaceRepository_Create (ws : Workspace) : prog (World X) () :=
  org_txn (ws_OrganizationID ws) (insert_row ws).

(** The row of a workspace, or [ErrWorkspaceNotFound]. *)
Definition workspace_row (organizationID workspaceID : string) : Tx X Workspace :=
  row ← select_pk workspaceID (ws_in_org organizationID);
  match row with
  | None => tx_fail (ErrWorkspaceNotFound Workspaces)
  | Some w => mret w
  end.

Definition WorkspaceRepository_GetExecutionEngine (organizationID workspaceID : string)
    : prog (World X) string :=
  org_txn organizationID (
    w ← workspace_row organizationID workspaceID;
    mret (ws_ExecutionEngine w)).

Definition WorkspaceRepository_GetByID (organizationID id : string)
    : prog (World X) Workspace :=
  org_txn organizationID (workspace_row organizationID id).

Definition WorkspaceRepository_WorkspaceExists
    (organizationID projectID workspaceID : string) : prog (World X) bool :=
  org_txn organizationID (exists_where (λ w, ws_in_org organizationID w &&
    (ws_ProjectID w =ₛ projectID) && (ws_ID w =ₛ workspaceID))).

Definition WorkspaceRepository_Exists (organizationID workspaceID : string)
    : prog (World X) bool :=
  org_txn organizationID (exists_where (λ w, ws_in_org organizationID w &&
    (ws_ID w =ₛ workspaceID))).

Definition WorkspaceRepository_GetScope (organizationID workspaceID : string)
    : prog (World X) (string * option string) :=
  org_txn organizationID (
    w ← workspace_row organizationID workspaceID;
    mret (ws_ProjectID w, ws_EnvironmentID w)).

(** [SELECT ... FOR UPDATE], then [UPDATE]. *)
Definition WorkspaceRepository_TryLock (organizationID workspaceID runID : string)
    : prog (World X) bool :=
  org_txn organizationID (
    w ← workspace_row organizationID workspaceID;
    if ws_Locked w then mret false
    else
      _ ← update_pk workspaceID (ws_in_org organizationID) (set_lock true (Some runID));
      mret true).

Definition WorkspaceRepository_Unlock (organizationID workspaceID runID : string)
    : prog (World X) () :=
  org_txn organizationID (
    _ ← update_pk workspaceID
          (λ w, ws_in_org organizationID w && bool_decide (ws_LockedByRunID w = Some runID))
          (set_lock false None);
    mret ()).

Definition WorkspaceRepository_Purge (organizationID workspaceID : string)
    : prog (World X) () :=
  org_txn organizationID (
    _ ← delete_where (λ r, run_WorkspaceID r =ₛ workspaceID);
    _ ← delete_where (λ v, (var_ScopeType v =ₛ "workspace") && (var_ScopeID v =ₛ workspaceID));
    _ ← delete_where (λ b, (rb_ScopeType b =ₛ "workspace") && (rb_ScopeID b =ₛ workspaceID));
    _ ← delete_where (λ w, ws_in_org organizationID w && (ws_ID w =ₛ workspaceID));
    mret ()).

Definition WorkspaceRepository_ListByProject (organizationID projectID : string)
    : prog (World X) (list Workspace) :=
  org_txn organizationID (
    ws ← select (λ w, ws_in_org organizationID w && (ws_ProjectID w =ₛ projectID));
    mret (merge_sort ws_earlier ws)).
End workspace_repository.

Section environment_repository.
Context {X : Type}.

Definition EnvironmentRepository_Exists (organizationID environmentID : string)
    : prog (World X) bool :=
  org_txn organizationID (exists_where (λ e, env_in_org organizationID e &&
    (env_ID e =ₛ environmentID))).

Definition EnvironmentRepository_Create (env : Environment) : prog (World X) () :=
  org_txn (env_OrganizationID env) (insert_row env).

Definition EnvironmentRepository_GetByID (organizationID id : string)
    : prog (World X) Environment :=
  org_txn organizationID (
    row ← select_pk id (env_in_org organizationID);
    match row with
    | None => tx_fail ErrEnvironmentNotFound
    | Some e => mret e
    end).

Definition EnvironmentRepository_ListByProject (organizationID projectID : string)
    : prog (World X) (list Environment) :=
  org_txn organizationID (
    es ← select (λ e, env_in_org organizationID e && (env_ProjectID e =ₛ projectID));
    mret (merge_sort env_before es)).
End environment_repository.

(** ** Laws *)

Section workspace_repository_laws.
Context {X : Type}.
Implicit Types w : World X.

(** The row of organization [o]'s workspace [id]. *)
Definition ws_row (d : DB) (o id : string) : option Workspace :=
  row_at (AppRole (Some o)) d id (ws_in_org o).

Lemma ws_row_Some d o id ws :
  ws_row d o id = Some ws ↔ workspaces d !! id = Some ws ∧ ws_OrganizationID ws = o.
Proof.
  unfold ws_row, ws_in_org. rewrite row_at_Some. simpl. unfold tenant_is.
  rewrite !bool_decide_eq_true. naive_solver.
Qed.

Lemma workspace_row_frame o id : tx_frame (X:=X) (workspace_row o id).
Proof. unfold workspace_row. tx_frame_steps. Qed.

Lemma workspace_row_ok o id w w' ws :
  workspace_row o id (AppRole (Some o)) w = (Ok ws, w') →
  w' = w ∧ ws_row (db w) o id = Some ws.
Proof.
  unfold workspace_row. intros H. tx_inv H. apply select_pk_ok in Hst as [-> ->].
  fold (ws_row (db w) o id) in H. destruct (ws_row (db w) o id); tx_inv H. by subst.
Qed.

Lemma WorkspaceRepository_GetByID_exec o id w r w' :
  exec (WorkspaceRepository_GetByID o id) w = (r, w') →
  wframe w w' ∧ db w' = db w ∧
  match r with Err _ => True | Ok ws => ws_row (db w) o id = Some ws end.
Proof.
  intros H. apply exec_txn in H as [Hf Hr]; [|apply workspace_row_frame].
  split; [done|]. destruct r as [ws|e]; [|done]. destruct Hr as [fs Hr].
  apply workspace_row_ok in Hr as [-> ?]. done.
Qed.

Lemma WorkspaceRepository_TryLock_exec o id run w r w' :
  exec (WorkspaceRepository_TryLock o id run) w = (r, w') →
  wframe w w' ∧
  match r with
  | Err _ => db w' = db w
  | Ok true => ∃ ws, ws_row (db w) o id = Some ws ∧ ws_Locked ws = false ∧
      db w' = put_row id (set_lock true (Some run) ws) (db w)
  | Ok false => ∃ ws, ws_row (db w) o id = Some ws ∧ ws_Locked ws = true ∧ db w' = db w
  end.
Proof.
  intros H. apply exec_txn in H as [Hf Hr];
    [|tx_frame_steps; apply workspace_row_frame].
  split; [done|]. destruct r as [b|e]; [|done]. destruct Hr as [fs Hr]. tx_inv Hr.
  apply workspace_row_ok in Hst as [-> Hrow].
  destruct (ws_Locked a) eqn:Hl; tx_inv Hr; subst.
  - eauto.
  - apply update_pk_row in Hst. fold (ws_row (db (set_faults fs w)) o id) in Hst.
    rewrite Hrow in Hst. destruct Hst as [_ ->]. eauto.
Qed.

Lemma WorkspaceRepository_Unlock_exec o id run w r w' :
  exec (WorkspaceRepository_Unlock o id run) w = (r, w') →
  wframe w w' ∧
  match r with
  | Err _ => db w' = db w
  | Ok _ =>
      (∃ ws, ws_row (db w) o id = Some ws ∧ ws_LockedByRunID ws = Some run ∧
         db w' = put_row id (set_lock false None ws) (db w)) ∨
      ((∀ ws, ws_row (db w) o id = Some ws → ws_LockedByRunID ws ≠ Some run) ∧
       db w' = db w)
  end.
Proof.
  intros H. apply exec_txn in H as [Hf Hr]; [|tx_frame_steps].
  split; [done|]. destruct r as [[]|e]; [|done]. destruct Hr as [fs Hr]. tx_inv Hr. subst.
  apply update_pk_row in Hst. destruct (row_at _ _ _ _) as [ws|] eqn:Hrow; destruct Hst as [_ ->].
  - left. exists ws. apply row_at_Some in Hrow as (Hw & Hv & HP). bools.
    split_and!; [|done|done]. by apply row_at_Some.
  - right. split; [|done]. intros ws (Hw & Hv & HP)%row_at_Some Hl.
    assert (row_at (AppRole (Some o)) (db (set_faults fs w)) id
      (λ x, ws_in_org o x && bool_decide (ws_LockedByRunID x = Some run)) = Some ws);
      [|congruence].
    apply row_at_Some. split_and!; [done..|]. rewrite HP. by rewrite bool_decide_true.
Qed.
End workspace_repository_laws.

