(* ===== verification/TenancyRepo.v ===== *)
(** * The tenancy repositories (internal/tenancy/adapters/postgres):
    organizations, memberships, projects and teams *)
From S2P Require Import Prelude Prog RunDomain WorkspaceDomain RbacDomain VariableDomain.
From S2P Require Import TenancyDomain IdentityDomain FleetDomain Store Outbox.

Definition om_in (organizationID userID : string) (m : OrganizationMembership) : bool :=
  (om_OrganizationID m =ₛ organizationID) && (om_UserID m =ₛ userID).

Definition not_blocked (m : OrganizationMembership) : bool :=
  bool_decide (om_BlockedAt m = None).

Definition sa_in (organizationID id : string) (a : ServiceAccount) : bool :=
  (sa_OrganizationID a =ₛ organizationID) && (sa_ID a =ₛ id).

Definition set_blocked_at (t : option Z) (m : OrganizationMembership)
    : OrganizationMembership :=
  mkMembership (om_ID m) (om_OrganizationID m) (om_UserID m) (om_JoinedAt m) t.

Definition joined_earlier (a b : OrganizationMembership) : Prop :=
  (om_JoinedAt a ≤ om_JoinedAt b)%Z.
#[export] Instance joined_earlier_dec a b : Decision (joined_earlier a b).
Proof. unfold joined_earlier. apply _. Defined.

Section tenancy_repositories.
Context {X : Type}.

Definition MembershipRepository_Create (m : OrganizationMembership) : prog (World X) () :=
  org_txn (om_OrganizationID m) (insert_row (set_blocked_at None m)).

(** A member is a user with an unblocked membership, or a service account
    of the organization. *)
Definition MembershipRepository_IsMember (organizationID subjectID : string)
    : prog (World X) bool :=
  org_txn organizationID (
    member ← exists_where (λ m, om_in organizationID subjectID m && not_blocked m);
    account ← exists_where (sa_in organizationID subjectID);
    mret (member || account)).

Definition MembershipRepository_MembershipExists (organizationID userID : string)
    : prog (World X) bool :=
  org_txn organizationID (exists_where (om_in organizationID userID)).

Definition MembershipRepository_SetBlocked (organizationID userID : string)
    (blocked : bool) : prog (World X) () :=
  org_txn organizationID (
    now ← sql_now;
    _ ← update_where (om_in organizationID userID)
          (set_blocked_at (if blocked then Some now else None));
    mret ()).

Definition MembershipRepository_Delete (organizationID userID : string)
    : prog (World X) () :=
  org_txn organizationID (
    _ ← delete_where (om_in organizationID userID);
    mret ()).

Definition MembershipRepository_ListByOrganization (organizationID : string)
    : prog (World X) (list OrganizationMembership) :=
  org_txn organizationID (
    ms ← select (λ m, om_OrganizationID m =ₛ organizationID);
    mret (merge_sort joined_earlier ms)).

(** ** Organizations *)

Definition OrganizationRepository_Create (org : Organization) (createdByUserID : string)
    : prog (World X) () :=
  org_txn (org_ID org) (
    on_code "23505" ErrOrganizationSlugTaken (insert_row org);;
    Write (org_ID org) "OrganizationCreated" (payload
      [("actor", createdByUserID); ("target_type", "organization"); ("target_id", org_ID org);
       ("name", org_Name org); ("slug", org_Slug org)])).

Definition OrganizationRepository_GetByID (id : string) : prog (World X) Organization :=
  org_txn id (get_row id (λ _ : Organization, true) ErrOrganizationNotFound).

(** [UPDATE organizations SET status = $2, archived_at = $3] *)
Definition set_archival (org row : Organization) : Organization :=
  mkOrganization (org_ID row) (org_Name row) (org_Slug row) (org_Status org)
    (org_ArchivedAt org) (org_CreatedAt row).

Definition OrganizationRepository_Archive (org : Organization) (archivedByUserID : string)
    : prog (World X) () :=
  org_txn (org_ID org) (
    _ ← update_pk (org_ID org) (λ _ : Organization, true) (set_archival org);
    Write (org_ID org) "OrganizationArchived" (payload
      [("actor", archivedByUserID); ("target_type", "organization");
       ("target_id", org_ID org)])).

(** The status column alone. *)
Definition OrganizationRepository_IsArchived (organizationID : string)
    : prog (World X) bool :=
  org_txn organizationID (
    row ← select_pk organizationID (λ _ : Organization, true);
    match row with
    | None => tx_fail ErrOrganizationNotFound
    | Some o => mret (org_Status o =ₛ OrganizationStatusArchived)
    end).

(** One statement outside any transaction, on a table without row-level
    security. *)
Definition OrganizationRepository_FindOrganizationsPastPurgeWindow (archivedBefore : Z)
    : prog (World X) (list string) :=
  txn (AppRole None) (
    es ← select (λ e, (oe_EventType e =ₛ "OrganizationArchived") &&
                      bool_decide (oe_OccurredAt e < archivedBefore)%Z);
    mret (map (λ e, field "target_id" (oe_Payload e)) es)).

(** [DELETE FROM t WHERE organization_id = $1] *)
Definition purge_org {T} `{Table T} (organization_id : T → string) (organizationID : string)
    : Tx X () :=
  _ ← delete_where (λ r, organization_id r =ₛ organizationID);
  mret ().

(** [OrganizationRepository.Purge]: the statements, in their order. *)
Definition purge_organization (organizationID : string) : Tx X () :=
  purge_org run_OrganizationID organizationID;;
  purge_org oe_OrganizationID organizationID;;
  purge_org ik_OrganizationID organizationID;;
  purge_org var_OrganizationID organizationID;;
  purge_org sm_OrganizationID organizationID;;
  purge_org op_OrganizationID organizationID;;
  purge_org fv_OrganizationID organizationID;;
  purge_org va_OrganizationID organizationID;;
  purge_org na_OrganizationID organizationID;;
  purge_org cf_OrganizationID organizationID;;
  purge_org mach_OrganizationID organizationID;;
  purge_org net_OrganizationID organizationID;;
  purge_org vol_OrganizationID organizationID;;
  purge_org akr_OrganizationID organizationID;;
  purge_org sa_OrganizationID organizationID;;
  purge_org ws_OrganizationID organizationID;;
  purge_org env_OrganizationID organizationID;;
  purge_org tm_OrganizationID organizationID;;
  purge_org team_OrganizationID organizationID;;
  purge_org rb_OrganizationID organizationID;;
  _ ← delete_where (λ r, bool_decide (role_OrganizationID r = Some organizationID));
  purge_org proj_OrganizationID organizationID;;
  purge_org om_OrganizationID organizationID;;
  purge_org entry_OrganizationID organizationID;;
  purge_org org_ID organizationID.

Definition OrganizationRepository_Purge (organizationID : string) : prog (World X) () :=
  org_txn organizationID (purge_organization organizationID).

(** ** Projects *)

Definition proj_in_org (organizationID : string) (p : Project) : bool :=
  proj_OrganizationID p =ₛ organizationID.

Definition ProjectRepository_Create (project : Project) : prog (World X) () :=
  org_txn (proj_OrganizationID project)
    (on_code "23505" ErrProjectAlreadyExists (insert_row project)).

Definition ProjectRepository_GetByID (organizationID id : string) : prog (World X) Project :=
  org_txn organizationID
    (get_row id (proj_in_org organizationID) (ErrProjectNotFound Tenancy)).

Definition ProjectRepository_ProjectExists (organizationID projectID : string)
    : prog (World X) bool :=
  org_txn organizationID (exists_where (λ p,
    (proj_OrganizationID p =ₛ organizationID) && (proj_ID p =ₛ projectID))).

(** [scope_type = t AND scope_id IN (SELECT id ...)] *)
Definition scoped_to (scopeType scopeID t : string) (ids : list string) : bool :=
  (scopeType =ₛ t) && (scopeID ∈ₛ ids).

(** The statements of [ProjectRepository.Purge]. *)
Definition purge_project (organizationID projectID : string) : Tx X () :=
  ws ← select (λ w, ws_ProjectID w =ₛ projectID);
  envs ← select (λ e, env_ProjectID e =ₛ projectID);
  let workspaceIDs := map ws_ID ws in
  let environmentIDs := map env_ID envs in
  _ ← delete_where (λ r, run_WorkspaceID r ∈ₛ workspaceIDs);
  _ ← delete_where (λ v,
    scoped_to (var_ScopeType v) (var_ScopeID v) "project" [projectID] ||
    scoped_to (var_ScopeType v) (var_ScopeID v) "environment" environmentIDs ||
    scoped_to (var_ScopeType v) (var_ScopeID v) "workspace" workspaceIDs);
  _ ← delete_where (λ b,
    scoped_to (rb_ScopeType b) (rb_ScopeID b) "project" [projectID] ||
    scoped_to (rb_ScopeType b) (rb_ScopeID b) "workspace" workspaceIDs);
  _ ← delete_where (λ a, pa_ProjectID a =ₛ projectID);
  _ ← delete_where (λ w, ws_ProjectID w =ₛ projectID);
  _ ← delete_where (λ e, env_ProjectID e =ₛ projectID);
  _ ← delete_where (λ p, proj_in_org organizationID p && (proj_ID p =ₛ projectID));
  mret ().

Definition ProjectRepository_Purge (organizationID projectID : string) : prog (World X) () :=
  org_txn organizationID (purge_project organizationID projectID).

(** [ORDER BY created_at] *)
Definition proj_earlier (a b : Project) : Prop := (proj_CreatedAt a ≤ proj_CreatedAt b)%Z.
#[export] Instance proj_earlier_dec a b : Decision (proj_earlier a b).
Proof. unfold proj_earlier. apply _. Defined.

Definition ProjectRepository_ListByOrganization (organizationID : string)
    : prog (World X) (list Project) :=
  org_txn organizationID (
    ps ← select (proj_in_org organizationID);
    mret (merge_sort proj_earlier ps)).

(** ** Teams *)

Definition team_in_org (organizationID : string) (t : Team) : bool :=
  team_OrganizationID t =ₛ organizationID.
Definition tm_in (organizationID teamID : string) (m : TeamMembership) : bool :=
  (tm_TeamID m =ₛ teamID) && (tm_OrganizationID m =ₛ organizationID).

Definition TeamRepository_Create (team : Team) : prog (World X) () :=
  org_txn (team_OrganizationID team) (on_code "23505" ErrTeamAlreadyExists (insert_row team)).

Definition set_team_name (name : string) (t : Team) : Team :=
  mkTeam (team_ID t) (team_OrganizationID t) name (team_CreatedAt t).

Definition TeamRepository_Update (team : Team) : prog (World X) () :=
  org_txn (team_OrganizationID team) (
    _ ← on_code "23505" ErrTeamAlreadyExists
          (update_unique (team_ID team) (team_in_org (team_OrganizationID team))
             (set_team_name (team_Name team)));
    mret ()).

Definition TeamRepository_Delete (organizationID teamID : string) : prog (World X) () :=
  org_txn organizationID (
    _ ← delete_where (tm_in organizationID teamID);
    _ ← delete_where (λ t, (team_ID t =ₛ teamID) && team_in_org organizationID t);
    mret ()).

Definition TeamRepository_GetByID (organizationID teamID : string) : prog (World X) Team :=
  org_txn organizationID (get_row teamID (team_in_org organizationID) ErrTeamNotFound).

Definition tm_earlier (a b : TeamMembership) : Prop := (tm_JoinedAt a ≤ tm_JoinedAt b)%Z.
#[export] Instance tm_earlier_dec a b : Decision (tm_earlier a b).
Proof. unfold tm_earlier. apply _. Defined.

Definition TeamRepository_ListMembers (organizationID teamID : string)
    : prog (World X) (list TeamMembership) :=
  org_txn organizationID (
    ms ← select (tm_in organizationID teamID);
    mret (merge_sort tm_earlier ms)).

Definition team_earlier (a b : Team) : Prop := (team_CreatedAt a ≤ team_CreatedAt b)%Z.
#[export] Instance team_earlier_dec a b : Decision (team_earlier a b).
Proof. unfold team_earlier. apply _. Defined.

Definition TeamRepository_ListByOrganization (organizationID : string)
    : prog (World X) (list Team) :=
  org_txn organizationID (
    ts ← select (team_in_org organizationID);
    mret (merge_sort team_earlier ts)).

Definition TeamRepository_TeamExists (organizationID teamID : string)
    : prog (World X) bool :=
  org_txn organizationID (exists_where (λ t,
    (team_ID t =ₛ teamID) && (team_OrganizationID t =ₛ organizationID))).

Definition TeamRepository_AddMember (m : TeamMembership) : prog (World X) () :=
  org_txn (tm_OrganizationID m) (insert_or_nothing m).

Definition TeamRepository_RemoveMember (organizationID teamID userID : string)
    : prog (World X) () :=
  org_txn organizationID (
    _ ← delete_where (λ m, (tm_TeamID m =ₛ teamID) && (tm_UserID m =ₛ userID));
    mret ()).

(** ** The root connection *)

Definition org_earlier (a b : Organization) : Prop := (org_CreatedAt a ≤ org_CreatedAt b)%Z.
#[export] Instance org_earlier_dec a b : Decision (org_earlier a b).
Proof. unfold org_earlier. apply _. Defined.

(** The join, one row per membership. *)
Definition RootMembershipRepository_ListOrganizationsForUser (userID : string)
    : prog (World X) (list Organization) :=
  txn Root (
    os ← select (λ _ : Organization, true);
    ms ← select (λ m, om_UserID m =ₛ userID);
    mret (merge_sort org_earlier
      (flat_map (λ o, map (λ _, o)
         (filter (λ m : OrganizationMembership, om_OrganizationID m = org_ID o) ms)) os))).

Definition RootMembershipRepository_CountOrganizations : prog (World X) nat :=
  txn Root (
    os ← select (λ _ : Organization, true);
    mret (length os)).
End tenancy_repositories.
