(* ===== verification/IdentityRepo.v ===== *)
(** * The identity repositories (internal/identity/adapters/postgres)

    Users, their tokens and API keys have no row-level security, and most of
    these methods are a single statement, its own transaction. *)
From S2P Require Import Prelude Prog TenancyDomain IdentityDomain Store.

Section identity_repositories.
Context {X : Type}.

(** One statement on the pool. *)
Notation stmt := (txn (X:=X) (AppRole None)).

(** ** Users *)

Definition UserRepository_Create (user : User) : prog (World X) () :=
  stmt (on_code "23505" ErrUserAlreadyExists (insert_row user)).

Definition UserRepository_GetByUsername (username : string) : prog (World X) User :=
  stmt (first_row (λ u, user_Username u =ₛ username) ErrUserNotFound).

Definition UserRepository_GetByID (id : string) : prog (World X) User :=
  stmt (get_row id (λ _ : User, true) ErrUserNotFound).

Definition UserRepository_GetByEmail (email : string) : prog (World X) User :=
  stmt (first_row (λ u, user_Email u =ₛ email) ErrUserNotFound).

Definition UserRepository_Count : prog (World X) nat :=
  stmt (us ← select (λ _ : User, true); mret (length us)).

(** [(username, email, found)] *)
Definition UserRepository_GetUser (id : string) : prog (World X) (string * string * bool) :=
  stmt (
    row ← select_pk id (λ _ : User, true);
    mret (match row with
          | Some u => (user_Username u, user_Email u, true)
          | None => ("", "", false)
          end)).

(** [ORDER BY username] *)
Definition username_before (a b : User) : Prop :=
  String.leb (user_Username a) (user_Username b) = true.
#[export] Instance username_before_dec a b : Decision (username_before a b).
Proof. unfold username_before. apply _. Defined.

Definition UserRepository_ListAll : prog (World X) (list (string * string * string)) :=
  stmt (
    us ← select (λ _ : User, true);
    mret (map (λ u, (user_ID u, user_Username u, user_Email u)) (merge_sort username_before us))).

Definition UserRepository_UpdatePasswordHash (userID passwordHash : string)
    : prog (World X) () :=
  stmt (_ ← update_pk userID (λ _ : User, true) (set_password (Some passwordHash)); mret ()).

Definition UserRepository_IsPlatformAdmin (userID : string) : prog (World X) bool :=
  stmt (
    u ← get_row userID (λ _ : User, true) ErrUserNotFound;
    mret (user_IsPlatformAdmin u)).

Definition UserRepository_SetPlatformAdmin (userID : string) (isAdmin : bool)
    : prog (World X) () :=
  stmt (_ ← update_pk userID (λ _ : User, true) (set_admin isAdmin); mret ()).

(** ** Refresh and password-reset tokens *)

Definition RefreshTokenRepository_Create (t : RefreshToken) : prog (World X) () :=
  stmt (insert_row t).

Definition RefreshTokenRepository_GetByHash (tokenHash : string) : prog (World X) RefreshToken :=
  stmt (first_row (λ t, rt_TokenHash t =ₛ tokenHash) ErrRefreshTokenInvalid).

Definition revoke_token (now : Z) (t : RefreshToken) : RefreshToken :=
  mkRefreshToken (rt_ID t) (rt_UserID t) (rt_TokenHash t) (rt_ExpiresAt t) (Some now)
    (rt_CreatedAt t).

Definition RefreshTokenRepository_Revoke (id : string) : prog (World X) () :=
  stmt (
    now ← sql_now;
    _ ← update_pk id (λ _ : RefreshToken, true) (revoke_token now);
    mret ()).

Definition PasswordResetTokenRepository_Create (t : PasswordResetToken) : prog (World X) () :=
  stmt (insert_row t).

Definition PasswordResetTokenRepository_GetByHash (tokenHash : string)
    : prog (World X) PasswordResetToken :=
  stmt (first_row (λ t, prt_TokenHash t =ₛ tokenHash) ErrPasswordResetTokenInvalid).

Definition use_token (now : Z) (t : PasswordResetToken) : PasswordResetToken :=
  mkPasswordResetToken (prt_ID t) (prt_UserID t) (prt_TokenHash t) (prt_ExpiresAt t) (Some now)
    (prt_CreatedAt t).

Definition PasswordResetTokenRepository_MarkUsed (id : string) : prog (World X) () :=
  stmt (
    now ← sql_now;
    _ ← update_pk id (λ _ : PasswordResetToken, true) (use_token now);
    mret ()).

(** ** Service accounts and API keys *)

Definition ServiceAccountRepository_Create (sa : ServiceAccount) : prog (World X) () :=
  org_txn (sa_OrganizationID sa) (insert_row sa).

Definition ServiceAccountRepository_GetByID (organizationID id : string)
    : prog (World X) ServiceAccount :=
  org_txn organizationID (
    get_row id (λ a, sa_OrganizationID a =ₛ organizationID) ErrServiceAccountNotFound).

Definition ServiceAccountRepository_ServiceAccountExists
    (organizationID serviceAccountID : string) : prog (World X) bool :=
  org_txn organizationID (exists_where (λ a,
    (sa_ID a =ₛ serviceAccountID) && (sa_OrganizationID a =ₛ organizationID))).

Definition APIKeyRepository_Create (organizationID : string) (key : APIKey)
    : prog (World X) () :=
  stmt (insert_row (mkAPIKeyRow organizationID key)).

Definition APIKeyRepository_GetByHash (keyHash : string) : prog (World X) APIKey :=
  stmt (
    row ← first_row (λ k, ak_KeyHash (akr_Key k) =ₛ keyHash) ErrAPIKeyInvalid;
    mret (akr_Key row)).

Definition set_key (f : APIKey → APIKey) (k : APIKeyRow) : APIKeyRow :=
  mkAPIKeyRow (akr_OrganizationID k) (f (akr_Key k)).

Definition APIKeyRepository_TouchLastUsed (id : string) : prog (World X) () :=
  stmt (
    now ← sql_now;
    _ ← update_pk id (λ _ : APIKeyRow, true) (set_key (set_last_used now));
    mret ()).

Definition APIKeyRepository_Revoke (organizationID keyID : string) : prog (World X) () :=
  stmt (
    now ← sql_now;
    affected ErrAPIKeyInvalid
      (update_pk keyID
         (λ k, (akr_OrganizationID k =ₛ organizationID) &&
               bool_decide (ak_RevokedAt (akr_Key k) = None))
         (set_key (set_revoked now)))).
End identity_repositories.
