(* ===== verification/FleetRepo.v ===== *)
(** * The fleet repositories (internal/fleet/adapters/postgres)

    Every write and its audit event are one transaction of the organization;
    only [OperationScanner] looks across organizations. *)
From S2P Require Import Prelude Prog TenancyDomain FleetDomain Store Outbox.

(** [ORDER BY created_at], [ORDER BY created_at DESC], [ORDER BY name] *)
Definition oldest_first {T} (at_ : T → Z) (a b : T) : Prop := (at_ a ≤ at_ b)%Z.
Definition newest_first {T} (at_ : T → Z) (a b : T) : Prop := (at_ b ≤ at_ a)%Z.
Definition by_text {T} (text : T → string) (a b : T) : Prop := String.leb (text a) (text b) = true.
#[export] Instance oldest_first_dec {T} (at_ : T → Z) a b : Decision (oldest_first at_ a b).
Proof. unfold oldest_first. apply _. Defined.
#[export] Instance newest_first_dec {T} (at_ : T → Z) a b : Decision (newest_first at_ a b).
Proof. unfold newest_first. apply _. Defined.
#[export] Instance by_text_dec {T} (text : T → string) a b : Decision (by_text text a b).
Proof. unfold by_text. apply _. Defined.

(** [a JOIN b ON b.id = a.key] *)
Definition join {A B} (key : A → string) (id : B → string) (l : list A) (bs : list B) : list (A * B) :=
  a ← l; b ← filter (λ b, id b = key a) bs; [(a, b)].

(** The row a machine is written to: [credentialRefColumns] and
    [localCredentialColumns] keep the columns of its storage only, and NULLs
    read back as zero values. *)
Definition machine_row (m : Machine) : Machine :=
  let vault := mach_CredentialStorage m =ₛ CredentialStorageVault in
  let local := mach_CredentialStorage m =ₛ CredentialStorageLocal in
  let bytes s := if local then s else "" in
  mkMachine (mach_ID m) (mach_OrganizationID m) (mach_Name m) (mach_Host m) (mach_SSHPort m)
    (mach_SSHUser m) (mach_CredentialType m) (mach_CredentialStorage m)
    (if vault then mach_CredentialRef m else mkFleetSecretReference "" "")
    (bytes (mach_EncryptedCredential m)) (bytes (mach_CredentialNonce m))
    (bytes (mach_CredentialSalt m)) (mach_DeployBasePath m) (mach_ConnectionStatus m)
    (mach_DockerStatus m) (mach_LastCheckedAt m) (mach_Archived m) (mach_CreatedAt m).

(** [UPDATE machines SET ...]: the columns it names, over [row]. *)
Definition machine_update (m row : Machine) : Machine :=
  let new := machine_row m in
  mkMachine (mach_ID row) (mach_OrganizationID row) (mach_Name row) (mach_Host row)
    (mach_SSHPort row) (mach_SSHUser new) (mach_CredentialType new) (mach_CredentialStorage new)
    (mach_CredentialRef new) (mach_EncryptedCredential new) (mach_CredentialNonce new)
    (mach_CredentialSalt new) (mach_DeployBasePath new) (mach_ConnectionStatus new)
    (mach_DockerStatus new) (mach_LastCheckedAt new) (mach_Archived row) (mach_CreatedAt row).

Definition set_archived (b : bool) (m : Machine) : Machine :=
  mkMachine (mach_ID m) (mach_OrganizationID m) (mach_Name m) (mach_Host m) (mach_SSHPort m)
    (mach_SSHUser m) (mach_CredentialType m) (mach_CredentialStorage m) (mach_CredentialRef m)
    (mach_EncryptedCredential m) (mach_CredentialNonce m) (mach_CredentialSalt m)
    (mach_DeployBasePath m) (mach_ConnectionStatus m) (mach_DockerStatus m)
    (mach_LastCheckedAt m) b (mach_CreatedAt m).

(** The row of a variable holds a value or a secret reference, never both. *)
Definition fleet_variable_row (v : FleetVariable) : FleetVariable :=
  mkFleetVariable (fv_ID v) (fv_OrganizationID v) (fv_ComposeFileID v) (fv_Key v) (fv_VarType v)
    (match fv_SecretRef v with Some _ => "" | None => fv_Value v end) (fv_SecretRef v)
    (fv_FileTargetPath v) (fv_CreatedAt v).
Definition fleet_variable_update (v row : FleetVariable) : FleetVariable :=
  let new := fleet_variable_row v in
  mkFleetVariable (fv_ID row) (fv_OrganizationID row) (fv_ComposeFileID row) (fv_Key row)
    (fv_VarType row) (fv_Value new) (fv_SecretRef new) (fv_FileTargetPath new) (fv_CreatedAt row).

Definition start_operation (now : Z) (o : Operation) : Operation :=
  mkOperation (op_ID o) (op_OrganizationID o) (op_ComposeFileID o) (op_MachineID o)
    (op_OperationType o) OperationStatusRunning (op_TriggeredBy o) (op_CreatedAt o) (Some now)
    (op_FinishedAt o) (op_ExitCode o) (op_Output o).
Definition finish_operation (status : string) (now : Z) (exitCode : option Z) (output : string)
    (o : Operation) : Operation :=
  mkOperation (op_ID o) (op_OrganizationID o) (op_ComposeFileID o) (op_MachineID o)
    (op_OperationType o) status (op_TriggeredBy o) (op_CreatedAt o) (op_StartedAt o)
    (Some now) exitCode output.

Definition mach_in (organizationID : string) (m : Machine) : bool :=
  mach_OrganizationID m =ₛ organizationID.
Definition net_in (organizationID : string) (n : Network) : bool :=
  net_OrganizationID n =ₛ organizationID.
Definition vol_in (organizationID : string) (v : Volume) : bool :=
  vol_OrganizationID v =ₛ organizationID.
Definition cf_in (organizationID : string) (c : ComposeFile) : bool :=
  cf_OrganizationID c =ₛ organizationID.
Definition fv_in (organizationID : string) (v : FleetVariable) : bool :=
  fv_OrganizationID v =ₛ organizationID.
Definition op_in (organizationID : string) (o : Operation) : bool :=
  op_OrganizationID o =ₛ organizationID.

(** What an operator sees of a volume attachment, and of a linked project. *)
Record VolumeAttachmentView := mkVolumeAttachmentView {
  vav_Volume : Volume;
  vav_ContainerPath : string;
}.
Record ProjectSummary := mkProjectSummary {
  ps_ID : string;
  ps_Name : string;
  ps_Slug : string;
}.
Record OperationCandidate := mkOperationCandidate {
  oc_OperationID : string;
  oc_OrganizationID : string;
}.

Section fleet_repositories.
Context {X : Type}.

(** The audit event of a write. *)
Definition fleet_event (organizationID eventType actor targetType targetID : string)
    (more : list (string * string)) : Tx X () :=
  Write organizationID eventType (payload
    (("actor", actor) :: ("target_type", targetType) :: ("target_id", targetID) :: more)).

(** [DELETE FROM t WHERE organization_id = $1 AND id = $2] *)
Definition delete_one `{Table T} (P : T → bool) (id : string) : Tx X nat :=
  delete_where (λ r, P r && (pk r =ₛ id)).

(** ** Machines *)

Definition MachineRepository_Create (actorUserID : string) (m : Machine) : prog (World X) () :=
  org_txn (mach_OrganizationID m) (
    on_code "23505" ErrMachineNameTaken (insert_row (machine_row m));;
    fleet_event (mach_OrganizationID m) "FleetMachineCreated" actorUserID "machine" (mach_ID m)
      [("name", mach_Name m); ("host", mach_Host m)]).

Definition MachineRepository_GetByID (organizationID id : string) : prog (World X) Machine :=
  org_txn organizationID (get_row id (mach_in organizationID) ErrMachineNotFound).

Definition MachineRepository_ListByOrganization (organizationID : string) (includeArchived : bool)
    : prog (World X) (list Machine) :=
  org_txn organizationID (
    ms ← select (λ m, mach_in organizationID m && (includeArchived || negb (mach_Archived m)));
    mret (merge_sort (oldest_first mach_CreatedAt) ms)).

Definition MachineRepository_Update (actorUserID : string) (m : Machine) : prog (World X) () :=
  org_txn (mach_OrganizationID m) (
    affected ErrMachineNotFound
      (update_pk (mach_ID m) (mach_in (mach_OrganizationID m)) (machine_update m));;
    fleet_event (mach_OrganizationID m) "FleetMachineUpdated" actorUserID "machine" (mach_ID m) []).

Definition MachineRepository_Delete (actorUserID organizationID id : string) : prog (World X) () :=
  org_txn organizationID (
    affected ErrMachineNotFound
      (on_code "23503" ErrMachineHasHistory (delete_one (mach_in organizationID) id));;
    fleet_event organizationID "FleetMachineDeleted" actorUserID "machine" id []).

Definition MachineRepository_Archive (actorUserID organizationID id : string) : prog (World X) () :=
  org_txn organizationID (
    affected ErrMachineNotFound (update_pk id (mach_in organizationID) (set_archived true));;
    fleet_event organizationID "FleetMachineArchived" actorUserID "machine" id []).

Definition MachineRepository_Unarchive (actorUserID organizationID id : string) : prog (World X) () :=
  org_txn organizationID (
    affected ErrMachineNotFound (update_pk id (mach_in organizationID) (set_archived false));;
    fleet_event organizationID "FleetMachineUnarchived" actorUserID "machine" id []).

(** ** Networks and volumes *)

Definition NetworkRepository_Create (n : Network) : prog (World X) () :=
  org_txn (net_OrganizationID n) (
    insert_row n;;
    fleet_event (net_OrganizationID n) "FleetNetworkCreated" (net_CreatedBy n) "network" (net_ID n)
      [("name", net_Name n)]).

Definition NetworkRepository_GetByID (organizationID id : string) : prog (World X) Network :=
  org_txn organizationID (get_row id (net_in organizationID) ErrNetworkNotFound).

Definition NetworkRepository_ListByOrganization (organizationID : string)
    : prog (World X) (list Network) :=
  org_txn organizationID (
    ns ← select (net_in organizationID);
    mret (merge_sort (oldest_first net_CreatedAt) ns)).

Definition NetworkRepository_Delete (actorUserID organizationID id : string) : prog (World X) () :=
  org_txn organizationID (
    affected ErrNetworkNotFound
      (on_code "23503" ErrNetworkInUse (delete_one (net_in organizationID) id));;
    fleet_event organizationID "FleetNetworkDeleted" actorUserID "network" id []).

Definition VolumeRepository_Create (v : Volume) : prog (World X) () :=
  org_txn (vol_OrganizationID v) (
    insert_row v;;
    fleet_event (vol_OrganizationID v) "FleetVolumeCreated" (vol_CreatedBy v) "volume" (vol_ID v)
      [("name", vol_Name v)]).

Definition VolumeRepository_GetByID (organizationID id : string) : prog (World X) Volume :=
  org_txn organizationID (get_row id (vol_in organizationID) ErrVolumeNotFound).

Definition VolumeRepository_ListByOrganization (organizationID : string)
    : prog (World X) (list Volume) :=
  org_txn organizationID (
    vs ← select (vol_in organizationID);
    mret (merge_sort (oldest_first vol_CreatedAt) vs)).

Definition VolumeRepository_Delete (actorUserID organizationID id : string) : prog (World X) () :=
  org_txn organizationID (
    affected ErrVolumeNotFound
      (on_code "23503" ErrVolumeInUse (delete_one (vol_in organizationID) id));;
    fleet_event organizationID "FleetVolumeDeleted" actorUserID "volume" id []).

(** ** Compose files *)

(** The error of the index [compose_files_one_global_per_org] is told from
    that of the others; Postgres checks the indexes in the order of their
    creation and reports the first. *)
Definition on_second_global (c : ComposeFile) (t : Tx X ()) : Tx X () := λ s w,
  match t s w with
  | (Err (PgError code), w') =>
      let others := existsb (λ r, (cf_OrganizationID c =ₛ cf_OrganizationID r) &&
                              (cf_Name c =ₛ cf_Name r)) (rows (db w)) ||
                    bool_decide (is_Some (compose_files (db w) !! cf_ID c)) in
      (Err (if (code =ₛ "23505") && negb others then ErrGlobalComposeFileExists else PgError code), w')
  | r => r
  end.

Definition ComposeFileRepository_Create (c : ComposeFile) : prog (World X) () :=
  org_txn (cf_OrganizationID c) (
    on_second_global c (insert_row c);;
    fleet_event (cf_OrganizationID c) "FleetComposeFileCreated" (cf_CreatedBy c) "compose_file"
      (cf_ID c) [("name", cf_Name c)]).

Definition ComposeFileRepository_GetByID (organizationID id : string)
    : prog (World X) ComposeFile :=
  org_txn organizationID (get_row id (cf_in organizationID) ErrComposeFileNotFound).

(** [None] is [found = false]. *)
Definition ComposeFileRepository_GetGlobal (organizationID : string)
    : prog (World X) (option ComposeFile) :=
  org_txn organizationID (
    cs ← select (λ c, cf_in organizationID c && cf_IsGlobal c);
    mret (head cs)).

Definition ComposeFileRepository_ListByOrganization (organizationID : string)
    : prog (World X) (list ComposeFile) :=
  org_txn organizationID (
    cs ← select (cf_in organizationID);
    mret (merge_sort (oldest_first cf_CreatedAt) cs)).

Definition ComposeFileRepository_UpdateContent (actorUserID organizationID id content : string)
    : prog (World X) () :=
  org_txn organizationID (
    affected ErrComposeFileNotFound (update_pk id (cf_in organizationID) (set_content content));;
    fleet_event organizationID "FleetComposeFileContentUpdated" actorUserID "compose_file" id []).

Definition ComposeFileRepository_Delete (actorUserID organizationID id : string)
    : prog (World X) () :=
  org_txn organizationID (
    affected ErrComposeFileNotFound
      (on_code "23503" ErrComposeFileHasHistory (delete_one (cf_in organizationID) id));;
    fleet_event organizationID "FleetComposeFileDeleted" actorUserID "compose_file" id []).

(** ** Attachments *)

(** [INSERT ... ON CONFLICT (unique key) DO UPDATE SET f]: the row in the
    way must be visible, or the policy refuses. *)
Definition insert_or_update `{Table R} (r : R) (f : R → R) : Tx X () := λ s w,
  if negb (visible s r) then (Err (PgError "42501"), w)
  else match list_find (λ kr, tunique r kr.2 = true) (map_to_list (tget (db w))) with
       | Some (_, (id, row)) =>
           if visible s row
           then (Ok (), set_db (tset (<[id := f row]> (tget (db w))) (db w)) w)
           else (Err (PgError "42501"), w)
       | None => insert_row r s w
       end.

Definition set_container_path (p : string) (a : VolumeAttachment) : VolumeAttachment :=
  mkVolumeAttachment (va_ID a) (va_OrganizationID a) (va_ComposeFileID a) (va_VolumeID a) p.

Definition AttachmentRepository_AttachNetwork
    (actorUserID organizationID composeFileID networkID : string) : prog (World X) () :=
  org_txn organizationID (
    id ← tx_uuid;
    insert_or_nothing (mkNetworkAttachment id organizationID composeFileID networkID);;
    fleet_event organizationID "FleetNetworkAttached" actorUserID "compose_file" composeFileID
      [("network_id", networkID)]).

Definition AttachmentRepository_DetachNetwork
    (actorUserID organizationID composeFileID networkID : string) : prog (World X) () :=
  org_txn organizationID (
    _ ← delete_where (λ a, (na_OrganizationID a =ₛ organizationID) &&
          (na_ComposeFileID a =ₛ composeFileID) && (na_NetworkID a =ₛ networkID));
    fleet_event organizationID "FleetNetworkDetached" actorUserID "compose_file" composeFileID
      [("network_id", networkID)]).

Definition AttachmentRepository_ListNetworksForComposeFile (organizationID composeFileID : string)
    : prog (World X) (list Network) :=
  org_txn organizationID (
    links ← select (λ a, (na_OrganizationID a =ₛ organizationID) &&
                         (na_ComposeFileID a =ₛ composeFileID));
    ns ← select (λ _ : Network, true);
    mret (merge_sort (by_text net_Name) (map snd (join na_NetworkID net_ID links ns)))).

Definition AttachmentRepository_AttachVolume
    (actorUserID organizationID composeFileID volumeID containerPath : string)
    : prog (World X) () :=
  org_txn organizationID (
    id ← tx_uuid;
    insert_or_update (mkVolumeAttachment id organizationID composeFileID volumeID containerPath)
      (set_container_path containerPath);;
    fleet_event organizationID "FleetVolumeAttached" actorUserID "compose_file" composeFileID
      [("volume_id", volumeID)]).

Definition AttachmentRepository_DetachVolume
    (actorUserID organizationID composeFileID volumeID : string) : prog (World X) () :=
  org_txn organizationID (
    _ ← delete_where (λ a, (va_OrganizationID a =ₛ organizationID) &&
          (va_ComposeFileID a =ₛ composeFileID) && (va_VolumeID a =ₛ volumeID));
    fleet_event organizationID "FleetVolumeDetached" actorUserID "compose_file" composeFileID
      [("volume_id", volumeID)]).

Definition AttachmentRepository_ListVolumesForComposeFile (organizationID composeFileID : string)
    : prog (World X) (list VolumeAttachmentView) :=
  org_txn organizationID (
    links ← select (λ a, (va_OrganizationID a =ₛ organizationID) &&
                         (va_ComposeFileID a =ₛ composeFileID));
    vs ← select (λ _ : Volume, true);
    mret (merge_sort (by_text (λ v, vol_Name (vav_Volume v)))
            (map (λ av : VolumeAttachment * Volume,
                    mkVolumeAttachmentView av.2 (va_ContainerPath av.1))
               (join va_VolumeID vol_ID links vs)))).

Definition AttachmentRepository_AttachProject
    (actorUserID organizationID composeFileID projectID : string) : prog (World X) () :=
  org_txn organizationID (
    id ← tx_uuid;
    insert_or_nothing (mkProjectAttachment id organizationID composeFileID projectID);;
    fleet_event organizationID "FleetComposeFileProjectAttached" actorUserID "compose_file"
      composeFileID [("project_id", projectID)]).

Definition AttachmentRepository_DetachProject
    (actorUserID organizationID composeFileID projectID : string) : prog (World X) () :=
  org_txn organizationID (
    _ ← delete_where (λ a, (pa_OrganizationID a =ₛ organizationID) &&
          (pa_ComposeFileID a =ₛ composeFileID) && (pa_ProjectID a =ₛ projectID));
    fleet_event organizationID "FleetComposeFileProjectDetached" actorUserID "compose_file"
      composeFileID [("project_id", projectID)]).

Definition AttachmentRepository_ListProjectsForComposeFile (organizationID composeFileID : string)
    : prog (World X) (list ProjectSummary) :=
  org_txn organizationID (
    links ← select (λ a, (pa_OrganizationID a =ₛ organizationID) &&
                         (pa_ComposeFileID a =ₛ composeFileID));
    ps ← select (λ _ : Project, true);
    mret (merge_sort (by_text ps_Name)
            (map (λ ap : ProjectAttachment * Project,
                    mkProjectSummary (proj_ID ap.2) (proj_Name ap.2) (proj_Slug ap.2))
               (join pa_ProjectID proj_ID links ps)))).

Definition AttachmentRepository_ListComposeFilesForProject (organizationID projectID : string)
    : prog (World X) (list ComposeFile) :=
  org_txn organizationID (
    links ← select (λ a, (pa_OrganizationID a =ₛ organizationID) && (pa_ProjectID a =ₛ projectID));
    cs ← select (λ _ : ComposeFile, true);
    mret (merge_sort (by_text cf_Name) (map snd (join pa_ComposeFileID cf_ID links cs)))).

(** ** Fleet variables *)

Definition FleetVariableRepository_Create (actorUserID : string) (v : FleetVariable)
    : prog (World X) () :=
  org_txn (fv_OrganizationID v) (
    on_code "23505" ErrVariableKeyTaken (insert_row (fleet_variable_row v));;
    fleet_event (fv_OrganizationID v) "FleetVariableCreated" actorUserID "variable" (fv_ID v)
      [("key", fv_Key v)]).

Definition FleetVariableRepository_GetByID (organizationID id : string)
    : prog (World X) FleetVariable :=
  org_txn organizationID (get_row id (fv_in organizationID) ErrFleetVariableNotFound).

Definition FleetVariableRepository_ListByComposeFile (organizationID composeFileID : string)
    : prog (World X) (list FleetVariable) :=
  org_txn organizationID (
    vs ← select (λ v, fv_in organizationID v && (fv_ComposeFileID v =ₛ composeFileID));
    mret (merge_sort (by_text fv_Key) vs)).

Definition FleetVariableRepository_Update (actorUserID : string) (v : FleetVariable)
    : prog (World X) () :=
  org_txn (fv_OrganizationID v) (
    affected ErrFleetVariableNotFound
      (update_pk (fv_ID v) (fv_in (fv_OrganizationID v)) (fleet_variable_update v));;
    fleet_event (fv_OrganizationID v) "FleetVariableUpdated" actorUserID "variable" (fv_ID v) []).

Definition FleetVariableRepository_Delete (actorUserID organizationID id : string)
    : prog (World X) () :=
  org_txn organizationID (
    affected ErrFleetVariableNotFound (delete_one (fv_in organizationID) id);;
    fleet_event organizationID "FleetVariableDeleted" actorUserID "variable" id []).

(** ** Operations *)

Definition OperationRepository_Create (o : Operation) : prog (World X) () :=
  org_txn (op_OrganizationID o) (
    insert_row o;;
    fleet_event (op_OrganizationID o) "FleetOperationCreated" (op_TriggeredBy o) "operation" (op_ID o)
      [("operation_type", op_OperationType o); ("machine_id", op_MachineID o);
       ("compose_file_id", op_ComposeFileID o)]).

Definition OperationRepository_GetByID (organizationID id : string) : prog (World X) Operation :=
  org_txn organizationID (get_row id (op_in organizationID) ErrOperationNotFound).

(** An empty id is no filter. *)
Definition OperationRepository_ListByOrganization
    (organizationID composeFileID machineID : string) : prog (World X) (list Operation) :=
  org_txn organizationID (
    os ← select (λ o, op_in organizationID o &&
      ((composeFileID =ₛ "") || (op_ComposeFileID o =ₛ composeFileID)) &&
      ((machineID =ₛ "") || (op_MachineID o =ₛ machineID)));
    mret (merge_sort (newest_first op_CreatedAt) os)).

Definition OperationRepository_TryClaim (organizationID id : string) : prog (World X) bool :=
  org_txn organizationID (
    now ← sql_now;
    n ← update_pk id (λ o, op_in organizationID o && (op_Status o =ₛ OperationStatusQueued))
          (start_operation now);
    mret (negb (bool_decide (n = 0)))).

Definition OperationRepository_MarkFinished
    (organizationID id status : string) (exitCode : option Z) (output : string)
    : prog (World X) () :=
  org_txn organizationID (
    now ← sql_now;
    affected ErrOperationNotFound
      (update_pk id (op_in organizationID) (finish_operation status now exitCode output))).

(** The root pool sees every organization. *)
Definition OperationScanner_FindQueuedCandidates (limit : nat)
    : prog (World X) (list OperationCandidate) :=
  txn Root (
    os ← select (λ o, op_Status o =ₛ OperationStatusQueued);
    mret (map (λ o, mkOperationCandidate (op_ID o) (op_OrganizationID o))
            (take limit (merge_sort (oldest_first op_CreatedAt) os)))).
End fleet_repositories.

(** ** Laws of the statements this file adds *)

Lemma tx_frame_event {X} o t a tt ti more : tx_frame (X:=X) (fleet_event o t a tt ti more).
Proof. apply Write_frame. Qed.

Lemma tx_frame_insert_or_update `{Table T} {X} (r : T) f : tx_frame (X:=X) (insert_or_update r f).
Proof.
  intros s w. unfold insert_or_update. repeat case_match; try done; apply tx_frame_insert.
Qed.

Lemma tx_frame_on_second_global {X} c (t : Tx X ()) : tx_frame t → tx_frame (on_second_global c t).
Proof.
  intros Ht s w. specialize (Ht s w). unfold on_second_global.
  destruct (t s w) as [[[]|[]] w1]; simpl in *; try done.
Qed.

Section fleet_tx_in.
Context {X : Type} (R : DB → DB → Prop) `{!Reflexive R, !Transitive R}.

Lemma tx_in_on_second_global s c (t : Tx X ()) :
  tx_in R s t → tx_in R s (on_second_global c t).
Proof.
  intros Ht w. specialize (Ht w). unfold on_second_global.
  by destruct (t s w) as [[[]|[]] w1].
Qed.

Lemma tx_in_insert_or_update `{Table T} s (r : T) f :
  (∀ d m, R d (tset m d)) → tx_in (X:=X) R s (insert_or_update r f).
Proof using Reflexive0.
  intros HR w. unfold insert_or_update. repeat case_match; simpl; try done; try apply HR.
  apply tx_in_insert; [done|]. intros. apply HR.
Qed.
End fleet_tx_in.
