(* ===== verification/FleetText.v ===== *)
(** * The text the deploy executor builds (internal/fleet/application)

    Scrubbing of secrets, names of deploy directories, shell quoting and
    template variables: pure functions on the bytes of Go strings. *)
From Stdlib Require Export Ascii.
From S2P Require Import Prelude FleetDomain.

Notation bytes := (list ascii).
Notation to_bytes := String.list_ascii_of_string.
Notation of_bytes := String.string_of_list_ascii.

Definition char (n : nat) : ascii := ascii_of_nat n.

(** ** What the code uses of the standard library *)

(** [strings.HasPrefix] *)
Fixpoint has_prefix (p s : bytes) : bool :=
  match p, s with
  | [], _ => true
  | a :: p, b :: s => bool_decide (a = b) && has_prefix p s
  | _ :: _, [] => false
  end.

(** [strings.ReplaceAll(s, old, new)] for [old <> ""]: from the left, without
    overlaps; [skip] bytes of a match are still to be passed over. *)
Fixpoint replace_from (old new : bytes) (skip : nat) (s : bytes) : bytes :=
  match s with
  | [] => []
  | c :: rest =>
      match skip with
      | S skip => replace_from old new skip rest
      | O =>
          if has_prefix old s then new ++ replace_from old new (length old - 1) rest
          else c :: replace_from old new 0 rest
      end
  end.
Definition ReplaceAll (s old new : bytes) : bytes := replace_from old new 0 s.

(** Split at every [sep]: [strings.Split] on one byte. *)
Fixpoint split_at (sep : ascii) (s : bytes) : list bytes :=
  match s with
  | [] => [[]]
  | c :: s =>
      if bool_decide (c = sep) then [] :: split_at sep s
      else match split_at sep s with
           | w :: ws => (c :: w) :: ws
           | [] => [[c]]
           end
  end.

(** [strings.Join] *)
Fixpoint join_with (sep : bytes) (ws : list bytes) : bytes :=
  match ws with
  | [] => []
  | [w] => w
  | w :: ws => w ++ sep ++ join_with sep ws
  end.

(** [path.Clean]'s walk over the elements of a path; [done] is reversed. *)
Fixpoint clean_elements (rooted : bool) (done elems : list bytes) : list bytes :=
  match elems with
  | [] => rev done
  | e :: elems =>
      if bool_decide (e = [] ∨ e = to_bytes ".") then clean_elements rooted done elems
      else if bool_decide (e = to_bytes "..") then
        match done with
        | d :: rest =>
            if bool_decide (d = to_bytes "..") then clean_elements rooted (e :: done) elems
            else clean_elements rooted rest elems
        | [] => clean_elements rooted (if rooted then [] else [e]) elems
        end
      else clean_elements rooted (e :: done) elems
  end.

Definition path_Clean (p : bytes) : bytes :=
  let rooted := bool_decide (head p = Some "/"%char) in
  let body := join_with (to_bytes "/") (clean_elements rooted [] (split_at "/" p)) in
  if rooted then "/"%char :: body else if bool_decide (body = []) then to_bytes "." else body.

(** [path.Join] of two elements *)
Definition path_Join (a b : string) : string :=
  let elems := filter (λ e, e ≠ []) [to_bytes a; to_bytes b] in
  match elems with
  | [] => ""
  | _ => of_bytes (path_Clean (join_with (to_bytes "/") elems))
  end.

(** ** Scrubbing *)

(** Eight bullets, in UTF-8. *)
Definition MaskedValue : string := "••••••••".

Definition scrub (values : list bytes) (text : bytes) : bytes :=
  foldl (λ text v, ReplaceAll text v (to_bytes MaskedValue)) text values.

Definition scrubSecrets (text : string) (secretValues : list string) : string :=
  of_bytes (scrub (to_bytes <$> secretValues) (to_bytes text)).

(** ** Deploy paths *)

Definition in_range (lo hi : ascii) (c : ascii) : bool :=
  bool_decide (nat_of_ascii lo ≤ nat_of_ascii c ≤ nat_of_ascii hi).
Definition is_upper := in_range "A" "Z".
Definition is_lower := in_range "a" "z".
Definition is_digit := in_range "0" "9".
Definition is_slug_char (c : ascii) : bool := is_lower c || is_digit c.

(** [strings.ToLower], as far as [slugify] sees it: of the runes outside ASCII
    only U+212A (Kelvin) and U+0130 have an ASCII lower case. *)
Fixpoint to_lower (s : bytes) : bytes :=
  match s with
  | "226"%char :: (("132"%char :: ("170"%char :: rest)) as s') => "k"%char :: to_lower rest
  | "196"%char :: ("176"%char :: rest) => "i"%char :: to_lower rest
  | c :: rest => (if is_upper c then char (nat_of_ascii c + 32) else c) :: to_lower rest
  | [] => []
  end.

(** [slugPattern.ReplaceAllString(s, "-")], [slugPattern = [^a-z0-9]+];
    [in_run] says that the run of other bytes has its dash already. *)
Fixpoint dash_runs (in_run : bool) (s : bytes) : bytes :=
  match s with
  | [] => []
  | c :: s =>
      if is_slug_char c then c :: dash_runs false s
      else if in_run then dash_runs true s
      else "-"%char :: dash_runs true s
  end.

(** [strings.Trim(s, "-")] *)
Fixpoint trim_left (s : bytes) : bytes :=
  match s with
  | c :: rest => if bool_decide (c = "-"%char) then trim_left rest else s
  | [] => []
  end.
Definition trim_dashes (s : bytes) : bytes := rev (trim_left (rev (trim_left s))).

Definition slug (s : bytes) : bytes := trim_dashes (dash_runs false (to_lower s)).
Definition slugify (name : string) : string := of_bytes (slug (to_bytes name)).

(** [shellQuote] *)
Definition quote_bytes (s : bytes) : bytes :=
  to_bytes "'" ++ ReplaceAll s (to_bytes "'") (to_bytes "'\''") ++ to_bytes "'".
Definition shellQuote (s : string) : string := of_bytes (quote_bytes (to_bytes s)).

(** ** Template variables *)

Definition is_key_start (c : ascii) : bool :=
  is_upper c || is_lower c || bool_decide (c = "_"%char).
Definition is_key_char (c : ascii) : bool := is_key_start c || is_digit c.
(** RE2's [\s] *)
Definition is_blank (c : ascii) : bool :=
  bool_decide (nat_of_ascii c ∈ [9; 10; 12; 13; 32]).

(** The longest prefix of bytes with property [P], and the rest. *)
Fixpoint span (P : ascii → bool) (s : bytes) : bytes * bytes :=
  match s with
  | c :: rest =>
      if P c then let '(a, b) := span P rest in (c :: a, b) else ([], s)
  | [] => ([], [])
  end.

(** [placeholderPattern] at the start of [s]: its key and its length.  No
    other way to match exists, since blanks, keys and braces are disjoint. *)
Definition placeholder (s : bytes) : option (bytes * nat) :=
  if has_prefix (to_bytes "{{") s then
    let '(key, s1) := span is_key_char (span is_blank (drop 2 s)).2 in
    let s2 := (span is_blank s1).2 in
    match key with
    | c :: _ =>
        if is_key_start c && has_prefix (to_bytes "}}") s2
        then Some (key, length s - length (drop 2 s2)) else None
    | [] => None
    end
  else None.

(** The text as the pattern divides it: bytes outside any match, and matches. *)
Inductive piece :=
| Lit (c : ascii)
| Hole (key raw : bytes).

Fixpoint pieces (skip : nat) (s : bytes) : list piece :=
  match s with
  | [] => []
  | c :: rest =>
      match skip with
      | S skip => pieces skip rest
      | O =>
          match placeholder s with
          | Some (key, n) => Hole key (take n s) :: pieces (n - 1) rest
          | None => Lit c :: pieces 0 rest
          end
      end
  end.

Definition piece_keys (ps : list piece) : list string :=
  omap (λ p, match p with Hole key _ => Some (of_bytes key) | Lit _ => None end) ps.

Definition fill (values : gmap string string) (p : piece) : bytes :=
  match p with
  | Lit c => [c]
  | Hole key _ => to_bytes (default "" (values !! of_bytes key))
  end.

(** [sort.Strings] *)
Definition string_le (a b : string) : Prop := String.leb a b = true.
#[export] Instance string_le_dec a b : Decision (string_le a b).
Proof. unfold string_le. apply _. Defined.

Definition SubstituteTemplateVars (content : string) (values : gmap string string) : res string :=
  let ps := pieces 0 (to_bytes content) in
  let missing := filter (λ k, values !! k = None) (remove_dups (piece_keys ps)) in
  match merge_sort string_le missing with
  | [] => Ok (of_bytes (concat (map (fill values) ps)))
  | missing => Err (ValidationError Fleet ("undefined template variable(s): " +:+
                      of_bytes (join_with (to_bytes ", ") (map String.list_ascii_of_string missing))))
  end.
