(* ===== verification/Compose.v ===== *)
(** * Compose files (internal/fleet/application/render_compose.go,
    scan_compose_variables.go)

    The structural half of rendering: a compose file as a tree of values, and
    what is merged into it before it is deployed.  Parsing and printing YAML
    is the yaml.v3 library's, a parameter. *)
From S2P Require Import Prelude FleetDomain FleetRepo FleetText.

(** [strings.Cut(s, "=")]: what precedes and what follows the first [=]. *)
Fixpoint cut_equals (s : bytes) : bytes * option bytes :=
  match s with
  | [] => ([], None)
  | c :: rest =>
      if bool_decide (c = "="%char) then ([], Some rest)
      else let '(key, value) := cut_equals rest in (c :: key, value)
  end.
Definition entry_key (s : string) : string := of_bytes (cut_equals (to_bytes s)).1.
Definition entry_value (s : string) : string :=
  of_bytes (default [] (cut_equals (to_bytes s)).2).

(** [fmt.Sprintf("%v", v)]; a map is printed in the order of its keys. *)
Fixpoint sprint (v : any) : string :=
  match v with
  | ANull => "<nil>"
  | AString s => s
  | ABool b => if b then "true" else "false"
  | AOther t => t
  | AList l => "[" +:+ of_bytes (join_with (to_bytes " ") (map (λ x, to_bytes (sprint x)) l)) +:+ "]"
  | AMap m =>
      let entries := map_fold (λ k x acc, (k, sprint x) :: acc) [] m in
      let sorted := merge_sort (by_text fst) entries in
      "map[" +:+ of_bytes (join_with (to_bytes " ")
        (map (λ kv : string * string, to_bytes (kv.1 +:+ ":" +:+ kv.2)) sorted)) +:+ "]"
  end.

Definition reservedTopLevelKeys : list string :=
  ["version"; "networks"; "volumes"; "configs"; "secrets"; "services"].

Definition normalizeTopLevel (doc : gmap string any) : gmap string any :=
  match doc !! "services" with
  | Some _ => doc
  | None =>
      let reserved := filter (λ kv, kv.1 ∈ reservedTopLevelKeys) doc in
      let services := filter (λ kv, kv.1 ∉ reservedTopLevelKeys) doc in
      <["services" := AMap services]> reserved
  end.

(** Every service that is a mapping. *)
Definition each_service (f : gmap string any → gmap string any) (services : gmap string any)
    : gmap string any :=
  (λ v, match v with AMap svc => AMap (f svc) | v => v end) <$> services.

(** ** Environment *)

(** The keys of a list-form environment. *)
Definition env_keys (env : list any) : list string :=
  omap (λ e, match e with AString s => Some (entry_key s) | _ => None end) env.

Definition sorted_env (envVars : gmap string string) : list (string * string) :=
  merge_sort (by_text fst) (map_to_list envVars).

Definition injectEnv (envVars : gmap string string) (service : gmap string any)
    : gmap string any :=
  match service !! "environment" with
  | Some (AList env) =>
      let missing := filter (λ kv : string * string, kv.1 ∉ env_keys env) (sorted_env envVars) in
      <["environment" := AList (env ++
         map (λ kv : string * string, AString (kv.1 +:+ "=" +:+ kv.2)) missing)]> service
  | Some (AMap env) =>
      <["environment" := AMap (env ∪ (AString <$> envVars))]> service
  | None | Some ANull => <["environment" := AMap (AString <$> envVars)]> service
  | _ => service
  end.

(** ** Networks and volumes *)

(** [stringSetFromList] *)
Definition stringSetFromList (v : option any) : list string :=
  omap (λ e, match e with AString s => Some s | _ => None end) (as_list v).

(** The loop shared by [injectNetworks] and [injectVolumes]: the names not
    yet in [existing], each once. *)
Fixpoint missing_names (existing names : list string) : list string :=
  match names with
  | [] => []
  | n :: names =>
      if n ∈ₛ existing then missing_names existing names
      else n :: missing_names (n :: existing) names
  end.

(** Append to the list at [key]; whatever else was there is replaced. *)
Definition append_names (key : string) (names : list string) (service : gmap string any)
    : gmap string any :=
  let existing := stringSetFromList (service !! key) in
  <[key := AList (as_list (service !! key) ++ map AString (missing_names existing names))]> service.

Definition injectNetworks (networks : list Network) (doc : gmap string any)
    (services : gmap string any) : gmap string any * gmap string any :=
  let topLevel := foldl (λ m n, <[net_Name n := AMap {["external" := ABool (net_External n)]}]> m)
    (default ∅ (as_map (doc !! "networks"))) networks in
  (<["networks" := AMap topLevel]> doc,
   each_service (append_names "networks" (map net_Name networks)) services).

Definition bind_mount (v : VolumeAttachmentView) : string :=
  vol_HostPath (vav_Volume v) +:+ ":" +:+ vav_ContainerPath v.

Definition injectVolumes (volumes : list VolumeAttachmentView) (services : gmap string any)
    : gmap string any :=
  each_service (append_names "volumes" (map bind_mount volumes)) services.

(** The merge of [RenderCompose], on a parsed document. *)
Definition merge_compose (envVars : gmap string string) (networks : list Network)
    (volumes : list VolumeAttachmentView) (doc : gmap string any) : gmap string any :=
  let doc := normalizeTopLevel doc in
  let services := default ∅ (as_map (doc !! "services")) in
  let services :=
    if bool_decide (envVars = ∅) then services else each_service (injectEnv envVars) services in
  let '(doc, services) :=
    match networks with [] => (doc, services) | _ => injectNetworks networks doc services end in
  let services := match volumes with [] => services | _ => injectVolumes volumes services end in
  <["services" := AMap services]> doc.

(** A service that [ValidateComposeContent] lets through. *)
Definition runnable (v : any) : bool :=
  match v with
  | AMap svc => bool_decide (is_Some (svc !! "image")) || bool_decide (is_Some (svc !! "build"))
  | _ => false
  end.

Section yaml.
(** [yaml.Unmarshal] into a [map[string]any]: the document, [None] when it is
    empty, or the text of the error; [yaml.Marshal]; [strconv.Quote]; and the
    order in which Go walks a map. *)
Context (yaml_unmarshal : string → string + option (gmap string any)).
Context (yaml_marshal : gmap string any → res string).
Context (quote : string → string).
Context (map_order : gmap string any → list (string * any)).

Definition parse_document (content : string) : res (option (gmap string any)) :=
  match yaml_unmarshal content with
  | inl msg => Err (ValidationError Fleet ("compose content is not valid YAML: " +:+ msg))
  | inr doc => Ok doc
  end.

Definition RenderCompose (rawContent : string) (values envVars : gmap string string)
    (networks : list Network) (volumes : list VolumeAttachmentView) : res string :=
  substituted ← SubstituteTemplateVars rawContent values;
  doc ← parse_document substituted;
  yaml_marshal (merge_compose envVars networks volumes (default ∅ doc)).

(** The loop over the services: the first bad one, in the order of the walk. *)
Fixpoint check_services (services : list (string * any)) : res () :=
  match services with
  | [] => Ok ()
  | (name, AMap svc) :: services =>
      if runnable (AMap svc) then check_services services
      else Err (ValidationError Fleet ("service " +:+ quote name +:+ " must have an image or build"))
  | (name, _) :: _ =>
      Err (ValidationError Fleet ("service " +:+ quote name +:+ " must be a mapping"))
  end.

Definition ValidateComposeContent (content : string) : res () :=
  doc ← parse_document content;
  match doc with
  | None => Err (ValidationError Fleet "compose content must not be empty")
  | Some doc =>
      let services := default ∅ (as_map (normalizeTopLevel doc !! "services")) in
      if bool_decide (services = ∅)
      then Err (ValidationError Fleet "compose content must define at least one service")
      else check_services (map_order services)
  end.

(** What one service's [environment] block adds to [found]. *)
Definition scan_service (found : gmap string string) (v : any) : gmap string string :=
  match v with
  | AMap svc =>
      match svc !! "environment" with
      | Some (AList env) =>
          foldl (λ found e, match e with
                            | AString s => <[entry_key s := entry_value s]> found
                            | _ => found
                            end) found env
      | Some (AMap env) =>
          ((λ v, match v with ANull => "" | v => sprint v end) <$> env) ∪ found
      | _ => found
      end
  | _ => found
  end.

Definition scanComposeEnvironment (content : string) : res (gmap string string) :=
  match yaml_unmarshal content with
  | inl msg => Err (ErrYAML msg)
  | inr doc =>
      let services := default ∅ (as_map (normalizeTopLevel (default ∅ doc) !! "services")) in
      Ok (foldl scan_service ∅ (map snd (map_order services)))
  end.
End yaml.
