(* ===== verification/Principal.v ===== *)
(** * The request context (internal/platform/principal, httpserver)

    What a request's [context.Context] carries: the authenticated subject
    and the permission scopes of the API key it came with. *)
From S2P Require Import Prelude.

Record Ctx := mkCtx {
  ctx_userID : option string;
  ctx_scopes : option (list string);
}.

Definition background : Ctx := mkCtx None None.

Definition WithUserID (userID : string) (ctx : Ctx) : Ctx := mkCtx (Some userID) (ctx_scopes ctx).

Definition WithScopes (scopes : list string) (ctx : Ctx) : Ctx :=
  mkCtx (ctx_userID ctx) (Some scopes).

Definition UserIDFromContext (ctx : Ctx) : string * bool :=
  match ctx_userID ctx with Some u => (u, true) | None => ("", false) end.

Definition ScopesFromContext (ctx : Ctx) : list string * bool :=
  let scopes := default [] (ctx_scopes ctx) in (scopes, negb (bool_decide (scopes = []))).

(** [scopes, ok := ScopesFromContext(ctx); ok && !slices.Contains(scopes, p)] *)
Definition scope_forbids (ctx : Ctx) (permission : string) : bool :=
  let '(scopes, ok) := ScopesFromContext ctx in ok && negb (permission ∈ₛ scopes).

Lemma scope_forbids_spec ctx p :
  scope_forbids ctx p = true ↔
  ∃ scopes, ctx_scopes ctx = Some scopes ∧ scopes ≠ [] ∧ p ∉ scopes.
Proof.
  unfold scope_forbids, ScopesFromContext.
  destruct (ctx_scopes ctx) as [l|]; simpl; [|naive_solver].
  rewrite andb_true_iff, !negb_true_iff, !bool_decide_eq_false. naive_solver.
Qed.
