(* ===== verification/RbacRepo.v ===== *)
(** * The role and role-binding repositories (internal/rbac/adapters/postgres)

    [HasPermissionAtScope] is the authorization decision of the whole
    program; [granted] states it over the rows of the database. *)
From S2P Require Import Prelude Prog RbacDomain TenancyDomain Store Principal.

Definition rb_org (organizationID : string) (b : RoleBinding) : bool :=
  rb_OrganizationID b =ₛ organizationID.

(** [rb.subject_type IN ('user', 'service_account') AND rb.subject_id = $2
    OR rb.subject_type = 'team' AND rb.subject_id IN (teams)] *)
Definition subject_matches (subjectID : string) (teams : list string) (b : RoleBinding) : bool :=
  ((rb_SubjectType b ∈ₛ [SubjectTypeUser; SubjectTypeServiceAccount]) &&
   (rb_SubjectID b =ₛ subjectID))
  || ((rb_SubjectType b =ₛ SubjectTypeTeam) && (rb_SubjectID b ∈ₛ teams)).

(** [$n::uuid IS NOT NULL AND rb.scope_type = t AND rb.scope_id = $n] *)
Definition optional_scope (t : string) (id : option string) (b : RoleBinding) : bool :=
  match id with
  | None => false
  | Some id => (rb_ScopeType b =ₛ t) && (rb_ScopeID b =ₛ id)
  end.

Definition scope_matches (organizationID : string) (projectID workspaceID : option string)
    (b : RoleBinding) : bool :=
  ((rb_ScopeType b =ₛ ScopeTypeOrganization) && (rb_ScopeID b =ₛ organizationID))
  || optional_scope ScopeTypeProject projectID b
  || optional_scope ScopeTypeWorkspace workspaceID b.

(** [JOIN roles r ON r.id = rb.role_id WHERE r.permissions @> p] *)
Definition role_grants (roles : list Role) (permission : string) (b : RoleBinding) : bool :=
  existsb (λ r, (role_ID r =ₛ rb_RoleID b) && (permission ∈ₛ role_Permissions r)) roles.

(** [EXISTS (... effect = 'allow') AND NOT EXISTS (... effect = 'deny')] *)
Definition decide_effects (effects : list string) : bool :=
  (EffectAllow ∈ₛ effects) && negb (EffectDeny ∈ₛ effects).

Definition set_permissions (ps : list string) (r : Role) : Role :=
  mkRole (role_ID r) (role_OrganizationID r) (role_Name r) ps.

Definition builtin_named (name : string) (r : Role) : bool :=
  (role_Name r =ₛ name) && bool_decide (role_OrganizationID r = None).

Definition org_scope_user_binding (organizationID userID : string) (b : RoleBinding) : bool :=
  rb_org organizationID b && (rb_SubjectType b =ₛ "user") && (rb_SubjectID b =ₛ userID)
  && (rb_ScopeType b =ₛ "organization") && (rb_ScopeID b =ₛ organizationID).

Definition rb_earlier (a b : RoleBinding) : Prop := (rb_CreatedAt a ≤ rb_CreatedAt b)%Z.
#[export] Instance rb_earlier_dec a b : Decision (rb_earlier a b).
Proof. unfold rb_earlier. apply _. Defined.

(** [ORDER BY organization_id NULLS FIRST, name] *)
Definition role_before (a b : Role) : Prop :=
  match role_OrganizationID a, role_OrganizationID b with
  | None, Some _ => True
  | Some _, None => False
  | Some x, Some y => if x =ₛ y then Is_true (String.leb (role_Name a) (role_Name b))
                      else Is_true (String.leb x y)
  | None, None => Is_true (String.leb (role_Name a) (role_Name b))
  end.
#[export] Instance role_before_dec a b : Decision (role_before a b).
Proof. unfold role_before. repeat case_match; apply _. Defined.

Section role_binding_repository.
Context {X : Type}.

(** The id of a built-in role: [QueryRow(...).Scan(&roleID)]. *)
Definition builtin_role_id (roleName : string) : Tx X string :=
  rs ← select (builtin_named roleName);
  match rs with
  | [] => tx_fail ErrNoRows
  | r :: _ => mret (role_ID r)
  end.

Definition insert_org_binding (organizationID roleID userID : string) : Tx X () :=
  id ← tx_uuid;
  now ← sql_now;
  insert_row (NewOrganizationScopeBinding id now organizationID roleID userID).

Definition RoleBindingRepository_AssignRole (organizationID userID roleName : string)
    : prog (World X) () :=
  org_txn organizationID (
    roleID ← builtin_role_id roleName;
    insert_org_binding organizationID roleID userID).

Definition RoleBindingRepository_ReplaceRole (organizationID userID roleName : string)
    : prog (World X) () :=
  org_txn organizationID (
    roleID ← builtin_role_id roleName;
    _ ← delete_where (org_scope_user_binding organizationID userID);
    insert_org_binding organizationID roleID userID).

(** The first row of the join, if any. *)
Definition RoleBindingRepository_GetOrgScopeRoleName (organizationID userID : string)
    : prog (World X) (string * bool) :=
  org_txn organizationID (
    bs ← select (org_scope_user_binding organizationID userID);
    rs ← select (λ _ : Role, true);
    match first_some (map (λ b, head (filter (λ r, role_ID r = rb_RoleID b) rs)) bs) with
    | None => mret ("", false)
    | Some r => mret (role_Name r, true)
    end).

(** The effects of the bindings that match: the [WITH matches AS] query. *)
Definition matching_effects (organizationID subjectID permission : string)
    (in_scope : RoleBinding → bool) : Tx X (list string) :=
  ms ← select (λ m, (tm_UserID m =ₛ subjectID) && (tm_OrganizationID m =ₛ organizationID));
  rs ← select (λ _ : Role, true);
  bs ← select (λ b, rb_org organizationID b &&
                    subject_matches subjectID (map tm_TeamID ms) b &&
                    in_scope b && role_grants rs permission b);
  mret (map rb_Effect bs).

Definition permission_query (organizationID subjectID permission : string)
    (in_scope : RoleBinding → bool) : Tx X bool :=
  effects ← matching_effects organizationID subjectID permission in_scope;
  mret (decide_effects effects).

Definition RoleBindingRepository_HasPermissionAtScope (ctx : Ctx)
    (organizationID subjectID permission : string)
    (projectID workspaceID : option string) : prog (World X) bool :=
  if scope_forbids ctx permission then Ret false
  else org_txn organizationID (permission_query organizationID subjectID permission
         (scope_matches organizationID projectID workspaceID)).

Definition RoleBindingRepository_HasPermission (ctx : Ctx)
    (organizationID userID permission : string) : prog (World X) bool :=
  RoleBindingRepository_HasPermissionAtScope ctx organizationID userID permission None None.

Definition RoleBindingRepository_HasScopedPermission (ctx : Ctx)
    (organizationID subjectID permission scopeType scopeID : string)
    : prog (World X) bool :=
  if scope_forbids ctx permission then Ret false
  else org_txn organizationID (permission_query organizationID subjectID permission
         (λ b, (rb_ScopeType b =ₛ scopeType) && (rb_ScopeID b =ₛ scopeID))).

Definition RoleBindingRepository_Create (binding : RoleBinding) : prog (World X) () :=
  org_txn (rb_OrganizationID binding) (insert_or_nothing binding).

Definition RoleBindingRepository_Delete (organizationID bindingID : string)
    : prog (World X) () :=
  org_txn organizationID (
    _ ← delete_where (λ b, (rb_ID b =ₛ bindingID) && rb_org organizationID b);
    mret ()).

Definition RoleBindingRepository_DeleteForSubject
    (organizationID subjectType subjectID : string) : prog (World X) () :=
  org_txn organizationID (
    _ ← delete_where (λ b, rb_org organizationID b && (rb_SubjectType b =ₛ subjectType)
                           && (rb_SubjectID b =ₛ subjectID));
    mret ()).

Definition RoleBindingRepository_ListForSubject (organizationID subjectID : string)
    : prog (World X) (list RoleBinding) :=
  org_txn organizationID (
    bs ← select (λ b, rb_org organizationID b &&
           (if subjectID =ₛ "" then true else rb_SubjectID b =ₛ subjectID));
    mret (merge_sort rb_earlier bs)).
End role_binding_repository.

Section role_repository.
Context {X : Type}.

(** [INSERT ... ON CONFLICT (name) WHERE organization_id IS NULL DO UPDATE
    SET permissions = excluded.permissions] *)
Definition upsert_builtin (name : string) (permissions : list string) : Tx X () :=
  n ← update_where (builtin_named name) (set_permissions permissions);
  if bool_decide (n = 0) then
    id ← tx_uuid;
    insert_row (mkRole id None name permissions)
  else mret ().

(** One autocommitted statement per built-in role. *)
Definition RoleRepository_SeedBuiltinRoles : prog (World X) () :=
  range BuiltinRoles (λ r, txn (AppRole None) (upsert_builtin r.1 r.2)).

(** [if pgErr.Code == "23505" { return domain.ErrRoleAlreadyExists }] *)
Definition or_already_exists {A} (t : Tx X A) : Tx X A := λ s w,
  match t s w with
  | (Err (PgError "23505"), w') => (Err ErrRoleAlreadyExists, w')
  | r => r
  end.

Definition RoleRepository_Create (role : Role) : prog (World X) () :=
  match role_OrganizationID role with
  | None => Throw (ValidationError Rbac "custom roles must have an organization_id")
  | Some organizationID =>
      org_txn organizationID (or_already_exists (insert_row role))
  end.

Definition RoleRepository_Update (role : Role) : prog (World X) () :=
  match role_OrganizationID role with
  | None => Throw (ValidationError Rbac "built-in roles cannot be updated")
  | Some organizationID =>
      org_txn organizationID (
        _ ← update_pk (role_ID role)
              (λ r, bool_decide (role_OrganizationID r = Some organizationID))
              (set_permissions (role_Permissions role));
        mret ())
  end.

Definition RoleRepository_ListForOrganization (organizationID : string)
    : prog (World X) (list Role) :=
  org_txn organizationID (
    rs ← select (λ _ : Role, true);
    mret (merge_sort role_before rs)).

Definition RoleRepository_GetByID (organizationID roleID : string) : prog (World X) Role :=
  org_txn organizationID (
    row ← select_pk roleID (λ _ : Role, true);
    match row with
    | None => tx_fail ErrRoleNotFound
    | Some r => mret r
    end).
End role_repository.
