(* ===== verification/Ports.v ===== *)
(** * Ports: what one bounded context asks of another

    The interfaces the application layers declare
    (internal/*/application/ports.go), one class per port, and the laws a
    client's theorems rely on.  The adapters are their instances (Wiring). *)
From S2P Require Import Prelude Prog Store Principal.

Class MembershipChecker (X : Type) := {
  IsMember : string → string → prog (World X) bool;
}.
Class PermissionChecker (X : Type) := {
  HasPermission : Ctx → string → string → string → prog (World X) bool;
}.
Class ScopedPermissionChecker (X : Type) := {
  HasPermissionAtScope :
    Ctx → string → string → string → option string → option string → prog (World X) bool;
}.
Class VisibilityChecker (X : Type) := {
  HasScopedPermission :
    Ctx → string → string → string → string → string → prog (World X) bool;
}.
Class OrganizationChecker (X : Type) := {
  IsArchived : string → prog (World X) bool;
}.
Class ProjectChecker (X : Type) := {
  ProjectExists : string → string → prog (World X) bool;
}.
Class TeamChecker (X : Type) := {
  TeamExists : string → string → prog (World X) bool;
}.
Class ServiceAccountChecker (X : Type) := {
  ServiceAccountExists : string → string → prog (World X) bool;
}.

(** Execution's own ports. *)
Class WorkspaceLocker (X : Type) := {
  TryLock : string → string → string → prog (World X) bool;
  Unlock : string → string → string → prog (World X) ();
}.
Class WorkspaceChecker (X : Type) := {
  WorkspaceExists : string → string → string → prog (World X) bool;
}.
Class WorkspaceEngineReader (X : Type) := {
  GetExecutionEngine : string → string → prog (World X) string;
}.
(** [(value, found, err)] *)
Class VariableResolver (X : Type) := {
  ResolveValue : string → string → string → string → prog (World X) (option string);
}.
Class WorkerDispatcher (X : Type) := {
  Dispatch : string → string → string → string → string → string → prog (World X) bool;
}.
Class WorkerCanceler (X : Type) := {
  CancelJob : string → prog (World X) bool;
}.
Class RunTracker (X : Type) := {
  Forget : string → prog (World X) ();
}.

(** Variables' ports. *)
Class VariableWorkspaceChecker (X : Type) := {
  Exists : string → string → prog (World X) bool;
  GetScope : string → string → prog (World X) (string * option string);
}.
Class EnvironmentChecker (X : Type) := {
  EnvironmentExists : string → string → prog (World X) bool;
}.
Class EnvironmentProjectResolver (X : Type) := {
  ProjectIDForEnvironment : string → string → prog (World X) string;
}.
(** The Secrets context, whose backend is Vault. *)
Class SecretResolver (X : Type) := {
  ResolveSecret : string → string → string → prog (World X) string;
}.
Class SecretMountChecker (X : Type) := {
  SecretMountExists : string → string → prog (World X) bool;
}.

(** Identity's users, as Tenancy sees them. *)
Class UserReader (X : Type) := {
  GetUserByID : string → prog (World X) (string * string * bool);
  ListAll : prog (World X) (list (string * string * string));
}.
Class PlatformAdmins (X : Type) := {
  IsPlatformAdmin : string → prog (World X) bool;
  SetPlatformAdmin : string → bool → prog (World X) ();
}.
(** RBAC's bindings, as Tenancy changes them: [RoleAssigner], [RoleChanger],
    [RoleReader] and [RoleBindingCleaner]. *)
Class RoleManager (X : Type) := {
  AssignRole : string → string → string → prog (World X) ();
  ReplaceRole : string → string → string → prog (World X) ();
  GetOrgScopeRoleName : string → string → prog (World X) (string * bool);
  DeleteForSubject : string → string → string → prog (World X) ();
}.

(** ** Gates

    The first checks of nearly every service: the caller is a member of the
    organization, or is told [notMember], and has a permission in it, or is
    told [forbidden]. *)
Section gates.
Context {X : Type} `{!MembershipChecker X, !PermissionChecker X}.

Definition member_gate (notMember : error) (organizationID requestingUserID : string)
    : prog (World X) () :=
  isMember ← IsMember organizationID requestingUserID;
  ensure isMember notMember.

Definition permission_gate (notMember forbidden : error) (ctx : Ctx)
    (organizationID requestingUserID permission : string) : prog (World X) () :=
  member_gate notMember organizationID requestingUserID;;
  allowed ← HasPermission ctx organizationID requestingUserID permission;
  ensure allowed forbidden.
End gates.

(** ** Visibility

    [canAccessProject] and [canAccessWorkspace], the gates the read services
    of Workspace, Execution and Variables compose
    (project_visibility.go of each, textually the same functions). *)
Section visibility.
Context {X : Type} `{!PermissionChecker X, !VisibilityChecker X}.

Definition canAccessProject (ctx : Ctx) (organizationID userID projectID : string)
    : prog (World X) bool :=
  isAdmin ← HasPermission ctx organizationID userID "organization:manage";
  if isAdmin : bool then Ret true
  else HasScopedPermission ctx organizationID userID "project:read" "project" projectID.

Definition canAccessWorkspace (ctx : Ctx)
    (organizationID userID projectID workspaceID : string) : prog (World X) bool :=
  canAccess ← canAccessProject ctx organizationID userID projectID;
  if canAccess : bool then Ret true
  else HasScopedPermission ctx organizationID userID "workspace:read" "workspace" workspaceID.
End visibility.
