(* ===== verification/Registry.v ===== *)
(** * The worker registry and the worker gRPC server
    (internal/execution/adapters/grpc)

    One registry per control-plane replica, plus the coordination store the
    replicas share.  Every critical section of the registry's mutex, every
    channel operation and every command to the store is one atomic step. *)
From S2P Require Import Prelude Prog Store.

(** ** The coordination store: what the code asks of Redis *)

Class RedisOps (R : Type) := {
  redis_set : Z → string → string → option Z → R → R;
  redis_get : Z → string → R → option string;
  redis_del : string → R → R;
  redis_expire : Z → string → Z → R → R;
  redis_publish : string → string → R → R;
  redis_receive : string → R → option (string * R);
  redis_subscribed : string → R → bool;
}.

(** Documented behaviour of SET (with expiry), GET, DEL, EXPIRE, and of
    PUBLISH to a channel somebody subscribed to. *)
Class RedisLaws (R : Type) `{!RedisOps R} := {
  get_set : ∀ t0 t k v ttl r, (t0 ≤ t)%Z →
    redis_get t k (redis_set t0 k v ttl r) =
      match ttl with
      | Some d => if bool_decide (t < t0 + d)%Z then Some v else None
      | None => Some v
      end;
  get_set_ne : ∀ t0 t k k' v ttl r, k ≠ k' →
    redis_get t k' (redis_set t0 k v ttl r) = redis_get t k' r;
  get_del : ∀ t k r, redis_get t k (redis_del k r) = None;
  get_del_ne : ∀ t k k' r, k ≠ k' → redis_get t k' (redis_del k r) = redis_get t k' r;
  get_expire : ∀ t0 t k d r v, (t0 ≤ t)%Z → redis_get t0 k r = Some v →
    redis_get t k (redis_expire t0 k d r) =
      if bool_decide (t < t0 + d)%Z then Some v else None;
  get_publish : ∀ t k c m r, redis_get t k (redis_publish c m r) = redis_get t k r;
  receive_publish : ∀ c m r, redis_subscribed c r = true → redis_receive c r = None →
    ∃ r', redis_receive c (redis_publish c m r) = Some (m, r') ∧
      ∀ t k, redis_get t k r' = redis_get t k r;
}.

(** ** State *)

Inductive WorkerCommand :=
| WorkerCommand_JobAssignment
    (runID organizationID workspaceID executionEngine configBundle credentialBundle : string)
| WorkerCommand_CancelJob (runID : string).

#[export] Instance WorkerCommand_eq_dec : EqDecision WorkerCommand.
Proof. solve_decision. Defined.

(** [jobs] names a channel: a worker that registers again gets a new one,
    and the stream of its first connection still holds the old one. *)
Record workerEntry := mkWorkerEntry {
  supportedEngines : list string;
  jobs : nat;
}.

Record RegistryState := mkRegistryState {
  workers : gmap string workerEntry;
  runToWorker : gmap string string;
  channels : gmap nat (list WorkerCommand);
  next_channel : nat;
}.

(** [NewRegistry] *)
Definition NewRegistry : RegistryState := mkRegistryState ∅ ∅ ∅ 0.

Record Cluster (R : Type) := mkCluster {
  registries : gmap string RegistryState;
  redis : R;
}.
Arguments mkCluster {R} _ _.
Arguments registries {R} _.
Arguments redis {R} _.

Definition second : Z := 1000000000.
Definition workerInstanceTTL : Z := 30 * second.
Definition workerInstanceHeartbeat : Z := 10 * second.
Definition channel_capacity : nat := 16.

Definition runWorkerKey (runID : string) := "worker-registry:run-worker:" +:+ runID.
Definition workerInstanceKey (workerID : string) :=
  "worker-registry:worker-instance:" +:+ workerID.
Definition cancelChannel (instanceID : string) := "worker-registry:cancel:" +:+ instanceID.

(** [select { case ch <- cmd: ... default: ... }] *)
Definition try_send (ch : nat) (cmd : WorkerCommand) (s : RegistryState)
    : bool * RegistryState :=
  match channels s !! ch with
  | Some q =>
      if bool_decide (length q < channel_capacity) then
        (true, mkRegistryState (workers s) (runToWorker s)
                 (<[ch := q ++ [cmd]]> (channels s)) (next_channel s))
      else (false, s)
  | None => (false, s)
  end.

(** [case cmd := <-ch] when something is there. *)
Definition try_receive (ch : nat) (s : RegistryState) : option WorkerCommand * RegistryState :=
  match channels s !! ch with
  | Some (cmd :: q) =>
      (Some cmd, mkRegistryState (workers s) (runToWorker s)
                   (<[ch := q]> (channels s)) (next_channel s))
  | _ => (None, s)
  end.

Definition set_route (runID workerID : string) (s : RegistryState) : RegistryState :=
  mkRegistryState (workers s) (<[runID := workerID]> (runToWorker s)) (channels s)
    (next_channel s).
Definition delete_route (runID : string) (s : RegistryState) : RegistryState :=
  mkRegistryState (workers s) (delete runID (runToWorker s)) (channels s) (next_channel s).
Definition delete_worker (workerID : string) (s : RegistryState) : RegistryState :=
  mkRegistryState (delete workerID (workers s)) (runToWorker s) (channels s) (next_channel s).

(** The channel of the worker this replica believes runs [runID]. *)
Definition local_channel (runID : string) (s : RegistryState) : option nat :=
  match runToWorker s !! runID with
  | Some workerID => jobs <$> (workers s !! workerID)
  | None => None
  end.

(** [make(chan, 16)], [r.workers[workerID] = &workerEntry{...}] and the
    routes of the runs the worker says are active. *)
Definition add_worker (workerID : string) (engines activeRunIDs : list string)
    (s : RegistryState) : RegistryState :=
  mkRegistryState
    (<[workerID := mkWorkerEntry engines (next_channel s)]> (workers s))
    (foldl (λ m runID, <[runID := workerID]> m) (runToWorker s) activeRunIDs)
    (<[next_channel s := []]> (channels s)) (S (next_channel s)).

(** The loop of [Dispatch] over the workers, in the order [ws]: the first
    one that runs the engine and has room gets the job. *)
Fixpoint dispatch_loop (cmd : WorkerCommand) (runID executionEngine : string)
    (ws : list (string * workerEntry)) (s : RegistryState) : string * RegistryState :=
  match ws with
  | [] => ("", s)
  | (workerID, w) :: ws =>
      if negb (executionEngine ∈ₛ supportedEngines w) then
        dispatch_loop cmd runID executionEngine ws s
      else
        match try_send (jobs w) cmd s with
        | (true, s') => (workerID, set_route runID workerID s')
        | (false, _) => dispatch_loop cmd runID executionEngine ws s
        end
  end.

(** ** Operations *)

Section registry.
Context {R : Type} `{!RedisOps R}.
Notation W := (World (Cluster R)).

(** A command to the store; it may fail. *)
Definition redis_cmd {A} (f : Z → R → A * R) : prog W A :=
  call (λ w,
    match faults w with
    | true :: fs => (Err ErrRedis, set_faults fs w)
    | fs =>
        let '(a, r) := f (clock w) (redis (aux w)) in
        (Ok a, set_aux (mkCluster (registries (aux w)) r) (set_faults (tail fs) w))
    end).

Definition Set_ (key value : string) (ttl : option Z) : prog W () :=
  redis_cmd (λ t r, ((), redis_set t key value ttl r)).
Definition Get (key : string) : prog W (option string) :=
  redis_cmd (λ t r, (redis_get t key r, r)).
Definition Del (key : string) : prog W () := redis_cmd (λ t r, ((), redis_del key r)).
Definition Expire (key : string) (d : Z) : prog W () :=
  redis_cmd (λ t r, ((), redis_expire t key d r)).
Definition Publish (channel message : string) : prog W () :=
  redis_cmd (λ t r, ((), redis_publish channel message r)).

(** An error that is only logged. *)
Definition logged (p : prog W ()) : prog W () := void (try p).

(** [self] is the replica's [instanceID]; [map_order] the order in which
    this replica's [range] walks a map. *)
Context (self : string).
Context (map_order : list (string * workerEntry) → list (string * workerEntry)).

Definition registry_of (c : Cluster R) : RegistryState :=
  default NewRegistry (registries c !! self).

(** [r.mu.Lock(); ...; r.mu.Unlock()] *)
Definition locked {A} (f : RegistryState → A * RegistryState) : prog W A :=
  call (λ w,
    let '(a, s) := f (registry_of (aux w)) in
    (Ok a, set_aux (mkCluster (<[self := s]> (registries (aux w))) (redis (aux w))) w)).

Definition register (workerID : string) (engines activeRunIDs : list string)
    : prog W () :=
  _ ← locked (λ s, ((), add_worker workerID engines activeRunIDs s));
  logged (Set_ (workerInstanceKey workerID) self (Some workerInstanceTTL));;
  range activeRunIDs (λ runID, logged (Set_ (runWorkerKey runID) workerID None)).

Definition deregister (workerID : string) : prog W () :=
  _ ← locked (λ s, ((), delete_worker workerID s));
  logged (Del (workerInstanceKey workerID)).

Definition Registry_Dispatch
    (runID organizationID workspaceID executionEngine configBundle credentialBundle : string)
    : prog W bool :=
  let cmd := WorkerCommand_JobAssignment runID organizationID workspaceID
               executionEngine configBundle credentialBundle in
  matchedWorkerID ← locked (λ s,
    dispatch_loop cmd runID executionEngine (map_order (map_to_list (workers s))) s);
  if matchedWorkerID =ₛ "" then Ret false
  else
    logged (Set_ (runWorkerKey runID) matchedWorkerID None);;
    Ret true.

(** [(delivered, ok)] *)
Definition cancelLocal (runID : string) : prog W (bool * bool) :=
  ch ← locked (λ s, (local_channel runID s, s));
  match ch with
  | None => Ret (false, false)
  | Some ch =>
      delivered ← locked (try_send ch (WorkerCommand_CancelJob runID));
      _ ← locked (λ s, ((), delete_route runID s));
      logged (Del (runWorkerKey runID));;
      Ret (delivered, true)
  end.

Definition Registry_CancelJob (runID : string) : prog W bool :=
  r ← cancelLocal runID;
  let '(delivered, ok) := r : bool * bool in
  if ok : bool then Ret delivered
  else
    workerID ← Get (runWorkerKey runID);
    match workerID with
    | None => Ret false
    | Some workerID =>
        owner ← Get (workerInstanceKey workerID);
        match owner with
        | None => Ret false
        | Some ownerInstanceID =>
            if ownerInstanceID =ₛ self then Ret false
            else
              Publish (cancelChannel ownerInstanceID) runID;;
              Ret true
        end
    end.

(** One iteration of [SubscribeCancelForwarding]'s loop, if a message is
    there. *)
Definition SubscribeCancelForwarding_step : prog W () :=
  msg ← call (λ w,
    match redis_receive (cancelChannel self) (redis (aux w)) with
    | Some (m, r) => (Ok (Some m), set_aux (mkCluster (registries (aux w)) r) w)
    | None => (Ok None, w)
    end);
  match msg with
  | None => Ret ()
  | Some runID => void (cancelLocal runID) (* an untracked run is logged *)
  end.

(** One tick of [Heartbeat]. *)
Definition Heartbeat_tick : prog W () :=
  workerIDs ← locked (λ s, (map fst (map_order (map_to_list (workers s))), s));
  range workerIDs (λ id, logged (Expire (workerInstanceKey id) workerInstanceTTL)).

Definition Registry_Forget (runID : string) : prog W () :=
  _ ← locked (λ s, ((), delete_route runID s));
  logged (Del (runWorkerKey runID)).

(** ** The gRPC server (server.go) *)

Definition Server_Register (workerID : string) (engines activeRunIDs : list string)
    : prog W bool :=
  ensure (negb (workerID =ₛ "")) (GrpcStatus "InvalidArgument");;
  register workerID engines activeRunIDs;;
  Ret true.

(** The loop of [StreamJobs]: one element of [sends] per turn of its
    [select], saying whether [stream.Send] succeeds; the list ends when the
    stream's context is done. *)
Fixpoint stream_loop (ch : nat) (sends : list bool) : prog W (list WorkerCommand) :=
  match sends with
  | [] => Ret []
  | sent :: sends =>
      cmd ← locked (try_receive ch);
      match cmd with
      | None => stream_loop ch sends
      | Some cmd =>
          if sent : bool then
            rest ← stream_loop ch sends;
            Ret (cmd :: rest)
          else Throw (GrpcStatus "Unavailable")
      end
  end.

(** The commands sent to the worker, until the stream ends. *)
Definition Server_StreamJobs (workerID : string) (sends : list bool)
    : prog W (list WorkerCommand) :=
  entry ← locked (λ s, (workers s !! workerID, s));
  match entry with
  | None => Throw (GrpcStatus "FailedPrecondition")
  | Some entry =>
      r ← try (stream_loop (jobs entry) sends);
      deregister workerID;;
      lift r
  end.

Definition Server_ReportJobStatus
    (onStatusReport : string → string → string → string → string → string → prog W ())
    (organizationID runID workspaceID status logLine errorMessage : string)
    : prog W bool :=
  r ← try (onStatusReport organizationID runID workspaceID status logLine errorMessage);
  match r with
  | Err _ => Throw (GrpcStatus "Internal")
  | Ok _ => Ret true
  end.
End registry.
