(* ===== verification/Execution.v ===== *)
(** * The execution services (internal/execution/application)

    Each service against the ports it declares; the repository of runs is
    the context's own adapter. *)
From Stdlib Require Import Ascii.
From S2P Require Import Prelude Prog RunDomain TenancyDomain Store Outbox RunRepo Principal.
From S2P Require Import Ports.

Definition permissionWorkspaceApply := "workspace:apply".

Record TriggerRunInput := {
  tr_OrganizationID : string;
  tr_ProjectID : string;
  tr_WorkspaceID : string;
  tr_RequestingUserID : string;
}.

Definition configVariableKeyByEngine : gmap string string := list_to_map
  [("compose", "compose_file"); ("terraform", "terraform_config");
   ("opentofu", "opentofu_config"); ("ansible", "ansible_playbook");
   ("packer", "packer_template"); ("kubernetes", "kubernetes_manifest");
   ("helm", "helm_helmfile"); ("kubespray", "kubespray_inventory")].

Definition credentialVariableKeyByEngine : gmap string string := list_to_map
  [("kubernetes", "kubernetes_kubeconfig"); ("helm", "helm_kubeconfig");
   ("kubespray", "kubespray_ssh_key")].

Definition newline : string := String "010"%char EmptyString.

(** The output [HandleReport] stores: the log line, and the error message
    when it adds something. *)
Definition report_output (logLine errorMessage : string) : string :=
  if negb (errorMessage =ₛ "") && negb (errorMessage =ₛ logLine) then
    if negb (logLine =ₛ "") then
      logLine +:+ newline +:+ newline +:+ "error: " +:+ errorMessage
    else errorMessage
  else logLine.

Section execution.
Context {X : Type}.
Context `{!MembershipChecker X, !PermissionChecker X, !ScopedPermissionChecker X,
  !VisibilityChecker X, !OrganizationChecker X, !WorkspaceLocker X, !WorkspaceChecker X,
  !WorkspaceEngineReader X, !VariableResolver X, !WorkerDispatcher X, !WorkerCanceler X,
  !RunTracker X}.

(** [TriggerRunService.Execute] *)
Definition TriggerRun (ctx : Ctx) (inp : TriggerRunInput) : prog (World X) Run :=
  exists_ ← WorkspaceExists (tr_OrganizationID inp) (tr_ProjectID inp) (tr_WorkspaceID inp);
  ensure exists_ (ErrWorkspaceNotFound Execution);;
  allowed ← HasPermissionAtScope ctx (tr_OrganizationID inp) (tr_RequestingUserID inp)
    permissionWorkspaceApply (Some (tr_ProjectID inp)) (Some (tr_WorkspaceID inp));
  ensure allowed (ErrForbidden Execution);;
  archived ← IsArchived (tr_OrganizationID inp);
  ensure (negb archived) (ErrOrganizationArchived Execution);;
  id ← new_uuid;
  now ← time_now;
  run ← lift (NewRun id now (tr_OrganizationID inp) (tr_WorkspaceID inp)
                (tr_RequestingUserID inp));
  locked ← TryLock (tr_OrganizationID inp) (tr_WorkspaceID inp) (run_ID run);
  ensure locked ErrWorkspaceLocked;;
  created ← try (RunRepository_Create run);
  match created with
  | Err err =>
      _ ← try (Unlock (tr_OrganizationID inp) (tr_WorkspaceID inp) (run_ID run));
      Throw err
  | Ok _ => Ret run
  end.

(** [RunDispatchService.fail] *)
Definition dispatch_fail (run : Run) (workspaceID : string) : prog (World X) () :=
  now ← time_now;
  run ← lift (MarkFailed now run);
  RunRepository_Update run "system";;
  Unlock (run_OrganizationID run) workspaceID (run_ID run).

(** The credential of an engine that needs one: [None] when it is not
    found, [Some ""] when none is needed. *)
Definition resolve_credential
    (engine organizationID workspaceID triggeredBy : string)
    : prog (World X) (option string) :=
  match credentialVariableKeyByEngine !! engine with
  | None => Ret (Some "")
  | Some key => ResolveValue organizationID workspaceID key triggeredBy
  end.

(** [RunDispatchService.HandleEvent], an outbox handler. *)
Definition HandleEvent (event : Event) : prog (World X) () :=
  if negb (ev_EventType event =ₛ "RunQueued") then Ret ()
  else
    let runID := field "target_id" (ev_Payload event) in
    let organizationID := ev_OrganizationID event in
    let workspaceID := field "workspace_id" (ev_Payload event) in
    started ← RunRepository_TryStartApplying organizationID runID workspaceID;
    if negb started then Ret ()
    else
      run ← RunRepository_GetByID organizationID runID;
      engine ← GetExecutionEngine organizationID workspaceID;
      match configVariableKeyByEngine !! engine with
      | None => dispatch_fail run workspaceID
      | Some configVariableKey =>
          config ← ResolveValue organizationID workspaceID
                     configVariableKey (run_TriggeredBy run);
          match config with
          | None => dispatch_fail run workspaceID
          | Some configBundle =>
              credential ← resolve_credential engine organizationID
                             workspaceID (run_TriggeredBy run);
              match credential with
              | None => dispatch_fail run workspaceID
              | Some credentialBundle =>
                  dispatched ← Dispatch runID organizationID workspaceID engine
                                 configBundle credentialBundle;
                  if dispatched : bool then Ret ()
                  else
                    RunRepository_RevertToQueued organizationID runID;;
                    Throw ErrNoWorkerAvailable
              end
          end
      end.

(** What [HandleReport] does once a transition is made. *)
Definition finish_report (organizationID workspaceID output : string) (run : Run)
    : prog (World X) () :=
  let run := if negb (output =ₛ "") then set_output (Some output) run else run in
  RunRepository_Update run "system";;
  Forget (run_ID run);;
  Unlock organizationID workspaceID (run_ID run).

(** [WorkerReportService.HandleReport] *)
Definition HandleReport
    (organizationID runID workspaceID reportedStatus logLine errorMessage : string)
    : prog (World X) () :=
  run ← RunRepository_GetByID organizationID runID;
  let output := report_output logLine errorMessage in
  let transition mark :=
    now ← time_now;
    match mark now run with
    | Err err => if bool_decide (err = ErrInvalidTransition) then Ret () else Throw err
    | Ok run => finish_report organizationID workspaceID output run
    end in
  if reportedStatus =ₛ "applied" then transition MarkApplied
  else if (reportedStatus =ₛ "failed") || (reportedStatus =ₛ "errored") then
    transition MarkFailed
  else Throw (ValidationError Execution "status must be one of applied, failed, errored").

(** [CancelRunService.Execute] *)
Definition CancelRun (ctx : Ctx)
    (organizationID projectID workspaceID runID requestingUserID : string)
    : prog (World X) Run :=
  allowed ← HasPermissionAtScope ctx organizationID requestingUserID
    permissionWorkspaceApply (Some projectID) (Some workspaceID);
  ensure allowed (ErrForbidden Execution);;
  run ← RunRepository_GetByID organizationID runID;
  ensure (run_WorkspaceID run =ₛ workspaceID) ErrRunNotFound;;
  now ← time_now;
  run ← lift (Cancel now run);
  RunRepository_Update run requestingUserID;;
  Unlock organizationID workspaceID (run_ID run);;
  _ ← try (CancelJob (run_ID run));
  Ret run.

(** The body of [reapOnce]'s loop. *)
Definition reap_one (c : StaleRunCandidate) : prog (World X) () :=
  reaped ← try (RunRepository_MarkErroredIfStillApplying
                  (cand_OrganizationID c) (cand_RunID c));
  match reaped with
  | Err _ => Ret () (* logged *)
  | Ok false => Ret ()
  | Ok true =>
      unlocked ← try (Unlock (cand_OrganizationID c) (cand_WorkspaceID c) (cand_RunID c));
      match unlocked with
      | Err _ => Ret () (* logged *)
      | Ok _ => Forget (cand_RunID c)
      end
  end.

(** [StaleRunReaperService.reapOnce] *)
Definition reapOnce (staleAfter : Z) : prog (World X) () :=
  now ← time_now;
  candidates ← RunRepository_FindStaleApplyingRuns (now - staleAfter)%Z;
  range candidates reap_one.

(** [StaleRunReaperService.Run] up to its [n]-th tick: a failed sweep is
    logged. *)
Fixpoint StaleRunReaper_Run (staleAfter : Z) (n : nat) : prog (World X) () :=
  match n with
  | 0 => Ret ()
  | S n => void (try (reapOnce staleAfter));; StaleRunReaper_Run staleAfter n
  end.

(** The gate [GetRun] and [ListRuns] share. *)
Definition read_gate (ctx : Ctx)
    (organizationID projectID workspaceID requestingUserID : string) : prog (World X) () :=
  isMember ← IsMember organizationID requestingUserID;
  ensure isMember (ErrWorkspaceNotFound Execution);;
  exists_ ← WorkspaceExists organizationID projectID workspaceID;
  ensure exists_ (ErrWorkspaceNotFound Execution);;
  canAccess ← canAccessWorkspace ctx organizationID requestingUserID projectID workspaceID;
  ensure canAccess (ErrForbidden Execution).

(** [GetRunService.Execute] *)
Definition GetRun (ctx : Ctx)
    (organizationID projectID workspaceID runID requestingUserID : string)
    : prog (World X) Run :=
  read_gate ctx organizationID projectID workspaceID requestingUserID;;
  run ← RunRepository_GetByID organizationID runID;
  ensure (run_WorkspaceID run =ₛ workspaceID) ErrRunNotFound;;
  Ret run.

(** [ListRunsService.Execute] *)
Definition ListRuns (ctx : Ctx)
    (organizationID projectID workspaceID requestingUserID : string)
    : prog (World X) (list Run) :=
  read_gate ctx organizationID projectID workspaceID requestingUserID;;
  RunRepository_ListByWorkspace organizationID workspaceID.
End execution.

(** ** What the services may assume of the other contexts

    The questions they ask, and the commands they send to workers, leave the
    database alone. *)
Class CalmPorts (X : Type) `{!ScopedPermissionChecker X, !OrganizationChecker X,
    !WorkspaceChecker X, !WorkspaceEngineReader X, !VariableResolver X,
    !WorkerDispatcher X, !WorkerCanceler X, !RunTracker X} : Prop := {
  calm_permission ctx o u p pr ws : steps_in calm (HasPermissionAtScope (X:=X) ctx o u p pr ws);
  calm_archived o : steps_in calm (IsArchived (X:=X) o);
  calm_exists o p ws : steps_in calm (WorkspaceExists (X:=X) o p ws);
  calm_engine o ws : steps_in calm (GetExecutionEngine (X:=X) o ws);
  calm_resolve o ws k u : steps_in calm (ResolveValue (X:=X) o ws k u);
  calm_dispatch r o ws e c k : steps_in calm (Dispatch (X:=X) r o ws e c k);
  calm_cancel r : steps_in calm (CancelJob (X:=X) r);
  calm_forget r : steps_in calm (Forget (X:=X) r);
}.
