(* ===== verification/AuditLog.v ===== *)
(** * The audit context (internal/audit)

    [RecordEntry] turns outbox events into the audit log; [ListAuditEntries]
    reads it page by page. *)
From S2P Require Import Prelude Prog TenancyDomain Store Outbox Principal Ports.

(** [(created_at, id) < (t, id')], and the order of the log: newest first. *)
Definition key_lt (a b : Z * string) : bool :=
  bool_decide (a.1 < b.1)%Z || (bool_decide (a.1 = b.1) && String.ltb a.2 b.2).

Definition entry_key (e : Entry) : Z * string := (entry_CreatedAt e, entry_ID e).

Definition newer (a b : Entry) : Prop := Is_true (negb (key_lt (entry_key a) (entry_key b))).
#[export] Instance newer_dec a b : Decision (newer a b).
Proof. unfold newer. apply _. Defined.

Definition defaultPageLimit : Z := 50.
Definition maxPageLimit : Z := 500.

(** The bound a client's limit is clamped to. *)
Definition page_limit (limit : Z) : Z :=
  let limit := if bool_decide (limit ≤ 0)%Z then defaultPageLimit else limit in
  if bool_decide (limit > maxPageLimit)%Z then maxPageLimit else limit.

(** A page, with the cursor of the next one.  A cursor is the pair
    [DecodeCursor] yields. *)
Record EntryPage := mkEntryPage {
  Entries : list Entry;
  NextCursor : option (Z * string);
}.

Section audit.
Context {X : Type} `{!PermissionChecker X}.

Definition AuditEntryRepository_Create (entry : Entry) : prog (World X) () :=
  org_txn (entry_OrganizationID entry) (insert_or_nothing entry).

Definition AuditEntryRepository_ListByOrganization (organizationID : string)
    (limit : nat) (before : option (Z * string)) : prog (World X) (list Entry) :=
  org_txn organizationID (
    es ← select (λ e, (entry_OrganizationID e =ₛ organizationID) &&
                      match before with
                      | None => true
                      | Some c => key_lt (entry_key e) c
                      end);
    mret (take limit (merge_sort newer es))).

(** [RecordEntryService.HandleEvent] *)
Definition RecordEntry (event : Event) : prog (World X) () :=
  id ← new_uuid;
  now ← time_now;
  AuditEntryRepository_Create
    (NewEntry id now (ev_OrganizationID event) (ev_ID event)
       (field "actor" (ev_Payload event)) (ev_EventType event)
       (field "target_type" (ev_Payload event)) (field "target_id" (ev_Payload event))
       (ev_Payload event)).

(** The last rows of [Execute]: [len(entries) > limit] tells there is a
    next page. *)
Definition make_page (limit : nat) (entries : list Entry) : EntryPage :=
  if bool_decide (limit < length entries) then
    mkEntryPage (take limit entries) (entry_key <$> entries !! (limit - 1))
  else mkEntryPage entries None.

(** The two halves of [ListAuditEntriesService.Execute]. *)
Definition audit_gate (ctx : Ctx) (organizationID requestingUserID : string)
    : prog (World X) () :=
  allowed ← HasPermission ctx organizationID requestingUserID "organization:manage";
  ensure allowed (ErrForbidden AuditLog).
Definition audit_page (organizationID : string) (limit : Z) (cursor : option (Z * string))
    : prog (World X) EntryPage :=
  let limit := Z.to_nat (page_limit limit) in
  entries ← AuditEntryRepository_ListByOrganization organizationID (limit + 1) cursor;
  Ret (make_page limit entries).

(** [Execute], between a cursor and the next as the keys they stand for; Cursor
    gives them their text. *)
Definition ListAuditEntries (ctx : Ctx) (organizationID requestingUserID : string)
    (limit : Z) (cursor : option (Z * string)) : prog (World X) EntryPage :=
  audit_gate ctx organizationID requestingUserID;;
  audit_page organizationID limit cursor.
End audit.
