(* ===== verification/Cursor.v ===== *)
(** * Audit log cursors as text (internal/audit/application/list_entries.go)

    A cursor is base64url of ["RFC3339Nano|id"].  Decoding undoes encoding, so
    the pages a client walks by text are those of [ListAuditEntries]. *)
From Stdlib Require Import Ascii ZifyNat.
From S2P Require Import Prelude Prog TenancyDomain Store Principal Ports AuditLog.

(** ** encoding/base64: [RawURLEncoding] *)
Module Base64.
#[local] Open Scope nat_scope.

Definition alphabet (i : nat) : ascii :=
  if i <? 26 then ascii_of_nat (65 + i)
  else if i <? 52 then ascii_of_nat (97 + (i - 26))
  else if i <? 62 then ascii_of_nat (48 + (i - 52))
  else if i =? 62 then "-"%char else "_"%char.

Definition index (c : ascii) : option nat :=
  let n := nat_of_ascii c in
  if (65 <=? n) && (n <=? 90) then Some (n - 65)
  else if (97 <=? n) && (n <=? 122) then Some (n - 97 + 26)
  else if (48 <=? n) && (n <=? 57) then Some (n - 48 + 52)
  else if n =? 45 then Some 62
  else if n =? 95 then Some 63 else None.

(** Three bytes are four sextets; the rest of one or two bytes is padded with
    zero bits. *)
Fixpoint sextets (l : list nat) : list nat :=
  match l with
  | a :: b :: c :: l =>
      a / 4 :: (a mod 4) * 16 + b / 16 :: (b mod 16) * 4 + c / 64 :: c mod 64 :: sextets l
  | [a; b] => [a / 4; (a mod 4) * 16 + b / 16; (b mod 16) * 4]
  | [a] => [a / 4; (a mod 4) * 16]
  | [] => []
  end.
(** A single sextet is no byte. *)
Fixpoint octets (l : list nat) : option (list nat) :=
  match l with
  | a :: b :: c :: d :: l =>
      rest ← octets l;
      Some (a * 4 + b / 16 :: (b mod 16) * 16 + c / 4 :: (c mod 4) * 64 + d :: rest)
  | [a; b; c] => Some [a * 4 + b / 16; (b mod 16) * 16 + c / 4]
  | [a; b] => Some [a * 4 + b / 16]
  | [a] => None
  | [] => Some []
  end.

Definition EncodeToString (s : string) : string :=
  String.string_of_list_ascii (map alphabet (sextets (map nat_of_ascii (String.list_ascii_of_string s)))).
(** Line breaks are skipped. *)
Definition DecodeString (s : string) : option string :=
  let cs := filter (λ c, c ≠ "010"%char ∧ c ≠ "013"%char) (String.list_ascii_of_string s) in
  sextets_ ← mapM index cs;
  bytes ← octets sextets_;
  Some (String.string_of_list_ascii (map ascii_of_nat bytes)).

Lemma index_alphabet i : i < 64 → index (alphabet i) = Some i.
Proof. intros Hi. do 64 (destruct i as [|i]; [reflexivity|]). lia. Qed.

Lemma alphabet_no_break i : i < 64 → alphabet i ≠ "010"%char ∧ alphabet i ≠ "013"%char.
Proof. intros Hi. do 64 (destruct i as [|i]; [done|]). lia. Qed.

(** Recursion by three. *)
Lemma list_ind3 {A} (P : list A → Prop) :
  P [] → (∀ a, P [a]) → (∀ a b, P [a; b]) → (∀ a b c l, P l → P (a :: b :: c :: l)) →
  ∀ l, P l.
Proof.
  intros H0 H1 H2 H3. fix go 1. intros [|a [|b [|c l]]]; [done|apply H1|apply H2|apply H3, go].
Qed.

Ltac digits := cbv beta in *; zify; Z.to_euclidean_division_equations; lia.

Ltac bytes H := repeat (apply Forall_cons_1 in H as [? H]).

Lemma sextets_lt l : Forall (λ b, b < 256) l → Forall (λ s, s < 64) (sextets l).
Proof.
  induction l as [|a|a b|a b c l IH] using list_ind3; intros Hl; cbn [sextets]; bytes Hl;
    repeat (apply Forall_cons_2; [digits|]); auto.
Qed.

Lemma octets_sextets l : Forall (λ b, b < 256) l → octets (sextets l) = Some l.
Proof.
  induction l as [|a|a b|a b c l IH] using list_ind3; intros Hl; bytes Hl.
  - done.
  - cbn [sextets octets]. do 2 f_equal. digits.
  - cbn [sextets octets]. do 2 f_equal; [digits|]. f_equal. digits.
  - cbn [sextets octets]. rewrite IH by done. cbn [mbind option_bind]. f_equal.
    f_equal; [digits|]. f_equal; [digits|]. f_equal. digits.
Qed.

(** Decoding undoes encoding. *)
Lemma decode_encode s : DecodeString (EncodeToString s) = Some s.
Proof.
  unfold DecodeString, EncodeToString. rewrite String.list_ascii_of_string_of_list_ascii.
  set (l := map nat_of_ascii (String.list_ascii_of_string s)).
  assert (Forall (λ b, b < 256) l) as Hl.
  { apply Forall_map, Forall_true. intros c. apply nat_ascii_bounded. }
  pose proof (sextets_lt l Hl) as Hs.
  rewrite filter_all by (apply Forall_map; eapply Forall_impl; [exact Hs|apply alphabet_no_break]).
  assert (mapM index (map alphabet (sextets l)) = Some (sextets l)) as ->.
  { induction Hs as [|i l' Hi _ IH]; [done|].
    cbn. by rewrite index_alphabet, IH. }
  cbn [mbind option_bind]. rewrite octets_sextets by done. cbn [mbind option_bind]. f_equal.
  unfold l. rewrite map_map, (map_ext _ id), map_id by apply ascii_nat_embedding.
  apply String.string_of_list_ascii_of_string.
Qed.
End Base64.

(** ** The cursor *)

(** [time.Time.Format(time.RFC3339Nano)] and [time.Parse]: an instant is read
    back as it was written, and its text is of digits and [-:.TZ+]. *)
Class TimeText := {
  format_nano : Z → string;
  parse_nano : string → option Z;
}.
Definition bar : ascii := "|".
Class TimeTextLaws `(TimeText) : Prop := {
  parse_format t : parse_nano (format_nano t) = Some t;
  format_no_bar t : Forall (λ c, c ≠ bar) (String.list_ascii_of_string (format_nano t));
}.

(** [strings.SplitN(s, "|", 2)], when it has two parts *)
Fixpoint split_bar (s : string) : option (string * string) :=
  match s with
  | EmptyString => None
  | String c s =>
      if bool_decide (c = bar) then Some ("", s)
      else '(a, b) ← split_bar s; Some (String c a, b)
  end.

Lemma split_bar_app a b :
  Forall (λ c, c ≠ bar) (String.list_ascii_of_string a) →
  split_bar (a +:+ String bar b) = Some (a, b).
Proof.
  induction a as [|c a IH]; intros Ha; [done|].
  apply Forall_cons_1 in Ha as [Hc Ha].
  change (String c a +:+ String bar b) with (String c (a +:+ String bar b)).
  cbn [split_bar]. rewrite bool_decide_false by done. by rewrite IH.
Qed.

Section cursor.
Context `{!TimeText}.

Definition EncodeCursor (c : Z * string) : string :=
  Base64.EncodeToString (format_nano c.1 +:+ String bar c.2).

Definition DecodeCursor (cursor : string) : option (Z * string) :=
  raw ← Base64.DecodeString cursor;
  '(at_, id) ← split_bar raw;
  t ← parse_nano at_;
  Some (t, id).

(** The text of the cursor after a page; none after the last. *)
Definition cursor_text (c : option (Z * string)) : string :=
  match c with Some c => EncodeCursor c | None => "" end.

(** A cursor the server handed out is read back as the key it stands for. *)
Lemma DecodeCursor_EncodeCursor `{!TimeTextLaws _} c : DecodeCursor (EncodeCursor c) = Some c.
Proof.
  destruct c as [t id]. unfold DecodeCursor, EncodeCursor. rewrite Base64.decode_encode.
  cbn [mbind option_bind fst snd]. rewrite split_bar_app by apply format_no_bar.
  cbn [mbind option_bind]. by rewrite parse_format.
Qed.

Lemma EncodeCursor_not_empty c : EncodeCursor c ≠ "".
Proof.
  unfold EncodeCursor, Base64.EncodeToString.
  destruct (format_nano c.1 +:+ String bar c.2) as [|a s] eqn:Hs.
  { by destruct (format_nano c.1). }
  cbn [String.list_ascii_of_string map].
  by destruct (map nat_of_ascii (String.list_ascii_of_string s)) as [|b [|b' l]].
Qed.

Section service.
Context {X : Type} `{!PermissionChecker X}.

(** The cursor of a request: none, or one that decodes. *)
Definition read_cursor (cursor : string) : res (option (Z * string)) :=
  if cursor =ₛ "" then Ok None
  else match DecodeCursor cursor with
       | Some c => Ok (Some c)
       | None => Err (ValidationError AuditLog "invalid cursor")
       end.

(** [ListAuditEntriesService.Execute] with its cursors as text; [""] is no
    next page. *)
Definition ListAuditEntries_text (ctx : Ctx) (organizationID requestingUserID : string)
    (limit : Z) (cursor : string) : prog (World X) (list Entry * string) :=
  audit_gate ctx organizationID requestingUserID;;
  before ← lift (read_cursor cursor);
  page ← audit_page organizationID limit before;
  Ret (Entries page, cursor_text (NextCursor page)).

(** Walking by text is walking by key. *)
Lemma ListAuditEntries_text_spec `{!TimeTextLaws _} ctx o u limit before w :
  exec (ListAuditEntries_text ctx o u limit (cursor_text before)) w =
  exec (page ← ListAuditEntries ctx o u limit before;
        Ret (Entries page, cursor_text (NextCursor page))) w.
Proof.
  unfold ListAuditEntries_text, ListAuditEntries. rewrite !exec_bind.
  destruct (exec (audit_gate ctx o u) w) as [[[]|e] w1]; [|reflexivity].
  rewrite exec_bind, exec_lift. unfold read_cursor. destruct before as [c|]; cbn [cursor_text].
  - rewrite bool_decide_false by apply EncodeCursor_not_empty.
    by rewrite DecodeCursor_EncodeCursor, exec_bind.
  - by rewrite bool_decide_true, exec_bind by done.
Qed.
End service.
End cursor.
