(* ===== verification/WorkspaceApp.v ===== *)
(** * The workspace services (internal/workspace/application) *)
From S2P Require Import Prelude Prog WorkspaceDomain Store WorkspaceRepo Principal Ports.

Definition permissionWorkspaceManage := "workspace:manage".
Definition permissionWorkspaceDelete := "workspace:delete".

Record CreateEnvironmentInput := {
  ce_OrganizationID : string;
  ce_ProjectID : string;
  ce_RequestingUserID : string;
  ce_Name : string;
  ce_PromotionRank : Z;
  ce_RequiresApproval : bool;
}.

Record CreateWorkspaceInput := {
  cw_OrganizationID : string;
  cw_ProjectID : string;
  cw_RequestingUserID : string;
  cw_Name : string;
  cw_ExecutionEngine : string;
  cw_EnvironmentID : option string;
}.

Record DeleteWorkspaceInput := {
  dw_OrganizationID : string;
  dw_ProjectID : string;
  dw_WorkspaceID : string;
  dw_RequestingUserID : string;
}.

Section workspace.
Context {X : Type}.
Context `{!MembershipChecker X, !PermissionChecker X, !ScopedPermissionChecker X,
  !VisibilityChecker X, !OrganizationChecker X, !ProjectChecker X}.

(** The first two checks of every service here: a member, a real project. *)
Definition project_gate (organizationID projectID requestingUserID : string)
    : prog (World X) () :=
  isMember ← IsMember organizationID requestingUserID;
  ensure isMember (ErrProjectNotFound Workspaces);;
  exists_ ← ProjectExists organizationID projectID;
  ensure exists_ (ErrProjectNotFound Workspaces).

(** [CreateEnvironmentService.Execute] *)
Definition CreateEnvironment (ctx : Ctx) (inp : CreateEnvironmentInput)
    : prog (World X) Environment :=
  project_gate (ce_OrganizationID inp) (ce_ProjectID inp) (ce_RequestingUserID inp);;
  allowed ← HasPermission ctx (ce_OrganizationID inp) (ce_RequestingUserID inp)
    "organization:manage";
  ensure allowed (ErrForbidden Workspaces);;
  id ← new_uuid;
  now ← time_now;
  env ← lift (NewEnvironment id now (ce_OrganizationID inp) (ce_ProjectID inp)
                (ce_Name inp) (ce_PromotionRank inp) (ce_RequiresApproval inp));
  EnvironmentRepository_Create env;;
  Ret env.

(** [EnvironmentID], if given, must name an environment of the project. *)
Definition check_environment (organizationID projectID : string)
    (environmentID : option string) : prog (World X) () :=
  match environmentID with
  | None => Ret ()
  | Some environmentID =>
      r ← try (EnvironmentRepository_GetByID organizationID environmentID);
      match r with
      | Err err =>
          Throw (if bool_decide (err = ErrEnvironmentNotFound)
                 then ValidationError Workspaces "environment_id does not exist" else err)
      | Ok env =>
          ensure (env_ProjectID env =ₛ projectID)
            (ValidationError Workspaces "environment_id does not belong to this project")
      end
  end.

(** [CreateWorkspaceService.Execute] *)
Definition CreateWorkspace (ctx : Ctx) (inp : CreateWorkspaceInput)
    : prog (World X) Workspace :=
  project_gate (cw_OrganizationID inp) (cw_ProjectID inp) (cw_RequestingUserID inp);;
  allowed ← HasPermissionAtScope ctx (cw_OrganizationID inp) (cw_RequestingUserID inp)
    permissionWorkspaceManage (Some (cw_ProjectID inp)) None;
  ensure allowed (ErrForbidden Workspaces);;
  archived ← IsArchived (cw_OrganizationID inp);
  ensure (negb archived) (ErrOrganizationArchived Workspaces);;
  check_environment (cw_OrganizationID inp) (cw_ProjectID inp) (cw_EnvironmentID inp);;
  id ← new_uuid;
  now ← time_now;
  ws ← lift (NewWorkspace id now (cw_OrganizationID inp) (cw_ProjectID inp)
               (cw_EnvironmentID inp) (cw_Name inp) (cw_ExecutionEngine inp));
  WorkspaceRepository_Create ws;;
  Ret ws.

(** [DeleteWorkspaceService.Execute] *)
Definition DeleteWorkspace (ctx : Ctx) (inp : DeleteWorkspaceInput) : prog (World X) () :=
  project_gate (dw_OrganizationID inp) (dw_ProjectID inp) (dw_RequestingUserID inp);;
  allowed ← HasPermissionAtScope ctx (dw_OrganizationID inp) (dw_RequestingUserID inp)
    permissionWorkspaceDelete (Some (dw_ProjectID inp)) (Some (dw_WorkspaceID inp));
  ensure allowed (ErrForbidden Workspaces);;
  ws ← WorkspaceRepository_GetByID (dw_OrganizationID inp) (dw_WorkspaceID inp);
  ensure (ws_ProjectID ws =ₛ dw_ProjectID inp) (ErrWorkspaceNotFound Workspaces);;
  WorkspaceRepository_Purge (dw_OrganizationID inp) (dw_WorkspaceID inp).

(** [GetEnvironmentService.Execute] *)
Definition GetEnvironment
    (organizationID projectID environmentID requestingUserID : string)
    : prog (World X) Environment :=
  project_gate organizationID projectID requestingUserID;;
  env ← EnvironmentRepository_GetByID organizationID environmentID;
  ensure (env_ProjectID env =ₛ projectID) ErrEnvironmentNotFound;;
  Ret env.

(** [ListEnvironmentsService.Execute] *)
Definition ListEnvironments (organizationID projectID requestingUserID : string)
    : prog (World X) (list Environment) :=
  project_gate organizationID projectID requestingUserID;;
  EnvironmentRepository_ListByProject organizationID projectID.

(** [GetWorkspaceService.Execute] *)
Definition GetWorkspace (ctx : Ctx)
    (organizationID projectID workspaceID requestingUserID : string)
    : prog (World X) Workspace :=
  project_gate organizationID projectID requestingUserID;;
  canAccess ← canAccessWorkspace ctx organizationID requestingUserID projectID workspaceID;
  ensure canAccess (ErrForbidden Workspaces);;
  ws ← WorkspaceRepository_GetByID organizationID workspaceID;
  ensure (ws_ProjectID ws =ₛ projectID) (ErrWorkspaceNotFound Workspaces);;
  Ret ws.

(** [ListWorkspacesService.Execute] *)
Definition ListWorkspaces (ctx : Ctx) (organizationID projectID requestingUserID : string)
    : prog (World X) (list Workspace) :=
  project_gate organizationID projectID requestingUserID;;
  canAccess ← canAccessProject ctx organizationID requestingUserID projectID;
  ensure canAccess (ErrForbidden Workspaces);;
  WorkspaceRepository_ListByProject organizationID projectID.
End workspace.
