(* ===== verification/VariableApp.v ===== *)
(** * The variables: repository and services
    (internal/variables/adapters/postgres, internal/variables/application) *)
From S2P Require Import Prelude Prog VariableDomain Store Principal Ports.

(** ** The repository (internal/variables/adapters/postgres) *)

(** The three nullable columns a variable's value is stored in. *)
Definition columns : Type := option string * option string * option string.

Definition valueOrSecretRefColumns (v : VariableT) : columns :=
  match var_SecretRef v with
  | Some sr => (None, Some (sr_MountID sr), Some (sr_Path sr))
  | None => (Some (var_Value v), None, None)
  end.

(** [scanVariable]: the other columns are those of [row]. *)
Definition scanVariable (row : VariableT) (c : columns) : VariableT :=
  let '(value, mountID, path) := c in
  let with_value v sr :=
    mkVariable (var_ID row) (var_OrganizationID row) (var_ScopeType row) (var_ScopeID row)
      (var_Key row) (var_Category row) (var_Sensitivity row) v sr (var_CreatedAt row) in
  match mountID with
  | Some m => with_value "" (Some (mkSecretReference m (default "" path)))
  | None => with_value (default "" value) None
  end.

(** [UPDATE variables SET value = $3, secret_mount_id = NULL, secret_path =
    NULL, category = $4, sensitivity = $5] *)
Definition update_columns (v row : VariableT) : VariableT :=
  mkVariable (var_ID row) (var_OrganizationID row) (var_ScopeType row) (var_ScopeID row)
    (var_Key row) (var_Category v) (var_Sensitivity v) (var_Value v) None
    (var_CreatedAt row).

Definition var_in_org (organizationID : string) (v : VariableT) : bool :=
  var_OrganizationID v =ₛ organizationID.

Definition var_at (organizationID scopeType scopeID : string) (v : VariableT) : bool :=
  var_in_org organizationID v && (var_ScopeType v =ₛ scopeType) && (var_ScopeID v =ₛ scopeID).

Definition key_before (a b : VariableT) : Prop := Is_true (String.leb (var_Key a) (var_Key b)).
#[export] Instance key_before_dec a b : Decision (key_before a b).
Proof. unfold key_before. apply _. Defined.

Section variable_repository.
Context {X : Type}.

(** The row stored is the one the columns read back as. *)
Definition VariableRepository_Create (v : VariableT) : prog (World X) () :=
  org_txn (var_OrganizationID v)
    (insert_row (scanVariable v (valueOrSecretRefColumns v))).

Definition VariableRepository_GetByScope
    (organizationID scopeType scopeID key : string) : prog (World X) VariableT :=
  org_txn organizationID (
    vs ← select (λ v, var_at organizationID scopeType scopeID v && (var_Key v =ₛ key));
    match vs with
    | [] => tx_fail ErrVariableNotFound
    | v :: _ => mret v
    end).

Definition VariableRepository_ListByScope (organizationID scopeType scopeID : string)
    : prog (World X) (list VariableT) :=
  org_txn organizationID (
    vs ← select (var_at organizationID scopeType scopeID);
    mret (merge_sort key_before vs)).

Definition VariableRepository_GetByID (organizationID variableID : string)
    : prog (World X) VariableT :=
  org_txn organizationID (
    row ← select_pk variableID (var_in_org organizationID);
    match row with
    | None => tx_fail ErrVariableNotFound
    | Some v => mret v
    end).

Definition VariableRepository_Update (v : VariableT) : prog (World X) () :=
  org_txn (var_OrganizationID v) (
    _ ← update_pk (var_ID v) (var_in_org (var_OrganizationID v)) (update_columns v);
    mret ()).

Definition VariableRepository_Delete (organizationID variableID : string)
    : prog (World X) () :=
  org_txn organizationID (
    _ ← delete_where (λ v, var_in_org organizationID v && (var_ID v =ₛ variableID));
    mret ()).
End variable_repository.


(** ** The services *)

Record CreateVariableInput := {
  cv_OrganizationID : string;
  cv_RequestingUserID : string;
  cv_ScopeType : string;
  cv_ScopeID : string;
  cv_Key : string;
  cv_Category : string;
  cv_Sensitivity : string;
  cv_Value : string;
  cv_SecretMountID : string;
  cv_SecretPath : string;
}.

Record UpdateVariableInput := {
  uv_OrganizationID : string;
  uv_RequestingUserID : string;
  uv_VariableID : string;
  uv_Value : string;
  uv_Category : string;
  uv_Sensitivity : string;
}.

Definition requiredPermissionForScope (scopeType : string) : string :=
  if scopeType =ₛ VScopeWorkspace then "workspace:manage" else "organization:manage".

(** [v.Value = value], and the four assignments of an update. *)
Definition set_value (value : string) (v : VariableT) : VariableT :=
  mkVariable (var_ID v) (var_OrganizationID v) (var_ScopeType v) (var_ScopeID v) (var_Key v)
    (var_Category v) (var_Sensitivity v) value (var_SecretRef v) (var_CreatedAt v).
Definition set_fields (value category sensitivity : string) (v : VariableT) : VariableT :=
  mkVariable (var_ID v) (var_OrganizationID v) (var_ScopeType v) (var_ScopeID v) (var_Key v)
    category sensitivity value None (var_CreatedAt v).

Definition uses_secret_ref (inp : CreateVariableInput) : bool :=
  negb (cv_SecretMountID inp =ₛ "") || negb (cv_SecretPath inp =ₛ "").

(** The variable a request describes. *)
Definition requested_variable (id : string) (now : Z) (inp : CreateVariableInput)
    : res VariableT :=
  if uses_secret_ref inp then
    NewVariableWithSecretRef id now (cv_OrganizationID inp) (cv_ScopeType inp)
      (cv_ScopeID inp) (cv_Key inp) (cv_Category inp) (cv_Sensitivity inp)
      (cv_SecretMountID inp) (cv_SecretPath inp)
  else
    NewVariable id now (cv_OrganizationID inp) (cv_ScopeType inp) (cv_ScopeID inp)
      (cv_Key inp) (cv_Category inp) (cv_Sensitivity inp) (cv_Value inp).

Section variables.
Context {X : Type}.
Context `{!MembershipChecker X, !PermissionChecker X, !VisibilityChecker X,
  !OrganizationChecker X, !ProjectChecker X, !VariableWorkspaceChecker X,
  !EnvironmentChecker X, !EnvironmentProjectResolver X, !SecretResolver X,
  !SecretMountChecker X}.

(** [CreateVariableService.resolveScope] *)
Definition resolveScope (inp : CreateVariableInput) : prog (World X) (bool * string) :=
  let org := cv_OrganizationID inp in
  let id := cv_ScopeID inp in
  let t := cv_ScopeType inp in
  if t =ₛ VScopeOrganization then Ret (id =ₛ org, "organization:manage")
  else if t =ₛ VScopeProject then
    exists_ ← ProjectExists org id; Ret (exists_, "organization:manage")
  else if t =ₛ VScopeEnvironment then
    exists_ ← EnvironmentExists org id; Ret (exists_, "organization:manage")
  else if t =ₛ VScopeWorkspace then
    exists_ ← Exists org id; Ret (exists_, "workspace:manage")
  else Ret (false, "").

Definition check_mount (inp : CreateVariableInput) : prog (World X) () :=
  if uses_secret_ref inp then
    mountExists ← SecretMountExists (cv_OrganizationID inp) (cv_SecretMountID inp);
    ensure mountExists (ValidationError Variables
      "secret_mount_id does not resolve to a real secret mount in this organization")
  else Ret ().

(** [CreateVariableService.Execute] *)
Definition CreateVariable (ctx : Ctx) (inp : CreateVariableInput)
    : prog (World X) VariableT :=
  ensure (negb (uses_secret_ref inp && negb (cv_Value inp =ₛ ""))) (ValidationError Variables
    "value and secret_mount_id/secret_path are mutually exclusive");;
  id ← new_uuid;
  now ← time_now;
  v ← lift (requested_variable id now inp);
  isMember ← IsMember (cv_OrganizationID inp) (cv_RequestingUserID inp);
  ensure isMember ErrScopeNotFound;;
  scope ← resolveScope inp;
  ensure scope.1 ErrScopeNotFound;;
  allowed ← HasPermission ctx (cv_OrganizationID inp) (cv_RequestingUserID inp) scope.2;
  ensure allowed (ErrForbidden Variables);;
  archived ← IsArchived (cv_OrganizationID inp);
  ensure (negb archived) (ErrOrganizationArchived Variables);;
  check_mount inp;;
  VariableRepository_Create v;;
  Ret v.

(** [DeleteVariableService.Execute] *)
Definition DeleteVariable (ctx : Ctx) (organizationID requestingUserID variableID : string)
    : prog (World X) () :=
  isMember ← IsMember organizationID requestingUserID;
  ensure isMember ErrVariableNotFound;;
  v ← VariableRepository_GetByID organizationID variableID;
  allowed ← HasPermission ctx organizationID requestingUserID
    (requiredPermissionForScope (var_ScopeType v));
  ensure allowed (ErrForbidden Variables);;
  VariableRepository_Delete organizationID variableID.

(** [UpdateVariableService.Execute] *)
Definition UpdateVariable (ctx : Ctx) (inp : UpdateVariableInput)
    : prog (World X) VariableT :=
  isMember ← IsMember (uv_OrganizationID inp) (uv_RequestingUserID inp);
  ensure isMember ErrVariableNotFound;;
  v ← VariableRepository_GetByID (uv_OrganizationID inp) (uv_VariableID inp);
  allowed ← HasPermission ctx (uv_OrganizationID inp) (uv_RequestingUserID inp)
    (requiredPermissionForScope (var_ScopeType v));
  ensure allowed (ErrForbidden Variables);;
  ensure (category_valid (uv_Category inp)) (ValidationError Variables
    "category must be one of env_var, engine_var, file_template");;
  ensure (sensitivity_valid (uv_Sensitivity inp)) (ValidationError Variables
    "sensitivity must be one of plain, sensitive");;
  let v := set_fields (uv_Value inp) (uv_Category inp) (uv_Sensitivity inp) v in
  VariableRepository_Update v;;
  Ret v.

(** The visibility of a scope's variables. *)
Definition can_access_scope (ctx : Ctx)
    (organizationID requestingUserID scopeType scopeID : string) : prog (World X) bool :=
  if scopeType =ₛ VScopeOrganization then Ret true
  else if scopeType =ₛ VScopeProject then
    canAccessProject ctx organizationID requestingUserID scopeID
  else if scopeType =ₛ VScopeWorkspace then
    scope ← GetScope organizationID scopeID;
    canAccessWorkspace ctx organizationID requestingUserID scope.1 scopeID
  else if scopeType =ₛ VScopeEnvironment then
    projectID ← ProjectIDForEnvironment organizationID scopeID;
    canAccessProject ctx organizationID requestingUserID projectID
  else Throw (ValidationError Variables ("invalid scope_type: " +:+ scopeType)).

(** [ListVariablesService.Execute] *)
Definition ListVariables (ctx : Ctx)
    (organizationID requestingUserID scopeType scopeID : string)
    : prog (World X) (list VariableT) :=
  isMember ← IsMember organizationID requestingUserID;
  ensure isMember ErrScopeNotFound;;
  canAccess ← can_access_scope ctx organizationID requestingUserID scopeType scopeID;
  ensure canAccess (ErrForbidden Variables);;
  VariableRepository_ListByScope organizationID scopeType scopeID.

(** [tryScope]: [None] when the scope does not define the key. *)
Definition tryScope (organizationID scopeType scopeID key : string)
    : prog (World X) (option VariableT) :=
  r ← try (VariableRepository_GetByScope organizationID scopeType scopeID key);
  match r with
  | Err err => if bool_decide (err = ErrVariableNotFound) then Ret None else Throw err
  | Ok v =>
      match var_SecretRef v with
      | None => Ret (Some v)
      | Some sr =>
          value ← ResolveSecret organizationID (sr_MountID sr) (sr_Path sr);
          Ret (Some (set_value value v))
      end
  end.

(** The scopes [Execute] tries, in order; the first that defines the key
    wins. *)
Fixpoint cascade (organizationID key : string) (scopes : list (string * string))
    : prog (World X) VariableT :=
  match scopes with
  | [] => Throw ErrVariableNotFound
  | (scopeType, scopeID) :: scopes =>
      v ← tryScope organizationID scopeType scopeID key;
      match v with
      | Some v => Ret v
      | None => cascade organizationID key scopes
      end
  end.

Definition cascade_scopes (organizationID workspaceID projectID : string)
    (environmentID : option string) : list (string * string) :=
  [(VScopeWorkspace, workspaceID)]
  ++ match environmentID with Some e => [(VScopeEnvironment, e)] | None => [] end
  ++ [(VScopeProject, projectID); (VScopeOrganization, organizationID)].

(** [ResolveVariableService.Execute] *)
Definition ResolveVariable (organizationID workspaceID key requestingUserID : string)
    : prog (World X) VariableT :=
  isMember ← IsMember organizationID requestingUserID;
  ensure isMember ErrScopeNotFound;;
  exists_ ← Exists organizationID workspaceID;
  ensure exists_ ErrScopeNotFound;;
  scope ← GetScope organizationID workspaceID;
  cascade organizationID key
    (cascade_scopes organizationID workspaceID scope.1 scope.2).

(** [ResolveVariableService.ResolveValue]: [None] is [found = false]. *)
Definition ResolveVariableService_ResolveValue
    (organizationID workspaceID key requestingUserID : string)
    : prog (World X) (option string) :=
  r ← try (ResolveVariable organizationID workspaceID key requestingUserID);
  match r with
  | Ok v => Ret (Some (var_Value v))
  | Err err =>
      if bool_decide (err = ErrVariableNotFound) || bool_decide (err = ErrScopeNotFound)
      then Ret None else Throw err
  end.
End variables.
