(* ===== verification/RbacApp.v ===== *)
(** * The RBAC services (internal/rbac/application) *)
From S2P Require Import Prelude Prog RbacDomain Store RbacRepo Principal Ports.

Record CreateRoleInput := {
  cr_OrganizationID : string;
  cr_RequestingUserID : string;
  cr_Name : string;
  cr_Permissions : list string;
}.

Record UpdateRoleInput := {
  ur_OrganizationID : string;
  ur_RequestingUserID : string;
  ur_RoleID : string;
  ur_Permissions : list string;
}.

Record CreateRoleBindingInput := {
  crb_OrganizationID : string;
  crb_RequestingUserID : string;
  crb_RoleID : string;
  crb_SubjectType : string;
  crb_SubjectID : string;
  crb_ScopeType : string;
  crb_ScopeID : string;
  crb_Effect : string;
}.

Record RoleBindingSummary := {
  sum_Binding : RoleBinding;
  sum_RoleName : string;
  sum_SubjectName : string;
  sum_ScopeName : string;
}.

(** The name lookups into Identity, Tenancy and Workspace that a listing
    decorates its rows with; [None] is [found = false]. *)
Class NameReaders (X : Type) := {
  GetUser : string → prog (World X) (option string);
  GetTeamName : string → string → prog (World X) (option string);
  GetServiceAccountName : string → string → prog (World X) (option string);
  GetProjectName : string → string → prog (World X) (option string);
  GetWorkspaceName : string → string → prog (World X) (option string);
}.

(** [scope.type = workspace] is checked without a project. *)
Class RbacWorkspaceChecker (X : Type) := {
  RbacWorkspaceExists : string → string → prog (World X) bool;
}.

(** Every requested permission must be one of the fixed set. *)
Fixpoint known_permissions (ps : list string) : res (list string) :=
  match ps with
  | [] => Ok []
  | p :: ps =>
      if p ∈ₛ AllPermissions then rest ← known_permissions ps; Ok (p :: rest)
      else Err (ValidationError Rbac ("unknown permission: " +:+ p))
  end.

Lemma known_permissions_ok ps qs :
  known_permissions ps = Ok qs ↔ qs = ps ∧ Forall (λ p, p ∈ AllPermissions) ps.
Proof.
  revert qs; induction ps as [|p ps IH]; intros qs; simpl; [naive_solver|].
  case_bool_decide as Hp.
  - rewrite Forall_cons. destruct (known_permissions ps) as [rs|e]; simpl.
    + specialize (IH rs). naive_solver.
    + split; [done|]. intros (-> & _ & Hall). by pose proof (proj2 (IH ps) (conj eq_refl Hall)).
  - rewrite Forall_cons. naive_solver.
Qed.

Section rbac.
Context {X : Type}.
Context `{!MembershipChecker X, !PermissionChecker X, !ProjectChecker X, !TeamChecker X,
  !ServiceAccountChecker X, !RbacWorkspaceChecker X, !NameReaders X}.

(** The first two checks of every mutation: a member who may manage. *)
Definition manage_gate (ctx : Ctx) (organizationID requestingUserID : string)
    : prog (World X) () :=
  isMember ← IsMember organizationID requestingUserID;
  ensure isMember (ErrForbidden Rbac);;
  allowed ← HasPermission ctx organizationID requestingUserID "organization:manage";
  ensure allowed (ErrForbidden Rbac).

(** [CreateRoleService.Execute] *)
Definition CreateRole (ctx : Ctx) (inp : CreateRoleInput) : prog (World X) Role :=
  manage_gate ctx (cr_OrganizationID inp) (cr_RequestingUserID inp);;
  permissions ← lift (known_permissions (cr_Permissions inp));
  id ← new_uuid;
  role ← lift (NewRole id (cr_OrganizationID inp) (cr_Name inp) permissions);
  RoleRepository_Create role;;
  Ret role.

(** [UpdateRoleService.Execute] *)
Definition UpdateRole (ctx : Ctx) (inp : UpdateRoleInput) : prog (World X) Role :=
  manage_gate ctx (ur_OrganizationID inp) (ur_RequestingUserID inp);;
  role ← RoleRepository_GetByID (ur_OrganizationID inp) (ur_RoleID inp);
  ensure (bool_decide (is_Some (role_OrganizationID role))) (ErrForbidden Rbac);;
  permissions ← lift (known_permissions (ur_Permissions inp));
  ensure (negb (bool_decide (length permissions = 0)))
    (ValidationError Rbac "permissions must not be empty");;
  let role := set_permissions permissions role in
  RoleRepository_Update role;;
  Ret role.

(** The [switch in.SubjectType] of [CreateRoleBinding]. *)
Definition check_subject (inp : CreateRoleBindingInput) : prog (World X) () :=
  let org := crb_OrganizationID inp in
  let id := crb_SubjectID inp in
  if crb_SubjectType inp =ₛ SubjectTypeUser then
    subjectIsMember ← IsMember org id;
    ensure subjectIsMember
      (ValidationError Rbac "subject.id is not a member of this organization")
  else if crb_SubjectType inp =ₛ SubjectTypeTeam then
    exists_ ← TeamExists org id;
    ensure exists_ (ValidationError Rbac "subject.id is not a team in this organization")
  else if crb_SubjectType inp =ₛ SubjectTypeServiceAccount then
    exists_ ← ServiceAccountExists org id;
    ensure exists_
      (ValidationError Rbac "subject.id is not a service account in this organization")
  else Ret ().

(** The [switch in.ScopeType] of [CreateRoleBinding]. *)
Definition check_scope (inp : CreateRoleBindingInput) : prog (World X) () :=
  let org := crb_OrganizationID inp in
  let id := crb_ScopeID inp in
  if crb_ScopeType inp =ₛ ScopeTypeOrganization then
    ensure (id =ₛ org) (ValidationError Rbac
      "scope.id must be this organization's id for scope.type organization")
  else if crb_ScopeType inp =ₛ ScopeTypeProject then
    exists_ ← ProjectExists org id;
    ensure exists_ (ValidationError Rbac "scope.id is not a project in this organization")
  else if crb_ScopeType inp =ₛ ScopeTypeWorkspace then
    exists_ ← RbacWorkspaceExists org id;
    ensure exists_ (ValidationError Rbac "scope.id is not a workspace in this organization")
  else Ret ().

(** [CreateRoleBindingService.Execute] *)
Definition CreateRoleBinding (ctx : Ctx) (inp : CreateRoleBindingInput)
    : prog (World X) RoleBinding :=
  manage_gate ctx (crb_OrganizationID inp) (crb_RequestingUserID inp);;
  ensure (crb_SubjectType inp ∈ₛ ValidSubjectTypes)
    (ValidationError Rbac "subject.type must be one of: user, team, service_account");;
  ensure (crb_ScopeType inp ∈ₛ ValidScopeTypes)
    (ValidationError Rbac "scope.type must be one of: organization, project, workspace");;
  let effect := if crb_Effect inp =ₛ "" then EffectAllow else crb_Effect inp in
  ensure (effect ∈ₛ ValidEffects)
    (ValidationError Rbac "effect must be one of: allow, deny");;
  role ← RoleRepository_GetByID (crb_OrganizationID inp) (crb_RoleID inp);
  ensure (match role_OrganizationID role with
          | Some o => o =ₛ crb_OrganizationID inp | None => true end) ErrRoleNotFound;;
  check_subject inp;;
  check_scope inp;;
  id ← new_uuid;
  now ← time_now;
  let binding := NewRoleBinding id now (crb_OrganizationID inp) (crb_RoleID inp)
    (crb_SubjectType inp) (crb_SubjectID inp) (crb_ScopeType inp) (crb_ScopeID inp)
    effect in
  RoleBindingRepository_Create binding;;
  Ret binding.

(** [DeleteRoleBindingService.Execute] *)
Definition DeleteRoleBinding (ctx : Ctx)
    (organizationID requestingUserID bindingID : string) : prog (World X) () :=
  manage_gate ctx organizationID requestingUserID;;
  RoleBindingRepository_Delete organizationID bindingID.

(** [ListRolesService.Execute] *)
Definition ListRoles (organizationID requestingUserID : string)
    : prog (World X) (list Role) :=
  isMember ← IsMember organizationID requestingUserID;
  ensure isMember (ErrForbidden Rbac);;
  RoleRepository_ListForOrganization organizationID.

(** A failed or empty lookup leaves the name empty. *)
Definition name_or_empty (p : prog (World X) (option string)) : prog (World X) string :=
  r ← try p;
  Ret (match r with Ok (Some name) => name | _ => "" end).

(** The body of the listing's loop. *)
Definition summarize (organizationID : string) (b : RoleBinding)
    : prog (World X) RoleBindingSummary :=
  role ← try (RoleRepository_GetByID organizationID (rb_RoleID b));
  subjectName ←
    (if rb_SubjectType b =ₛ SubjectTypeUser then name_or_empty (GetUser (rb_SubjectID b))
     else if rb_SubjectType b =ₛ SubjectTypeTeam then
       name_or_empty (GetTeamName organizationID (rb_SubjectID b))
     else if rb_SubjectType b =ₛ SubjectTypeServiceAccount then
       name_or_empty (GetServiceAccountName organizationID (rb_SubjectID b))
     else Ret "");
  scopeName ←
    (if rb_ScopeType b =ₛ ScopeTypeProject then
       name_or_empty (GetProjectName organizationID (rb_ScopeID b))
     else if rb_ScopeType b =ₛ ScopeTypeWorkspace then
       name_or_empty (GetWorkspaceName organizationID (rb_ScopeID b))
     else Ret "");
  Ret {| sum_Binding := b;
         sum_RoleName := match role with Ok r => role_Name r | Err _ => "" end;
         sum_SubjectName := subjectName;
         sum_ScopeName := scopeName |}.

Fixpoint summarize_all (organizationID : string) (bs : list RoleBinding)
    : prog (World X) (list RoleBindingSummary) :=
  match bs with
  | [] => Ret []
  | b :: bs =>
      s ← summarize organizationID b;
      rest ← summarize_all organizationID bs;
      Ret (s :: rest)
  end.

(** [ListRoleBindingsService.Execute] *)
Definition ListRoleBindings (organizationID subjectID requestingUserID : string)
    : prog (World X) (list RoleBindingSummary) :=
  isMember ← IsMember organizationID requestingUserID;
  ensure isMember (ErrForbidden Rbac);;
  bindings ← RoleBindingRepository_ListForSubject organizationID subjectID;
  summarize_all organizationID bindings.
End rbac.
