(* ===== verification/TenancyApp.v ===== *)
(** * The tenancy services (internal/tenancy/application): organizations,
    members, projects, teams, and the purge reaper *)
From S2P Require Import Prelude Prog TenancyDomain Store TenancyRepo Principal Ports.

Definition permissionOrganizationManage := "organization:manage".
Definition permissionOrganizationDelete := "organization:delete".
Definition permissionProjectManage := "project:manage".
Definition permissionProjectDelete := "project:delete".
Definition permissionProjectRead := "project:read".
Definition builtinOwnerRoleName := "owner".
Definition builtinReadRoleName := "read".
Definition validRoleNames := ["owner"; "admin"; "write"; "read"].
Definition subjectTypeTeam := "team".
Definition subjectTypeUser := "user".

Record CreateOrganizationInput := {
  co_Name : string;
  co_Slug : string;
  co_CreatedByUserID : string;
}.
Record CreateProjectInput := {
  cp_OrganizationID : string;
  cp_RequestingUserID : string;
  cp_Name : string;
  cp_Slug : string;
  cp_Description : string;
}.
(** [ArchiveOrganizationInput], [DeleteOrganizationInput] *)
Record OrganizationInput := {
  oi_OrganizationID : string;
  oi_RequestingUserID : string;
}.
(** [AddMemberInput] ([NewMemberUserID]), [BlockMemberInput],
    [UnblockMemberInput] and [RemoveMemberInput] ([TargetUserID]) *)
Record MemberInput := {
  mi_OrganizationID : string;
  mi_RequestingUserID : string;
  mi_TargetUserID : string;
}.
Record ChangeMemberRoleInput := {
  cm_OrganizationID : string;
  cm_RequestingUserID : string;
  cm_TargetUserID : string;
  cm_RoleName : string;
}.
Record DeleteProjectInput := {
  dp_OrganizationID : string;
  dp_ProjectID : string;
  dp_RequestingUserID : string;
}.
(** [CreateTeamInput] has a name, [DeleteTeamInput] a team, [UpdateTeamInput]
    both. *)
Record TeamInput := {
  ti_OrganizationID : string;
  ti_RequestingUserID : string;
  ti_TeamID : string;
  ti_Name : string;
}.
(** [AddTeamMemberInput], [RemoveTeamMemberInput] *)
Record TeamMemberInput := {
  tmi_OrganizationID : string;
  tmi_RequestingUserID : string;
  tmi_TeamID : string;
  tmi_MemberUserID : string;
}.

Record MemberSummary := mkMemberSummary {
  ms_UserID : string;
  ms_Username : string;
  ms_Email : string;
  ms_RoleName : string;
  ms_JoinedAt : Z;
  ms_Blocked : bool;
}.
Record TeamMemberSummary := mkTeamMemberSummary {
  tms_UserID : string;
  tms_Username : string;
  tms_Email : string;
  tms_JoinedAt : Z;
}.

Section tenancy.
Context {X : Type}.
Context `{!MembershipChecker X, !PermissionChecker X, !VisibilityChecker X,
  !UserReader X, !PlatformAdmins X, !RoleManager X}.

(** A member, who is otherwise told the organization does not exist. *)
Definition tenancy_member (organizationID requestingUserID : string) : prog (World X) () :=
  member_gate ErrOrganizationNotFound organizationID requestingUserID.

(** A member with a permission. *)
Definition tenancy_gate (ctx : Ctx) (organizationID requestingUserID permission : string)
    : prog (World X) () :=
  permission_gate ErrOrganizationNotFound (ErrForbidden Tenancy) ctx organizationID
    requestingUserID permission.

(** ** Organizations *)

(** [CreateOrganizationService.Execute] *)
Definition CreateOrganization (inp : CreateOrganizationInput) : prog (World X) Organization :=
  count ← RootMembershipRepository_CountOrganizations;
  let isFirstOrgEver := bool_decide (count = 0) in
  (if isFirstOrgEver then Ret ()
   else
     isAdmin ← IsPlatformAdmin (co_CreatedByUserID inp);
     ensure isAdmin (ErrForbidden Tenancy));;
  id ← new_uuid;
  now ← time_now;
  org ← lift (NewOrganization id now (co_Name inp) (co_Slug inp));
  OrganizationRepository_Create org (co_CreatedByUserID inp);;
  mid ← new_uuid;
  joined ← time_now;
  MembershipRepository_Create
    (NewOrganizationMembership mid joined (org_ID org) (co_CreatedByUserID inp));;
  AssignRole (org_ID org) (co_CreatedByUserID inp) builtinOwnerRoleName;;
  (if isFirstOrgEver then SetPlatformAdmin (co_CreatedByUserID inp) true else Ret ());;
  Ret org.

(** [GetOrganizationService.Execute] *)
Definition GetOrganization (id requestingUserID : string) : prog (World X) Organization :=
  tenancy_member id requestingUserID;;
  OrganizationRepository_GetByID id.

(** [ListMyOrganizationsService.Execute] *)
Definition ListMyOrganizations (userID : string) : prog (World X) (list Organization) :=
  RootMembershipRepository_ListOrganizationsForUser userID.

(** [ArchiveOrganizationService.Execute] *)
Definition ArchiveOrganization (ctx : Ctx) (inp : OrganizationInput)
    : prog (World X) Organization :=
  tenancy_gate ctx (oi_OrganizationID inp) (oi_RequestingUserID inp)
    permissionOrganizationDelete;;
  org ← OrganizationRepository_GetByID (oi_OrganizationID inp);
  now ← time_now;
  org ← lift (Archive now org);
  OrganizationRepository_Archive org (oi_RequestingUserID inp);;
  Ret org.

(** [DeleteOrganizationService.Execute] *)
Definition DeleteOrganization (ctx : Ctx) (inp : OrganizationInput) : prog (World X) () :=
  tenancy_gate ctx (oi_OrganizationID inp) (oi_RequestingUserID inp)
    permissionOrganizationDelete;;
  _ ← OrganizationRepository_GetByID (oi_OrganizationID inp);
  OrganizationRepository_Purge (oi_OrganizationID inp).

(** [PurgeReaperService.reapOnce] *)
Definition PurgeReaper_reapOnce (purgeAfter : Z) : prog (World X) () :=
  now ← time_now;
  orgIDs ← OrganizationRepository_FindOrganizationsPastPurgeWindow (now - purgeAfter);
  range orgIDs (λ orgID, void (try (OrganizationRepository_Purge orgID))).

(** ** Members *)

(** [AddMemberService.Execute] *)
Definition AddMember (ctx : Ctx) (inp : MemberInput) : prog (World X) () :=
  tenancy_gate ctx (mi_OrganizationID inp) (mi_RequestingUserID inp)
    permissionOrganizationManage;;
  id ← new_uuid;
  now ← time_now;
  MembershipRepository_Create
    (NewOrganizationMembership id now (mi_OrganizationID inp) (mi_TargetUserID inp));;
  AssignRole (mi_OrganizationID inp) (mi_TargetUserID inp) builtinReadRoleName.

(** [ChangeMemberRoleService.Execute] *)
Definition ChangeMemberRole (ctx : Ctx) (inp : ChangeMemberRoleInput) : prog (World X) () :=
  ensure (cm_RoleName inp ∈ₛ validRoleNames) (ValidationError Tenancy
    ("role " +:+ cm_RoleName inp +:+ " must be one of owner, admin, write, read"));;
  tenancy_gate ctx (cm_OrganizationID inp) (cm_RequestingUserID inp)
    permissionOrganizationManage;;
  isTargetMember ← IsMember (cm_OrganizationID inp) (cm_TargetUserID inp);
  ensure isTargetMember ErrOrganizationNotFound;;
  ReplaceRole (cm_OrganizationID inp) (cm_TargetUserID inp) (cm_RoleName inp).

(** The target has a membership, blocked or not. *)
Definition target_gate (ctx : Ctx) (inp : MemberInput) : prog (World X) () :=
  tenancy_gate ctx (mi_OrganizationID inp) (mi_RequestingUserID inp)
    permissionOrganizationManage;;
  targetExists ← MembershipRepository_MembershipExists (mi_OrganizationID inp)
    (mi_TargetUserID inp);
  ensure targetExists ErrOrganizationNotFound.

(** [BlockMemberService.Execute] *)
Definition BlockMember (ctx : Ctx) (inp : MemberInput) : prog (World X) () :=
  target_gate ctx inp;;
  MembershipRepository_SetBlocked (mi_OrganizationID inp) (mi_TargetUserID inp) true.

(** [UnblockMemberService.Execute] *)
Definition UnblockMember (ctx : Ctx) (inp : MemberInput) : prog (World X) () :=
  target_gate ctx inp;;
  MembershipRepository_SetBlocked (mi_OrganizationID inp) (mi_TargetUserID inp) false.

(** [RemoveMemberService.Execute] *)
Definition RemoveMember (ctx : Ctx) (inp : MemberInput) : prog (World X) () :=
  target_gate ctx inp;;
  DeleteForSubject (mi_OrganizationID inp) subjectTypeUser (mi_TargetUserID inp);;
  MembershipRepository_Delete (mi_OrganizationID inp) (mi_TargetUserID inp).

(** The row of the roster. *)
Definition summarize_member (organizationID : string) (m : OrganizationMembership)
    : prog (World X) MemberSummary :=
  u ← GetUserByID (om_UserID m);
  r ← GetOrgScopeRoleName organizationID (om_UserID m);
  Ret (mkMemberSummary (om_UserID m) u.1.1 u.1.2 r.1 (om_JoinedAt m)
         (negb (bool_decide (om_BlockedAt m = None)))).

(** A loop that collects what its body returns. *)
Fixpoint collect {A B} (body : A → prog (World X) B) (l : list A) : prog (World X) (list B) :=
  match l with
  | [] => Ret []
  | x :: l =>
      y ← body x;
      ys ← collect body l;
      Ret (y :: ys)
  end.

(** [ListMembersService.Execute] *)
Definition ListMembers (organizationID requestingUserID : string)
    : prog (World X) (list MemberSummary) :=
  tenancy_member organizationID requestingUserID;;
  memberships ← MembershipRepository_ListByOrganization organizationID;
  collect (summarize_member organizationID) memberships.

(** [ListAvailableUsersService.Execute] *)
Definition ListAvailableUsers (ctx : Ctx) (organizationID requestingUserID : string)
    : prog (World X) (list (string * string * string)) :=
  tenancy_gate ctx organizationID requestingUserID permissionOrganizationManage;;
  allUsers ← ListAll;
  memberships ← MembershipRepository_ListByOrganization organizationID;
  Ret (filter (λ u, u.1.1 ∉ map om_UserID memberships) allUsers).

(** ** Projects *)

(** [CreateProjectService.Execute] *)
Definition CreateProject (ctx : Ctx) (inp : CreateProjectInput) : prog (World X) Project :=
  tenancy_gate ctx (cp_OrganizationID inp) (cp_RequestingUserID inp) permissionProjectManage;;
  org ← OrganizationRepository_GetByID (cp_OrganizationID inp);
  ensure (negb (org_Status org =ₛ OrganizationStatusArchived)) (ErrOrganizationArchived Tenancy);;
  id ← new_uuid;
  now ← time_now;
  project ← lift (NewProject id now (cp_OrganizationID inp) (cp_Name inp) (cp_Slug inp)
                    (cp_Description inp));
  ProjectRepository_Create project;;
  Ret project.

(** [GetProjectService.Execute] *)
Definition GetProject (ctx : Ctx) (organizationID projectID requestingUserID : string)
    : prog (World X) Project :=
  tenancy_member organizationID requestingUserID;;
  allowed ← canAccessProject ctx organizationID requestingUserID projectID;
  ensure allowed (ErrForbidden Tenancy);;
  ProjectRepository_GetByID organizationID projectID.

(** The loop of [ListProjects]. *)
Fixpoint visible_projects (ctx : Ctx) (organizationID requestingUserID : string)
    (ps : list Project) : prog (World X) (list Project) :=
  match ps with
  | [] => Ret []
  | p :: ps =>
      canAccess ← HasScopedPermission ctx organizationID requestingUserID
        permissionProjectRead "project" (proj_ID p);
      rest ← visible_projects ctx organizationID requestingUserID ps;
      Ret (if canAccess : bool then p :: rest else rest)
  end.

(** [ListProjectsService.Execute] *)
Definition ListProjects (ctx : Ctx) (organizationID requestingUserID : string)
    : prog (World X) (list Project) :=
  tenancy_member organizationID requestingUserID;;
  projects ← ProjectRepository_ListByOrganization organizationID;
  isAdmin ← HasPermission ctx organizationID requestingUserID permissionOrganizationManage;
  if isAdmin : bool then Ret projects
  else visible_projects ctx organizationID requestingUserID projects.

(** [DeleteProjectService.Execute] *)
Definition DeleteProject (ctx : Ctx) (inp : DeleteProjectInput) : prog (World X) () :=
  tenancy_gate ctx (dp_OrganizationID inp) (dp_RequestingUserID inp) permissionProjectDelete;;
  _ ← ProjectRepository_GetByID (dp_OrganizationID inp) (dp_ProjectID inp);
  ProjectRepository_Purge (dp_OrganizationID inp) (dp_ProjectID inp).

(** ** Teams *)

Definition team_gate (ctx : Ctx) (organizationID requestingUserID : string)
    : prog (World X) () :=
  tenancy_gate ctx organizationID requestingUserID permissionOrganizationManage.

(** [CreateTeamService.Execute] *)
Definition CreateTeam (ctx : Ctx) (inp : TeamInput) : prog (World X) Team :=
  team_gate ctx (ti_OrganizationID inp) (ti_RequestingUserID inp);;
  id ← new_uuid;
  now ← time_now;
  team ← lift (NewTeam id now (ti_OrganizationID inp) (ti_Name inp));
  TeamRepository_Create team;;
  Ret team.

(** [UpdateTeamService.Execute] *)
Definition UpdateTeam (ctx : Ctx) (inp : TeamInput) : prog (World X) Team :=
  team_gate ctx (ti_OrganizationID inp) (ti_RequestingUserID inp);;
  ensure (negb (ti_Name inp =ₛ "")) (ValidationError Tenancy "name is required");;
  team ← TeamRepository_GetByID (ti_OrganizationID inp) (ti_TeamID inp);
  let team := set_team_name (ti_Name inp) team in
  TeamRepository_Update team;;
  Ret team.

(** [DeleteTeamService.Execute] *)
Definition DeleteTeam (ctx : Ctx) (inp : TeamInput) : prog (World X) () :=
  team_gate ctx (ti_OrganizationID inp) (ti_RequestingUserID inp);;
  _ ← TeamRepository_GetByID (ti_OrganizationID inp) (ti_TeamID inp);
  DeleteForSubject (ti_OrganizationID inp) subjectTypeTeam (ti_TeamID inp);;
  TeamRepository_Delete (ti_OrganizationID inp) (ti_TeamID inp).

(** [AddTeamMemberService.Execute] *)
Definition AddTeamMember (ctx : Ctx) (inp : TeamMemberInput) : prog (World X) () :=
  team_gate ctx (tmi_OrganizationID inp) (tmi_RequestingUserID inp);;
  team ← TeamRepository_GetByID (tmi_OrganizationID inp) (tmi_TeamID inp);
  targetIsMember ← IsMember (tmi_OrganizationID inp) (tmi_MemberUserID inp);
  ensure targetIsMember
    (ValidationError Tenancy "user_id is not a member of this organization");;
  id ← new_uuid;
  now ← time_now;
  TeamRepository_AddMember (NewTeamMembership id now (team_ID team) (tmi_OrganizationID inp)
                              (tmi_MemberUserID inp)).

(** [RemoveTeamMemberService.Execute] *)
Definition RemoveTeamMember (ctx : Ctx) (inp : TeamMemberInput) : prog (World X) () :=
  team_gate ctx (tmi_OrganizationID inp) (tmi_RequestingUserID inp);;
  team ← TeamRepository_GetByID (tmi_OrganizationID inp) (tmi_TeamID inp);
  TeamRepository_RemoveMember (tmi_OrganizationID inp) (team_ID team) (tmi_MemberUserID inp).

(** [ListTeamsService.Execute] *)
Definition ListTeams (organizationID requestingUserID : string) : prog (World X) (list Team) :=
  tenancy_member organizationID requestingUserID;;
  TeamRepository_ListByOrganization organizationID.

Definition summarize_team_member (m : TeamMembership) : prog (World X) TeamMemberSummary :=
  u ← GetUserByID (tm_UserID m);
  Ret (mkTeamMemberSummary (tm_UserID m) u.1.1 u.1.2 (tm_JoinedAt m)).

(** [ListTeamMembersService.Execute] *)
Definition ListTeamMembers (organizationID teamID requestingUserID : string)
    : prog (World X) (list TeamMemberSummary) :=
  tenancy_member organizationID requestingUserID;;
  _ ← TeamRepository_GetByID organizationID teamID;
  memberships ← TeamRepository_ListMembers organizationID teamID;
  collect summarize_team_member memberships.
End tenancy.
