(* ===== verification/IdentityApp.v ===== *)
(** * The identity services (internal/identity/application): users,
    passwords, refresh and reset tokens, service accounts and API keys *)
From S2P Require Import Prelude Prog RbacDomain IdentityDomain Store IdentityRepo Principal Ports.

(** golang.org/x/crypto/bcrypt and internal/platform/auth's opaque tokens:
    [bcrypt_hash salt password], with the random salt made explicit;
    [opaque entropy] is the text of a random token, [hash_opaque] what is
    stored of it. *)
Class Crypto := {
  bcrypt_hash : string → string → res string;
  bcrypt_compare : string → string → bool;
  opaque : string → string;
  hash_opaque : string → string;
}.

(** What the code relies on: a hash verifies the password it was made of. *)
Class CryptoLaws `(Crypto) : Prop := {
  bcrypt_ok salt password hash :
    bcrypt_hash salt password = Ok hash → bcrypt_compare hash password = true;
}.

(** Identity's view of Tenancy (main.go's [defaultOrgBootstrapper]). *)
Class DefaultOrganizationBootstrapper (X : Type) := {
  BootstrapDefaultOrganization : string → prog (World X) ();
}.

Record CreateUserInput := {
  cu_Username : string;
  cu_Email : string;
  cu_AuthSource : string;
  cu_Password : string;
}.
Record CreateServiceAccountInput := {
  csa_OrganizationID : string;
  csa_RequestingUserID : string;
  csa_Name : string;
  csa_Description : string;
}.
Record CreateAPIKeyInput := {
  cak_OrganizationID : string;
  cak_RequestingUserID : string;
  cak_ServiceAccountID : string;
  cak_Name : string;
  cak_Scopes : list string;
  cak_ExpiresAt : option Z;
}.
Record RevokeAPIKeyInput := {
  rak_OrganizationID : string;
  rak_RequestingUserID : string;
  rak_APIKeyID : string;
}.
Record SetPlatformAdminInput := {
  spa_RequestingUserID : string;
  spa_TargetUserID : string;
  spa_IsPlatformAdmin : bool;
}.

(** The scope validator of main.go: a known permission. *)
Definition IsValidScope (scope : string) : bool := scope ∈ₛ AllPermissions.

(** The loop over [in.Scopes]. *)
Fixpoint valid_scopes (scopes : list string) : res () :=
  match scopes with
  | [] => Ok ()
  | scope :: scopes =>
      if IsValidScope scope then valid_scopes scopes
      else Err (ValidationError Identity ("unknown scope: " +:+ scope))
  end.

Section identity.
Context {X : Type} `{!Crypto}.
Context `{!MembershipChecker X, !PermissionChecker X, !DefaultOrganizationBootstrapper X}.

(** [bcrypt.GenerateFromPassword] *)
Definition GenerateFromPassword (password : string) : prog (World X) string :=
  salt ← new_uuid;
  lift (bcrypt_hash salt password).

(** [auth.GenerateOpaqueToken] *)
Definition GenerateOpaqueToken : prog (World X) string :=
  entropy ← new_uuid;
  Ret (opaque entropy).

Definition HashOpaqueToken (token : string) : string := hash_opaque token.

(** ** Users *)

(** [AuthenticateService.Execute] *)
Definition Authenticate (username password : string) : prog (World X) User :=
  r ← try (UserRepository_GetByUsername username);
  match r with
  | Err err => Throw (if decide (err = ErrUserNotFound) then ErrInvalidCredentials else err)
  | Ok user =>
      match user_PasswordHash user with
      | Some hash =>
          ensure ((user_AuthSource user =ₛ AuthSourceLocal) && bcrypt_compare hash password)
            ErrInvalidCredentials;;
          Ret user
      | None => Throw ErrInvalidCredentials
      end
  end.

(** [CreateUserService.Execute] *)
Definition CreateUser (inp : CreateUserInput) : prog (World X) User :=
  id ← new_uuid;
  now ← time_now;
  user ← lift (NewUser id now (cu_Username inp) (cu_Email inp) (cu_AuthSource inp));
  user ← (if cu_AuthSource inp =ₛ AuthSourceLocal then
            ensure (negb (cu_Password inp =ₛ ""))
              (ValidationError Identity "password is required for local auth_source");;
            hash ← GenerateFromPassword (cu_Password inp);
            lift (SetPasswordHash hash user)
          else Ret user);
  countBefore ← UserRepository_Count;
  UserRepository_Create user;;
  (if bool_decide (countBefore = 0) then BootstrapDefaultOrganization (user_ID user)
   else Ret ());;
  Ret user.

(** [GetOwnUserService.Execute] *)
Definition GetOwnUser (userID : string) : prog (World X) User := UserRepository_GetByID userID.

(** [SetPlatformAdminService.Execute] *)
Definition SetUserPlatformAdmin (inp : SetPlatformAdminInput) : prog (World X) () :=
  isRequesterAdmin ← UserRepository_IsPlatformAdmin (spa_RequestingUserID inp);
  ensure isRequesterAdmin (ErrForbidden Identity);;
  _ ← UserRepository_GetByID (spa_TargetUserID inp);
  UserRepository_SetPlatformAdmin (spa_TargetUserID inp) (spa_IsPlatformAdmin inp).

(** ** Refresh tokens *)

(** [RefreshTokenService.Issue] *)
Definition RefreshToken_Issue (userID : string) : prog (World X) string :=
  plaintext ← GenerateOpaqueToken;
  id ← new_uuid;
  now ← time_now;
  RefreshTokenRepository_Create (NewRefreshToken id now userID (HashOpaqueToken plaintext));;
  Ret plaintext.

(** [RefreshTokenService.Refresh] *)
Definition RefreshToken_Refresh (plaintextToken : string) : prog (World X) (string * string) :=
  token ← RefreshTokenRepository_GetByHash (HashOpaqueToken plaintextToken);
  now ← time_now;
  ensure (refresh_valid now token) ErrRefreshTokenInvalid;;
  _ ← UserRepository_GetByID (rt_UserID token);
  RefreshTokenRepository_Revoke (rt_ID token);;
  newRefreshToken ← RefreshToken_Issue (rt_UserID token);
  Ret (rt_UserID token, newRefreshToken).

(** ** Password resets *)

(** [PasswordResetService.RequestReset]; the token it logs is its value
    here, [None] when there is nothing to reset. *)
Definition RequestReset (email : string) : prog (World X) (option string) :=
  r ← try (UserRepository_GetByEmail email);
  match r with
  | Err err => if decide (err = ErrUserNotFound) then Ret None else Throw err
  | Ok user =>
      if negb (user_AuthSource user =ₛ AuthSourceLocal) then Ret None
      else
        plaintext ← GenerateOpaqueToken;
        id ← new_uuid;
        now ← time_now;
        PasswordResetTokenRepository_Create
          (NewPasswordResetToken id now (user_ID user) (HashOpaqueToken plaintext));;
        Ret (Some plaintext)
  end.

(** [PasswordResetService.ConfirmReset]; the length is in bytes. *)
Definition ConfirmReset (plaintextToken newPassword : string) : prog (World X) () :=
  ensure (bool_decide (8 ≤ String.length newPassword))
    (ValidationError Identity "password must be at least 8 characters");;
  token ← PasswordResetTokenRepository_GetByHash (HashOpaqueToken plaintextToken);
  now ← time_now;
  ensure (reset_valid now token) ErrPasswordResetTokenInvalid;;
  hashedPassword ← GenerateFromPassword newPassword;
  UserRepository_UpdatePasswordHash (prt_UserID token) hashedPassword;;
  PasswordResetTokenRepository_MarkUsed (prt_ID token).

(** ** Service accounts and API keys *)

(** A manager of the organization; [notMember] is what others are told. *)
Definition identity_gate (notMember : error) (ctx : Ctx)
    (organizationID requestingUserID : string) : prog (World X) () :=
  permission_gate notMember (ErrForbidden Identity) ctx organizationID requestingUserID
    "organization:manage".

(** [CreateServiceAccountService.Execute] *)
Definition CreateServiceAccount (ctx : Ctx) (inp : CreateServiceAccountInput)
    : prog (World X) ServiceAccount :=
  identity_gate ErrServiceAccountNotFound ctx (csa_OrganizationID inp)
    (csa_RequestingUserID inp);;
  id ← new_uuid;
  now ← time_now;
  sa ← lift (NewServiceAccount id now (csa_OrganizationID inp) (csa_Name inp)
               (csa_Description inp));
  ServiceAccountRepository_Create sa;;
  Ret sa.

(** [CreateAPIKeyService.Execute]: the key and its plaintext. *)
Definition CreateAPIKey (ctx : Ctx) (inp : CreateAPIKeyInput)
    : prog (World X) (APIKey * string) :=
  identity_gate ErrServiceAccountNotFound ctx (cak_OrganizationID inp)
    (cak_RequestingUserID inp);;
  _ ← ServiceAccountRepository_GetByID (cak_OrganizationID inp) (cak_ServiceAccountID inp);
  lift (valid_scopes (cak_Scopes inp));;
  plaintext ← GenerateOpaqueToken;
  id ← new_uuid;
  now ← time_now;
  key ← lift (NewAPIKey id now APIKeyOwnerTypeServiceAccount (cak_ServiceAccountID inp)
                (cak_Name inp) (HashOpaqueToken plaintext) (cak_Scopes inp)
                (cak_ExpiresAt inp));
  APIKeyRepository_Create (cak_OrganizationID inp) key;;
  Ret (key, plaintext).

(** [RevokeAPIKeyService.Execute] *)
Definition RevokeAPIKey (ctx : Ctx) (inp : RevokeAPIKeyInput) : prog (World X) () :=
  identity_gate ErrAPIKeyInvalid ctx (rak_OrganizationID inp) (rak_RequestingUserID inp);;
  APIKeyRepository_Revoke (rak_OrganizationID inp) (rak_APIKeyID inp).

(** main.go's [apiKeyResolver]: the key's owner and scopes; failing to note
    the use does not matter. *)
Definition apiKeyResolver (plaintextKey : string) : prog (World X) (string * list string) :=
  key ← APIKeyRepository_GetByHash (HashOpaqueToken plaintextKey);
  now ← time_now;
  ensure (key_valid now key) ErrAPIKeyInvalid;;
  _ ← try (APIKeyRepository_TouchLastUsed (ak_ID key));
  Ret (ak_OwnerID key, ak_Scopes key).
End identity.
