(* ===== verification/Envelope.v ===== *)
(** * Encryption at rest (internal/platform/envelope)

    A secret with no further backend to defer to is sealed under a key derived
    from the master key and a salt of its own.  AES-GCM, BLAKE2b and the
    random source are parameters. *)
From S2P Require Import Prelude Prog Store.

Class Aead := {
  (** [n] bytes of [rand.Reader], from one draw *)
  random_bytes : nat → string → string;
  (** keyed BLAKE2b-256 *)
  blake2b : string → string → string;
  gcm_seal : string → string → string → string;
  gcm_open : string → string → string → option string;
}.

(** What the code relies on: under the same key and nonce GCM opens what it
    sealed, and [io.ReadFull] fills its buffer. *)
Class AeadLaws `(Aead) : Prop := {
  gcm_open_seal key nonce plaintext :
    gcm_open key nonce (gcm_seal key nonce plaintext) = Some plaintext;
  random_length n draw : String.length (random_bytes n draw) = n;
}.

Record Sealed := mkSealed {
  Ciphertext : string;
  Nonce : string;
  Salt : string;
}.

Definition KeySize : nat := 32.
Definition SaltSize : nat := 16.
Definition gcm_NonceSize : nat := 12.

Section envelope.
Context {X : Type} `{!Aead}.

Definition deriveKey (masterKey salt : string) : string := blake2b masterKey salt.

Definition Seal (masterKey plaintext : string) : prog (World X) Sealed :=
  ensure (bool_decide (String.length masterKey = KeySize)) ErrInvalidMasterKey;;
  draw ← new_uuid;
  let salt := random_bytes SaltSize draw in
  let recordKey := deriveKey masterKey salt in
  draw ← new_uuid;
  let nonce := random_bytes gcm_NonceSize draw in
  Ret (mkSealed (gcm_seal recordKey nonce plaintext) nonce salt).

Definition Open (masterKey : string) (sealed : Sealed) : res string :=
  if negb (bool_decide (String.length masterKey = KeySize)) then Err ErrInvalidMasterKey
  else match gcm_open (deriveKey masterKey (Salt sealed)) (Nonce sealed) (Ciphertext sealed) with
       | Some plaintext => Ok plaintext
       | None => Err ErrCrypto
       end.

(** What is sealed opens again, under the same master key. *)
Lemma Seal_Open `{!AeadLaws _} masterKey plaintext (w w' : World X) sealed :
  exec (Seal masterKey plaintext) w = (Ok sealed, w') → Open masterKey sealed = Ok plaintext.
Proof.
  unfold Seal. intros ([] & w1 & [Hlen ->]%exec_ensure_ok & Hs)%exec_bind_ok. bools.
  cbn in Hs. injection Hs as <- <-.
  unfold Open. rewrite bool_decide_true by done. simpl. by rewrite gcm_open_seal.
Qed.

(** Sealing consumes randomness only. *)
Lemma Seal_db masterKey plaintext (w w' : World X) r :
  exec (Seal masterKey plaintext) w = (r, w') → db w' = db w ∧ clock w' = clock w.
Proof.
  unfold Seal. by destruct (bool_decide _); cbn; intros [= <- <-].
Qed.
End envelope.
