(* ===== verification/Secrets.v ===== *)
(** * The Secrets context (internal/secrets)

    Mounts, their repository, the Vault client and the services.  The Vault
    SDK is a parameter. *)
From S2P Require Import Prelude Prog FleetDomain Store Envelope FleetRepo Principal Ports.

(** ** The Vault SDK (github.com/hashicorp/vault/api)

    [vault_write], [vault_read] and [vault_lookup_self] are
    [Logical().WriteWithContext], [Logical().ReadWithContext] and
    [Auth().Token().LookupSelfWithContext] of a client for an address, with a
    token once there is one.  [None] is a nil secret. *)
Record VaultSecret := mkVaultSecret {
  vs_ClientToken : option string;   (* [Auth.ClientToken]; [None]: nil [Auth] *)
  vs_Data : option (gmap string any);
}.

Class VaultAPI (X : Type) := {
  vault_write : string → string → string → gmap string any → prog (World X) (option VaultSecret);
  vault_read : string → string → string → prog (World X) (option VaultSecret);
  vault_lookup_self : string → string → prog (World X) ();
}.

(** Documented behaviour of a KV v2 engine: a read returns what was last
    written at a path of that server; signing in is a write to another
    backend.  None of it touches the database. *)
Definition login_path := "auth/approle/login".

Class VaultLaws (X : Type) `{!VaultAPI X} := {
  kv : X → string → string → option any;
  calm_vault_write a t p d : steps_in calm (vault_write (X:=X) a t p d);
  calm_vault_read a t p : steps_in calm (vault_read (X:=X) a t p);
  calm_lookup_self a t : steps_in calm (vault_lookup_self (X:=X) a t);
  kv_written a t p d v w s w' :
    p ≠ login_path → d !! "data" = Some v →
    exec (vault_write a t p d) w = (Ok s, w') → kv (aux w') a p = Some v;
  kv_elsewhere a t p d b q w r w' :
    p = login_path ∨ p ≠ q →
    exec (vault_write a t p d) w = (r, w') → kv (aux w') b q = kv (aux w) b q;
  kv_read a t p v w s w' :
    kv (aux w) a p = Some v → exec (vault_read a t p) w = (Ok s, w') →
    ∃ secret data, s = Some secret ∧ vs_Data secret = Some data ∧ data !! "data" = Some v;
}.

Definition secretValueKey := "value".
Definition quotation_mark : string := String (Ascii.ascii_of_nat 34) EmptyString.

Section vault.
Context {X : Type} `{!VaultAPI X}.

(** [if err != nil { return fmt.Errorf("vault: ...: %w", err) }] *)
Definition vault_call {A} (p : prog (World X) A) : prog (World X) A :=
  r ← try p;
  match r with Ok a => Ret a | Err _ => Throw ErrSecretBackend end.

(** [Client.login]: the token of a client of this address. *)
Definition login (address roleID secretID : string) : prog (World X) string :=
  secret ← vault_call (vault_write address "" login_path
    {["role_id" := AString roleID; "secret_id" := AString secretID]});
  match secret ≫= vs_ClientToken with
  | Some token => ensure (given token) ErrSecretBackend;; Ret token
  | None => Throw ErrSecretBackend
  end.

Definition Client_TestConnection (address roleID secretID : string) : prog (World X) () :=
  token ← login address roleID secretID;
  vault_call (vault_lookup_self address token).

(** What a KV v2 read returned holds the value under [data.value]. *)
Definition kv2_value (secret : option VaultSecret) : res string :=
  match secret ≫= vs_Data with
  | None => Err ErrSecretBackend
  | Some data =>
      match as_map (data !! "data") with
      | None => Err ErrSecretBackend
      | Some inner =>
          match as_string (inner !! secretValueKey) with
          | Some value => Ok value
          | None => Err ErrSecretBackend
          end
      end
  end.

Definition Client_ReadSecret (address roleID secretID path : string) : prog (World X) string :=
  token ← login address roleID secretID;
  secret ← vault_call (vault_read address token path);
  lift (kv2_value secret).

Definition Client_WriteSecret (address roleID secretID path value : string)
    : prog (World X) () :=
  token ← login address roleID secretID;
  _ ← vault_call (vault_write address token path
        {["data" := AMap {[secretValueKey := AString value]}]});
  Ret ().
End vault.

(** ** The repository *)
Section repository.
Context {X : Type}.

Definition SecretMountRepository_Create (mount : SecretMount) : prog (World X) () :=
  org_txn (sm_OrganizationID mount) (insert_row mount).

Definition sm_in (organizationID : string) (m : SecretMount) : bool :=
  sm_OrganizationID m =ₛ organizationID.

Definition SecretMountRepository_GetByID (organizationID id : string)
    : prog (World X) SecretMount :=
  org_txn organizationID (get_row id (sm_in organizationID) ErrSecretMountNotFound).

Definition SecretMountRepository_ListForOrganization (organizationID : string)
    : prog (World X) (list SecretMount) :=
  org_txn organizationID (
    ms ← select (sm_in organizationID);
    mret (merge_sort (oldest_first sm_CreatedAt) ms)).
End repository.

(** ** The services *)

Record CreateSecretMountInput := {
  csm_OrganizationID : string;
  csm_RequestingUserID : string;
  csm_Name : string;
  csm_BackendType : string;
  csm_Address : string;
  csm_RoleID : string;
  csm_SecretID : string;
}.

Record WriteSecretInput := {
  wsi_OrganizationID : string;
  wsi_MountID : string;
  wsi_RequestingUserID : string;
  wsi_Path : string;
  wsi_Value : string;
}.

Section services.
Context {X : Type}.
Context `{!MembershipChecker X, !PermissionChecker X, !Aead, !VaultAPI X}.
Context (masterKey : string).

Definition secrets_gate : Ctx → string → string → prog (World X) () := λ ctx o u,
  permission_gate (ErrForbidden Secrets) (ErrForbidden Secrets) ctx o u "organization:manage".

(** [CreateSecretMountService.Execute] *)
Definition CreateSecretMount (ctx : Ctx) (inp : CreateSecretMountInput)
    : prog (World X) SecretMount :=
  secrets_gate ctx (csm_OrganizationID inp) (csm_RequestingUserID inp);;
  ensure (csm_BackendType inp =ₛ BackendTypeVault) (ValidationError Secrets
    ("backend_type " +:+ csm_BackendType inp +:+
     " is not yet implemented - only " +:+ quotation_mark +:+ "vault" +:+ quotation_mark +:+
     " is supported"));;
  ensure (given (csm_SecretID inp)) (ValidationError Secrets "secret_id is required");;
  sealed ← Seal masterKey (csm_SecretID inp);
  id ← new_uuid;
  now ← time_now;
  mount ← lift (NewSecretMount id now (csm_OrganizationID inp) (csm_Name inp)
    (csm_BackendType inp) (csm_Address inp) (csm_RoleID inp)
    (Ciphertext sealed) (Nonce sealed) (Salt sealed));
  SecretMountRepository_Create mount;;
  Ret mount.

(** [ListSecretMountsService.Execute] *)
Definition ListSecretMounts (organizationID requestingUserID : string)
    : prog (World X) (list SecretMount) :=
  member_gate (ErrForbidden Secrets) organizationID requestingUserID;;
  SecretMountRepository_ListForOrganization organizationID.

Definition decryptSecretID (mount : SecretMount) : res string :=
  Open masterKey
    (mkSealed (sm_EncryptedSecretID mount) (sm_SecretIDNonce mount) (sm_SecretIDSalt mount)).

(** [switch mount.BackendType]: only Vault has an adapter. *)
Definition on_vault {A} (mount : SecretMount) (p : prog (World X) A) : prog (World X) A :=
  if sm_BackendType mount =ₛ BackendTypeVault then p
  else Throw (ValidationError Secrets
         ("backend_type " +:+ sm_BackendType mount +:+ " is not yet implemented")).

(** [TestConnectionService.Execute] *)
Definition TestConnection (ctx : Ctx) (organizationID mountID requestingUserID : string)
    : prog (World X) () :=
  secrets_gate ctx organizationID requestingUserID;;
  mount ← SecretMountRepository_GetByID organizationID mountID;
  secretID ← lift (decryptSecretID mount);
  on_vault mount (Client_TestConnection (sm_Address mount) (sm_RoleID mount) secretID).

(** [ResolveSecretService.ResolveValue] *)
Definition ResolveSecretService_ResolveValue (organizationID mountID path : string)
    : prog (World X) string :=
  mount ← SecretMountRepository_GetByID organizationID mountID;
  secretID ← lift (decryptSecretID mount);
  on_vault mount (Client_ReadSecret (sm_Address mount) (sm_RoleID mount) secretID path).

(** [WriteSecretService.WriteValue] and [Execute] *)
Definition WriteSecretService_WriteValue (organizationID mountID path value : string)
    : prog (World X) () :=
  mount ← SecretMountRepository_GetByID organizationID mountID;
  secretID ← lift (decryptSecretID mount);
  on_vault mount (Client_WriteSecret (sm_Address mount) (sm_RoleID mount) secretID path value).

Definition WriteSecret (ctx : Ctx) (inp : WriteSecretInput) : prog (World X) () :=
  secrets_gate ctx (wsi_OrganizationID inp) (wsi_RequestingUserID inp);;
  ensure (given (wsi_Path inp) && given (wsi_Value inp))
    (ValidationError Secrets "path and value are both required");;
  WriteSecretService_WriteValue (wsi_OrganizationID inp) (wsi_MountID inp) (wsi_Path inp)
    (wsi_Value inp).
End services.
