(* ===== verification/FleetMachines.v ===== *)
(** * The machine, network and volume services (internal/fleet/application:
    machine.go, network.go, volume.go) and the ports of Fleet *)
From stdpp Require Import pretty.
From S2P Require Import Prelude Prog FleetDomain Store Envelope FleetRepo Principal Ports.

(** ** Ports *)

(** Secrets' [WriteValue], and the SSH adapter. *)
Class SecretWriter (X : Type) := {
  WriteValue : string → string → string → string → prog (World X) ();
}.

Record ConnectionTarget := mkConnectionTarget {
  ct_Host : string;
  ct_Port : Z;
  ct_User : string;
  ct_CredentialType : string;
  ct_Secret : string;
}.
Record RemoteFile := mkRemoteFile {
  rf_Path : string;
  rf_Content : string;
}.

(** [RunOperation] calls back with every line of output. *)
Class SSHRunner (X : Type) := {
  Probe : ConnectionTarget → prog (World X) (string * string);
  RunOperation : ConnectionTarget → list RemoteFile → string →
    (string → prog (World X) ()) → prog (World X) (Z * string);
}.

Definition permissionMachineRead := "machine:read".
Definition permissionMachineManage := "machine:manage".
Definition permissionMachineDelete := "machine:delete".
Definition permissionNetworkVolumeRead := "network_volume:read".
Definition permissionNetworkVolumeManage := "network_volume:manage".
Definition permissionNetworkVolumeDelete := "network_volume:delete".
Definition permissionComposeFileRead := "compose_file:read".
Definition permissionComposeFileManage := "compose_file:manage".
Definition permissionComposeFileDelete := "compose_file:delete".
Definition permissionOperationRead := "operation:read".
Definition permissionOperationDeploy := "operation:deploy".

Record CreateMachineInput := {
  cm_OrganizationID : string;
  cm_RequestingUserID : string;
  cm_Name : string;
  cm_Host : string;
  cm_SSHPort : Z;
  cm_SSHUser : string;
  cm_CredentialType : string;
  cm_CredentialStorage : string;
  cm_CredentialMountID : string;
  cm_CredentialPath : string;
  cm_CredentialSecret : string;
  cm_DeployBasePath : string;
}.

Record UpdateMachineInput := {
  um_OrganizationID : string;
  um_RequestingUserID : string;
  um_MachineID : string;
  um_SSHUser : option string;
  um_CredentialType : option string;
  um_CredentialMountID : option string;
  um_CredentialPath : option string;
  um_CredentialSecret : option string;
  um_DeployBasePath : option string;
}.

Record DuplicateMachineInput := {
  dm_OrganizationID : string;
  dm_RequestingUserID : string;
  dm_MachineID : string;
  dm_Name : string;
}.

Record TestMachineConnectionInput := {
  tm_OrganizationID : string;
  tm_RequestingUserID : string;
  tm_Host : string;
  tm_SSHPort : Z;
  tm_SSHUser : string;
  tm_CredentialType : string;
  tm_CredentialStorage : string;
  tm_CredentialMountID : string;
  tm_CredentialPath : string;
  tm_CredentialSecret : string;
}.

(** The assignments of an update. *)
Definition with_access (sshUser credentialType deployBasePath : option string) (m : Machine)
    : Machine :=
  mkMachine (mach_ID m) (mach_OrganizationID m) (mach_Name m) (mach_Host m) (mach_SSHPort m)
    (default (mach_SSHUser m) sshUser) (default (mach_CredentialType m) credentialType)
    (mach_CredentialStorage m) (mach_CredentialRef m) (mach_EncryptedCredential m)
    (mach_CredentialNonce m) (mach_CredentialSalt m)
    (default (mach_DeployBasePath m) deployBasePath) (mach_ConnectionStatus m)
    (mach_DockerStatus m) (mach_LastCheckedAt m) (mach_Archived m) (mach_CreatedAt m).
Definition with_credential_ref (ref : FleetSecretReference) (m : Machine) : Machine :=
  mkMachine (mach_ID m) (mach_OrganizationID m) (mach_Name m) (mach_Host m) (mach_SSHPort m)
    (mach_SSHUser m) (mach_CredentialType m) (mach_CredentialStorage m) ref
    (mach_EncryptedCredential m) (mach_CredentialNonce m) (mach_CredentialSalt m)
    (mach_DeployBasePath m) (mach_ConnectionStatus m) (mach_DockerStatus m)
    (mach_LastCheckedAt m) (mach_Archived m) (mach_CreatedAt m).
Definition with_sealed (sealed : Sealed) (m : Machine) : Machine :=
  mkMachine (mach_ID m) (mach_OrganizationID m) (mach_Name m) (mach_Host m) (mach_SSHPort m)
    (mach_SSHUser m) (mach_CredentialType m) (mach_CredentialStorage m) (mach_CredentialRef m)
    (Ciphertext sealed) (Nonce sealed) (Salt sealed)
    (mach_DeployBasePath m) (mach_ConnectionStatus m) (mach_DockerStatus m)
    (mach_LastCheckedAt m) (mach_Archived m) (mach_CreatedAt m).

(** [newMachine]: the source but for its identity and what was observed of it. *)
Definition clone_machine (source : Machine) (id : string) (now : Z) (name : string) : Machine :=
  mkMachine id (mach_OrganizationID source) name (mach_Host source) (mach_SSHPort source)
    (mach_SSHUser source) (mach_CredentialType source) (mach_CredentialStorage source)
    (mach_CredentialRef source) (mach_EncryptedCredential source) (mach_CredentialNonce source)
    (mach_CredentialSalt source) (mach_DeployBasePath source) ConnectionStatusUnknown
    DockerStatusUnknown None false now.

Definition maxDuplicateNameAttempts : nat := 50.

(** [duplicateName(name, attempt)] *)
Definition duplicateName (name : string) (attempt : nat) : string :=
  if bool_decide (attempt = 1) then name +:+ " (copy)"
  else name +:+ " (copy " +:+ pretty attempt +:+ ")".

Section machines.
Context {X : Type}.
Context `{!MembershipChecker X, !PermissionChecker X, !SecretMountChecker X, !SecretResolver X,
  !Aead, !SSHRunner X}.
Context (masterKey : string).

Definition fleet_gate : Ctx → string → string → string → prog (World X) () :=
  permission_gate (ErrForbidden Fleet) (ErrForbidden Fleet).

Definition credential_mount_check (organizationID mountID : string) : prog (World X) () :=
  exists_ ← SecretMountExists organizationID mountID;
  ensure exists_ (ValidationError Fleet
    "credential_mount_id does not reference a real secret mount in this organization").

(** [CreateMachineService.Execute] *)
Definition CreateMachine (ctx : Ctx) (inp : CreateMachineInput) : prog (World X) Machine :=
  let org := cm_OrganizationID inp in
  fleet_gate ctx org (cm_RequestingUserID inp) permissionMachineManage;;
  ensure (credential_storage_valid (cm_CredentialStorage inp)) (ValidationError Fleet
    "credential_storage must be one of vault, local");;
  machine ←
    (if cm_CredentialStorage inp =ₛ CredentialStorageVault then
       credential_mount_check org (cm_CredentialMountID inp);;
       id ← new_uuid;
       now ← time_now;
       lift (NewMachine id now org (cm_Name inp) (cm_Host inp) (cm_SSHPort inp) (cm_SSHUser inp)
         (cm_CredentialType inp)
         (mkFleetSecretReference (cm_CredentialMountID inp) (cm_CredentialPath inp))
         (cm_DeployBasePath inp))
     else
       ensure (given (cm_CredentialSecret inp)) (ValidationError Fleet
         "credential_secret is required for local credential storage");;
       sealed ← Seal masterKey (cm_CredentialSecret inp);
       id ← new_uuid;
       now ← time_now;
       lift (NewMachineWithLocalCredential id now org (cm_Name inp) (cm_Host inp)
         (cm_SSHPort inp) (cm_SSHUser inp) (cm_CredentialType inp)
         (Ciphertext sealed) (Nonce sealed) (Salt sealed) (cm_DeployBasePath inp)));
  MachineRepository_Create (cm_RequestingUserID inp) machine;;
  Ret machine.

(** [ListMachinesService.Execute], [GetMachineService.Execute] *)
Definition ListMachines (ctx : Ctx) (organizationID requestingUserID : string)
    (includeArchived : bool) : prog (World X) (list Machine) :=
  fleet_gate ctx organizationID requestingUserID permissionMachineRead;;
  MachineRepository_ListByOrganization organizationID includeArchived.
Definition GetMachine (ctx : Ctx) (organizationID requestingUserID machineID : string)
    : prog (World X) Machine :=
  fleet_gate ctx organizationID requestingUserID permissionMachineRead;;
  MachineRepository_GetByID organizationID machineID.

(** [UpdateMachineService.Execute] *)
Definition UpdateMachine (ctx : Ctx) (inp : UpdateMachineInput) : prog (World X) Machine :=
  let org := um_OrganizationID inp in
  fleet_gate ctx org (um_RequestingUserID inp) permissionMachineManage;;
  machine ← MachineRepository_GetByID org (um_MachineID inp);
  ensure (match um_CredentialType inp with Some ct => credential_type_valid ct | None => true end)
    (ValidationError Fleet "invalid credential_type");;
  let machine := with_access (um_SSHUser inp) (um_CredentialType inp) (um_DeployBasePath inp)
    machine in
  machine ←
    (match um_CredentialMountID inp, um_CredentialPath inp with
     | None, None => Ret machine
     | mountID, path =>
         let ref := mach_CredentialRef machine in
         let ref := mkFleetSecretReference (default (fsr_MountID ref) mountID)
                      (default (fsr_Path ref) path) in
         credential_mount_check org (fsr_MountID ref);;
         Ret (with_credential_ref ref machine)
     end);
  machine ←
    (match um_CredentialSecret inp with
     | None => Ret machine
     | Some secret =>
         ensure (mach_CredentialStorage machine =ₛ CredentialStorageLocal) (ValidationError Fleet
           "credential_secret can only be updated for a Machine using local credential storage");;
         sealed ← Seal masterKey secret;
         Ret (with_sealed sealed machine)
     end);
  MachineRepository_Update (um_RequestingUserID inp) machine;;
  Ret machine.

(** [ArchiveMachineService], [UnarchiveMachineService] and
    [DeleteMachineService] *)
Definition ArchiveMachine (ctx : Ctx) (organizationID requestingUserID machineID : string)
    : prog (World X) () :=
  fleet_gate ctx organizationID requestingUserID permissionMachineManage;;
  MachineRepository_Archive requestingUserID organizationID machineID.
Definition UnarchiveMachine (ctx : Ctx) (organizationID requestingUserID machineID : string)
    : prog (World X) () :=
  fleet_gate ctx organizationID requestingUserID permissionMachineManage;;
  MachineRepository_Unarchive requestingUserID organizationID machineID.
Definition DeleteMachine (ctx : Ctx) (organizationID requestingUserID machineID : string)
    : prog (World X) () :=
  fleet_gate ctx organizationID requestingUserID permissionMachineDelete;;
  MachineRepository_Delete requestingUserID organizationID machineID.

Definition create_clone (requestingUserID : string) (source : Machine) (name : string)
    : prog (World X) Machine :=
  id ← new_uuid;
  now ← time_now;
  let clone := clone_machine source id now name in
  MachineRepository_Create requestingUserID clone;;
  Ret clone.

(** The loop over the attempts, [attempts] of them to go. *)
Fixpoint try_names (requestingUserID : string) (source : Machine) (attempt attempts : nat)
    : prog (World X) Machine :=
  match attempts with
  | 0 => Throw (ValidationError Fleet
           "could not find an available name to duplicate this machine under")
  | S attempts =>
      r ← try (create_clone requestingUserID source (duplicateName (mach_Name source) attempt));
      match r with
      | Ok clone => Ret clone
      | Err err =>
          if bool_decide (err = ErrMachineNameTaken)
          then try_names requestingUserID source (S attempt) attempts
          else Throw err
      end
  end.

(** [DuplicateMachineService.Execute] *)
Definition DuplicateMachine (ctx : Ctx) (inp : DuplicateMachineInput) : prog (World X) Machine :=
  fleet_gate ctx (dm_OrganizationID inp) (dm_RequestingUserID inp) permissionMachineManage;;
  source ← MachineRepository_GetByID (dm_OrganizationID inp) (dm_MachineID inp);
  if given (dm_Name inp) then create_clone (dm_RequestingUserID inp) source (dm_Name inp)
  else try_names (dm_RequestingUserID inp) source 1 maxDuplicateNameAttempts.

(** [TestMachineConnectionService.Execute] *)
Definition TestMachineConnection (ctx : Ctx) (inp : TestMachineConnectionInput)
    : prog (World X) (string * string) :=
  fleet_gate ctx (tm_OrganizationID inp) (tm_RequestingUserID inp) permissionMachineManage;;
  secret ←
    (if tm_CredentialStorage inp =ₛ CredentialStorageLocal then Ret (tm_CredentialSecret inp)
     else ResolveSecret (tm_OrganizationID inp) (tm_CredentialMountID inp) (tm_CredentialPath inp));
  Probe (mkConnectionTarget (tm_Host inp) (tm_SSHPort inp) (tm_SSHUser inp)
    (tm_CredentialType inp) secret).

Definition resolveMachineCredential (m : Machine) : prog (World X) string :=
  if mach_CredentialStorage m =ₛ CredentialStorageLocal then
    lift (Open masterKey
      (mkSealed (mach_EncryptedCredential m) (mach_CredentialNonce m) (mach_CredentialSalt m)))
  else ResolveSecret (mach_OrganizationID m) (fsr_MountID (mach_CredentialRef m))
         (fsr_Path (mach_CredentialRef m)).

Definition target_of (m : Machine) (secret : string) : ConnectionTarget :=
  mkConnectionTarget (mach_Host m) (mach_SSHPort m) (mach_SSHUser m) (mach_CredentialType m)
    secret.

(** [CheckMachineConnectionService.Execute]: a failed probe is a result. *)
Definition CheckMachineConnection (ctx : Ctx)
    (organizationID requestingUserID machineID : string) : prog (World X) Machine :=
  fleet_gate ctx organizationID requestingUserID permissionMachineRead;;
  machine ← MachineRepository_GetByID organizationID machineID;
  secret ← resolveMachineCredential machine;
  r ← try (Probe (target_of machine secret));
  let '(connStatus, dockerStatus) :=
    match r with
    | Ok statuses => statuses
    | Err _ => (ConnectionStatusUnreachable, DockerStatusUnknown)
    end in
  now ← time_now;
  let machine := RecordConnectionCheck connStatus dockerStatus now machine in
  MachineRepository_Update requestingUserID machine;;
  Ret machine.

(** ** Networks and volumes *)

Definition CreateNetwork (ctx : Ctx) (organizationID requestingUserID name : string)
    (external : bool) : prog (World X) Network :=
  fleet_gate ctx organizationID requestingUserID permissionNetworkVolumeManage;;
  id ← new_uuid;
  now ← time_now;
  network ← lift (NewNetwork id now organizationID name requestingUserID external);
  NetworkRepository_Create network;;
  Ret network.
Definition ListNetworks (ctx : Ctx) (organizationID requestingUserID : string)
    : prog (World X) (list Network) :=
  fleet_gate ctx organizationID requestingUserID permissionNetworkVolumeRead;;
  NetworkRepository_ListByOrganization organizationID.
Definition DeleteNetwork (ctx : Ctx) (organizationID requestingUserID networkID : string)
    : prog (World X) () :=
  fleet_gate ctx organizationID requestingUserID permissionNetworkVolumeDelete;;
  NetworkRepository_Delete requestingUserID organizationID networkID.

Definition CreateVolume (ctx : Ctx) (organizationID requestingUserID name hostPath : string)
    : prog (World X) Volume :=
  fleet_gate ctx organizationID requestingUserID permissionNetworkVolumeManage;;
  id ← new_uuid;
  now ← time_now;
  volume ← lift (NewVolume id now organizationID name hostPath requestingUserID);
  VolumeRepository_Create volume;;
  Ret volume.
Definition ListVolumes (ctx : Ctx) (organizationID requestingUserID : string)
    : prog (World X) (list Volume) :=
  fleet_gate ctx organizationID requestingUserID permissionNetworkVolumeRead;;
  VolumeRepository_ListByOrganization organizationID.
Definition DeleteVolume (ctx : Ctx) (organizationID requestingUserID volumeID : string)
    : prog (World X) () :=
  fleet_gate ctx organizationID requestingUserID permissionNetworkVolumeDelete;;
  VolumeRepository_Delete requestingUserID organizationID volumeID.
End machines.
