(* ===== verification/FleetFiles.v ===== *)
(** * The compose-file, attachment, variable and operation services
    (internal/fleet/application: compose_file.go, scan_compose_variables.go,
    attachment.go, variable.go, create_secret_variable.go, operation.go) *)
From S2P Require Import Prelude Prog FleetDomain Store Envelope FleetRepo FleetText Compose.
From S2P Require Import Principal Ports FleetMachines.

Record CreateComposeFileInput := {
  ccf_OrganizationID : string;
  ccf_RequestingUserID : string;
  ccf_Name : string;
  ccf_ComposeContent : string;
  ccf_IsGlobal : bool;
}.

Record CreateFleetVariableInput := {
  cfv_OrganizationID : string;
  cfv_RequestingUserID : string;
  cfv_ComposeFileID : string;
  cfv_Key : string;
  cfv_VarType : string;
  cfv_Value : string;
  cfv_SecretMountID : string;
  cfv_SecretPath : string;
  cfv_FileTargetPath : string;
}.

Record UpdateFleetVariableInput := {
  ufv_OrganizationID : string;
  ufv_RequestingUserID : string;
  ufv_VariableID : string;
  ufv_Value : option string;
  ufv_SecretMountID : option string;
  ufv_SecretPath : option string;
  ufv_FileTargetPath : option string;
}.

Record CreateSecretVariableInput := {
  csv_OrganizationID : string;
  csv_RequestingUserID : string;
  csv_ComposeFileID : string;
  csv_Key : string;
  csv_MountID : string;
  csv_Value : string;
}.

Record TriggerOperationInput := {
  to_OrganizationID : string;
  to_RequestingUserID : string;
  to_ComposeFileID : string;
  to_MachineID : string;
  to_OperationType : string;
}.

(** [v.Value = value], [v.SecretRef = ref], [v.FileTargetPath = path] *)
Definition fv_set_value (value : string) (v : FleetVariable) : FleetVariable :=
  mkFleetVariable (fv_ID v) (fv_OrganizationID v) (fv_ComposeFileID v) (fv_Key v) (fv_VarType v)
    value (fv_SecretRef v) (fv_FileTargetPath v) (fv_CreatedAt v).
Definition fv_set_ref (ref : FleetSecretReference) (v : FleetVariable) : FleetVariable :=
  mkFleetVariable (fv_ID v) (fv_OrganizationID v) (fv_ComposeFileID v) (fv_Key v) (fv_VarType v)
    (fv_Value v) (Some ref) (fv_FileTargetPath v) (fv_CreatedAt v).
Definition fv_set_path (path : string) (v : FleetVariable) : FleetVariable :=
  mkFleetVariable (fv_ID v) (fv_OrganizationID v) (fv_ComposeFileID v) (fv_Key v) (fv_VarType v)
    (fv_Value v) (fv_SecretRef v) path (fv_CreatedAt v).

(** [byKey]: a later row of the same key wins. *)
Definition by_key (vs : list FleetVariable) : gmap string FleetVariable :=
  foldl (λ m v, <[fv_Key v := v]> m) ∅ vs.

(** Secret values do not leave through a listing. *)
Definition mask_secret (v : FleetVariable) : FleetVariable :=
  if fv_VarType v =ₛ VarTypeSecret then fv_set_value MaskedValue v else v.

Definition secret_variable_path (projectID composeFileID key : string) : string :=
  "secret/data/fleet/compose-files/" +:+ projectID +:+ "/" +:+ composeFileID +:+ "/" +:+ key.

Section files.
Context {X : Type}.
Context `{!MembershipChecker X, !PermissionChecker X, !ProjectChecker X, !SecretMountChecker X,
  !SecretResolver X, !SecretWriter X}.
Context (yaml_unmarshal : string → string + option (gmap string any)).
Context (quote : string → string).
(** Go's walks over [map[string]any] and over [map[string]string] *)
Context (map_order : gmap string any → list (string * any)).
Context (string_map_order : gmap string string → list (string * string)).

(** ** Compose files *)

Definition sync_one (actorUserID organizationID composeFileID : string)
    (existing : gmap string FleetVariable) (kv : string * string) : prog (World X) () :=
  match existing !! kv.1 with
  | Some current =>
      if fv_VarType current =ₛ VarTypeEnv
      then FleetVariableRepository_Update actorUserID (fv_set_value kv.2 current)
      else Ret ()
  | None =>
      id ← new_uuid;
      now ← time_now;
      v ← lift (NewFleetVariable id now organizationID composeFileID kv.1 VarTypeEnv kv.2 "");
      FleetVariableRepository_Create actorUserID v
  end.

Definition syncEnvVariablesFromCompose
    (actorUserID organizationID composeFileID content : string) : prog (World X) () :=
  found ← lift (scanComposeEnvironment yaml_unmarshal map_order content);
  existing ← FleetVariableRepository_ListByComposeFile organizationID composeFileID;
  range (string_map_order found)
    (sync_one actorUserID organizationID composeFileID (by_key existing)).

(** [CreateComposeFileService.Execute] *)
Definition CreateComposeFile (ctx : Ctx) (inp : CreateComposeFileInput)
    : prog (World X) ComposeFile :=
  let org := ccf_OrganizationID inp in
  fleet_gate ctx org (ccf_RequestingUserID inp) permissionComposeFileManage;;
  lift (ValidateComposeContent yaml_unmarshal quote map_order (ccf_ComposeContent inp));;
  id ← new_uuid;
  now ← time_now;
  composeFile ← lift (NewComposeFile id now org (ccf_Name inp) (ccf_ComposeContent inp)
    (ccf_RequestingUserID inp) (ccf_IsGlobal inp));
  ComposeFileRepository_Create composeFile;;
  syncEnvVariablesFromCompose (ccf_RequestingUserID inp) org (cf_ID composeFile)
    (ccf_ComposeContent inp);;
  Ret composeFile.

(** [ListComposeFilesService], [GetComposeFileService] *)
Definition ListComposeFiles (ctx : Ctx) (organizationID requestingUserID : string)
    : prog (World X) (list ComposeFile) :=
  fleet_gate ctx organizationID requestingUserID permissionComposeFileRead;;
  ComposeFileRepository_ListByOrganization organizationID.
Definition GetComposeFile (ctx : Ctx) (organizationID requestingUserID composeFileID : string)
    : prog (World X) ComposeFile :=
  fleet_gate ctx organizationID requestingUserID permissionComposeFileRead;;
  ComposeFileRepository_GetByID organizationID composeFileID.

(** [UpdateComposeFileContentService.Execute] *)
Definition UpdateComposeFileContent (ctx : Ctx)
    (organizationID requestingUserID composeFileID content : string) : prog (World X) () :=
  fleet_gate ctx organizationID requestingUserID permissionComposeFileManage;;
  lift (ValidateComposeContent yaml_unmarshal quote map_order content);;
  ComposeFileRepository_UpdateContent requestingUserID organizationID composeFileID content;;
  syncEnvVariablesFromCompose requestingUserID organizationID composeFileID content.

(** [DeleteComposeFileService.Execute] *)
Definition DeleteComposeFile (ctx : Ctx) (organizationID requestingUserID composeFileID : string)
    : prog (World X) () :=
  fleet_gate ctx organizationID requestingUserID permissionComposeFileDelete;;
  ComposeFileRepository_Delete requestingUserID organizationID composeFileID.

(** ** Attachments: [AttachmentService] *)

Definition checkManage (ctx : Ctx) (organizationID requestingUserID : string) : prog (World X) () :=
  fleet_gate ctx organizationID requestingUserID permissionComposeFileManage.
Definition checkRead (ctx : Ctx) (organizationID requestingUserID : string) : prog (World X) () :=
  fleet_gate ctx organizationID requestingUserID permissionComposeFileRead.

Definition AttachNetwork (ctx : Ctx)
    (organizationID requestingUserID composeFileID networkID : string) : prog (World X) () :=
  checkManage ctx organizationID requestingUserID;;
  AttachmentRepository_AttachNetwork requestingUserID organizationID composeFileID networkID.
Definition DetachNetwork (ctx : Ctx)
    (organizationID requestingUserID composeFileID networkID : string) : prog (World X) () :=
  checkManage ctx organizationID requestingUserID;;
  AttachmentRepository_DetachNetwork requestingUserID organizationID composeFileID networkID.
Definition ListAttachedNetworks (ctx : Ctx)
    (organizationID requestingUserID composeFileID : string) : prog (World X) (list Network) :=
  checkRead ctx organizationID requestingUserID;;
  AttachmentRepository_ListNetworksForComposeFile organizationID composeFileID.

Definition AttachVolume (ctx : Ctx)
    (organizationID requestingUserID composeFileID volumeID containerPath : string)
    : prog (World X) () :=
  checkManage ctx organizationID requestingUserID;;
  ensure (given containerPath) (ValidationError Fleet "container_path is required");;
  AttachmentRepository_AttachVolume requestingUserID organizationID composeFileID volumeID
    containerPath.
Definition DetachVolume (ctx : Ctx)
    (organizationID requestingUserID composeFileID volumeID : string) : prog (World X) () :=
  checkManage ctx organizationID requestingUserID;;
  AttachmentRepository_DetachVolume requestingUserID organizationID composeFileID volumeID.
Definition ListAttachedVolumes (ctx : Ctx)
    (organizationID requestingUserID composeFileID : string)
    : prog (World X) (list VolumeAttachmentView) :=
  checkRead ctx organizationID requestingUserID;;
  AttachmentRepository_ListVolumesForComposeFile organizationID composeFileID.

Definition AttachProject (ctx : Ctx)
    (organizationID requestingUserID composeFileID projectID : string) : prog (World X) () :=
  checkManage ctx organizationID requestingUserID;;
  exists_ ← ProjectExists organizationID projectID;
  ensure exists_ (ErrProjectNotFound Fleet);;
  AttachmentRepository_AttachProject requestingUserID organizationID composeFileID projectID.
Definition DetachProject (ctx : Ctx)
    (organizationID requestingUserID composeFileID projectID : string) : prog (World X) () :=
  checkManage ctx organizationID requestingUserID;;
  AttachmentRepository_DetachProject requestingUserID organizationID composeFileID projectID.
Definition ListLinkedProjects (ctx : Ctx)
    (organizationID requestingUserID composeFileID : string)
    : prog (World X) (list ProjectSummary) :=
  checkRead ctx organizationID requestingUserID;;
  AttachmentRepository_ListProjectsForComposeFile organizationID composeFileID.
Definition ListComposeFilesForProject (ctx : Ctx)
    (organizationID requestingUserID projectID : string) : prog (World X) (list ComposeFile) :=
  checkRead ctx organizationID requestingUserID;;
  AttachmentRepository_ListComposeFilesForProject organizationID projectID.

(** ** Variables *)

Definition variable_mount_check (organizationID mountID message : string) : prog (World X) () :=
  exists_ ← SecretMountExists organizationID mountID;
  ensure exists_ (ValidationError Fleet message).

(** [CreateVariableService.Execute] *)
Definition CreateFleetVariable (ctx : Ctx) (inp : CreateFleetVariableInput)
    : prog (World X) FleetVariable :=
  let org := cfv_OrganizationID inp in
  fleet_gate ctx org (cfv_RequestingUserID inp) permissionComposeFileManage;;
  variable ←
    (if cfv_VarType inp =ₛ VarTypeSecret then
       variable_mount_check org (cfv_SecretMountID inp)
         "secret_mount_id does not reference a real secret mount in this organization";;
       id ← new_uuid;
       now ← time_now;
       lift (NewFleetVariableWithSecretRef id now org (cfv_ComposeFileID inp) (cfv_Key inp)
         (cfv_SecretMountID inp) (cfv_SecretPath inp))
     else
       id ← new_uuid;
       now ← time_now;
       lift (NewFleetVariable id now org (cfv_ComposeFileID inp) (cfv_Key inp) (cfv_VarType inp)
         (cfv_Value inp) (cfv_FileTargetPath inp)));
  FleetVariableRepository_Create (cfv_RequestingUserID inp) variable;;
  Ret variable.

(** [ListVariablesService.Execute] *)
Definition ListFleetVariables (ctx : Ctx)
    (organizationID requestingUserID composeFileID : string)
    : prog (World X) (list FleetVariable) :=
  fleet_gate ctx organizationID requestingUserID permissionComposeFileRead;;
  variables ← FleetVariableRepository_ListByComposeFile organizationID composeFileID;
  Ret (map mask_secret variables).

(** [RevealVariableService.Execute] *)
Definition RevealVariable (ctx : Ctx) (organizationID requestingUserID variableID : string)
    : prog (World X) string :=
  fleet_gate ctx organizationID requestingUserID permissionComposeFileRead;;
  variable ← FleetVariableRepository_GetByID organizationID variableID;
  match fv_SecretRef variable with
  | Some ref =>
      ensure (fv_VarType variable =ₛ VarTypeSecret)
        (ValidationError Fleet "only secret-typed variables can be revealed");;
      ResolveSecret organizationID (fsr_MountID ref) (fsr_Path ref)
  | None => Throw (ValidationError Fleet "only secret-typed variables can be revealed")
  end.

(** The new value or secret reference; a secret-typed variable without a
    reference would be a nil dereference. *)
Definition update_source (organizationID : string) (inp : UpdateFleetVariableInput)
    (variable : FleetVariable) : prog (World X) FleetVariable :=
  if fv_VarType variable =ₛ VarTypeSecret then
    match fv_SecretRef variable with
    | None => Throw ErrPanic
    | Some ref =>
        let mountID := default (fsr_MountID ref) (ufv_SecretMountID inp) in
        let path := default (fsr_Path ref) (ufv_SecretPath inp) in
        match ufv_SecretMountID inp with
        | Some _ => variable_mount_check organizationID mountID
            "secret_mount_id does not reference a real secret mount in this organization"
        | None => Ret ()
        end;;
        Ret (fv_set_ref (mkFleetSecretReference mountID path) variable)
    end
  else Ret (match ufv_Value inp with
            | Some value => fv_set_value value variable
            | None => variable
            end).

(** [UpdateVariableService.Execute] *)
Definition UpdateFleetVariable (ctx : Ctx) (inp : UpdateFleetVariableInput)
    : prog (World X) FleetVariable :=
  let org := ufv_OrganizationID inp in
  fleet_gate ctx org (ufv_RequestingUserID inp) permissionComposeFileManage;;
  variable ← FleetVariableRepository_GetByID org (ufv_VariableID inp);
  variable ← update_source org inp variable;
  variable ←
    (match ufv_FileTargetPath inp with
     | None => Ret variable
     | Some path =>
         ensure (negb (RequiresFileTargetPath (fv_VarType variable)) || given path)
           (ValidationError Fleet
             ("file_target_path is required for var_type " +:+ fv_VarType variable));;
         Ret (fv_set_path path variable)
     end);
  FleetVariableRepository_Update (ufv_RequestingUserID inp) variable;;
  Ret variable.

(** [DeleteVariableService.Execute] *)
Definition DeleteFleetVariable (ctx : Ctx) (organizationID requestingUserID variableID : string)
    : prog (World X) () :=
  fleet_gate ctx organizationID requestingUserID permissionComposeFileManage;;
  FleetVariableRepository_Delete requestingUserID organizationID variableID.

(** [CreateSecretVariableService.Execute]: the value goes to Vault once per
    linked project, and the variable refers to the first of them. *)
Definition CreateSecretVariable (ctx : Ctx) (inp : CreateSecretVariableInput)
    : prog (World X) FleetVariable :=
  let org := csv_OrganizationID inp in
  fleet_gate ctx org (csv_RequestingUserID inp) permissionComposeFileManage;;
  ensure (given (csv_Key inp) && given (csv_MountID inp) && given (csv_Value inp))
    (ValidationError Fleet "key, mount_id and value are all required");;
  variable_mount_check org (csv_MountID inp)
    "mount_id does not reference a real secret mount in this organization";;
  projects ← AttachmentRepository_ListProjectsForComposeFile org (csv_ComposeFileID inp);
  let sorted := merge_sort (by_text ps_ID) projects in
  let path p := secret_variable_path (ps_ID p) (csv_ComposeFileID inp) (csv_Key inp) in
  match sorted with
  | [] => Throw (ValidationError Fleet
      "link this compose file to at least one project before creating a vault-backed secret variable")
  | first :: _ =>
      range sorted (λ p, WriteValue org (csv_MountID inp) (path p) (csv_Value inp));;
      id ← new_uuid;
      now ← time_now;
      variable ← lift (NewFleetVariableWithSecretRef id now org (csv_ComposeFileID inp)
        (csv_Key inp) (csv_MountID inp) (path first));
      FleetVariableRepository_Create (csv_RequestingUserID inp) variable;;
      Ret variable
  end.

(** ** Operations *)

(** [TriggerOperationService.Execute] *)
Definition TriggerOperation (ctx : Ctx) (inp : TriggerOperationInput)
    : prog (World X) Operation :=
  let org := to_OrganizationID inp in
  fleet_gate ctx org (to_RequestingUserID inp) permissionOperationDeploy;;
  _ ← ComposeFileRepository_GetByID org (to_ComposeFileID inp);
  machine ← MachineRepository_GetByID org (to_MachineID inp);
  ensure (negb (mach_Archived machine)) (ValidationError Fleet
    "machine is archived and cannot receive new operations");;
  id ← new_uuid;
  now ← time_now;
  operation ← lift (NewOperation id now org (to_ComposeFileID inp) (to_MachineID inp)
    (to_OperationType inp) (to_RequestingUserID inp));
  OperationRepository_Create operation;;
  Ret operation.

(** [ListOperationsService], [GetOperationService] *)
Definition ListOperations (ctx : Ctx)
    (organizationID requestingUserID composeFileID machineID : string)
    : prog (World X) (list Operation) :=
  fleet_gate ctx organizationID requestingUserID permissionOperationRead;;
  OperationRepository_ListByOrganization organizationID composeFileID machineID.
Definition GetOperation (ctx : Ctx) (organizationID requestingUserID operationID : string)
    : prog (World X) Operation :=
  fleet_gate ctx organizationID requestingUserID permissionOperationRead;;
  OperationRepository_GetByID organizationID operationID.
End files.
