(* ===== verification/DeployExecutor.v ===== *)
(** * The deploy executor (internal/fleet/application/deploy_executor.go,
    resolve_compose_variables.go; internal/fleet/adapters/redisstream)

    Fleet's background task: it claims queued operations and runs each over
    SSH in a goroutine of its own. *)
From S2P Require Import Prelude Prog FleetDomain Store Envelope FleetRepo FleetText Compose.
From S2P Require Import Principal Ports Registry FleetMachines FleetFiles.

Class LogPublisher (X : Type) := {
  PublishLine : string → string → prog (World X) ();
  PublishEnd : string → Z → prog (World X) ();
}.

(** ** Resolving a compose file's variables *)

Record ResolvedComposeVariables := mkResolved {
  TemplateValues : gmap string string;
  EnvVars : gmap string string;
  FileVariables : list FleetVariable;
}.

(** The switch on the type of a variable whose value is known. *)
Definition add_variable (v : FleetVariable) (value : string) (r : ResolvedComposeVariables)
    : ResolvedComposeVariables :=
  let templates := <[fv_Key v := value]> (TemplateValues r) in
  if fv_VarType v =ₛ VarTypeEnv then
    mkResolved templates (<[fv_Key v := value]> (EnvVars r)) (FileVariables r)
  else if RequiresFileTargetPath (fv_VarType v) then
    mkResolved templates (EnvVars r) (FileVariables r ++ [fv_set_value value v])
  else mkResolved templates (EnvVars r) (FileVariables r).

(** The global compose file's variables whose keys are not local ones. *)
Definition not_overridden (local fallback : list FleetVariable) : list FleetVariable :=
  filter (λ v, fv_Key v ∉ map fv_Key local) fallback.

Section resolve.
Context {X : Type} `{!SecretResolver X}.

Definition fallback_variables (organizationID composeFileID : string)
    : prog (World X) (list FleetVariable) :=
  global ← ComposeFileRepository_GetGlobal organizationID;
  match global with
  | Some global =>
      if cf_ID global =ₛ composeFileID then Ret []
      else FleetVariableRepository_ListByComposeFile organizationID (cf_ID global)
  | None => Ret []
  end.

(** The value of one variable: a secret is read from its backend now. *)
Definition variable_value (organizationID : string) (v : FleetVariable) : prog (World X) string :=
  if fv_VarType v =ₛ VarTypeSecret then
    match fv_SecretRef v with
    | Some ref => ResolveSecret organizationID (fsr_MountID ref) (fsr_Path ref)
    | None => Throw ErrPanic
    end
  else Ret (fv_Value v).

Fixpoint resolve_all (organizationID : string) (vs : list FleetVariable)
    (r : ResolvedComposeVariables) : prog (World X) ResolvedComposeVariables :=
  match vs with
  | [] => Ret r
  | v :: vs =>
      value ← variable_value organizationID v;
      resolve_all organizationID vs (add_variable v value r)
  end.

Definition resolveComposeVariables (organizationID composeFileID : string)
    : prog (World X) ResolvedComposeVariables :=
  local ← FleetVariableRepository_ListByComposeFile organizationID composeFileID;
  fallback ← fallback_variables organizationID composeFileID;
  resolve_all organizationID (local ++ not_overridden local fallback) (mkResolved ∅ ∅ []).
End resolve.

(** ** The executor *)

Section executor.
Context {X : Type} `{!SecretResolver X, !Aead, !SSHRunner X, !LogPublisher X}.
Context (masterKey : string).
Context (yaml_unmarshal : string → string + option (gmap string any)).
Context (yaml_marshal : gmap string any → res string).
Context (string_map_order : gmap string string → list (string * string)).
(** [err.Error()] *)
Context (error_text : error → string).
Context (quote : string → string).

Definition batchSize : nat := 20.

(** An error that is only logged. *)
Definition logged_error (p : prog (World X) ()) : prog (World X) () := void (try p).

(** The values that occur in output to be scrubbed: every resolved template
    value but the empty one, in the order of the walk over the map. *)
Definition secretValuesFor (resolved : ResolvedComposeVariables) : list string :=
  filter (λ v, v ≠ "") (map snd (string_map_order (TemplateValues resolved))).

Definition finishWithError (organizationID operationID message : string) : prog (World X) () :=
  logged_error (OperationRepository_MarkFinished organizationID operationID
    OperationStatusFailed None ("internal error: " +:+ message));;
  logged_error (PublishEnd operationID (-1)%Z).

(** [v, err := p(); if err != nil { finishWithError(fmt.Errorf("what: %w", err)); return }] *)
Definition or_finish {A} (organizationID operationID what : string) (p : prog (World X) A)
    (k : A → prog (World X) ()) : prog (World X) () :=
  r ← try p;
  match r with
  | Ok a => k a
  | Err err => finishWithError organizationID operationID (what +:+ ": " +:+ error_text err)
  end.

(** The files a [deploy] writes first: the rendered compose file, then every
    file variable. *)
Fixpoint file_variables (organizationID operationID deployPath : string)
    (values : gmap string string) (fvs : list FleetVariable) (files : list RemoteFile)
    (k : list RemoteFile → prog (World X) ()) : prog (World X) () :=
  match fvs with
  | [] => k files
  | fv :: fvs =>
      or_finish organizationID operationID ("render file variable " +:+ quote (fv_Key fv))
        (lift (SubstituteTemplateVars (fv_Value fv) values)) (λ content,
      file_variables organizationID operationID deployPath values fvs
        (files ++ [mkRemoteFile (path_Join deployPath (fv_FileTargetPath fv)) content]) k)
  end.

Definition deploy_files (organizationID operationID : string) (operation : Operation)
    (composeFile : ComposeFile) (resolved : ResolvedComposeVariables) (deployPath : string)
    (k : list RemoteFile → prog (World X) ()) : prog (World X) () :=
  if op_OperationType operation =ₛ "deploy" then
    or_finish organizationID operationID "load attached networks"
      (AttachmentRepository_ListNetworksForComposeFile organizationID (op_ComposeFileID operation))
      (λ networks,
    or_finish organizationID operationID "load attached volumes"
      (AttachmentRepository_ListVolumesForComposeFile organizationID (op_ComposeFileID operation))
      (λ volumes,
    or_finish organizationID operationID "render compose file"
      (lift (RenderCompose yaml_unmarshal yaml_marshal (cf_ComposeContent composeFile)
        (TemplateValues resolved) (EnvVars resolved) networks volumes)) (λ rendered,
    file_variables organizationID operationID deployPath (TemplateValues resolved)
      (FileVariables resolved)
      [mkRemoteFile (path_Join deployPath "docker-compose.yml") rendered] k)))
  else k [].

Definition dquote : string := String (Ascii.ascii_of_nat 34) EmptyString.

Definition compose_command (deployPath opType : string) : string :=
  "COMPOSE_CMD=$(docker compose version >/dev/null 2>&1 && echo " +:+ dquote +:+
  "docker compose" +:+ dquote +:+ " || echo " +:+ dquote +:+ "docker-compose" +:+ dquote +:+
  ") && cd " +:+ shellQuote deployPath +:+ " && $COMPOSE_CMD -f docker-compose.yml " +:+
  default "" (ComposeSubcommand opType) +:+ " 2>&1".

(** Running the command and recording how it ended. *)
Definition run_operation (organizationID operationID : string) (target : ConnectionTarget)
    (files : list RemoteFile) (command : string) (secretValues : list string)
    : prog (World X) () :=
  or_finish organizationID operationID "ssh execution"
    (RunOperation target files command
      (λ line, logged_error (PublishLine operationID (scrubSecrets line secretValues))))
    (λ '(exitCode, output),
  logged_error (OperationRepository_MarkFinished organizationID operationID
    (if bool_decide (exitCode = 0%Z) then OperationStatusSuccess else OperationStatusFailed)
    (Some exitCode) (scrubSecrets output secretValues));;
  logged_error (PublishEnd operationID exitCode)).

Definition execute (organizationID operationID : string) : prog (World X) () :=
  operation ← try (OperationRepository_GetByID organizationID operationID);
  match operation with
  | Err _ => Ret () (* logged *)
  | Ok operation =>
      or_finish organizationID operationID "load compose file"
        (ComposeFileRepository_GetByID organizationID (op_ComposeFileID operation)) (λ composeFile,
      or_finish organizationID operationID "load machine"
        (MachineRepository_GetByID organizationID (op_MachineID operation)) (λ machine,
      or_finish organizationID operationID "resolve machine credential"
        (resolveMachineCredential masterKey machine) (λ secret,
      or_finish organizationID operationID "resolve variables"
        (resolveComposeVariables organizationID (op_ComposeFileID operation)) (λ resolved,
      let deployPath := path_Join (mach_DeployBasePath machine) (slugify (cf_Name composeFile)) in
      deploy_files organizationID operationID operation composeFile resolved deployPath (λ files,
      run_operation organizationID operationID (target_of machine secret) files
        (compose_command deployPath (op_OperationType operation))
        (secretValuesFor resolved))))))
  end.

(** The candidates claimed, in order: what [pollOnce] starts a goroutine
    [execute] for. *)
Fixpoint claim_all (candidates : list OperationCandidate)
    : prog (World X) (list OperationCandidate) :=
  match candidates with
  | [] => Ret []
  | c :: candidates =>
      claimed ← try (OperationRepository_TryClaim (oc_OrganizationID c) (oc_OperationID c));
      rest ← claim_all candidates;
      Ret (match claimed with Ok true => c :: rest | _ => rest end)
  end.

Definition pollOnce : prog (World X) (list OperationCandidate) :=
  candidates ← OperationScanner_FindQueuedCandidates batchSize;
  claim_all candidates.

(** One candidate as the poll treats it: the claim, and on success the
    goroutine.  Any run of any number of polls and of the goroutines they
    start is an interleaving of such threads. *)
Definition claim_and_execute (c : OperationCandidate) : prog (World X) () :=
  claimed ← OperationRepository_TryClaim (oc_OrganizationID c) (oc_OperationID c);
  if claimed : bool then execute (oc_OrganizationID c) (oc_OperationID c) else Ret ().
End executor.

(** ** The live log (adapters/redisstream) *)

Record LogMessage := mkLogMessage {
  lm_Line : string;
  lm_Done : bool;
  lm_ExitCode : option Z;
}.

Definition operationChannel (operationID : string) : string :=
  "fleet:operation:" +:+ operationID +:+ ":log".

Section publisher.
Context {R : Type} `{!RedisOps R}.
(** [json.Marshal] of a message *)
Context (marshal : LogMessage → string).

Definition log_publisher : LogPublisher (Cluster R) :=
  {| PublishLine operationID line :=
       Publish (operationChannel operationID) (marshal (mkLogMessage line false None));
     PublishEnd operationID exitCode :=
       Publish (operationChannel operationID) (marshal (mkLogMessage "" true (Some exitCode))) |}.
End publisher.
