(* ===== verification/Worker.v ===== *)
(** * The worker (cmd/worker, internal/worker/engine)

    The process on the other side of the registry's stream: it runs each job
    it is assigned with the engine the job names, in a goroutine of its own,
    and reports how it ended.  The tools the engines run are external
    processes, a parameter; the files they are given are modelled. *)
From S2P Require Import Prelude Prog FleetDomain FleetText Registry.

(** ** The host *)

(** An [error]: its text, and whether [errors.Is(err, context.Canceled)]. *)
Record go_err := mkErr {
  err_text : string;
  err_canceled : bool;
}.
(** [errors.New(text)], [fmt.Errorf("what: %w", err)] *)
Definition new_err (text : string) : go_err := mkErr text false.
Definition wrap (what : string) (err : go_err) : go_err :=
  mkErr (what +:+ ": " +:+ err_text err) (err_canceled err).
Definition Canceled : go_err := mkErr "context canceled" true.

Definition Files : Type := gmap string (string * Z). (* content and mode, by path *)

(** [exec.Command] with [Dir] and what [Env] adds to the environment *)
Record Cmd := mkCmd {
  cmd_Args : list string;
  cmd_Dir : string;
  cmd_Env : list string;
}.

Inductive Signal := SIGTERM | SIGKILL.

(** External processes and the outside of the file system.  [ready] is
    whether a process has exited when a [select] looks. *)
Class Processes (X : Type) := {
  start : Cmd → gset nat → Files → X → (go_err + nat) * Files * X;
  exits : nat → Files → X → option go_err * Files * X;
  ready : nat → X → bool;
  signal : nat → Signal → X → X;
  output : nat → X → string;
  io_error : string → X → option go_err;
  temp_name : string → Files → X → string;
}.

(** A new process has an id no living one has, and neither starting one nor
    waiting for it fails with [context.Canceled]: no command is given a
    context. *)
Class ProcessLaws (X : Type) `{!Processes X} : Prop := {
  start_fresh cmd live fs x pid fs' x' :
    start cmd live fs x = (inr pid, fs', x') → pid ∉ live;
  start_not_canceled cmd live fs x e fs' x' :
    start cmd live fs x = (inl e, fs', x') → err_canceled e = false;
  exits_not_canceled pid fs x e fs' x' :
    exits pid fs x = (Some e, fs', x') → err_canceled e = false;
  io_not_canceled name x e : io_error name x = Some e → err_canceled e = false;
}.

Record JobStatusReport := mkReport {
  jr_RunId : string;
  jr_OrganizationId : string;
  jr_WorkspaceId : string;
  jr_Status : string;
  jr_LogLine : string;
  jr_ErrorMessage : string;
}.

(** The process: [running] maps a run to its job's context, [contexts] were
    made so far and [canceled] of them canceled; [live] are its child
    processes; [temp_dirs] and [temp_files] are the names it was given;
    [reported] are the status reports it sent. *)
Record WorkerState (X : Type) := mkWorker {
  running : gmap string nat;
  contexts : nat;
  canceled : gset nat;
  live : gset nat;
  files : Files;
  temp_dirs : list string;
  temp_files : list string;
  reported : list JobStatusReport;
  host : X;
}.
Arguments mkWorker {X}. Arguments running {X}. Arguments contexts {X}. Arguments canceled {X}.
Arguments live {X}. Arguments files {X}. Arguments temp_dirs {X}. Arguments temp_files {X}.
Arguments reported {X}. Arguments host {X}.

Record JobAssignment := mkJob {
  job_RunId : string;
  job_OrganizationId : string;
  job_WorkspaceId : string;
  job_ExecutionEngine : string;
  job_ConfigBundle : string;
  job_CredentialBundle : string;
}.

(** The path is [dir] or below it. *)
Definition below (dir path : string) : bool :=
  (path =ₛ dir) || String.prefix (dir +:+ "/") path.

Section worker.
Context {X : Type} `{!Processes X}.
Notation W := (WorkerState X).

Definition step {A} (f : W → A * W) : prog W A := call (λ w, let '(a, w') := f w in (Ok a, w')).

Definition set_running m (w : W) : W :=
  mkWorker m (contexts w) (canceled w) (live w) (files w) (temp_dirs w) (temp_files w)
    (reported w) (host w).
Definition new_context (w : W) : W :=
  mkWorker (running w) (S (contexts w)) (canceled w) (live w) (files w) (temp_dirs w)
    (temp_files w) (reported w) (host w).
Definition set_canceled cs (w : W) : W :=
  mkWorker (running w) (contexts w) cs (live w) (files w) (temp_dirs w) (temp_files w)
    (reported w) (host w).
Definition set_host live files x (w : W) : W :=
  mkWorker (running w) (contexts w) (canceled w) live files (temp_dirs w) (temp_files w)
    (reported w) x.
Definition set_files fs (w : W) : W := set_host (live w) fs (host w) w.
Definition add_temp dirs fs (w : W) : W :=
  mkWorker (running w) (contexts w) (canceled w) (live w) (files w) (dirs ++ temp_dirs w)
    (fs ++ temp_files w) (reported w) (host w).
Definition add_report r (w : W) : W :=
  mkWorker (running w) (contexts w) (canceled w) (live w) (files w) (temp_dirs w) (temp_files w)
    (reported w ++ [r]) (host w).

(** [ctx.Done()] is closed. *)
Definition ctx_done (ctx : nat) (w : W) : bool := bool_decide (ctx ∈ canceled w).

(** *** os *)

Definition MkdirTemp (pattern : string) : prog W (go_err + string) := step (λ w,
  match io_error pattern (host w) with
  | Some e => (inl e, w)
  | None => let name := temp_name pattern (files w) (host w) in (inr name, add_temp [name] [] w)
  end).
Definition CreateTemp (pattern : string) : prog W (go_err + string) := step (λ w,
  match io_error pattern (host w) with
  | Some e => (inl e, w)
  | None =>
      let name := temp_name pattern (files w) (host w) in
      (inr name, add_temp [] [name] (set_files (<[name := ("", 384%Z)]> (files w)) w))
  end).
(** An existing file keeps its mode. *)
Definition WriteFile (name content : string) (mode : Z) : prog W (go_err + ()) := step (λ w,
  match io_error name (host w) with
  | Some e => (inl e, w)
  | None =>
      let mode := match files w !! name with Some (_, m) => m | None => mode end in
      (inr (), set_files (<[name := (content, mode)]> (files w)) w)
  end).
Definition Remove (name : string) : prog W () :=
  step (λ w, ((), set_files (delete name (files w)) w)).
Definition RemoveAll (dir : string) : prog W () :=
  step (λ w, ((), set_files (filter (λ f, below dir f.1 = false) (files w)) w)).

(** *** os/exec *)

Definition Start (cmd : Cmd) : prog W (go_err + nat) := step (λ w,
  match start cmd (live w) (files w) (host w) with
  | (inl e, fs, x) => (inl e, set_host (live w) fs x w)
  | (inr pid, fs, x) => (inr pid, set_host ({[pid]} ∪ live w) fs x w)
  end).
Definition Wait (pid : nat) : prog W (option go_err) := step (λ w,
  let '(e, fs, x) := exits pid (files w) (host w) in (e, set_host (live w ∖ {[pid]}) fs x w)).
Definition Output (pid : nat) : prog W string := step (λ w, (output pid (host w), w)).
Definition Kill (pid : nat) (sig : Signal) : prog W () :=
  step (λ w, ((), set_host (live w) (files w) (signal pid sig (host w)) w)).

(** [select { case <-done: ...; case <-ctx.Done(): ... }]: whether the first
    case is taken.  Until the context is canceled the statement blocks, so
    the process has exited when it is done. *)
Definition select_exit (ctx pid : nat) : prog W bool :=
  step (λ w, (negb (ctx_done ctx w) || ready pid (host w), w)).
(** [select { case <-done: case <-time.After(cancelGracePeriod()): ... }] *)
Definition select_grace (pid : nat) : prog W bool := step (λ w, (ready pid (host w), w)).

(** ** Engines (internal/worker/engine) *)

(** What [Execute] returns. *)
Definition Result : Type := string * option go_err.

Definition or_return {A} (p : prog W (go_err + A)) (k : A → prog W Result) : prog W Result :=
  r ← p;
  match r with inl e => Ret ("", Some e) | inr a => k a end.
(** [defer cleanup()] before the rest of the function, [p] *)
Definition deferred (cleanup : prog W ()) (p : prog W Result) : prog W Result :=
  r ← p;
  cleanup;;
  Ret r.

Definition execWithCancel (ctx : nat) (cmd : Cmd) : prog W Result :=
  r ← Start cmd;
  match r with
  | inl e => Ret ("", Some e)
  | inr pid =>
      exited ← select_exit ctx pid;
      if exited : bool then
        runErr ← Wait pid;
        out ← Output pid;
        Ret (out, runErr)
      else
        Kill pid SIGTERM;;
        exited ← select_grace pid;
        (if exited : bool then Ret () else Kill pid SIGKILL);;
        _ ← Wait pid;
        out ← Output pid;
        Ret (out, Some Canceled)
  end.

(** [cmd.CombinedOutput()] *)
Definition CombinedOutput (cmd : Cmd) : prog W Result :=
  r ← Start cmd;
  match r with
  | inl e => Ret ("", Some e)
  | inr pid =>
      err ← Wait pid;
      out ← Output pid;
      Ret (out, err)
  end.

(** [out, err := execWithCancel(...); if err != nil { return out, wrapped }] *)
Definition run_tool (ctx : nat) (cmd : Cmd) (what : string) (k : string → prog W Result)
    : prog W Result :=
  r ← execWithCancel ctx cmd;
  match r with
  | (out, Some err) => Ret (out, Some (wrap what err))
  | (out, None) => k out
  end.

Definition newline : string := String (Ascii.ascii_of_nat 10) EmptyString.

(** The second command of an engine: its output is put after the first's. *)
Definition then_tool (ctx : nat) (cmd : Cmd) (what initOut : string) : prog W Result :=
  r ← execWithCancel ctx cmd;
  let '(out, err) := r : Result in
  Ret (initOut +:+ newline +:+ out, option_map (wrap what) err).

Definition ComposeEngine_Execute (ctx : nat) (job : JobAssignment) : prog W Result :=
  or_return (CreateTemp "job-*.compose.yml") (λ tmpFile,
  deferred (Remove tmpFile) (
    or_return (WriteFile tmpFile (job_ConfigBundle job) 384) (λ _,
    let projectName := "run-" +:+ job_RunId job in
    let compose args :=
      mkCmd (["docker-compose"; "-f"; tmpFile; "-p"; projectName] ++ args) "" [] in
    r ← execWithCancel ctx (compose ["up"; "-d"]);
    match r with
    | (out, Some err) =>
        (if err_canceled err then void (CombinedOutput (compose ["down"])) else Ret ());;
        Ret (out, Some err)
    | _ => Ret r
    end))).

(** The engine of [terraform] and [tofu]. *)
Definition terraformFamilyEngine_Execute (binary : string) (ctx : nat) (job : JobAssignment)
    : prog W Result :=
  or_return (MkdirTemp ("job-" +:+ job_RunId job +:+ "-" +:+ binary)) (λ workDir,
  deferred (RemoveAll workDir) (
    or_return (WriteFile (path_Join workDir "main.tf") (job_ConfigBundle job) 420) (λ _,
    run_tool ctx (mkCmd [binary; "init"; "-input=false"; "-no-color"] workDir [])
      (binary +:+ " init")
    (then_tool ctx (mkCmd [binary; "apply"; "-auto-approve"; "-input=false"; "-no-color"]
      workDir []) (binary +:+ " apply"))))).

Definition AnsibleEngine_Execute (ctx : nat) (job : JobAssignment) : prog W Result :=
  or_return (MkdirTemp ("job-" +:+ job_RunId job +:+ "-ansible")) (λ workDir,
  deferred (RemoveAll workDir) (
    or_return (WriteFile (path_Join workDir "playbook.yml") (job_ConfigBundle job) 420) (λ _,
    run_tool ctx (mkCmd ["ansible-playbook"; "-i"; "localhost,"; "-c"; "local"; "--diff";
      "playbook.yml"] workDir []) "ansible-playbook" (λ out, Ret (out, None))))).

Definition PackerEngine_Execute (ctx : nat) (job : JobAssignment) : prog W Result :=
  or_return (MkdirTemp ("job-" +:+ job_RunId job +:+ "-packer")) (λ workDir,
  deferred (RemoveAll workDir) (
    or_return (WriteFile (path_Join workDir "template.pkr.hcl") (job_ConfigBundle job) 420) (λ _,
    run_tool ctx (mkCmd ["packer"; "init"; "."] workDir []) "packer init"
    (then_tool ctx (mkCmd ["packer"; "build"; "-force"; "."] workDir []) "packer build")))).

(** The body [KubernetesEngine] and [HelmEngine] share. *)
Definition kubeconfig_Execute (name manifest : string) (args : list string) (what : string)
    (ctx : nat) (job : JobAssignment) : prog W Result :=
  if negb (given (job_CredentialBundle job)) then
    Ret ("", Some (new_err (name +:+ ": no kubeconfig credential in job assignment")))
  else
    or_return (MkdirTemp ("job-" +:+ job_RunId job +:+ "-" +:+ name)) (λ workDir,
    deferred (RemoveAll workDir) (
      let kubeconfigPath := path_Join workDir "kubeconfig" in
      or_return (WriteFile kubeconfigPath (job_CredentialBundle job) 384) (λ _,
      or_return (WriteFile (path_Join workDir manifest) (job_ConfigBundle job) 420) (λ _,
      run_tool ctx (mkCmd args workDir ["KUBECONFIG=" +:+ kubeconfigPath]) what
        (λ out, Ret (out, None)))))).

Definition KubernetesEngine_Execute : nat → JobAssignment → prog W Result :=
  kubeconfig_Execute "kubernetes" "manifest.yaml" ["kubectl"; "apply"; "-f"; "manifest.yaml"]
    "kubectl apply".
Definition HelmEngine_Execute : nat → JobAssignment → prog W Result :=
  kubeconfig_Execute "helm" "helmfile.yaml" ["helmfile"; "apply"] "helmfile apply".

Definition kubesprayDir := "/opt/kubespray".
Definition kubesprayAnsiblePlaybook := "/opt/kubespray-venv/bin/ansible-playbook".

Definition inventory_dir (job : JobAssignment) : string :=
  path_Join kubesprayDir (path_Join "inventory" ("job-" +:+ job_RunId job)).

Definition KubesprayEngine_Execute (ctx : nat) (job : JobAssignment) : prog W Result :=
  if negb (given (job_CredentialBundle job)) then
    Ret ("", Some (new_err "kubespray: no SSH private key credential in job assignment"))
  else
    or_return (MkdirTemp ("job-" +:+ job_RunId job +:+ "-kubespray-key")) (λ keyDir,
    deferred (RemoveAll keyDir) (
      let keyPath := path_Join keyDir "id_rsa" in
      or_return (WriteFile keyPath (job_CredentialBundle job) 384) (λ _,
      let inventoryName := "job-" +:+ job_RunId job in
      let inventoryDir := inventory_dir job in
      deferred (RemoveAll inventoryDir) (
        copied ← CombinedOutput (mkCmd ["cp"; "-r";
          path_Join kubesprayDir (path_Join "inventory" "sample"); inventoryDir] "" []);
        match copied with
        | (out, Some err) => Ret (out, Some (wrap "kubespray: copy inventory/sample" err))
        | (_, None) =>
            or_return (WriteFile (path_Join inventoryDir "hosts.yaml") (job_ConfigBundle job) 420)
              (λ _,
            run_tool ctx (mkCmd [kubesprayAnsiblePlaybook; "-i";
                path_Join "inventory" (path_Join inventoryName "hosts.yaml");
                "--private-key"; keyPath; "-b"; "cluster.yml"] kubesprayDir [])
              "kubespray cluster.yml" (λ out, Ret (out, None)))
        end)))).

Definition Engine : Type := nat → JobAssignment → prog W Result.

(** The registry of [main]. *)
Definition engines : list (string * Engine) :=
  [("compose", ComposeEngine_Execute); ("terraform", terraformFamilyEngine_Execute "terraform");
   ("opentofu", terraformFamilyEngine_Execute "tofu"); ("ansible", AnsibleEngine_Execute);
   ("packer", PackerEngine_Execute); ("kubernetes", KubernetesEngine_Execute);
   ("helm", HelmEngine_Execute); ("kubespray", KubesprayEngine_Execute)].

Definition engine_for (name : string) : option Engine :=
  snd <$> List.find (λ e : string * Engine, e.1 =ₛ name) engines.

(** ** Jobs (cmd/worker) *)

(** A call whose context is done fails without being sent; the error is
    only logged. *)
Definition report (ctx : nat) (job : JobAssignment) (status logLine errMsg : string)
    : prog W () :=
  step (λ w, ((), if ctx_done ctx w then w else
    add_report (mkReport (job_RunId job) (job_OrganizationId job) (job_WorkspaceId job)
      status logLine errMsg) w)).

Definition handleJob (ctx : nat) (job : JobAssignment) : prog W () :=
  match engine_for (job_ExecutionEngine job) with
  | None => report ctx job "failed" "" ("unsupported execution engine: " +:+
      job_ExecutionEngine job +:+ " (this Worker only implements: see its own Register call)")
  | Some eng =>
      r ← eng ctx job;
      let '(output, err) := r : Result in
      match err with
      | Some err =>
          if err_canceled err then Ret ()
          else report ctx job "failed" output (err_text err)
      | None => report ctx job "applied" output ""
      end
  end.

(** The goroutine of a job: its deferred function forgets the job and
    releases its context. *)
Definition goroutine (ctx : nat) (job : JobAssignment) : prog W () :=
  handleJob ctx job;;
  step (λ w, ((), set_running (delete (job_RunId job) (running w)) w));;
  step (λ w, ((), set_canceled ({[ctx]} ∪ canceled w) w)).

(** A [JobAssignment] command: the receive loop makes the job a context and
    registers it; the goroutine runs from there. *)
Definition assign (job : JobAssignment) : prog W () :=
  ctx ← step (λ w, (contexts w, new_context w));
  step (λ w, ((), set_running (<[job_RunId job := ctx]> (running w)) w));;
  goroutine ctx job.

(** A [CancelJob] command: the handle is looked up, then its context
    canceled. *)
Definition cancel (runID : string) : prog W () :=
  h ← step (λ w, (running w !! runID, w));
  match h with
  | None => Ret ()
  | Some ctx => step (λ w, ((), set_canceled ({[ctx]} ∪ canceled w) w))
  end.

Definition handle_command (cmd : WorkerCommand) : prog W () :=
  match cmd with
  | WorkerCommand_JobAssignment run org ws engine config credential =>
      assign (mkJob run org ws engine config credential)
  | WorkerCommand_CancelJob run => cancel run
  end.

(** The arguments [runOnce] registers with; [map_order] is the walk over
    [running]. *)
Definition activeRunIDs (map_order : gmap string nat → list (string * nat))
    : prog W (list string) := step (λ w, (map fst (map_order (running w)), w)).
Definition supportedEngineNames : list string :=
  merge_sort (λ a b, String.leb a b = true) (map fst engines).
End worker.
