(* ===== verification/RateLimit.v ===== *)
(** * The fixed-window rate limiter (internal/platform/ratelimit)

    [Allow] and [GC] as functions of the clock, a trace semantics for any
    sequence of calls, and the bound the limiter is there to give. *)
From S2P Require Import Prelude.
#[local] Open Scope Z_scope.

Record window := mkWindow {
  count : Z;
  resetAt : Z;
}.

(** The mutable part of a [Limiter]; [limit] and [interval] never change. *)
Notation windows := (gmap string window).

(** [time.Time.After] *)
Definition After (t u : Z) : bool := bool_decide (u < t).

(** [Limiter.Allow]: [now] is the [time.Now()] it starts with, [later] the
    one [time.Until] reads. *)
Definition Allow (limit interval now later : Z) (key : string) (ws : windows)
    : (bool * Z) * windows :=
  let w :=
    match ws !! key with
    | Some w => if After now (resetAt w) then mkWindow 0 (now + interval) else w
    | None => mkWindow 0 (now + interval)
    end in
  let w := mkWindow (count w + 1) (resetAt w) in
  let ws := <[key := w]> ws in
  if bool_decide (limit < count w) then ((false, resetAt w - later), ws)
  else ((true, 0), ws).

(** [Limiter.GC] *)
Definition GC (now : Z) (ws : windows) : windows :=
  filter (λ kw, After now (resetAt kw.2) = false) ws.

(** [GCLoop.Run]: what one tick does to every limiter. *)
Definition GCLoop_tick (now : Z) (limiters : list windows) : list windows :=
  map (GC now) limiters.

(** ** Traces *)

Inductive op :=
| OpAllow (key : string) (now : Z)
| OpGC (now : Z).

Definition op_time (o : op) : Z :=
  match o with OpAllow _ t => t | OpGC t => t end.

Section limiter.
Context (limit interval : Z).

Definition step_op (o : op) (ws : windows) : option (string * Z * bool) * windows :=
  match o with
  | OpAllow key now =>
      let '(r, ws) := Allow limit interval now now key ws in
      (Some (key, now, r.1), ws)
  | OpGC now => (None, GC now ws)
  end.

(** The answers a sequence of calls gets. *)
Fixpoint answers (ops : list op) (ws : windows) : list (string * Z * bool) :=
  match ops with
  | [] => []
  | o :: ops =>
      let '(r, ws) := step_op o ws in
      match r with Some a => a :: answers ops ws | None => answers ops ws end
  end.

(** How many calls for [key] between [a] and [b] were let through. *)
Definition allowed_between (key : string) (a b : Z) (l : list (string * Z * bool)) : Z :=
  Z.of_nat (length (filter (λ x, x.1.1 = key ∧ a ≤ x.1.2 ≤ b ∧ x.2 = true) l)).

(** ** The state of one key *)

Definition fresh (now : Z) : window := mkWindow 0 (now + interval).

Definition current (now : Z) (key : string) (ws : windows) : window :=
  match ws !! key with
  | Some w => if After now (resetAt w) then fresh now else w
  | None => fresh now
  end.

Lemma Allow_lookup now later key key' ws :
  (Allow limit interval now later key ws).2 !! key' =
    if bool_decide (key = key')
    then Some (mkWindow (count (current now key ws) + 1) (resetAt (current now key ws)))
    else ws !! key'.
Proof.
  unfold Allow, current, fresh. destruct (decide (key = key')) as [<-|Hne].
  - rewrite (bool_decide_true (key = key)) by done.
    case_bool_decide; cbn [snd]; by rewrite lookup_insert_eq.
  - rewrite (bool_decide_false (key = key')) by done.
    case_bool_decide; cbn [snd]; by rewrite lookup_insert_ne.
Qed.

Lemma Allow_allowed now later key ws :
  (Allow limit interval now later key ws).1.1 =
    bool_decide (count (current now key ws) < limit).
Proof.
  unfold Allow, current, fresh.
  set (w := match ws !! key with Some _ => _ | None => _ end). simpl.
  repeat case_bool_decide; simpl; try done; lia.
Qed.

Lemma GC_lookup now key ws :
  GC now ws !! key =
    match ws !! key with
    | Some w => if After now (resetAt w) then None else Some w
    | None => None
    end.
Proof.
  unfold GC. rewrite map_lookup_filter. destruct (ws !! key) as [w|]; simpl; [|done].
  by destruct (After now (resetAt w)).
Qed.

Lemma current_GC now now' key ws :
  now' ≤ now → current now key (GC now' ws) = current now key ws.
Proof.
  intros Hle. unfold current. rewrite GC_lookup.
  destruct (ws !! key) as [w|]; [|done].
  unfold After. repeat case_bool_decide; try done; lia.
Qed.

(** ** Counting *)

(** What the window a key is in still lets through. *)
Definition room (key : string) (ws : windows) : Z :=
  match ws !! key with Some w => Z.max 0 (limit - count w) | None => 0 end.

Definition counts_ok (ws : windows) : Prop := map_Forall (λ _ w, 0 ≤ count w) ws.

Lemma answers_allow key now ops ws :
  answers (OpAllow key now :: ops) ws =
    (key, now, (Allow limit interval now now key ws).1.1)
      :: answers ops (Allow limit interval now now key ws).2.
Proof. simpl. by destruct (Allow _ _ _ _ _ _). Qed.

Lemma allowed_between_cons key a b x l :
  allowed_between key a b (x :: l) =
    (if decide (x.1.1 = key ∧ a ≤ x.1.2 ≤ b ∧ x.2 = true) then 1 else 0)
    + allowed_between key a b l.
Proof.
  unfold allowed_between. rewrite filter_cons. case_decide; simpl; lia.
Qed.

Lemma counts_ok_step o ws : counts_ok ws → counts_ok (step_op o ws).2.
Proof.
  intros Hok. destruct o as [key now|now]; simpl.
  - pose proof (Allow_lookup now now key) as Hl.
    destruct (Allow limit interval now now key ws) as [r ws'] eqn:Ha; simpl.
    intros k w Hw. specialize (Hl k ws). rewrite Ha in Hl. simpl in Hl.
    rewrite Hw in Hl. case_bool_decide; [|by eapply Hok].
    simplify_eq/=. unfold current, fresh.
    destruct (ws !! k) as [w'|] eqn:Hk; [|done].
    pose proof (Hok _ _ Hk) as Hc. simpl in Hc.
    destruct (After now (resetAt w')); simpl; lia.
  - intros k w. rewrite GC_lookup.
    destruct (ws !! k) as [w'|] eqn:Hk; [|done].
    case_match; [done|]. intros [= <-]. by eapply Hok.
Qed.

Lemma room_GC key now ws : counts_ok ws → room key (GC now ws) ≤ room key ws.
Proof.
  intros Hok. unfold room. rewrite GC_lookup.
  destruct (ws !! key) as [w|] eqn:Hk; [|done]. destruct (After now (resetAt w)); lia.
Qed.

Lemma room_bound key ws : counts_ok ws → 0 ≤ limit → 0 ≤ room key ws ≤ limit.
Proof.
  intros Hok Hl. unfold room. destruct (ws !! key) as [w|] eqn:Hk; [|lia].
  pose proof (Hok _ _ Hk). simpl in *. lia.
Qed.

Definition in_order (ops : list op) : Prop :=
  StronglySorted (λ o o', op_time o ≤ op_time o') ops.

Lemma allowed_late key a b ops ws :
  Forall (λ o, b < op_time o) ops → allowed_between key a b (answers ops ws) = 0.
Proof.
  intros Hlate. revert ws; induction Hlate as [|[k now|now] ops Ho _ IH]; intros ws.
  - done.
  - rewrite answers_allow, allowed_between_cons, IH. simpl in *.
    by rewrite decide_False by (intros (_ & ? & _); lia).
  - simpl. apply IH.
Qed.

Lemma in_order_late b o ops :
  in_order (o :: ops) → b < op_time o → Forall (λ o, b < op_time o) ops.
Proof.
  intros [_ Hall]%StronglySorted_inv Hb. eapply Forall_impl; [exact Hall|].
  simpl. intros; lia.
Qed.

(** Until its window ends a key gets no more than what is left of it. *)
Lemma allowed_in_window key a b ops ws w :
  in_order ops → ws !! key = Some w → b ≤ resetAt w →
  allowed_between key a b (answers ops ws) ≤ Z.max 0 (limit - count w).
Proof.
  revert ws w; induction ops as [|o ops IH]; intros ws w Hord Hw Hb.
  { unfold allowed_between; simpl; lia. }
  destruct (decide (resetAt w < op_time o)) as [Hl|Hl].
  { rewrite allowed_late; [lia|].
    constructor; [lia|]. eapply in_order_late; [exact Hord|lia]. }
  pose proof (StronglySorted_inv Hord) as [Hord' _].
  destruct o as [k now|now]; simpl in Hl.
  - rewrite answers_allow, allowed_between_cons, Allow_allowed. cbn [fst snd].
    pose proof (Allow_lookup now now k key ws) as Hws'.
    case_bool_decide as Hk; [subst k|].
    + assert (current now key ws = w) as Hcur.
      { unfold current, After. rewrite Hw. by rewrite bool_decide_false. }
      rewrite Hcur in *. pose proof (IH _ _ Hord' Hws' Hb) as Hrest. simpl in Hrest.
      case_decide as Hd; [|lia]. destruct Hd as (_ & _ & Hc%bool_decide_eq_true). lia.
    + rewrite Hw in Hws'. pose proof (IH _ _ Hord' Hws' Hb).
      rewrite decide_False by naive_solver. lia.
  - simpl. apply IH; [done| |done]. rewrite GC_lookup, Hw.
    unfold After. by rewrite bool_decide_false.
Qed.

(** From a point on, a key gets at most the rest of its window and one
    full window within the next [interval]. *)
Lemma allowed_from key a ops ws :
  0 ≤ limit → counts_ok ws → in_order ops → Forall (λ o, a ≤ op_time o) ops →
  allowed_between key a (a + interval) (answers ops ws) ≤ room key ws + limit.
Proof.
  intros Hlim. revert ws; induction ops as [|o ops IH]; intros ws Hok Hord Hfrom.
  { unfold allowed_between; simpl. pose proof (room_bound key ws Hok Hlim). lia. }
  pose proof (StronglySorted_inv Hord) as [Hord' _].
  apply Forall_cons in Hfrom as [Ho Hfrom].
  pose proof (counts_ok_step o ws Hok) as Hok'.
  destruct o as [k now|now]; simpl in Ho.
  - rewrite answers_allow, allowed_between_cons, Allow_allowed. cbn [fst snd].
    pose proof (Allow_lookup now now k key ws) as Hws'.
    simpl in Hok'. destruct (Allow limit interval now now k ws) as [r ws'] eqn:Ha.
    cbn [fst snd] in *. specialize (IH ws' Hok' Hord' Hfrom).
    case_bool_decide as Hk; [subst k|].
    + unfold current in *. destruct (ws !! key) as [w|] eqn:Hw;
        [destruct (After now (resetAt w)) eqn:Haf|].
      * pose proof (allowed_in_window key a (a + interval) ops ws' _ Hord' Hws') as Hrest.
        simpl in Hrest. unfold room. rewrite Hw. case_decide as Hd; [|lia].
        destruct Hd as (_ & _ & Hc%bool_decide_eq_true). simpl in Hc. lia.
      * unfold room in *. rewrite Hws' in IH. rewrite Hw. simpl in IH.
        case_decide as Hd; [|lia]. destruct Hd as (_ & _ & Hc%bool_decide_eq_true). lia.
      * pose proof (allowed_in_window key a (a + interval) ops ws' _ Hord' Hws') as Hrest.
        simpl in Hrest. unfold room. rewrite Hw. case_decide as Hd; [|lia].
        destruct Hd as (_ & _ & Hc%bool_decide_eq_true). simpl in Hc. lia.
    + rewrite decide_False by naive_solver.
      unfold room in *. rewrite Hws' in IH. lia.
  - simpl. pose proof (IH _ Hok' Hord' Hfrom). simpl in *.
    pose proof (room_GC key now ws Hok). lia.
Qed.
End limiter.

(** Key claim of the component: whatever the calls and the sweeps, no span
    of one [interval] lets more than [2 * limit] requests of a key through. *)
Lemma allowed_between_bound limit interval key a ops ws :
  0 ≤ limit → counts_ok ws → in_order ops →
  allowed_between key a (a + interval) (answers limit interval ops ws) ≤ 2 * limit.
Proof.
  intros Hlim. revert ws; induction ops as [|o ops IH]; intros ws Hok Hord.
  { unfold allowed_between; simpl; lia. }
  destruct (decide (a ≤ op_time o)) as [Ha|Ha].
  - pose proof (room_bound limit key ws Hok Hlim).
    assert (Forall (λ o, a ≤ op_time o) (o :: ops)).
    { constructor; [done|]. apply StronglySorted_inv in Hord as [_ Hall].
      eapply Forall_impl; [exact Hall|]. simpl; intros; lia. }
    pose proof (allowed_from limit interval key a (o :: ops) ws). intuition lia.
  - pose proof (StronglySorted_inv Hord) as [Hord' _].
    pose proof (counts_ok_step limit interval o ws Hok) as Hok'.
    specialize (IH _ Hok' Hord').
    destruct o as [k now|now]; simpl in Ha; [|done].
    rewrite answers_allow, allowed_between_cons. cbn [fst snd].
    rewrite decide_False by lia. simpl in IH.
    by destruct (Allow limit interval now now k ws).
Qed.

(** ** What the limiter promises *)

(** Two states that answer alike from [now] on. *)
Definition agree (limit interval now : Z) (ws ws' : windows) : Prop :=
  ∀ key t, now ≤ t → current interval t key ws = current interval t key ws'.

Definition is_allow (o : op) : Prop := match o with OpAllow _ _ => True | OpGC _ => False end.
#[export] Instance is_allow_dec o : Decision (is_allow o).
Proof. destruct o; apply _. Defined.

Lemma agree_allow limit interval now key ws ws' :
  agree limit interval now ws ws' →
  (Allow limit interval now now key ws).1.1 = (Allow limit interval now now key ws').1.1 ∧
  agree limit interval now (Allow limit interval now now key ws).2
    (Allow limit interval now now key ws').2.
Proof.
  intros Hag. split.
  - rewrite !Allow_allowed. by rewrite (Hag key now).
  - intros k t Ht. unfold current. rewrite !Allow_lookup.
    case_bool_decide as Hk; [subst k|by apply Hag].
    by rewrite (Hag key now).
Qed.

Lemma answers_agree limit interval ops now ws ws' :
  in_order ops → Forall (λ o, now ≤ op_time o) ops → agree limit interval now ws ws' →
  answers limit interval ops ws = answers limit interval (filter is_allow ops) ws'.
Proof.
  revert now ws ws'; induction ops as [|o ops IH]; intros now ws ws' Hord Hnow Hag; [done|].
  apply StronglySorted_inv in Hord as [Hord Hall].
  apply Forall_cons in Hnow as [Ho _].
  assert (agree limit interval (op_time o) ws ws') as Hago.
  { intros key t Ht. apply Hag. lia. }
  destruct o as [key t|t]; simpl in Ho, Hago.
  - rewrite filter_cons_True by done. rewrite !answers_allow.
    destruct (agree_allow limit interval t key ws ws' Hago) as [-> Hag'].
    f_equal. by eapply IH.
  - rewrite filter_cons_False by tauto. simpl. eapply IH; [done|exact Hall|].
    intros key u Hu. rewrite current_GC by done. by apply Hago.
Qed.

(** C13: in any sequence of calls and sweeps, from any state the limiter can
    be in, no span of one [interval] lets more than [2 * limit] requests of
    one key through (the imprecision the code's comment accepts, and no
    more). *)
Theorem limiter_bound limit interval ops key a :
  0 ≤ limit → in_order ops →
  allowed_between key a (a + interval) (answers limit interval ops ∅) ≤ 2 * limit.
Proof.
  intros Hlim Hord. apply allowed_between_bound; [done| |done].
  apply map_Forall_empty.
Qed.

Example limiter_bound_witness :
  allowed_between "k" 9 (9 + 10)
    (answers 1 10 [OpAllow "k" 9; OpAllow "k" 9; OpGC 12; OpAllow "k" 19; OpAllow "k" 20] ∅)
  ≤ 2 * 1.
Proof.
  apply (limiter_bound 1 10
    [OpAllow "k" 9; OpAllow "k" 9; OpGC 12; OpAllow "k" 19; OpAllow "k" 20] "k" 9).
  - done.
  - unfold in_order. repeat constructor; simpl; lia.
Defined.

(** sweeping expired windows is invisible: the answers are those of the
    same calls with no sweep at all. *)
Theorem GC_transparent limit interval ops ws :
  in_order ops →
  answers limit interval ops ws = answers limit interval (filter is_allow ops) ws.
Proof.
  intros Hord. destruct ops as [|o ops]; [done|].
  apply (answers_agree limit interval (o :: ops) (op_time o)); [done| |by intros ???].
  constructor; [done|]. by apply StronglySorted_inv in Hord as [_ Hall].
Qed.

Example GC_transparent_witness :
  answers 1 10 [OpAllow "k" 0; OpGC 11; OpAllow "k" 11] ∅
  = answers 1 10 (filter is_allow [OpAllow "k" 0; OpGC 11; OpAllow "k" 11]) ∅.
Proof.
  apply (GC_transparent 1 10 [OpAllow "k" 0; OpGC 11; OpAllow "k" 11] ∅).
  unfold in_order. repeat constructor; simpl; lia.
Defined.

(** a refused client is told a time within one [interval] after which it
    is let through again. *)
Theorem retry_after_is_enough limit interval now later t key ws ra ws' :
  1 ≤ limit → now ≤ later →
  Allow limit interval now later key ws = ((false, ra), ws') →
  later + ra < t →
  ∃ ws'', Allow limit interval t t key ws' = ((true, 0), ws'') ∧
    (map_Forall (λ _ w, resetAt w ≤ now + interval) ws → ra ≤ interval).
Proof.
  intros Hlim Hle HA Ht.
  pose proof (Allow_allowed limit interval now later key ws) as Hden.
  pose proof (Allow_lookup limit interval now later key key ws) as Hl.
  rewrite HA in Hden, Hl. simpl in Hden, Hl. rewrite bool_decide_true in Hl by done.
  assert (ra = resetAt (current interval now key ws) - later) as Hra.
  { clear -HA. unfold Allow, current, fresh in *. simpl in HA.
    case_bool_decide; by simplify_eq/=. }
  pose proof (Allow_allowed limit interval t t key ws') as Hal.
  assert (current interval t key ws' = fresh interval t) as Hfresh.
  { unfold current, After. rewrite Hl. by rewrite bool_decide_true by (simpl; lia). }
  rewrite Hfresh in Hal. simpl in Hal. rewrite bool_decide_true in Hal by lia.
  destruct (Allow limit interval t t key ws') as [[b r] ws''] eqn:HA'. simpl in Hal. subst b.
  exists ws''. split.
  - f_equal. f_equal. clear -HA'. unfold Allow in HA'.
    case_bool_decide; by simplify_eq/=.
  - intros Hws. subst ra. unfold current in *.
    destruct (ws !! key) as [w|] eqn:Hk; [destruct (After now (resetAt w))|]; simpl.
    + lia.
    + pose proof (Hws _ _ Hk). simpl in *. lia.
    + lia.
Qed.

Example retry_after_is_enough_witness :
  ∃ ws'', Allow 1 10 14 14 "k" ({["k" := mkWindow 2 10]} : windows) = ((true, 0), ws'') ∧
    (map_Forall (λ _ w, resetAt w ≤ 3 + 10) ({["k" := mkWindow 1 10]} : windows) → 7 ≤ 10).
Proof.
  apply (retry_after_is_enough 1 10 3 3 14 "k" ({["k" := mkWindow 1 10]} : windows) 7
           ({["k" := mkWindow 2 10]} : windows)); [lia|lia| |lia].
  vm_compute. reflexivity.
Defined.
