(* ===== verification/Http.v ===== *)
(** * The HTTP layer (internal/platform/httpserver, idempotency)

    Handlers are functions from a request to a program that yields the
    response; the middlewares wrap them the way main.go does. *)
From Stdlib Require Import Ascii.
From S2P Require Import Prelude Prog RunDomain TenancyDomain Store Principal Ports Execution.
From S2P Require Import Json RateLimit.

(** [net/http] status codes the code uses. *)
Definition StatusOK : Z := 200.
Definition StatusCreated : Z := 201.
Definition StatusAccepted : Z := 202.
Definition StatusNoContent : Z := 204.
Definition StatusBadRequest : Z := 400.
Definition StatusUnauthorized : Z := 401.
Definition StatusForbidden : Z := 403.
Definition StatusNotFound : Z := 404.
Definition StatusConflict : Z := 409.
Definition StatusMethodNotAllowed : Z := 405.
Definition StatusTooManyRequests : Z := 429.
Definition StatusInternalServerError : Z := 500.
Definition StatusBadGateway : Z := 502.
Definition StatusServiceUnavailable : Z := 503.

(** An absent header or query parameter is the empty string, as [Header.Get]
    and [Query().Get] have it; the path is split at its slashes. *)
Record Request := mkRequest {
  rq_Method : string;
  rq_Path : list string;
  rq_Query : gmap string string;
  rq_Body : string;
  rq_Authorization : string;
  rq_XRequestID : string;
  rq_IdempotencyKey : string;
  rq_RemoteIP : string;
  rq_PathValue : gmap string string;
  rq_ctx : Ctx;
}.

(** [Problem], RFC 7807; its type is always about:blank. *)
Record Problem := mkProblem {
  p_Title : string;
  p_Status : Z;
  p_Detail : string;
  p_RequestID : string;
}.

(** What is written: a problem, a value, nothing, bytes recorded earlier, or
    the frames of an event stream. *)
Inductive Body :=
| BodyProblem (p : Problem)
| BodyJSON (v : json)
| BodyEmpty
| BodyBytes (s : string)
| BodyStream (frames : list string).

Record Response := mkResponse {
  rs_Status : Z;
  rs_Body : Body;
  rs_XRequestID : string;
  rs_Replayed : bool;
  rs_RetryAfter : option Z;
}.

Definition with_ctx (ctx : Ctx) (rq : Request) : Request :=
  mkRequest (rq_Method rq) (rq_Path rq) (rq_Query rq) (rq_Body rq) (rq_Authorization rq)
    (rq_XRequestID rq) (rq_IdempotencyKey rq) (rq_RemoteIP rq) (rq_PathValue rq) ctx.
Definition with_request_id (id : string) (rq : Request) : Request :=
  mkRequest (rq_Method rq) (rq_Path rq) (rq_Query rq) (rq_Body rq) (rq_Authorization rq)
    id (rq_IdempotencyKey rq) (rq_RemoteIP rq) (rq_PathValue rq) (rq_ctx rq).
Definition with_path_values (values : gmap string string) (rq : Request) : Request :=
  mkRequest (rq_Method rq) (rq_Path rq) (rq_Query rq) (rq_Body rq) (rq_Authorization rq)
    (rq_XRequestID rq) (rq_IdempotencyKey rq) (rq_RemoteIP rq) values (rq_ctx rq).

Definition path (rq : Request) (name : string) : string := default "" (rq_PathValue rq !! name).
Definition query (rq : Request) (name : string) : string := default "" (rq_Query rq !! name).

(** [WriteProblem]; the request id is read back off the response's headers. *)
Definition WriteProblem (requestID : string) (status : Z) (title detail : string) : Response :=
  mkResponse status
    (BodyProblem (mkProblem title status detail
       (if bool_decide (500 ≤ status)%Z then requestID else "")))
    requestID false None.

Definition respond (requestID : string) (status : Z) (b : Body) : Response :=
  mkResponse status b requestID false None.

(** The bytes of a body; [json.Encoder] ends a value with a newline. *)
Definition problem_json (p : Problem) : json :=
  JObject ([("type", JString "about:blank"); ("title", JString (p_Title p));
            ("status", JInt (p_Status p))]
           ++ omit_empty "detail" (p_Detail p) ++ omit_empty "request_id" (p_RequestID p)).
Definition encode `{!JSON} (b : Body) : string :=
  match b with
  | BodyProblem p => json_marshal (problem_json p) +:+ newline
  | BodyJSON v => json_marshal v +:+ newline
  | BodyEmpty => ""
  | BodyBytes s => s
  | BodyStream frames => String.concat "" frames
  end.

(** [strings.CutPrefix(header, "Bearer ")] *)
Fixpoint cut_prefix (p s : string) : option string :=
  match p, s with
  | EmptyString, s => Some s
  | String a p, String b s => if bool_decide (a = b) then cut_prefix p s else None
  | String _ _, EmptyString => None
  end.

(** [strings.Count(token, ".")] *)
Fixpoint count_dots (s : string) : nat :=
  match s with
  | EmptyString => 0
  | String c s => (if bool_decide (c = "."%char) then 1 else 0) + count_dots s
  end.

Section http.
Context {X : Type}.

Definition HandlerFunc : Type := Request → prog (World X) Response.

(** [RequestID] *)
Definition RequestID (next : HandlerFunc) : HandlerFunc := λ rq,
  id ← (if rq_XRequestID rq =ₛ "" then new_uuid else Ret (rq_XRequestID rq));
  next (with_request_id id rq).

(** ** Authentication *)

(** [parse_jwt secret token now]: the subject of a token whose signature,
    method and expiry the JWT library accepts. *)
Context (parse_jwt : string → string → Z → option string).
(** The API-key resolver main.go wires; [None] is a nil resolver. *)
Context (resolveAPIKey : option (string → prog (World X) (string * list string))).
Context (secret : string).

(** [auth.ParseAccessToken] *)
Definition ParseAccessToken (token : string) (now : Z) : res string :=
  match parse_jwt secret token now with
  | None => Err ErrInvalidToken
  | Some subject => if subject =ₛ "" then Err ErrInvalidToken else Ok subject
  end.

(** [authenticate]: [None] is [ok = false] with no error. *)
Definition authenticate (rq : Request) : prog (World X) (option (string * list string)) :=
  match cut_prefix "Bearer " (rq_Authorization rq) with
  | None => Ret None
  | Some token =>
      if token =ₛ "" then Ret None
      else if bool_decide (count_dots token = 2) then
        now ← time_now;
        userID ← lift (ParseAccessToken token now);
        Ret (Some (userID, []))
      else
        match resolveAPIKey with
        | None => Ret None
        | Some resolve =>
            r ← resolve token;
            Ret (Some r)
        end
  end.

(** [RequireAuth] *)
Definition RequireAuth (next : HandlerFunc) : HandlerFunc := λ rq,
  r ← try (authenticate rq);
  match r with
  | Ok (Some (subjectID, scopes)) =>
      next (with_ctx (WithScopes scopes (WithUserID subjectID (rq_ctx rq))) rq)
  | _ => Ret (WriteProblem (rq_XRequestID rq) StatusUnauthorized
                "missing or malformed Authorization header" "")
  end.

(** No token presented: let through only while no user exists. *)
Definition bootstrap (countUsers : prog (World X) nat) (next : HandlerFunc)
    : HandlerFunc := λ rq,
  let id := rq_XRequestID rq in
  count ← try countUsers;
  match count with
  | Err _ => Ret (WriteProblem id StatusInternalServerError
                    "failed to check bootstrap eligibility" "")
  | Ok count =>
      if bool_decide (0 < count) then
        Ret (WriteProblem id StatusUnauthorized
               "missing or malformed Authorization header" "")
      else next rq
  end.

(** [RequireAuthOrFirstUserBootstrap] *)
Definition RequireAuthOrFirstUserBootstrap (countUsers : prog (World X) nat)
    (next : HandlerFunc) : HandlerFunc := λ rq,
  match cut_prefix "Bearer " (rq_Authorization rq) with
  | Some token =>
      if token =ₛ "" then bootstrap countUsers next rq
      else
        r ← try (authenticate rq);
        match r with
        | Ok (Some (subjectID, scopes)) =>
            next (with_ctx (WithScopes scopes (WithUserID subjectID (rq_ctx rq))) rq)
        | _ => Ret (WriteProblem (rq_XRequestID rq) StatusUnauthorized
                      "invalid or expired token" "")
        end
  | None => bootstrap countUsers next rq
  end.

(** ** Rate limiting: [allow] is the limiter's critical section *)
Definition RateLimit (allow : string → prog (World X) (bool * Z)) (next : HandlerFunc)
    : HandlerFunc := λ rq,
  r ← allow (rq_RemoteIP rq);
  let '(allowed, retryAfter) := r : bool * Z in
  if allowed : bool then next rq
  else
    let p := WriteProblem (rq_XRequestID rq) StatusTooManyRequests "too many requests" "" in
    Ret (mkResponse (rs_Status p) (rs_Body p) (rs_XRequestID p) false
           (Some (Z.quot retryAfter 1000000000 + 1)%Z)).

(** ** Idempotency keys (internal/platform/idempotency) *)

Definition Window : Z := 24 * 3600 * 1000000000.

Definition ik_for (organizationID userID key : string) (k : IdempotencyKey) : bool :=
  (ik_OrganizationID k =ₛ organizationID) && (ik_RequestingUserID k =ₛ userID)
  && (ik_Key k =ₛ key).

(** [Store.Get]: a row past the window is ignored. *)
Definition Store_Get (organizationID userID key : string)
    : prog (World X) (option (Z * string)) :=
  org_txn organizationID (
    now ← sql_now;
    ks ← select (λ k, ik_for organizationID userID key k &&
                      bool_decide (now - Window < ik_CreatedAt k)%Z);
    mret (match ks with
          | [] => None
          | k :: _ => Some (ik_ResponseStatus k, ik_ResponseBody k)
          end)).

(** [Store.Save] *)
Definition Store_Save (organizationID userID key : string) (status : Z) (body : string)
    : prog (World X) () :=
  org_txn organizationID (
    id ← tx_uuid;
    now ← sql_now;
    insert_or_nothing (mkIdempotencyKey id organizationID userID key status body now)).

(** [Reaper.reapOnce], on the root connection. *)
Definition Reaper_reapOnce : prog (World X) () :=
  txn Root (
    now ← sql_now;
    _ ← delete_where (λ k, bool_decide (ik_CreatedAt k ≤ now - Window)%Z);
    mret ()).

Context `{!JSON}.

(** [idempotency.Middleware] *)
Definition Idempotency (next : HandlerFunc) : HandlerFunc := λ rq,
  let id := rq_XRequestID rq in
  let key := rq_IdempotencyKey rq in
  if key =ₛ "" then next rq
  else
    let '(userID, ok) := UserIDFromContext (rq_ctx rq) in
    if negb ok then Ret (WriteProblem id StatusUnauthorized "authentication required" "")
    else
      let organizationID := path rq "id" in
      cached ← try (Store_Get organizationID userID key);
      match cached with
      | Err _ => Ret (WriteProblem id StatusInternalServerError "idempotency check failed" "")
      | Ok (Some (status, body)) => Ret (mkResponse status (BodyBytes body) id true None)
      | Ok None =>
          resp ← next rq;
          _ ← (if bool_decide (200 ≤ rs_Status resp < 300)%Z then
                 void (try (Store_Save organizationID userID key (rs_Status resp)
                              (encode (rs_Body resp))))
               else Ret ());
          Ret resp
      end.

(** ** The shape of a handler

    Who asks, what the body says, what the service answers. *)
Definition authenticated (k : string → prog (World X) Response) : HandlerFunc := λ rq,
  let '(userID, ok) := UserIDFromContext (rq_ctx rq) in
  if negb ok then
    Ret (WriteProblem (rq_XRequestID rq) StatusUnauthorized "authentication required" "")
  else k userID.

(** [json.NewDecoder(r.Body).Decode(&req)] into a struct type. *)
Definition decode_body {A} (type : string) (d : decoder A) (zero : A) (rq : Request)
    (k : A → prog (World X) Response) : prog (World X) Response :=
  let bad text :=
    Ret (WriteProblem (rq_XRequestID rq) StatusBadRequest "invalid request body" text) in
  match json_decode (rq_Body rq) with
  | EndOfInput => bad "EOF"
  | Malformed text => bad text
  | Decoded v =>
      match d v zero with
      | Some req => k req
      | None => bad (json_misfit type v)
      end
  end.

(** [v, err := svc(); if err != nil { writeError; return }] *)
Definition attempt {A} (rq : Request) (writeError : string → error → Response)
    (service : prog (World X) A) (k : A → prog (World X) Response) : prog (World X) Response :=
  r ← try service;
  match r with
  | Ok a => k a
  | Err err => Ret (writeError (rq_XRequestID rq) err)
  end.

(** Run a service and write its result, or its error. *)
Definition reply {A} (rq : Request) (writeError : string → error → Response)
    (write : string → A → Response) (service : prog (World X) A) : prog (World X) Response :=
  attempt rq writeError service (λ a, Ret (write (rq_XRequestID rq) a)).
End http.

(** An error whose kind does not matter. *)
Definition write_failure (title requestID : string) (_ : error) : Response :=
  WriteProblem requestID StatusInternalServerError title "".

(** [w.WriteHeader(status); json.NewEncoder(w).Encode(f a)] *)
Definition write_json {A} (status : Z) (f : A → json) (requestID : string) (a : A) : Response :=
  respond requestID status (BodyJSON (f a)).
(** [{"data": [...]}] *)
Definition write_list {A} (f : A → json) (requestID : string) (l : list A) : Response :=
  respond requestID StatusOK (BodyJSON (j_data (map f l))).
Definition write_status {A} (status : Z) (requestID : string) (_ : A) : Response :=
  respond requestID status BodyEmpty.
