(* ===== verification/HttpTenancy.v ===== *)
(** * The tenancy and RBAC handlers (internal/tenancy/adapters/http,
    internal/rbac/adapters/http) *)
From S2P Require Import RbacDomain RbacApp.
From S2P Require Import Prelude Prog TenancyDomain Store Principal Ports TenancyApp Json Http.

(** ** Request bodies *)

Record createOrganizationRequest := {
  cor_Name : string;
  cor_Slug : string;
}.
Definition dec_createOrganizationRequest : decoder createOrganizationRequest :=
  dec_struct (λ r o,
    name ← member o "name" dec_string (cor_Name r);
    slug ← member o "slug" dec_string (cor_Slug r);
    Some {| cor_Name := name; cor_Slug := slug |}).

(** Structs of one string field: [addMemberRequest] and
    [addTeamMemberRequest] ([user_id]), [changeMemberRoleRequest] ([role]),
    [createTeamRequest] and [updateTeamRequest] ([name]). *)
Definition dec_field (name : string) : decoder string :=
  dec_struct (λ r o, member o name dec_string r).
Definition dec_addMemberRequest := dec_field "user_id".
Definition dec_changeMemberRoleRequest := dec_field "role".
Definition dec_createTeamRequest := dec_field "name".
Definition dec_updateTeamRequest := dec_field "name".
Definition dec_addTeamMemberRequest := dec_field "user_id".

Record createProjectRequest := {
  cpr_Name : string;
  cpr_Slug : string;
  cpr_Description : string;
}.
Definition dec_createProjectRequest : decoder createProjectRequest :=
  dec_struct (λ r o,
    name ← member o "name" dec_string (cpr_Name r);
    slug ← member o "slug" dec_string (cpr_Slug r);
    description ← member o "description" dec_string (cpr_Description r);
    Some {| cpr_Name := name; cpr_Slug := slug; cpr_Description := description |}).

(** ** Responses *)
Section responses.
Context `{!JSON}.

Definition toOrganizationResponse (org : Organization) : json :=
  JObject [("id", JString (org_ID org)); ("name", JString (org_Name org));
           ("slug", JString (org_Slug org)); ("status", JString (org_Status org));
           ("created_at", j_time (org_CreatedAt org))].
Definition toMemberResponse (m : MemberSummary) : json :=
  JObject [("user_id", JString (ms_UserID m)); ("username", JString (ms_Username m));
           ("email", JString (ms_Email m)); ("role_name", JString (ms_RoleName m));
           ("joined_at", j_time (ms_JoinedAt m)); ("blocked", JBool (ms_Blocked m))].
Definition availableUserResponse (u : string * string * string) : json :=
  let '(id, username, email) := u in
  JObject [("id", JString id); ("username", JString username); ("email", JString email)].
Definition toProjectResponse (p : Project) : json :=
  JObject [("id", JString (proj_ID p)); ("organization_id", JString (proj_OrganizationID p));
           ("name", JString (proj_Name p)); ("slug", JString (proj_Slug p));
           ("description", JString (proj_Description p));
           ("created_at", j_time (proj_CreatedAt p))].
Definition toTeamResponse (t : Team) : json :=
  JObject [("id", JString (team_ID t)); ("organization_id", JString (team_OrganizationID t));
           ("name", JString (team_Name t)); ("created_at", j_time (team_CreatedAt t))].
Definition toTeamMemberResponse (m : TeamMemberSummary) : json :=
  JObject [("user_id", JString (tms_UserID m)); ("username", JString (tms_Username m));
           ("email", JString (tms_Email m)); ("joined_at", j_time (tms_JoinedAt m))].
End responses.

(** ** Errors *)

(** The mapping the handlers of one resource share but for three of its
    texts: what a forbidden caller lacks, what is not found, what failed. *)
Definition writeTenancyError (requires notFound failed requestID : string) (err : error)
    : Response :=
  let problem := WriteProblem requestID in
  match err with
  | ErrForbidden Tenancy => problem StatusForbidden "forbidden" requires
  | ErrOrganizationNotFound => problem StatusNotFound notFound ""
  | _ => problem StatusInternalServerError failed ""
  end.
Definition writeValidated (writeError : string → error → Response) (requestID : string)
    (err : error) : Response :=
  match err with
  | ValidationError Tenancy msg =>
      WriteProblem requestID StatusBadRequest "validation failed" msg
  | _ => writeError requestID err
  end.

Definition writeCreateOrganizationError (requestID : string) (err : error) : Response :=
  let problem := WriteProblem requestID in
  match err with
  | ValidationError Tenancy msg => problem StatusBadRequest "validation failed" msg
  | ErrForbidden Tenancy => problem StatusForbidden "forbidden" "requires platform admin"
  | ErrOrganizationSlugTaken =>
      problem StatusConflict "organization already exists"
        "an organization with this slug already exists"
  | _ => problem StatusInternalServerError "failed to create organization" ""
  end.
(** No permission is asked for: a stranger is told there is nothing. *)
Definition writeMissingOrganization (failed requestID : string) (err : error) : Response :=
  let problem := WriteProblem requestID in
  match err with
  | ErrOrganizationNotFound => problem StatusNotFound "organization not found" ""
  | _ => problem StatusInternalServerError failed ""
  end.
Definition writeArchiveError (requestID : string) (err : error) : Response :=
  match err with
  | ErrOrganizationAlreadyArchived =>
      WriteProblem requestID StatusConflict "organization is already archived" ""
  | _ => writeTenancyError "requires organization:delete" "organization not found"
           "failed to archive organization" requestID err
  end.
Definition writeCreateProjectError (requestID : string) (err : error) : Response :=
  let problem := WriteProblem requestID in
  match err with
  | ErrOrganizationArchived Tenancy => problem StatusConflict "organization is archived" ""
  | ErrProjectAlreadyExists =>
      problem StatusConflict "project already exists"
        "a project with this slug already exists in this organization"
  | _ => writeValidated (writeTenancyError "requires project:manage" "organization not found"
           "failed to create project") requestID err
  end.
(** Neither the organization nor the project is told apart. *)
Definition writeProjectError (requires failed requestID : string) (err : error) : Response :=
  match err with
  | ErrProjectNotFound Tenancy => WriteProblem requestID StatusNotFound "project not found" ""
  | _ => writeTenancyError requires "project not found" failed requestID err
  end.
Definition writeTeamError (notFoundMessage requestID : string) (err : error) : Response :=
  let problem := WriteProblem requestID in
  match err with
  | ValidationError Tenancy msg => problem StatusBadRequest "validation failed" msg
  | ErrForbidden Tenancy => problem StatusForbidden "forbidden" "requires organization:manage"
  | ErrOrganizationNotFound | ErrTeamNotFound => problem StatusNotFound notFoundMessage ""
  | ErrTeamAlreadyExists =>
      problem StatusConflict "team already exists"
        "a team with this name already exists in this organization"
  | _ => problem StatusInternalServerError "internal error" ""
  end.

(** ** Handlers *)
Section handlers.
Context {X : Type} `{!JSON}.
Context `{!MembershipChecker X, !PermissionChecker X, !VisibilityChecker X,
  !UserReader X, !PlatformAdmins X, !RoleManager X}.
Notation HandlerFunc := (HandlerFunc (X:=X)).

Definition CreateOrganizationHandler : HandlerFunc := λ rq,
  authenticated (λ userID,
    decode_body "createOrganizationRequest" dec_createOrganizationRequest
      {| cor_Name := ""; cor_Slug := "" |} rq (λ req,
    reply rq writeCreateOrganizationError (write_json StatusCreated toOrganizationResponse)
      (CreateOrganization {| co_Name := cor_Name req; co_Slug := cor_Slug req;
                             co_CreatedByUserID := userID |}))) rq.

Definition GetOrganizationHandler : HandlerFunc := λ rq,
  authenticated (λ userID,
    reply rq (writeMissingOrganization "failed to fetch organization")
      (write_json StatusOK toOrganizationResponse)
      (GetOrganization (path rq "id") userID)) rq.

Definition ListMyOrganizationsHandler : HandlerFunc := λ rq,
  authenticated (λ userID,
    reply rq (write_failure "failed to list organizations")
      (write_list toOrganizationResponse) (ListMyOrganizations userID)) rq.

Definition organization_input (rq : Request) (userID : string) : OrganizationInput :=
  {| oi_OrganizationID := path rq "id"; oi_RequestingUserID := userID |}.

Definition ArchiveOrganizationHandler : HandlerFunc := λ rq,
  authenticated (λ userID,
    reply rq writeArchiveError (write_json StatusOK toOrganizationResponse)
      (ArchiveOrganization (rq_ctx rq) (organization_input rq userID))) rq.

Definition DeleteOrganizationHandler : HandlerFunc := λ rq,
  authenticated (λ userID,
    reply rq (writeTenancyError "requires organization:delete" "organization not found"
                "failed to delete organization")
      (write_status StatusNoContent)
      (DeleteOrganization (rq_ctx rq) (organization_input rq userID))) rq.

(** *** Members *)

Definition requires_manage := "requires organization:manage".

Definition AddMemberHandler : HandlerFunc := λ rq,
  authenticated (λ userID,
    decode_body "addMemberRequest" dec_addMemberRequest "" rq (λ newMember,
    reply rq (writeTenancyError requires_manage "organization not found" "failed to add member")
      (write_status StatusNoContent)
      (AddMember (rq_ctx rq) {| mi_OrganizationID := path rq "id";
         mi_RequestingUserID := userID; mi_TargetUserID := newMember |}))) rq.

Definition ChangeMemberRoleHandler : HandlerFunc := λ rq,
  authenticated (λ userID,
    decode_body "changeMemberRoleRequest" dec_changeMemberRoleRequest "" rq (λ role,
    reply rq (writeValidated (writeTenancyError requires_manage
                "organization or member not found" "failed to change member role"))
      (write_status StatusNoContent)
      (ChangeMemberRole (rq_ctx rq) {| cm_OrganizationID := path rq "id";
         cm_RequestingUserID := userID; cm_TargetUserID := path rq "userID";
         cm_RoleName := role |}))) rq.

Definition member_input (rq : Request) (userID : string) : MemberInput :=
  {| mi_OrganizationID := path rq "id"; mi_RequestingUserID := userID;
     mi_TargetUserID := path rq "userID" |}.
(** The rest of the handlers of [.../members/{userID}]. *)
Definition member_action (service : Ctx → MemberInput → prog (World X) ()) (failed : string)
    : HandlerFunc := λ rq,
  authenticated (λ userID,
    reply rq (writeTenancyError requires_manage "organization or member not found" failed)
      (write_status StatusNoContent)
      (service (rq_ctx rq) (member_input rq userID))) rq.

Definition BlockMemberHandler : HandlerFunc := member_action BlockMember "failed to block member".
Definition UnblockMemberHandler : HandlerFunc :=
  member_action UnblockMember "failed to unblock member".
Definition RemoveMemberHandler : HandlerFunc :=
  member_action RemoveMember "failed to remove member".

Definition ListMembersHandler : HandlerFunc := λ rq,
  authenticated (λ userID,
    reply rq (writeMissingOrganization "failed to list members") (write_list toMemberResponse)
      (ListMembers (path rq "id") userID)) rq.

Definition ListAvailableUsersHandler : HandlerFunc := λ rq,
  authenticated (λ userID,
    reply rq (writeTenancyError requires_manage "organization not found"
                "failed to list available users")
      (write_list availableUserResponse)
      (ListAvailableUsers (rq_ctx rq) (path rq "id") userID)) rq.

(** *** Projects *)

Definition CreateProjectHandler : HandlerFunc := λ rq,
  authenticated (λ userID,
    decode_body "createProjectRequest" dec_createProjectRequest
      {| cpr_Name := ""; cpr_Slug := ""; cpr_Description := "" |} rq (λ req,
    reply rq writeCreateProjectError (write_json StatusCreated toProjectResponse)
      (CreateProject (rq_ctx rq)
         {| cp_OrganizationID := path rq "id"; cp_RequestingUserID := userID;
            cp_Name := cpr_Name req; cp_Slug := cpr_Slug req;
            cp_Description := cpr_Description req |}))) rq.

Definition ListProjectsHandler : HandlerFunc := λ rq,
  authenticated (λ userID,
    reply rq (writeTenancyError "requires project:read" "organization not found"
                "failed to list projects")
      (write_list toProjectResponse)
      (ListProjects (rq_ctx rq) (path rq "id") userID)) rq.

Definition GetProjectHandler : HandlerFunc := λ rq,
  authenticated (λ userID,
    reply rq (writeProjectError "requires project:read" "failed to fetch project")
      (write_json StatusOK toProjectResponse)
      (GetProject (rq_ctx rq) (path rq "id") (path rq "projectID") userID)) rq.

Definition DeleteProjectHandler : HandlerFunc := λ rq,
  authenticated (λ userID,
    reply rq (writeProjectError "requires project:manage" "failed to delete project")
      (write_status StatusNoContent)
      (DeleteProject (rq_ctx rq) {| dp_OrganizationID := path rq "id";
         dp_ProjectID := path rq "projectID"; dp_RequestingUserID := userID |})) rq.

(** *** Teams *)

Definition team_input (rq : Request) (userID name : string) : TeamInput :=
  {| ti_OrganizationID := path rq "id"; ti_RequestingUserID := userID;
     ti_TeamID := path rq "team"; ti_Name := name |}.
Definition team_member_input (rq : Request) (userID memberID : string) : TeamMemberInput :=
  {| tmi_OrganizationID := path rq "id"; tmi_RequestingUserID := userID;
     tmi_TeamID := path rq "team"; tmi_MemberUserID := memberID |}.

Definition CreateTeamHandler : HandlerFunc := λ rq,
  authenticated (λ userID,
    decode_body "createTeamRequest" dec_createTeamRequest "" rq (λ name,
    reply rq (writeTeamError "organization not found") (write_json StatusCreated toTeamResponse)
      (CreateTeam (rq_ctx rq) (team_input rq userID name)))) rq.

Definition UpdateTeamHandler : HandlerFunc := λ rq,
  authenticated (λ userID,
    decode_body "updateTeamRequest" dec_updateTeamRequest "" rq (λ name,
    reply rq (writeTeamError "team not found") (write_json StatusOK toTeamResponse)
      (UpdateTeam (rq_ctx rq) (team_input rq userID name)))) rq.

Definition DeleteTeamHandler : HandlerFunc := λ rq,
  authenticated (λ userID,
    reply rq (writeTeamError "team not found") (write_status StatusNoContent)
      (DeleteTeam (rq_ctx rq) (team_input rq userID ""))) rq.

Definition ListTeamsHandler : HandlerFunc := λ rq,
  authenticated (λ userID,
    reply rq (writeTeamError "organization not found") (write_list toTeamResponse)
      (ListTeams (path rq "id") userID)) rq.

Definition AddTeamMemberHandler : HandlerFunc := λ rq,
  authenticated (λ userID,
    decode_body "addTeamMemberRequest" dec_addTeamMemberRequest "" rq (λ newMember,
    reply rq (writeTeamError "team not found") (write_status StatusNoContent)
      (AddTeamMember (rq_ctx rq) (team_member_input rq userID newMember)))) rq.

Definition ListTeamMembersHandler : HandlerFunc := λ rq,
  authenticated (λ userID,
    reply rq (writeTeamError "team not found") (write_list toTeamMemberResponse)
      (ListTeamMembers (path rq "id") (path rq "team") userID)) rq.

Definition RemoveTeamMemberHandler : HandlerFunc := λ rq,
  authenticated (λ userID,
    reply rq (writeTeamError "team not found") (write_status StatusNoContent)
      (RemoveTeamMember (rq_ctx rq) (team_member_input rq userID (path rq "user_id")))) rq.
End handlers.

(** ** Roles and bindings (internal/rbac/adapters/http) *)

(** ** Request bodies *)

Record createRoleRequest := {
  crr_Name : string;
  crr_Permissions : list string;
}.
Definition dec_strings : decoder (list string) := dec_slice "" dec_string.
Definition dec_createRoleRequest : decoder createRoleRequest :=
  dec_struct (λ r o,
    name ← member o "name" dec_string (crr_Name r);
    permissions ← member o "permissions" dec_strings (crr_Permissions r);
    Some {| crr_Name := name; crr_Permissions := permissions |}).
Definition dec_updateRoleRequest : decoder (list string) :=
  dec_struct (λ r o, member o "permissions" dec_strings r).

(** [subjectRef], [scopeRef] *)
Record typeRef := {
  ref_Type : string;
  ref_ID : string;
}.
Definition no_ref : typeRef := {| ref_Type := ""; ref_ID := "" |}.
Definition dec_typeRef : decoder typeRef :=
  dec_struct (λ r o,
    type ← member o "type" dec_string (ref_Type r);
    id ← member o "id" dec_string (ref_ID r);
    Some {| ref_Type := type; ref_ID := id |}).

Record createRoleBindingRequest := {
  crbr_RoleID : string;
  crbr_Subject : typeRef;
  crbr_Scope : typeRef;
  crbr_Effect : string;
}.
Definition dec_createRoleBindingRequest : decoder createRoleBindingRequest :=
  dec_struct (λ r o,
    roleID ← member o "role_id" dec_string (crbr_RoleID r);
    subject ← member o "subject" dec_typeRef (crbr_Subject r);
    scope ← member o "scope" dec_typeRef (crbr_Scope r);
    effect ← member o "effect" dec_string (crbr_Effect r);
    Some {| crbr_RoleID := roleID; crbr_Subject := subject; crbr_Scope := scope;
            crbr_Effect := effect |}).

(** ** Responses and errors *)
Section responses.
Context `{!JSON}.

Definition toRoleResponse (r : Role) : json :=
  JObject [("id", JString (role_ID r));
           ("organization_id", j_pointer JString (role_OrganizationID r));
           ("name", JString (role_Name r)); ("permissions", j_strings (role_Permissions r))].
Definition toRoleBindingResponse (b : RoleBinding) : json :=
  JObject [("id", JString (rb_ID b)); ("organization_id", JString (rb_OrganizationID b));
           ("role_id", JString (rb_RoleID b)); ("subject_type", JString (rb_SubjectType b));
           ("subject_id", JString (rb_SubjectID b)); ("scope_type", JString (rb_ScopeType b));
           ("scope_id", JString (rb_ScopeID b)); ("effect", JString (rb_Effect b));
           ("created_at", j_time (rb_CreatedAt b))].
Definition toRoleBindingSummaryResponse (s : RoleBindingSummary) : json :=
  let b := sum_Binding s in
  JObject [("id", JString (rb_ID b)); ("organization_id", JString (rb_OrganizationID b));
           ("role_id", JString (rb_RoleID b)); ("role_name", JString (sum_RoleName s));
           ("subject_type", JString (rb_SubjectType b)); ("subject_id", JString (rb_SubjectID b));
           ("subject_name", JString (sum_SubjectName s));
           ("scope_type", JString (rb_ScopeType b)); ("scope_id", JString (rb_ScopeID b));
           ("scope_name", JString (sum_ScopeName s)); ("effect", JString (rb_Effect b));
           ("created_at", j_time (rb_CreatedAt b))].
End responses.

Definition writeRBACError (requestID : string) (err : error) : Response :=
  let problem := WriteProblem requestID in
  match err with
  | ErrForbidden Rbac => problem StatusForbidden "forbidden" ""
  | ErrRoleNotFound => problem StatusNotFound "role not found" ""
  | ErrRoleAlreadyExists =>
      problem StatusConflict "role already exists"
        "a role with this name already exists in this organization"
  | ValidationError Rbac msg => problem StatusBadRequest "validation failed" msg
  | _ => problem StatusInternalServerError "internal error" ""
  end.

(** ** Handlers *)
Section handlers.
Context {X : Type} `{!JSON}.
Context `{!MembershipChecker X, !PermissionChecker X, !ProjectChecker X, !TeamChecker X,
  !ServiceAccountChecker X, !RbacWorkspaceChecker X, !NameReaders X}.
Notation HandlerFunc := (HandlerFunc (X:=X)).

Definition CreateRoleHandler : HandlerFunc := λ rq,
  authenticated (λ userID,
    decode_body "createRoleRequest" dec_createRoleRequest
      {| crr_Name := ""; crr_Permissions := [] |} rq (λ req,
    reply rq writeRBACError (write_json StatusCreated toRoleResponse)
      (CreateRole (rq_ctx rq)
         {| cr_OrganizationID := path rq "id"; cr_RequestingUserID := userID;
            cr_Name := crr_Name req; cr_Permissions := crr_Permissions req |}))) rq.

Definition UpdateRoleHandler : HandlerFunc := λ rq,
  authenticated (λ userID,
    decode_body "updateRoleRequest" dec_updateRoleRequest [] rq (λ permissions,
    reply rq writeRBACError (write_json StatusOK toRoleResponse)
      (UpdateRole (rq_ctx rq)
         {| ur_OrganizationID := path rq "id"; ur_RequestingUserID := userID;
            ur_RoleID := path rq "role"; ur_Permissions := permissions |}))) rq.

Definition ListRolesHandler : HandlerFunc := λ rq,
  authenticated (λ userID,
    reply rq writeRBACError (write_list toRoleResponse) (ListRoles (path rq "id") userID)) rq.

Definition CreateRoleBindingHandler : HandlerFunc := λ rq,
  authenticated (λ userID,
    decode_body "createRoleBindingRequest" dec_createRoleBindingRequest
      {| crbr_RoleID := ""; crbr_Subject := no_ref; crbr_Scope := no_ref; crbr_Effect := "" |}
      rq (λ req,
    reply rq writeRBACError (write_json StatusCreated toRoleBindingResponse)
      (CreateRoleBinding (rq_ctx rq)
         {| crb_OrganizationID := path rq "id"; crb_RequestingUserID := userID;
            crb_RoleID := crbr_RoleID req; crb_SubjectType := ref_Type (crbr_Subject req);
            crb_SubjectID := ref_ID (crbr_Subject req); crb_ScopeType := ref_Type (crbr_Scope req);
            crb_ScopeID := ref_ID (crbr_Scope req); crb_Effect := crbr_Effect req |}))) rq.

Definition ListRoleBindingsHandler : HandlerFunc := λ rq,
  authenticated (λ userID,
    reply rq writeRBACError (write_list toRoleBindingSummaryResponse)
      (ListRoleBindings (path rq "id") (query rq "subject_id") userID)) rq.

Definition DeleteRoleBindingHandler : HandlerFunc := λ rq,
  authenticated (λ userID,
    reply rq writeRBACError (write_status StatusNoContent)
      (DeleteRoleBinding (rq_ctx rq) (path rq "id") userID (path rq "bindingID"))) rq.
End handlers.
