(* ===== verification/HttpIdentity.v ===== *)
(** * The identity handlers (internal/identity/adapters/http): users,
    signing in, service accounts and API keys *)
From S2P Require Import Prelude Prog IdentityDomain Store Principal Ports IdentityApp Json Http.
From S2P Require Import HttpTenancy.

(** ** Access tokens (internal/platform/auth)

    [sign_jwt secret subject issued expires] is the JWT library's HS256. *)
Definition AccessTokenTTL : Z := 15 * 60 * second_ns.

(** ** Request bodies *)

Record createUserRequest := {
  cur_Username : string;
  cur_Email : string;
  cur_AuthSource : string;
  cur_Password : string;
}.
Definition dec_createUserRequest : decoder createUserRequest :=
  dec_struct (λ r o,
    username ← member o "username" dec_string (cur_Username r);
    email ← member o "email" dec_string (cur_Email r);
    authSource ← member o "auth_source" dec_string (cur_AuthSource r);
    password ← member o "password" dec_string (cur_Password r);
    Some {| cur_Username := username; cur_Email := email; cur_AuthSource := authSource;
            cur_Password := password |}).

Definition dec_setPlatformAdminRequest : decoder bool :=
  dec_struct (λ r o, member o "is_platform_admin" dec_bool r).

Record loginRequest := {
  lr_Username : string;
  lr_Password : string;
}.
Definition dec_loginRequest : decoder loginRequest :=
  dec_struct (λ r o,
    username ← member o "username" dec_string (lr_Username r);
    password ← member o "password" dec_string (lr_Password r);
    Some {| lr_Username := username; lr_Password := password |}).

Definition dec_refreshRequest := dec_field "refresh_token".
Definition dec_requestPasswordResetRequest := dec_field "email".

Record confirmPasswordResetRequest := {
  cpr_Token : string;
  cpr_NewPassword : string;
}.
Definition dec_confirmPasswordResetRequest : decoder confirmPasswordResetRequest :=
  dec_struct (λ r o,
    token ← member o "token" dec_string (cpr_Token r);
    newPassword ← member o "new_password" dec_string (cpr_NewPassword r);
    Some {| cpr_Token := token; cpr_NewPassword := newPassword |}).

Record createServiceAccountRequest := {
  csar_Name : string;
  csar_Description : string;
}.
Definition dec_createServiceAccountRequest : decoder createServiceAccountRequest :=
  dec_struct (λ r o,
    name ← member o "name" dec_string (csar_Name r);
    description ← member o "description" dec_string (csar_Description r);
    Some {| csar_Name := name; csar_Description := description |}).

(** [None] is the nil slice, and the nil pointer. *)
Record createAPIKeyRequest := {
  cakr_Name : string;
  cakr_Scopes : option (list string);
  cakr_ExpiresAt : option Z;
}.
Definition dec_createAPIKeyRequest `{!JSON} : decoder createAPIKeyRequest :=
  dec_struct (λ r o,
    name ← member o "name" dec_string (cakr_Name r);
    scopes ← member o "scopes" (dec_ptr [] (dec_slice "" dec_string)) (cakr_Scopes r);
    expiresAt ← member o "expires_at" (dec_ptr 0%Z dec_time) (cakr_ExpiresAt r);
    Some {| cakr_Name := name; cakr_Scopes := scopes; cakr_ExpiresAt := expiresAt |}).

(** ** Responses *)
Section responses.
Context `{!JSON}.

Definition userResponse (u : User) : json :=
  JObject [("id", JString (user_ID u)); ("username", JString (user_Username u));
           ("email", JString (user_Email u)); ("auth_source", JString (user_AuthSource u));
           ("status", JString (user_Status u)); ("created_at", j_time (user_CreatedAt u));
           ("is_platform_admin", JBool (user_IsPlatformAdmin u))].
Definition loginResponse (accessToken refreshToken : string) : json :=
  JObject [("access_token", JString accessToken); ("token_type", JString "Bearer");
           ("expires_in", JInt (AccessTokenTTL / second_ns));
           ("refresh_token", JString refreshToken)].
Definition toServiceAccountResponse (sa : ServiceAccount) : json :=
  JObject [("id", JString (sa_ID sa)); ("organization_id", JString (sa_OrganizationID sa));
           ("name", JString (sa_Name sa)); ("description", JString (sa_Description sa));
           ("created_at", j_time (sa_CreatedAt sa))].
(** [toAPIKeyResponse] of a new key and its plaintext; [scopes] is the slice
    of the request, which may be nil. *)
Definition toAPIKeyResponse (scopes : option (list string)) (r : APIKey * string) : json :=
  let '(k, plaintext) := r in
  JObject ([("id", JString (ak_ID k)); ("owner_type", JString (ak_OwnerType k));
            ("owner_id", JString (ak_OwnerID k)); ("name", JString (ak_Name k));
            ("scopes", j_pointer j_strings scopes); ("expires_at", j_time (ak_ExpiresAt k))]
           ++ omit_nil "last_used_at" j_time (ak_LastUsedAt k)
           ++ [("created_at", j_time (ak_CreatedAt k)); ("key", JString plaintext)]).
End responses.

(** ** Errors *)

Definition writeCreateUserError (requestID : string) (err : error) : Response :=
  let problem := WriteProblem requestID in
  match err with
  | ValidationError Identity msg => problem StatusBadRequest "validation failed" msg
  | ErrUserAlreadyExists =>
      problem StatusConflict "user already exists"
        "a user with this username or email already exists"
  | _ => problem StatusInternalServerError "failed to create user" ""
  end.
Definition writePlatformAdminError (requestID : string) (err : error) : Response :=
  let problem := WriteProblem requestID in
  match err with
  | ErrForbidden Identity => problem StatusForbidden "forbidden" "requires platform admin"
  | ErrUserNotFound => problem StatusNotFound "user not found" ""
  | _ => problem StatusInternalServerError "failed to update platform admin status" ""
  end.
Definition writeOwnUserError (requestID : string) (err : error) : Response :=
  let problem := WriteProblem requestID in
  match err with
  | ErrUserNotFound => problem StatusNotFound "user not found" ""
  | _ => problem StatusInternalServerError "failed to fetch user" ""
  end.
Definition writeLoginError (requestID : string) (err : error) : Response :=
  let problem := WriteProblem requestID in
  match err with
  | ErrInvalidCredentials => problem StatusUnauthorized "invalid credentials" ""
  | _ => problem StatusInternalServerError "login failed" ""
  end.
Definition writeRefreshError (requestID : string) (err : error) : Response :=
  let problem := WriteProblem requestID in
  match err with
  | ErrRefreshTokenInvalid => problem StatusUnauthorized "invalid refresh token" ""
  | _ => problem StatusInternalServerError "refresh failed" ""
  end.
Definition writeConfirmError (requestID : string) (err : error) : Response :=
  let problem := WriteProblem requestID in
  match err with
  | ValidationError Identity msg => problem StatusBadRequest "validation failed" msg
  | ErrPasswordResetTokenInvalid => problem StatusUnauthorized "invalid or expired token" ""
  | _ => problem StatusInternalServerError "password reset failed" ""
  end.
Definition writeIdentityError (notFoundMessage requestID : string) (err : error) : Response :=
  let problem := WriteProblem requestID in
  match err with
  | ValidationError Identity msg => problem StatusBadRequest "validation failed" msg
  | ErrForbidden Identity => problem StatusForbidden "forbidden" "requires organization:manage"
  | ErrServiceAccountNotFound | ErrAPIKeyInvalid => problem StatusNotFound notFoundMessage ""
  | _ => problem StatusInternalServerError "internal error" ""
  end.

(** ** Handlers *)
Section handlers.
Context {X : Type} `{!JSON, !Crypto}.
Context `{!MembershipChecker X, !PermissionChecker X, !DefaultOrganizationBootstrapper X}.
Context (sign_jwt : string → string → Z → Z → res string).
Context (secret : string).
Notation HandlerFunc := (HandlerFunc (X:=X)).

(** [auth.IssueAccessToken] *)
Definition IssueAccessToken (userID : string) : prog (World X) string :=
  now ← time_now;
  lift (sign_jwt secret userID now (now + AccessTokenTTL)%Z).

(** Not behind [authenticated]: the first user is nobody's to create. *)
Definition CreateUserHandler : HandlerFunc := λ rq,
  decode_body "createUserRequest" dec_createUserRequest
    {| cur_Username := ""; cur_Email := ""; cur_AuthSource := ""; cur_Password := "" |} rq (λ req,
  reply rq writeCreateUserError (write_json StatusCreated userResponse)
    (CreateUser {| cu_Username := cur_Username req; cu_Email := cur_Email req;
                   cu_AuthSource := cur_AuthSource req; cu_Password := cur_Password req |})).

Definition SetPlatformAdminHandler : HandlerFunc := λ rq,
  authenticated (λ userID,
    decode_body "setPlatformAdminRequest" dec_setPlatformAdminRequest false rq (λ admin,
    reply rq writePlatformAdminError (write_status StatusNoContent)
      (SetUserPlatformAdmin {| spa_RequestingUserID := userID;
         spa_TargetUserID := path rq "id"; spa_IsPlatformAdmin := admin |}))) rq.

Definition GetOwnUserHandler : HandlerFunc := λ rq,
  authenticated (λ userID,
    reply rq writeOwnUserError (write_json StatusOK userResponse) (GetOwnUser userID)) rq.

(** [loginLimiter] is keyed by the user name. *)
Definition LoginHandler (allow : string → prog (World X) (bool * Z)) : HandlerFunc := λ rq,
  decode_body "loginRequest" dec_loginRequest {| lr_Username := ""; lr_Password := "" |} rq (λ req,
  r ← allow (lr_Username req);
  let '(allowed, retryAfter) := r : bool * Z in
  if negb allowed then
    let p := WriteProblem (rq_XRequestID rq) StatusTooManyRequests "too many login attempts" "" in
    Ret (mkResponse (rs_Status p) (rs_Body p) (rs_XRequestID p) false
           (Some (Z.quot retryAfter 1000000000 + 1)%Z))
  else
    attempt rq writeLoginError (Authenticate (lr_Username req) (lr_Password req)) (λ user,
    attempt rq (write_failure "login failed") (IssueAccessToken (user_ID user)) (λ token,
    reply rq (write_failure "login failed") (write_json StatusOK (loginResponse token))
      (RefreshToken_Issue (user_ID user))))).

Definition RefreshTokenHandler : HandlerFunc := λ rq,
  decode_body "refreshRequest" dec_refreshRequest "" rq (λ refreshToken,
  attempt rq writeRefreshError (RefreshToken_Refresh refreshToken) (λ r : string * string,
  let '(userID, newRefreshToken) := r in
  reply rq (write_failure "refresh failed")
    (write_json StatusOK (λ token, loginResponse token newRefreshToken))
    (IssueAccessToken userID))).

(** Whether there is anything to reset is not told. *)
Definition RequestPasswordResetHandler : HandlerFunc := λ rq,
  decode_body "requestPasswordResetRequest" dec_requestPasswordResetRequest "" rq (λ email,
  reply rq (write_failure "password reset request failed")
    (write_status StatusAccepted) (RequestReset email)).

Definition ConfirmPasswordResetHandler : HandlerFunc := λ rq,
  decode_body "confirmPasswordResetRequest" dec_confirmPasswordResetRequest
    {| cpr_Token := ""; cpr_NewPassword := "" |} rq (λ req,
  reply rq writeConfirmError (write_status StatusNoContent)
    (ConfirmReset (cpr_Token req) (cpr_NewPassword req))).

(** *** Service accounts and API keys *)

Definition CreateServiceAccountHandler : HandlerFunc := λ rq,
  authenticated (λ userID,
    decode_body "createServiceAccountRequest" dec_createServiceAccountRequest
      {| csar_Name := ""; csar_Description := "" |} rq (λ req,
    reply rq (writeIdentityError "organization not found")
      (write_json StatusCreated toServiceAccountResponse)
      (CreateServiceAccount (rq_ctx rq)
         {| csa_OrganizationID := path rq "id"; csa_RequestingUserID := userID;
            csa_Name := csar_Name req; csa_Description := csar_Description req |}))) rq.

Definition CreateAPIKeyHandler : HandlerFunc := λ rq,
  authenticated (λ userID,
    decode_body "createAPIKeyRequest" dec_createAPIKeyRequest
      {| cakr_Name := ""; cakr_Scopes := None; cakr_ExpiresAt := None |} rq (λ req,
    reply rq (writeIdentityError "service account not found")
      (write_json StatusCreated (toAPIKeyResponse (cakr_Scopes req)))
      (CreateAPIKey (rq_ctx rq)
         {| cak_OrganizationID := path rq "id"; cak_RequestingUserID := userID;
            cak_ServiceAccountID := path rq "sa"; cak_Name := cakr_Name req;
            cak_Scopes := default [] (cakr_Scopes req);
            cak_ExpiresAt := cakr_ExpiresAt req |}))) rq.

Definition RevokeAPIKeyHandler : HandlerFunc := λ rq,
  authenticated (λ userID,
    reply rq (writeIdentityError "api key not found") (write_status StatusNoContent)
      (RevokeAPIKey (rq_ctx rq)
         {| rak_OrganizationID := path rq "id"; rak_RequestingUserID := userID;
            rak_APIKeyID := path rq "key" |})) rq.
End handlers.
