(* ===== verification/HttpWorkspace.v ===== *)
(** * The workspace, variable and run handlers (internal/workspace/adapters/http,
    internal/variables/adapters/http, internal/execution/adapters/http) *)
From S2P Require Import RunDomain Execution.
From S2P Require Import Prelude Prog WorkspaceDomain VariableDomain Store Principal Ports.
From S2P Require Import WorkspaceApp VariableApp Json Http.

(** ** Request bodies *)

Record createEnvironmentRequest := {
  cer_Name : string;
  cer_PromotionRank : Z;
  cer_RequiresApproval : bool;
}.
Definition dec_createEnvironmentRequest : decoder createEnvironmentRequest :=
  dec_struct (λ r o,
    name ← member o "name" dec_string (cer_Name r);
    promotionRank ← member o "promotion_rank" dec_int (cer_PromotionRank r);
    requiresApproval ← member o "requires_approval" dec_bool (cer_RequiresApproval r);
    Some {| cer_Name := name; cer_PromotionRank := promotionRank;
            cer_RequiresApproval := requiresApproval |}).

Record createWorkspaceRequest := {
  cwr_Name : string;
  cwr_ExecutionEngine : string;
  cwr_EnvironmentID : option string;
}.
Definition dec_string_ptr : decoder (option string) := dec_ptr "" dec_string.
Definition dec_createWorkspaceRequest : decoder createWorkspaceRequest :=
  dec_struct (λ r o,
    name ← member o "name" dec_string (cwr_Name r);
    engine ← member o "execution_engine" dec_string (cwr_ExecutionEngine r);
    environmentID ← member o "environment_id" dec_string_ptr (cwr_EnvironmentID r);
    Some {| cwr_Name := name; cwr_ExecutionEngine := engine;
            cwr_EnvironmentID := environmentID |}).

(** [secretRefRequest] is a [SecretReference]. *)
Definition dec_secretRefRequest : decoder SecretReference :=
  dec_struct (λ r o,
    mountID ← member o "mount_id" dec_string (sr_MountID r);
    path_ ← member o "path" dec_string (sr_Path r);
    Some (mkSecretReference mountID path_)).

Record createVariableRequest := {
  cvr_ScopeType : string;
  cvr_ScopeID : string;
  cvr_Key : string;
  cvr_Category : string;
  cvr_Sensitivity : string;
  cvr_Value : string;
  cvr_SecretRef : option SecretReference;
}.
Definition no_createVariableRequest : createVariableRequest :=
  {| cvr_ScopeType := ""; cvr_ScopeID := ""; cvr_Key := ""; cvr_Category := "";
     cvr_Sensitivity := ""; cvr_Value := ""; cvr_SecretRef := None |}.
Definition dec_createVariableRequest : decoder createVariableRequest :=
  dec_struct (λ r o,
    scopeType ← member o "scope_type" dec_string (cvr_ScopeType r);
    scopeID ← member o "scope_id" dec_string (cvr_ScopeID r);
    key ← member o "key" dec_string (cvr_Key r);
    category ← member o "category" dec_string (cvr_Category r);
    sensitivity ← member o "sensitivity" dec_string (cvr_Sensitivity r);
    value ← member o "value" dec_string (cvr_Value r);
    secretRef ← member o "secret_ref" (dec_ptr (mkSecretReference "" "") dec_secretRefRequest)
                  (cvr_SecretRef r);
    Some {| cvr_ScopeType := scopeType; cvr_ScopeID := scopeID; cvr_Key := key;
            cvr_Category := category; cvr_Sensitivity := sensitivity; cvr_Value := value;
            cvr_SecretRef := secretRef |}).

Record updateVariableRequest := {
  uvr_Category : string;
  uvr_Sensitivity : string;
  uvr_Value : string;
}.
Definition dec_updateVariableRequest : decoder updateVariableRequest :=
  dec_struct (λ r o,
    category ← member o "category" dec_string (uvr_Category r);
    sensitivity ← member o "sensitivity" dec_string (uvr_Sensitivity r);
    value ← member o "value" dec_string (uvr_Value r);
    Some {| uvr_Category := category; uvr_Sensitivity := sensitivity; uvr_Value := value |}).

(** ** Responses and errors *)
Section responses.
Context `{!JSON}.

Definition toEnvironmentResponse (e : Environment) : json :=
  JObject [("id", JString (env_ID e)); ("organization_id", JString (env_OrganizationID e));
           ("project_id", JString (env_ProjectID e)); ("name", JString (env_Name e));
           ("promotion_rank", JInt (env_PromotionRank e));
           ("requires_approval", JBool (env_RequiresApproval e));
           ("created_at", j_time (env_CreatedAt e))].
Definition toWorkspaceResponse (w : Workspace) : json :=
  JObject ([("id", JString (ws_ID w)); ("organization_id", JString (ws_OrganizationID w));
            ("project_id", JString (ws_ProjectID w))]
           ++ omit_nil "environment_id" JString (ws_EnvironmentID w)
           ++ [("name", JString (ws_Name w)); ("execution_engine", JString (ws_ExecutionEngine w));
               ("locked", JBool (ws_Locked w)); ("created_at", j_time (ws_CreatedAt w))]).

Definition secretRefResponse (r : SecretReference) : json :=
  JObject [("mount_id", JString (sr_MountID r)); ("path", JString (sr_Path r))].
(** The value of a sensitive variable, and a secret that was not resolved,
    are null. *)
Definition shown_value (v : VariableT) : json :=
  if negb (var_Sensitivity v =ₛ "sensitive") &&
     (bool_decide (var_SecretRef v = None) || negb (var_Value v =ₛ ""))
  then JString (var_Value v) else JNull.
Definition toVariableResponse (v : VariableT) : json :=
  JObject [("id", JString (var_ID v)); ("organization_id", JString (var_OrganizationID v));
           ("scope_type", JString (var_ScopeType v)); ("scope_id", JString (var_ScopeID v));
           ("key", JString (var_Key v)); ("category", JString (var_Category v));
           ("sensitivity", JString (var_Sensitivity v)); ("value", shown_value v);
           ("secret_ref", j_pointer secretRefResponse (var_SecretRef v));
           ("created_at", j_time (var_CreatedAt v))].
End responses.

(** [writeNotFoundOrForbidden], and the title of what it does not map. *)
Definition writeNotFoundOrForbidden (notFoundTitle failed requestID : string) (err : error)
    : Response :=
  let problem := WriteProblem requestID in
  match err with
  | ErrForbidden Workspaces => problem StatusForbidden "forbidden" ""
  | ErrProjectNotFound Workspaces | ErrEnvironmentNotFound | ErrWorkspaceNotFound Workspaces =>
      problem StatusNotFound notFoundTitle ""
  | ErrOrganizationArchived Workspaces => problem StatusConflict "organization is archived" ""
  | _ => problem StatusInternalServerError failed ""
  end.
Definition writeCreateError (failed requestID : string) (err : error) : Response :=
  match err with
  | ValidationError Workspaces msg =>
      WriteProblem requestID StatusBadRequest "validation failed" msg
  | _ => writeNotFoundOrForbidden "project not found" failed requestID err
  end.
Definition writeVariablesError (notFoundTitle requestID : string) (err : error) : Response :=
  let problem := WriteProblem requestID in
  match err with
  | ErrForbidden Variables => problem StatusForbidden "forbidden" ""
  | ErrScopeNotFound => problem StatusNotFound "scope not found" ""
  | ErrVariableNotFound => problem StatusNotFound notFoundTitle ""
  | ErrOrganizationArchived Variables => problem StatusConflict "organization is archived" ""
  | ValidationError Variables msg => problem StatusBadRequest "validation failed" msg
  | _ => problem StatusInternalServerError "internal error" ""
  end.

(** ** Workspace handlers *)
Section workspaces.
Context {X : Type} `{!JSON}.
Context `{!MembershipChecker X, !PermissionChecker X, !ScopedPermissionChecker X,
  !VisibilityChecker X, !OrganizationChecker X, !ProjectChecker X}.
Notation HandlerFunc := (HandlerFunc (X:=X)).

Definition CreateEnvironmentHandler : HandlerFunc := λ rq,
  authenticated (λ userID,
    decode_body "createEnvironmentRequest" dec_createEnvironmentRequest
      {| cer_Name := ""; cer_PromotionRank := 0; cer_RequiresApproval := false |} rq (λ req,
    reply rq (writeCreateError "failed to create environment")
      (write_json StatusCreated toEnvironmentResponse)
      (CreateEnvironment (rq_ctx rq)
         {| ce_OrganizationID := path rq "id"; ce_ProjectID := path rq "projectID";
            ce_RequestingUserID := userID; ce_Name := cer_Name req;
            ce_PromotionRank := cer_PromotionRank req;
            ce_RequiresApproval := cer_RequiresApproval req |}))) rq.

Definition ListEnvironmentsHandler : HandlerFunc := λ rq,
  authenticated (λ userID,
    reply rq (writeNotFoundOrForbidden "project not found" "failed to list environments")
      (write_list toEnvironmentResponse)
      (ListEnvironments (path rq "id") (path rq "projectID") userID)) rq.

Definition GetEnvironmentHandler : HandlerFunc := λ rq,
  authenticated (λ userID,
    reply rq (writeNotFoundOrForbidden "environment not found" "failed to fetch environment")
      (write_json StatusOK toEnvironmentResponse)
      (GetEnvironment (path rq "id") (path rq "projectID") (path rq "envID") userID)) rq.

Definition CreateWorkspaceHandler : HandlerFunc := λ rq,
  authenticated (λ userID,
    decode_body "createWorkspaceRequest" dec_createWorkspaceRequest
      {| cwr_Name := ""; cwr_ExecutionEngine := ""; cwr_EnvironmentID := None |} rq (λ req,
    reply rq (writeCreateError "failed to create workspace")
      (write_json StatusCreated toWorkspaceResponse)
      (CreateWorkspace (rq_ctx rq)
         {| cw_OrganizationID := path rq "id"; cw_ProjectID := path rq "projectID";
            cw_RequestingUserID := userID; cw_Name := cwr_Name req;
            cw_ExecutionEngine := cwr_ExecutionEngine req;
            cw_EnvironmentID := cwr_EnvironmentID req |}))) rq.

Definition ListWorkspacesHandler : HandlerFunc := λ rq,
  authenticated (λ userID,
    reply rq (writeNotFoundOrForbidden "project not found" "failed to list workspaces")
      (write_list toWorkspaceResponse)
      (ListWorkspaces (rq_ctx rq) (path rq "id") (path rq "projectID") userID)) rq.

Definition DeleteWorkspaceHandler : HandlerFunc := λ rq,
  authenticated (λ userID,
    reply rq (writeNotFoundOrForbidden "workspace not found" "failed to delete workspace")
      (write_status StatusNoContent)
      (DeleteWorkspace (rq_ctx rq)
         {| dw_OrganizationID := path rq "id"; dw_ProjectID := path rq "projectID";
            dw_WorkspaceID := path rq "workspaceID"; dw_RequestingUserID := userID |})) rq.

Definition GetWorkspaceHandler : HandlerFunc := λ rq,
  authenticated (λ userID,
    reply rq (writeNotFoundOrForbidden "workspace not found" "failed to fetch workspace")
      (write_json StatusOK toWorkspaceResponse)
      (GetWorkspace (rq_ctx rq) (path rq "id") (path rq "projectID") (path rq "workspaceID")
         userID)) rq.
End workspaces.

(** ** Variable handlers *)
Section variables.
Context {X : Type} `{!JSON}.
Context `{!MembershipChecker X, !PermissionChecker X, !VisibilityChecker X,
  !OrganizationChecker X, !ProjectChecker X, !VariableWorkspaceChecker X,
  !EnvironmentChecker X, !EnvironmentProjectResolver X, !SecretResolver X,
  !SecretMountChecker X}.
Notation HandlerFunc := (HandlerFunc (X:=X)).

Definition CreateVariableHandler : HandlerFunc := λ rq,
  authenticated (λ userID,
    decode_body "createVariableRequest" dec_createVariableRequest no_createVariableRequest rq
      (λ req,
    reply rq (writeVariablesError "variable not found")
      (write_json StatusCreated toVariableResponse)
      (CreateVariable (rq_ctx rq)
         {| cv_OrganizationID := path rq "id"; cv_RequestingUserID := userID;
            cv_ScopeType := cvr_ScopeType req; cv_ScopeID := cvr_ScopeID req;
            cv_Key := cvr_Key req; cv_Category := cvr_Category req;
            cv_Sensitivity := cvr_Sensitivity req; cv_Value := cvr_Value req;
            cv_SecretMountID := from_option sr_MountID "" (cvr_SecretRef req);
            cv_SecretPath := from_option sr_Path "" (cvr_SecretRef req) |}))) rq.

Definition UpdateVariableHandler : HandlerFunc := λ rq,
  authenticated (λ userID,
    decode_body "updateVariableRequest" dec_updateVariableRequest
      {| uvr_Category := ""; uvr_Sensitivity := ""; uvr_Value := "" |} rq (λ req,
    reply rq (writeVariablesError "variable not found") (write_json StatusOK toVariableResponse)
      (UpdateVariable (rq_ctx rq)
         {| uv_OrganizationID := path rq "id"; uv_RequestingUserID := userID;
            uv_VariableID := path rq "variableID"; uv_Value := uvr_Value req;
            uv_Category := uvr_Category req; uv_Sensitivity := uvr_Sensitivity req |}))) rq.

Definition DeleteVariableHandler : HandlerFunc := λ rq,
  authenticated (λ userID,
    reply rq (writeVariablesError "variable not found") (write_status StatusNoContent)
      (DeleteVariable (rq_ctx rq) (path rq "id") userID (path rq "variableID"))) rq.

Definition ListVariablesHandler : HandlerFunc := λ rq,
  authenticated (λ userID,
    reply rq (writeVariablesError "variable not found") (write_list toVariableResponse)
      (ListVariables (rq_ctx rq) (path rq "id") userID (query rq "scope_type")
         (query rq "scope_id"))) rq.

Definition ResolveVariableHandler : HandlerFunc := λ rq,
  authenticated (λ userID,
    reply rq (writeVariablesError "variable not found in this workspace's scope cascade")
      (write_json StatusOK toVariableResponse)
      (ResolveVariable (path rq "id") (path rq "workspaceID") (query rq "key") userID)) rq.
End variables.

(** ** Runs (internal/execution/adapters/http/run_handler.go) *)

(** The strings of the statuses and triggers (domain/run.go). *)
Definition run_status_string (s : RunStatus) : string :=
  match s with
  | RunStatusQueued => "queued" | RunStatusPlanning => "planning" | RunStatusPlanned => "planned"
  | RunStatusPolicyCheck => "policy_check" | RunStatusAwaitingApproval => "awaiting_approval"
  | RunStatusApplying => "applying" | RunStatusApplied => "applied" | RunStatusFailed => "failed"
  | RunStatusErrored => "errored" | RunStatusCanceled => "canceled"
  end.
Definition run_trigger_string (t : RunTrigger) : string :=
  match t with
  | RunTriggerManual => "manual" | RunTriggerVCSPush => "vcs_push" | RunTriggerVCSPR => "vcs_pr"
  | RunTriggerScheduled => "scheduled" | RunTriggerAPI => "api"
  end.

(** [toRunResponse], with the tags of [runResponse] *)
Definition toRunResponse `{!JSON} (r : Run) : json :=
  JObject ([("id", JString (run_ID r));
            ("organization_id", JString (run_OrganizationID r));
            ("workspace_id", JString (run_WorkspaceID r));
            ("trigger", JString (run_trigger_string (run_Trigger r)));
            ("triggered_by", JString (run_TriggeredBy r));
            ("status", JString (run_status_string (run_Status r)));
            ("created_at", j_time (run_CreatedAt r))]
           ++ omit_nil "finished_at" j_time (run_FinishedAt r)
           ++ omit_nil "apply_output_ref" JString (run_ApplyOutputRef r)).

Definition writeExecutionError (notFoundTitle requestID : string) (err : error) : Response :=
  let problem := WriteProblem requestID in
  match err with
  | ErrForbidden Execution => problem StatusForbidden "forbidden" ""
  | ErrWorkspaceNotFound Execution | ErrRunNotFound => problem StatusNotFound notFoundTitle ""
  | ErrWorkspaceLocked =>
      problem StatusConflict "workspace is locked"
        "another run is already in progress on this workspace"
  | ErrRunAlreadyTerminal => problem StatusConflict "run already terminal" ""
  | ErrOrganizationArchived Execution => problem StatusConflict "organization is archived" ""
  | ValidationError Execution msg => problem StatusBadRequest "validation failed" msg
  | _ => problem StatusInternalServerError "internal error" ""
  end.

Section handlers.
Context {X : Type} `{!JSON}.
Context `{!MembershipChecker X, !PermissionChecker X, !ScopedPermissionChecker X,
  !VisibilityChecker X, !OrganizationChecker X, !WorkspaceLocker X, !WorkspaceChecker X,
  !WorkerCanceler X}.
Notation HandlerFunc := (HandlerFunc (X:=X)).

Definition TriggerRunHandler : HandlerFunc := λ rq,
  authenticated (λ userID,
    reply rq (writeExecutionError "workspace not found") (write_json StatusCreated toRunResponse)
      (TriggerRun (rq_ctx rq)
         {| tr_OrganizationID := path rq "id"; tr_ProjectID := path rq "projectID";
            tr_WorkspaceID := path rq "workspaceID"; tr_RequestingUserID := userID |})) rq.

Definition CancelRunHandler : HandlerFunc := λ rq,
  authenticated (λ userID,
    reply rq (writeExecutionError "run not found") (write_json StatusOK toRunResponse)
      (CancelRun (rq_ctx rq) (path rq "id") (path rq "projectID") (path rq "workspaceID")
         (path rq "runID") userID)) rq.

Definition ListRunsHandler : HandlerFunc := λ rq,
  authenticated (λ userID,
    reply rq (writeExecutionError "workspace not found") (write_list toRunResponse)
      (ListRuns (rq_ctx rq) (path rq "id") (path rq "projectID") (path rq "workspaceID")
         userID)) rq.

Definition GetRunHandler : HandlerFunc := λ rq,
  authenticated (λ userID,
    reply rq (writeExecutionError "run not found") (write_json StatusOK toRunResponse)
      (GetRun (rq_ctx rq) (path rq "id") (path rq "projectID") (path rq "workspaceID")
         (path rq "runID") userID)) rq.
End handlers.
