(* ===== verification/HttpSecrets.v ===== *)
(** * The secret mount and audit handlers (internal/secrets/adapters/http,
    internal/audit/adapters/http) *)
From Stdlib Require Import Ascii.
From S2P Require Import Prelude Prog TenancyDomain FleetDomain Store Principal Ports Envelope.
From S2P Require Import Secrets AuditLog Cursor Json Http.

(** ** Secret mounts *)

Record createSecretMountRequest := {
  csmr_Name : string;
  csmr_BackendType : string;
  csmr_Address : string;
  csmr_RoleID : string;
  csmr_SecretID : string;
}.
Definition no_createSecretMountRequest : createSecretMountRequest :=
  {| csmr_Name := ""; csmr_BackendType := ""; csmr_Address := ""; csmr_RoleID := "";
     csmr_SecretID := "" |}.
Definition dec_createSecretMountRequest : decoder createSecretMountRequest :=
  dec_struct (λ r o,
    name ← member o "name" dec_string (csmr_Name r);
    backendType ← member o "backend_type" dec_string (csmr_BackendType r);
    address ← member o "address" dec_string (csmr_Address r);
    roleID ← member o "role_id" dec_string (csmr_RoleID r);
    secretID ← member o "secret_id" dec_string (csmr_SecretID r);
    Some {| csmr_Name := name; csmr_BackendType := backendType; csmr_Address := address;
            csmr_RoleID := roleID; csmr_SecretID := secretID |}).

Record writeSecretRequest := {
  wsr_Path : string;
  wsr_Value : string;
}.
Definition dec_writeSecretRequest : decoder writeSecretRequest :=
  dec_struct (λ r o,
    path_ ← member o "path" dec_string (wsr_Path r);
    value ← member o "value" dec_string (wsr_Value r);
    Some {| wsr_Path := path_; wsr_Value := value |}).

(** No field for the sealed credential. *)
Definition toSecretMountResponse `{!JSON} (m : SecretMount) : json :=
  JObject [("id", JString (sm_ID m)); ("organization_id", JString (sm_OrganizationID m));
           ("name", JString (sm_Name m)); ("backend_type", JString (sm_BackendType m));
           ("address", JString (sm_Address m)); ("role_id", JString (sm_RoleID m));
           ("created_at", j_time (sm_CreatedAt m))].

Definition writeSecretsError (requestID : string) (err : error) : Response :=
  let problem := WriteProblem requestID in
  match err with
  | ErrForbidden Secrets => problem StatusForbidden "forbidden" ""
  | ErrSecretMountNotFound => problem StatusNotFound "secret mount not found" ""
  | ValidationError Secrets msg => problem StatusBadRequest "validation failed" msg
  | _ => problem StatusInternalServerError "internal error" ""
  end.

Section mounts.
Context {X : Type} `{!JSON}.
Context `{!MembershipChecker X, !PermissionChecker X, !Aead, !VaultAPI X}.
Context (masterKey : string).
(** [err.Error()] *)
Context (error_text : error → string).
Notation HandlerFunc := (HandlerFunc (X:=X)).

Definition CreateSecretMountHandler : HandlerFunc := λ rq,
  authenticated (λ userID,
    decode_body "createSecretMountRequest" dec_createSecretMountRequest
      no_createSecretMountRequest rq (λ req,
    reply rq writeSecretsError (write_json StatusCreated toSecretMountResponse)
      (CreateSecretMount masterKey (rq_ctx rq)
         {| csm_OrganizationID := path rq "id"; csm_RequestingUserID := userID;
            csm_Name := csmr_Name req; csm_BackendType := csmr_BackendType req;
            csm_Address := csmr_Address req; csm_RoleID := csmr_RoleID req;
            csm_SecretID := csmr_SecretID req |}))) rq.

Definition ListSecretMountsHandler : HandlerFunc := λ rq,
  authenticated (λ userID,
    reply rq writeSecretsError (write_list toSecretMountResponse)
      (ListSecretMounts (path rq "id") userID)) rq.

(** A failure of the backend is the backend's: 502, with its text. *)
Definition writeTestConnectionError (requestID : string) (err : error) : Response :=
  match err with
  | ErrForbidden Secrets | ErrSecretMountNotFound => writeSecretsError requestID err
  | _ => WriteProblem requestID StatusBadGateway "connection test failed" (error_text err)
  end.
Definition writeWriteSecretError (requestID : string) (err : error) : Response :=
  match err with
  | ErrForbidden Secrets | ErrSecretMountNotFound | ValidationError Secrets _ =>
      writeSecretsError requestID err
  | _ => WriteProblem requestID StatusBadGateway "secret write failed" (error_text err)
  end.

Definition TestConnectionHandler : HandlerFunc := λ rq,
  authenticated (λ userID,
    reply rq writeTestConnectionError (write_status StatusNoContent)
      (TestConnection masterKey (rq_ctx rq) (path rq "id") (path rq "mount") userID)) rq.

Definition WriteSecretHandler : HandlerFunc := λ rq,
  authenticated (λ userID,
    decode_body "writeSecretRequest" dec_writeSecretRequest
      {| wsr_Path := ""; wsr_Value := "" |} rq (λ req,
    reply rq writeWriteSecretError (write_status StatusNoContent)
      (WriteSecret masterKey (rq_ctx rq)
         {| wsi_OrganizationID := path rq "id"; wsi_MountID := path rq "mount";
            wsi_RequestingUserID := userID; wsi_Path := wsr_Path req;
            wsi_Value := wsr_Value req |}))) rq.
End mounts.

(** ** The audit log *)

(** [strconv.Atoi] *)
Fixpoint digits (acc : Z) (s : string) : option Z :=
  match s with
  | EmptyString => Some acc
  | String c s =>
      let d := (Z.of_nat (nat_of_ascii c) - 48)%Z in
      if bool_decide (0 ≤ d ≤ 9)%Z then digits (acc * 10 + d) s else None
  end.
Definition Atoi (s : string) : option Z :=
  n ← match s with
      | EmptyString => None
      | String "-" EmptyString | String "+" EmptyString => None
      | String "-" s => Z.opp <$> digits 0 s
      | String "+" s => digits 0 s
      | s => digits 0 s
      end;
  if bool_decide (- 2 ^ 63 ≤ n < 2 ^ 63)%Z then Some n else None.

Definition key_order (a b : string * string) : Prop := Is_true (String.leb a.1 b.1).
#[export] Instance key_order_dec a b : Decision (key_order a b).
Proof. unfold key_order. apply _. Defined.

(** The members of a map are written in the order of their keys. *)
Definition j_map (m : gmap string string) : json :=
  JObject (prod_map id JString <$> merge_sort key_order (map_to_list m)).

Definition toAuditEntryResponse `{!JSON} (e : Entry) : json :=
  JObject [("id", JString (entry_ID e)); ("actor", JString (entry_Actor e));
           ("action", JString (entry_Action e)); ("target_type", JString (entry_TargetType e));
           ("target_id", JString (entry_TargetID e)); ("metadata", j_map (entry_Metadata e));
           ("created_at", j_time (entry_CreatedAt e))].

Definition writeAuditError (requestID : string) (err : error) : Response :=
  let problem := WriteProblem requestID in
  match err with
  | ErrForbidden AuditLog => problem StatusForbidden "forbidden" ""
  | ValidationError AuditLog msg => problem StatusBadRequest "validation failed" msg
  | _ => problem StatusInternalServerError "failed to fetch audit log" ""
  end.

Section audit.
Context {X : Type} `{!JSON, !TimeText, !PermissionChecker X}.
Notation HandlerFunc := (HandlerFunc (X:=X)).

(** The query's [limit], 0 when there is none. *)
Definition page_size (rq : Request) : option Z :=
  if query rq "limit" =ₛ "" then Some 0%Z
  else
    n ← Atoi (query rq "limit");
    if bool_decide (n < 0)%Z then None else Some n.

Definition write_page (requestID : string) (page : list Entry * string) : Response :=
  respond requestID StatusOK
    (BodyJSON (JObject (("data", JArray (map toAuditEntryResponse page.1))
                        :: omit_empty "next_cursor" page.2))).

Definition ListAuditLogHandler : HandlerFunc := λ rq,
  authenticated (λ userID,
    match page_size rq with
    | None => Ret (WriteProblem (rq_XRequestID rq) StatusBadRequest "validation failed"
                     "limit must be a non-negative integer")
    | Some limit =>
        reply rq writeAuditError write_page
          (ListAuditEntries_text (rq_ctx rq) (path rq "id") userID limit (query rq "cursor"))
    end) rq.
End audit.
