(* ===== verification/HttpFleet.v ===== *)
(** * The fleet handlers (internal/fleet/adapters/http): machines, networks,
    volumes, compose files, their attachments and variables, operations *)
From S2P Require Import Prelude Prog FleetDomain Store Principal Ports Envelope FleetRepo.
From S2P Require Import FleetMachines FleetFiles Json Http HttpTenancy HttpWorkspace.

(** ** Request bodies *)

Record createMachineRequest := {
  cmr_Name : string;
  cmr_Host : string;
  cmr_SSHPort : Z;
  cmr_SSHUser : string;
  cmr_CredentialType : string;
  cmr_CredentialStorage : string;
  cmr_CredentialMountID : string;
  cmr_CredentialPath : string;
  cmr_CredentialSecret : string;
  cmr_DeployBasePath : string;
}.
Definition no_createMachineRequest : createMachineRequest :=
  {| cmr_Name := ""; cmr_Host := ""; cmr_SSHPort := 0; cmr_SSHUser := "";
     cmr_CredentialType := ""; cmr_CredentialStorage := ""; cmr_CredentialMountID := "";
     cmr_CredentialPath := ""; cmr_CredentialSecret := ""; cmr_DeployBasePath := "" |}.
Definition dec_createMachineRequest : decoder createMachineRequest :=
  dec_struct (λ r o,
    name ← member o "name" dec_string (cmr_Name r);
    host ← member o "host" dec_string (cmr_Host r);
    sshPort ← member o "ssh_port" dec_int (cmr_SSHPort r);
    sshUser ← member o "ssh_user" dec_string (cmr_SSHUser r);
    credentialType ← member o "credential_type" dec_string (cmr_CredentialType r);
    credentialStorage ← member o "credential_storage" dec_string (cmr_CredentialStorage r);
    credentialMountID ← member o "credential_mount_id" dec_string (cmr_CredentialMountID r);
    credentialPath ← member o "credential_path" dec_string (cmr_CredentialPath r);
    credentialSecret ← member o "credential_secret" dec_string (cmr_CredentialSecret r);
    deployBasePath ← member o "deploy_base_path" dec_string (cmr_DeployBasePath r);
    Some {| cmr_Name := name; cmr_Host := host; cmr_SSHPort := sshPort; cmr_SSHUser := sshUser;
            cmr_CredentialType := credentialType; cmr_CredentialStorage := credentialStorage;
            cmr_CredentialMountID := credentialMountID; cmr_CredentialPath := credentialPath;
            cmr_CredentialSecret := credentialSecret; cmr_DeployBasePath := deployBasePath |}).

Record updateMachineRequest := {
  umr_SSHUser : option string;
  umr_CredentialType : option string;
  umr_CredentialMountID : option string;
  umr_CredentialPath : option string;
  umr_CredentialSecret : option string;
  umr_DeployBasePath : option string;
}.
Definition no_updateMachineRequest : updateMachineRequest :=
  {| umr_SSHUser := None; umr_CredentialType := None; umr_CredentialMountID := None;
     umr_CredentialPath := None; umr_CredentialSecret := None; umr_DeployBasePath := None |}.
Definition dec_updateMachineRequest : decoder updateMachineRequest :=
  dec_struct (λ r o,
    sshUser ← member o "ssh_user" dec_string_ptr (umr_SSHUser r);
    credentialType ← member o "credential_type" dec_string_ptr (umr_CredentialType r);
    credentialMountID ← member o "credential_mount_id" dec_string_ptr (umr_CredentialMountID r);
    credentialPath ← member o "credential_path" dec_string_ptr (umr_CredentialPath r);
    credentialSecret ← member o "credential_secret" dec_string_ptr (umr_CredentialSecret r);
    deployBasePath ← member o "deploy_base_path" dec_string_ptr (umr_DeployBasePath r);
    Some {| umr_SSHUser := sshUser; umr_CredentialType := credentialType;
            umr_CredentialMountID := credentialMountID; umr_CredentialPath := credentialPath;
            umr_CredentialSecret := credentialSecret; umr_DeployBasePath := deployBasePath |}).

Definition dec_duplicateMachineRequest := dec_field "name".

Record testMachineConnectionRequest := {
  tmr_Host : string;
  tmr_SSHPort : Z;
  tmr_SSHUser : string;
  tmr_CredentialType : string;
  tmr_CredentialStorage : string;
  tmr_CredentialMountID : string;
  tmr_CredentialPath : string;
  tmr_CredentialSecret : string;
}.
Definition no_testMachineConnectionRequest : testMachineConnectionRequest :=
  {| tmr_Host := ""; tmr_SSHPort := 0; tmr_SSHUser := ""; tmr_CredentialType := "";
     tmr_CredentialStorage := ""; tmr_CredentialMountID := ""; tmr_CredentialPath := "";
     tmr_CredentialSecret := "" |}.
Definition dec_testMachineConnectionRequest : decoder testMachineConnectionRequest :=
  dec_struct (λ r o,
    host ← member o "host" dec_string (tmr_Host r);
    sshPort ← member o "ssh_port" dec_int (tmr_SSHPort r);
    sshUser ← member o "ssh_user" dec_string (tmr_SSHUser r);
    credentialType ← member o "credential_type" dec_string (tmr_CredentialType r);
    credentialStorage ← member o "credential_storage" dec_string (tmr_CredentialStorage r);
    credentialMountID ← member o "credential_mount_id" dec_string (tmr_CredentialMountID r);
    credentialPath ← member o "credential_path" dec_string (tmr_CredentialPath r);
    credentialSecret ← member o "credential_secret" dec_string (tmr_CredentialSecret r);
    Some {| tmr_Host := host; tmr_SSHPort := sshPort; tmr_SSHUser := sshUser;
            tmr_CredentialType := credentialType; tmr_CredentialStorage := credentialStorage;
            tmr_CredentialMountID := credentialMountID; tmr_CredentialPath := credentialPath;
            tmr_CredentialSecret := credentialSecret |}).

Record createNetworkRequest := {
  cnr_Name : string;
  cnr_External : bool;
}.
Definition dec_createNetworkRequest : decoder createNetworkRequest :=
  dec_struct (λ r o,
    name ← member o "name" dec_string (cnr_Name r);
    external ← member o "external" dec_bool (cnr_External r);
    Some {| cnr_Name := name; cnr_External := external |}).

Record createVolumeRequest := {
  cvolr_Name : string;
  cvolr_HostPath : string;
}.
Definition dec_createVolumeRequest : decoder createVolumeRequest :=
  dec_struct (λ r o,
    name ← member o "name" dec_string (cvolr_Name r);
    hostPath ← member o "host_path" dec_string (cvolr_HostPath r);
    Some {| cvolr_Name := name; cvolr_HostPath := hostPath |}).

Record createComposeFileRequest := {
  ccfr_Name : string;
  ccfr_ComposeContent : string;
  ccfr_IsGlobal : bool;
}.
Definition dec_createComposeFileRequest : decoder createComposeFileRequest :=
  dec_struct (λ r o,
    name ← member o "name" dec_string (ccfr_Name r);
    content ← member o "compose_content" dec_string (ccfr_ComposeContent r);
    isGlobal ← member o "is_global" dec_bool (ccfr_IsGlobal r);
    Some {| ccfr_Name := name; ccfr_ComposeContent := content; ccfr_IsGlobal := isGlobal |}).

Definition dec_updateComposeFileContentRequest := dec_field "compose_content".
Definition dec_attachNetworkRequest := dec_field "network_id".
Definition dec_attachProjectRequest := dec_field "project_id".

Record attachVolumeRequest := {
  avr_VolumeID : string;
  avr_ContainerPath : string;
}.
Definition dec_attachVolumeRequest : decoder attachVolumeRequest :=
  dec_struct (λ r o,
    volumeID ← member o "volume_id" dec_string (avr_VolumeID r);
    containerPath ← member o "container_path" dec_string (avr_ContainerPath r);
    Some {| avr_VolumeID := volumeID; avr_ContainerPath := containerPath |}).

(** [createVariableRequest] of this package *)
Record createFleetVariableRequest := {
  cfvr_Key : string;
  cfvr_VarType : string;
  cfvr_Value : string;
  cfvr_SecretMountID : string;
  cfvr_SecretPath : string;
  cfvr_FileTargetPath : string;
}.
Definition no_createFleetVariableRequest : createFleetVariableRequest :=
  {| cfvr_Key := ""; cfvr_VarType := ""; cfvr_Value := ""; cfvr_SecretMountID := "";
     cfvr_SecretPath := ""; cfvr_FileTargetPath := "" |}.
Definition dec_createFleetVariableRequest : decoder createFleetVariableRequest :=
  dec_struct (λ r o,
    key ← member o "key" dec_string (cfvr_Key r);
    varType ← member o "var_type" dec_string (cfvr_VarType r);
    value ← member o "value" dec_string (cfvr_Value r);
    secretMountID ← member o "secret_mount_id" dec_string (cfvr_SecretMountID r);
    secretPath ← member o "secret_path" dec_string (cfvr_SecretPath r);
    fileTargetPath ← member o "file_target_path" dec_string (cfvr_FileTargetPath r);
    Some {| cfvr_Key := key; cfvr_VarType := varType; cfvr_Value := value;
            cfvr_SecretMountID := secretMountID; cfvr_SecretPath := secretPath;
            cfvr_FileTargetPath := fileTargetPath |}).

Record createSecretVariableRequest := {
  csvr_Key : string;
  csvr_MountID : string;
  csvr_Value : string;
}.
Definition dec_createSecretVariableRequest : decoder createSecretVariableRequest :=
  dec_struct (λ r o,
    key ← member o "key" dec_string (csvr_Key r);
    mountID ← member o "mount_id" dec_string (csvr_MountID r);
    value ← member o "value" dec_string (csvr_Value r);
    Some {| csvr_Key := key; csvr_MountID := mountID; csvr_Value := value |}).

Record updateFleetVariableRequest := {
  ufvr_Value : option string;
  ufvr_SecretMountID : option string;
  ufvr_SecretPath : option string;
  ufvr_FileTargetPath : option string;
}.
Definition no_updateFleetVariableRequest : updateFleetVariableRequest :=
  {| ufvr_Value := None; ufvr_SecretMountID := None; ufvr_SecretPath := None;
     ufvr_FileTargetPath := None |}.
Definition dec_updateFleetVariableRequest : decoder updateFleetVariableRequest :=
  dec_struct (λ r o,
    value ← member o "value" dec_string_ptr (ufvr_Value r);
    secretMountID ← member o "secret_mount_id" dec_string_ptr (ufvr_SecretMountID r);
    secretPath ← member o "secret_path" dec_string_ptr (ufvr_SecretPath r);
    fileTargetPath ← member o "file_target_path" dec_string_ptr (ufvr_FileTargetPath r);
    Some {| ufvr_Value := value; ufvr_SecretMountID := secretMountID;
            ufvr_SecretPath := secretPath; ufvr_FileTargetPath := fileTargetPath |}).

Record triggerOperationRequest := {
  tor_ComposeFileID : string;
  tor_MachineID : string;
  tor_OperationType : string;
}.
Definition dec_triggerOperationRequest : decoder triggerOperationRequest :=
  dec_struct (λ r o,
    composeFileID ← member o "compose_file_id" dec_string (tor_ComposeFileID r);
    machineID ← member o "machine_id" dec_string (tor_MachineID r);
    operationType ← member o "operation_type" dec_string (tor_OperationType r);
    Some {| tor_ComposeFileID := composeFileID; tor_MachineID := machineID;
            tor_OperationType := operationType |}).

(** ** Responses *)
Section responses.
Context `{!JSON}.

(** No field for the sealed credential. *)
Definition toMachineResponse (m : Machine) : json :=
  JObject ([("id", JString (mach_ID m)); ("organization_id", JString (mach_OrganizationID m));
            ("name", JString (mach_Name m)); ("host", JString (mach_Host m));
            ("ssh_port", JInt (mach_SSHPort m)); ("ssh_user", JString (mach_SSHUser m));
            ("credential_type", JString (mach_CredentialType m));
            ("credential_storage", JString (mach_CredentialStorage m))]
           ++ omit_empty "credential_mount_id" (fsr_MountID (mach_CredentialRef m))
           ++ omit_empty "credential_path" (fsr_Path (mach_CredentialRef m))
           ++ [("deploy_base_path", JString (mach_DeployBasePath m));
               ("connection_status", JString (mach_ConnectionStatus m));
               ("docker_status", JString (mach_DockerStatus m))]
           ++ omit_nil "last_checked_at" j_time (mach_LastCheckedAt m)
           ++ [("archived", JBool (mach_Archived m)); ("created_at", j_time (mach_CreatedAt m))]).
Definition connection_response (statuses : string * string) : json :=
  JObject [("connection_status", JString statuses.1); ("docker_status", JString statuses.2)].
Definition toNetworkResponse (n : Network) : json :=
  JObject [("id", JString (net_ID n)); ("organization_id", JString (net_OrganizationID n));
           ("name", JString (net_Name n)); ("external", JBool (net_External n));
           ("created_by", JString (net_CreatedBy n)); ("created_at", j_time (net_CreatedAt n))].
Definition toVolumeResponse (v : Volume) : json :=
  JObject [("id", JString (vol_ID v)); ("organization_id", JString (vol_OrganizationID v));
           ("name", JString (vol_Name v)); ("host_path", JString (vol_HostPath v));
           ("created_by", JString (vol_CreatedBy v)); ("created_at", j_time (vol_CreatedAt v))].
Definition toComposeFileResponse (c : ComposeFile) : json :=
  JObject [("id", JString (cf_ID c)); ("organization_id", JString (cf_OrganizationID c));
           ("name", JString (cf_Name c)); ("is_global", JBool (cf_IsGlobal c));
           ("compose_content", JString (cf_ComposeContent c));
           ("created_by", JString (cf_CreatedBy c)); ("created_at", j_time (cf_CreatedAt c))].
Definition volumeAttachmentResponse (v : VolumeAttachmentView) : json :=
  JObject [("volume", toVolumeResponse (vav_Volume v));
           ("container_path", JString (vav_ContainerPath v))].
Definition toProjectSummaryResponse (p : ProjectSummary) : json :=
  JObject [("id", JString (ps_ID p)); ("name", JString (ps_Name p)); ("slug", JString (ps_Slug p))].
(** [toVariableResponse] of this package: either the reference or the value. *)
Definition toFleetVariableResponse (v : FleetVariable) : json :=
  JObject ([("id", JString (fv_ID v)); ("organization_id", JString (fv_OrganizationID v));
            ("compose_file_id", JString (fv_ComposeFileID v)); ("key", JString (fv_Key v));
            ("var_type", JString (fv_VarType v))]
           ++ match fv_SecretRef v with
              | Some ref => [("secret_ref", JObject [("mount_id", JString (fsr_MountID ref));
                                                     ("path", JString (fsr_Path ref))])]
              | None => [("value", JString (fv_Value v))]
              end
           ++ omit_empty "file_target_path" (fv_FileTargetPath v)
           ++ [("created_at", j_time (fv_CreatedAt v))]).
Definition revealed (value : string) : json := JObject [("value", JString value)].
Definition toOperationResponse (o : Operation) : json :=
  JObject ([("id", JString (op_ID o)); ("organization_id", JString (op_OrganizationID o));
            ("compose_file_id", JString (op_ComposeFileID o));
            ("machine_id", JString (op_MachineID o));
            ("operation_type", JString (op_OperationType o)); ("status", JString (op_Status o));
            ("triggered_by", JString (op_TriggeredBy o)); ("created_at", j_time (op_CreatedAt o))]
           ++ omit_nil "started_at" j_time (op_StartedAt o)
           ++ omit_nil "finished_at" j_time (op_FinishedAt o)
           ++ omit_nil "exit_code" JInt (op_ExitCode o)
           ++ omit_empty "output" (op_Output o)).
End responses.

Definition writeFleetError (notFoundTitle requestID : string) (err : error) : Response :=
  let problem := WriteProblem requestID in
  match err with
  | ErrForbidden Fleet => problem StatusForbidden "forbidden" ""
  | ErrMachineNotFound | ErrNetworkNotFound | ErrVolumeNotFound | ErrComposeFileNotFound
  | ErrFleetVariableNotFound | ErrOperationNotFound | ErrProjectNotFound Fleet =>
      problem StatusNotFound notFoundTitle ""
  | ErrNetworkInUse =>
      problem StatusConflict "network is still attached to a compose file" ""
  | ErrVolumeInUse => problem StatusConflict "volume is still attached to a compose file" ""
  | ErrGlobalComposeFileExists =>
      problem StatusConflict "this organization already has a global compose file" ""
  | ErrMachineHasHistory =>
      problem StatusConflict "machine has operation history and cannot be hard-deleted" ""
  | ErrComposeFileHasHistory =>
      problem StatusConflict "compose file has operation history and cannot be deleted" ""
  | ErrMachineNameTaken =>
      problem StatusConflict "a machine with this name already exists in this organization" ""
  | ErrVariableKeyTaken =>
      problem StatusConflict "a variable with this key already exists on this compose file" ""
  | ValidationError Fleet msg => problem StatusBadRequest "validation failed" msg
  | _ => problem StatusInternalServerError "internal error" ""
  end.

(** ** Machines, networks and volumes *)
Section machines.
Context {X : Type} `{!JSON}.
Context `{!MembershipChecker X, !PermissionChecker X, !SecretMountChecker X, !SecretResolver X,
  !Aead, !SSHRunner X}.
Context (masterKey : string).
Notation HandlerFunc := (HandlerFunc (X:=X)).

(** The handlers that name one resource in the path and answer 204. *)
Definition resource_action (service : Ctx → string → string → string → prog (World X) ())
    (id notFoundTitle : string) : HandlerFunc := λ rq,
  authenticated (λ userID,
    reply rq (writeFleetError notFoundTitle) (write_status StatusNoContent)
      (service (rq_ctx rq) (path rq "id") userID (path rq id))) rq.

Definition CreateMachineHandler : HandlerFunc := λ rq,
  authenticated (λ userID,
    decode_body "createMachineRequest" dec_createMachineRequest no_createMachineRequest rq (λ req,
    reply rq (writeFleetError "") (write_json StatusCreated toMachineResponse)
      (CreateMachine masterKey (rq_ctx rq)
         {| cm_OrganizationID := path rq "id"; cm_RequestingUserID := userID;
            cm_Name := cmr_Name req; cm_Host := cmr_Host req; cm_SSHPort := cmr_SSHPort req;
            cm_SSHUser := cmr_SSHUser req; cm_CredentialType := cmr_CredentialType req;
            cm_CredentialStorage := cmr_CredentialStorage req;
            cm_CredentialMountID := cmr_CredentialMountID req;
            cm_CredentialPath := cmr_CredentialPath req;
            cm_CredentialSecret := cmr_CredentialSecret req;
            cm_DeployBasePath := cmr_DeployBasePath req |}))) rq.

Definition ListMachinesHandler : HandlerFunc := λ rq,
  authenticated (λ userID,
    reply rq (writeFleetError "") (write_list toMachineResponse)
      (ListMachines (rq_ctx rq) (path rq "id") userID
         (query rq "include_archived" =ₛ "true"))) rq.

Definition GetMachineHandler : HandlerFunc := λ rq,
  authenticated (λ userID,
    reply rq (writeFleetError "machine not found") (write_json StatusOK toMachineResponse)
      (GetMachine (rq_ctx rq) (path rq "id") userID (path rq "machineID"))) rq.

Definition UpdateMachineHandler : HandlerFunc := λ rq,
  authenticated (λ userID,
    decode_body "updateMachineRequest" dec_updateMachineRequest no_updateMachineRequest rq (λ req,
    reply rq (writeFleetError "machine not found") (write_json StatusOK toMachineResponse)
      (UpdateMachine masterKey (rq_ctx rq)
         {| um_OrganizationID := path rq "id"; um_RequestingUserID := userID;
            um_MachineID := path rq "machineID"; um_SSHUser := umr_SSHUser req;
            um_CredentialType := umr_CredentialType req;
            um_CredentialMountID := umr_CredentialMountID req;
            um_CredentialPath := umr_CredentialPath req;
            um_CredentialSecret := umr_CredentialSecret req;
            um_DeployBasePath := umr_DeployBasePath req |}))) rq.

Definition ArchiveMachineHandler : HandlerFunc :=
  resource_action ArchiveMachine "machineID" "machine not found".
Definition UnarchiveMachineHandler : HandlerFunc :=
  resource_action UnarchiveMachine "machineID" "machine not found".
Definition DeleteMachineHandler : HandlerFunc :=
  resource_action DeleteMachine "machineID" "machine not found".

(** The body may be empty: [err != io.EOF]. *)
Definition DuplicateMachineHandler : HandlerFunc := λ rq,
  authenticated (λ userID,
    let duplicate name :=
      reply rq (writeFleetError "machine not found") (write_json StatusCreated toMachineResponse)
        (DuplicateMachine (rq_ctx rq)
           {| dm_OrganizationID := path rq "id"; dm_RequestingUserID := userID;
              dm_MachineID := path rq "machineID"; dm_Name := name |}) in
    match json_decode (rq_Body rq) with
    | EndOfInput => duplicate ""
    | _ => decode_body "duplicateMachineRequest" dec_duplicateMachineRequest "" rq duplicate
    end) rq.

Definition TestMachineConnectionHandler : HandlerFunc := λ rq,
  authenticated (λ userID,
    decode_body "testMachineConnectionRequest" dec_testMachineConnectionRequest
      no_testMachineConnectionRequest rq (λ req,
    reply rq (writeFleetError "") (write_json StatusOK connection_response)
      (TestMachineConnection (rq_ctx rq)
         {| tm_OrganizationID := path rq "id"; tm_RequestingUserID := userID;
            tm_Host := tmr_Host req; tm_SSHPort := tmr_SSHPort req;
            tm_SSHUser := tmr_SSHUser req; tm_CredentialType := tmr_CredentialType req;
            tm_CredentialStorage := tmr_CredentialStorage req;
            tm_CredentialMountID := tmr_CredentialMountID req;
            tm_CredentialPath := tmr_CredentialPath req;
            tm_CredentialSecret := tmr_CredentialSecret req |}))) rq.

Definition CheckMachineConnectionHandler : HandlerFunc := λ rq,
  authenticated (λ userID,
    reply rq (writeFleetError "machine not found") (write_json StatusOK toMachineResponse)
      (CheckMachineConnection masterKey (rq_ctx rq) (path rq "id") userID
         (path rq "machineID"))) rq.

Definition CreateNetworkHandler : HandlerFunc := λ rq,
  authenticated (λ userID,
    decode_body "createNetworkRequest" dec_createNetworkRequest
      {| cnr_Name := ""; cnr_External := false |} rq (λ req,
    reply rq (writeFleetError "") (write_json StatusCreated toNetworkResponse)
      (CreateNetwork (rq_ctx rq) (path rq "id") userID (cnr_Name req) (cnr_External req)))) rq.
Definition ListNetworksHandler : HandlerFunc := λ rq,
  authenticated (λ userID,
    reply rq (writeFleetError "") (write_list toNetworkResponse)
      (ListNetworks (rq_ctx rq) (path rq "id") userID)) rq.
Definition DeleteNetworkHandler : HandlerFunc :=
  resource_action DeleteNetwork "networkID" "network not found".

Definition CreateVolumeHandler : HandlerFunc := λ rq,
  authenticated (λ userID,
    decode_body "createVolumeRequest" dec_createVolumeRequest
      {| cvolr_Name := ""; cvolr_HostPath := "" |} rq (λ req,
    reply rq (writeFleetError "") (write_json StatusCreated toVolumeResponse)
      (CreateVolume (rq_ctx rq) (path rq "id") userID (cvolr_Name req)
         (cvolr_HostPath req)))) rq.
Definition ListVolumesHandler : HandlerFunc := λ rq,
  authenticated (λ userID,
    reply rq (writeFleetError "") (write_list toVolumeResponse)
      (ListVolumes (rq_ctx rq) (path rq "id") userID)) rq.
Definition DeleteVolumeHandler : HandlerFunc :=
  resource_action DeleteVolume "volumeID" "volume not found".
End machines.

(** ** Compose files, attachments, variables, operations *)
Section files.
Context {X : Type} `{!JSON}.
Context `{!MembershipChecker X, !PermissionChecker X, !ProjectChecker X, !SecretMountChecker X,
  !SecretResolver X, !SecretWriter X}.
Context (yaml_unmarshal : string → string + option (gmap string any)).
Context (quote : string → string).
Context (map_order : gmap string any → list (string * any)).
Context (string_map_order : gmap string string → list (string * string)).
Notation HandlerFunc := (HandlerFunc (X:=X)).

Definition CreateComposeFileHandler : HandlerFunc := λ rq,
  authenticated (λ userID,
    decode_body "createComposeFileRequest" dec_createComposeFileRequest
      {| ccfr_Name := ""; ccfr_ComposeContent := ""; ccfr_IsGlobal := false |} rq (λ req,
    reply rq (writeFleetError "") (write_json StatusCreated toComposeFileResponse)
      (CreateComposeFile yaml_unmarshal quote map_order string_map_order (rq_ctx rq)
         {| ccf_OrganizationID := path rq "id"; ccf_RequestingUserID := userID;
            ccf_Name := ccfr_Name req; ccf_ComposeContent := ccfr_ComposeContent req;
            ccf_IsGlobal := ccfr_IsGlobal req |}))) rq.
Definition ListComposeFilesHandler : HandlerFunc := λ rq,
  authenticated (λ userID,
    reply rq (writeFleetError "") (write_list toComposeFileResponse)
      (ListComposeFiles (rq_ctx rq) (path rq "id") userID)) rq.
Definition GetComposeFileHandler : HandlerFunc := λ rq,
  authenticated (λ userID,
    reply rq (writeFleetError "compose file not found") (write_json StatusOK toComposeFileResponse)
      (GetComposeFile (rq_ctx rq) (path rq "id") userID (path rq "composeFileID"))) rq.
Definition UpdateComposeFileContentHandler : HandlerFunc := λ rq,
  authenticated (λ userID,
    decode_body "updateComposeFileContentRequest" dec_updateComposeFileContentRequest "" rq
      (λ content,
    reply rq (writeFleetError "compose file not found") (write_status StatusNoContent)
      (UpdateComposeFileContent yaml_unmarshal quote map_order string_map_order (rq_ctx rq)
         (path rq "id") userID (path rq "composeFileID") content))) rq.
Definition DeleteComposeFileHandler : HandlerFunc :=
  resource_action DeleteComposeFile "composeFileID" "compose file not found".

(** The handlers of [.../compose-files/{composeFileID}/...]. *)
Definition attach_action (type : string) (d : decoder string)
    (service : Ctx → string → string → string → string → prog (World X) ())
    (notFoundTitle : string) : HandlerFunc := λ rq,
  authenticated (λ userID,
    decode_body type d "" rq (λ id,
    reply rq (writeFleetError notFoundTitle) (write_status StatusNoContent)
      (service (rq_ctx rq) (path rq "id") userID (path rq "composeFileID") id))) rq.
Definition detach_action
    (service : Ctx → string → string → string → string → prog (World X) ())
    (id : string) : HandlerFunc := λ rq,
  authenticated (λ userID,
    reply rq (writeFleetError "") (write_status StatusNoContent)
      (service (rq_ctx rq) (path rq "id") userID (path rq "composeFileID") (path rq id))) rq.
Definition list_attached {A} (f : A → json)
    (service : Ctx → string → string → string → prog (World X) (list A)) (id : string)
    : HandlerFunc := λ rq,
  authenticated (λ userID,
    reply rq (writeFleetError "") (write_list f)
      (service (rq_ctx rq) (path rq "id") userID (path rq id))) rq.

Definition AttachNetworkHandler : HandlerFunc :=
  attach_action "attachNetworkRequest" dec_attachNetworkRequest AttachNetwork "".
Definition DetachNetworkHandler : HandlerFunc := detach_action DetachNetwork "networkID".
Definition ListComposeFileNetworksHandler : HandlerFunc :=
  list_attached toNetworkResponse ListAttachedNetworks "composeFileID".

Definition AttachVolumeHandler : HandlerFunc := λ rq,
  authenticated (λ userID,
    decode_body "attachVolumeRequest" dec_attachVolumeRequest
      {| avr_VolumeID := ""; avr_ContainerPath := "" |} rq (λ req,
    reply rq (writeFleetError "") (write_status StatusNoContent)
      (AttachVolume (rq_ctx rq) (path rq "id") userID (path rq "composeFileID")
         (avr_VolumeID req) (avr_ContainerPath req)))) rq.
Definition DetachVolumeHandler : HandlerFunc := detach_action DetachVolume "volumeID".
Definition ListComposeFileVolumesHandler : HandlerFunc :=
  list_attached volumeAttachmentResponse ListAttachedVolumes "composeFileID".

Definition AttachProjectHandler : HandlerFunc :=
  attach_action "attachProjectRequest" dec_attachProjectRequest AttachProject "project not found".
Definition DetachProjectHandler : HandlerFunc := detach_action DetachProject "projectID".
Definition ListComposeFileProjectsHandler : HandlerFunc :=
  list_attached toProjectSummaryResponse ListLinkedProjects "composeFileID".
Definition ListProjectComposeFilesHandler : HandlerFunc :=
  list_attached toComposeFileResponse ListComposeFilesForProject "projectID".

(** *** Variables *)

Definition CreateFleetVariableHandler : HandlerFunc := λ rq,
  authenticated (λ userID,
    decode_body "createVariableRequest" dec_createFleetVariableRequest
      no_createFleetVariableRequest rq (λ req,
    reply rq (writeFleetError "") (write_json StatusCreated toFleetVariableResponse)
      (CreateFleetVariable (rq_ctx rq)
         {| cfv_OrganizationID := path rq "id"; cfv_RequestingUserID := userID;
            cfv_ComposeFileID := path rq "composeFileID"; cfv_Key := cfvr_Key req;
            cfv_VarType := cfvr_VarType req; cfv_Value := cfvr_Value req;
            cfv_SecretMountID := cfvr_SecretMountID req; cfv_SecretPath := cfvr_SecretPath req;
            cfv_FileTargetPath := cfvr_FileTargetPath req |}))) rq.
Definition CreateSecretVariableHandler : HandlerFunc := λ rq,
  authenticated (λ userID,
    decode_body "createSecretVariableRequest" dec_createSecretVariableRequest
      {| csvr_Key := ""; csvr_MountID := ""; csvr_Value := "" |} rq (λ req,
    reply rq (writeFleetError "") (write_json StatusCreated toFleetVariableResponse)
      (CreateSecretVariable (rq_ctx rq)
         {| csv_OrganizationID := path rq "id"; csv_RequestingUserID := userID;
            csv_ComposeFileID := path rq "composeFileID"; csv_Key := csvr_Key req;
            csv_MountID := csvr_MountID req; csv_Value := csvr_Value req |}))) rq.
(** The compose file of the path is not looked at. *)
Definition RevealVariableHandler : HandlerFunc := λ rq,
  authenticated (λ userID,
    reply rq (writeFleetError "variable not found") (write_json StatusOK revealed)
      (RevealVariable (rq_ctx rq) (path rq "id") userID (path rq "variableID"))) rq.
Definition ListFleetVariablesHandler : HandlerFunc :=
  list_attached toFleetVariableResponse ListFleetVariables "composeFileID".
Definition UpdateFleetVariableHandler : HandlerFunc := λ rq,
  authenticated (λ userID,
    decode_body "updateVariableRequest" dec_updateFleetVariableRequest
      no_updateFleetVariableRequest rq (λ req,
    reply rq (writeFleetError "variable not found") (write_json StatusOK toFleetVariableResponse)
      (UpdateFleetVariable (rq_ctx rq)
         {| ufv_OrganizationID := path rq "id"; ufv_RequestingUserID := userID;
            ufv_VariableID := path rq "variableID"; ufv_Value := ufvr_Value req;
            ufv_SecretMountID := ufvr_SecretMountID req;
            ufv_SecretPath := ufvr_SecretPath req;
            ufv_FileTargetPath := ufvr_FileTargetPath req |}))) rq.
Definition DeleteFleetVariableHandler : HandlerFunc :=
  resource_action DeleteFleetVariable "variableID" "variable not found".

(** *** Operations *)

Definition TriggerOperationHandler : HandlerFunc := λ rq,
  authenticated (λ userID,
    decode_body "triggerOperationRequest" dec_triggerOperationRequest
      {| tor_ComposeFileID := ""; tor_MachineID := ""; tor_OperationType := "" |} rq (λ req,
    reply rq (writeFleetError "") (write_json StatusCreated toOperationResponse)
      (TriggerOperation (rq_ctx rq)
         {| to_OrganizationID := path rq "id"; to_RequestingUserID := userID;
            to_ComposeFileID := tor_ComposeFileID req; to_MachineID := tor_MachineID req;
            to_OperationType := tor_OperationType req |}))) rq.
Definition ListOperationsHandler : HandlerFunc := λ rq,
  authenticated (λ userID,
    reply rq (writeFleetError "") (write_list toOperationResponse)
      (ListOperations (rq_ctx rq) (path rq "id") userID (query rq "compose_file_id")
         (query rq "machine_id"))) rq.
Definition GetOperationHandler : HandlerFunc := λ rq,
  authenticated (λ userID,
    reply rq (writeFleetError "operation not found") (write_json StatusOK toOperationResponse)
      (GetOperation (rq_ctx rq) (path rq "id") userID (path rq "operationID"))) rq.
End files.
