(* ===== verification/Stream.v ===== *)
(** * The live log of an operation as server-sent events
    (internal/fleet/adapters/http/stream_handler.go) *)
From Stdlib Require Import Ascii.
From stdpp Require Import pretty.
From S2P Require Import Prelude Prog FleetDomain Store Principal Ports FleetFiles DeployExecutor.
From S2P Require Import Secrets Execution Json Http HttpFleet.

(** ** Frames *)

(** [bufio.Scanner] over lines: the bytes up to each line feed, and what is
    left at the end. *)
Fixpoint raw_lines (line s : string) : list string :=
  match s with
  | EmptyString => if line =ₛ "" then [] else [line]
  | String c s =>
      if bool_decide (c = "010"%char) then line :: raw_lines "" s
      else raw_lines (line +:+ String c "") s
  end.
Fixpoint drop_cr (line : string) : string :=
  match line with
  | String "013" EmptyString => EmptyString
  | String c line => String c (drop_cr line)
  | EmptyString => EmptyString
  end.
(** A line that does not fit the scanner's buffer of 64 KiB ends the scan, and
    [writeSSEData] does not ask why. *)
Definition max_line : nat := 64 * 1024 - 1.
Fixpoint scanned (lines : list string) : list string :=
  match lines with
  | [] => []
  | line :: lines =>
      if (String.length line <=? max_line)%nat then drop_cr line :: scanned lines else []
  end.

Definition data_frame (line : string) : string := "data: " +:+ line +:+ newline +:+ newline.
Definition writeSSEData (data : string) : list string :=
  map data_frame (scanned (raw_lines "" data)) ++ (if data =ₛ "" then [data_frame ""] else []).
Definition writeSSEEvent (event data : string) : list string :=
  ["event: " +:+ event +:+ newline +:+ "data: " +:+ data +:+ newline +:+ newline].
Definition intOrZero (p : option Z) : Z := default 0%Z p.
(** [{"exit_code":%d}] *)
Definition done_event (exitCode : option Z) : list string :=
  writeSSEEvent "done" ("{" +:+ quotation_mark +:+ "exit_code" +:+ quotation_mark +:+ ":"
    +:+ pretty (intOrZero exitCode) +:+ "}").

(** [redisstream.LogMessage] off the wire *)
Definition dec_LogMessage : decoder LogMessage :=
  dec_struct (λ r o,
    line ← member o "line" dec_string (lm_Line r);
    isDone ← member o "done" dec_bool (lm_Done r);
    exitCode ← member o "exit_code" (dec_ptr 0%Z dec_int) (lm_ExitCode r);
    Some (mkLogMessage line isDone exitCode)).
Definition read_message `{!JSON} (payload : string) : option LogMessage :=
  v ← json_unmarshal payload; dec_LogMessage v (mkLogMessage "" false None).
(** ... and on it *)
Definition message_json (m : LogMessage) : json :=
  JObject (omit_empty "line" (lm_Line m)
           ++ (if lm_Done m then [("done", JBool true)] else [])
           ++ omit_nil "exit_code" JInt (lm_ExitCode m)).

(** ** The loop

    What [select] can yield, in the order it does: the request is canceled, a
    message or the end of the subscription, a tick of the recheck. *)
Inductive stream_event :=
| ContextDone
| ChannelMessage (payload : string)
| ChannelClosed
| RecheckTick.

Definition finished (o : Operation) : bool :=
  (op_Status o =ₛ OperationStatusSuccess) || (op_Status o =ₛ OperationStatusFailed).

Section stream.
Context {X : Type} `{!JSON, !MembershipChecker X, !PermissionChecker X}.

(** The frames written, and whether the handler returned; [poll] is
    [svc.Execute]. *)
Fixpoint log_loop (poll : prog (World X) Operation) (events : list stream_event)
    : prog (World X) (list string * bool) :=
  match events with
  | [] => Ret ([], false)
  | ContextDone :: _ | ChannelClosed :: _ => Ret ([], true)
  | ChannelMessage payload :: events =>
      match read_message payload with
      | None => log_loop poll events
      | Some m =>
          if lm_Done m then Ret (done_event (lm_ExitCode m), true)
          else
            r ← log_loop poll events;
            Ret (writeSSEData (lm_Line m) ++ r.1, r.2)
      end
  | RecheckTick :: events =>
      r ← try poll;
      match r with
      | Err _ => log_loop poll events
      | Ok current =>
          if finished current then Ret (done_event (op_ExitCode current), true)
          else log_loop poll events
      end
  end.

(** [flushes]: the writer is an [http.Flusher]. *)
Definition StreamOperationHandler (flushes : bool) (events : list stream_event)
    : HandlerFunc (X:=X) := λ rq,
  authenticated (λ userID,
    let poll := GetOperation (rq_ctx rq) (path rq "id") userID (path rq "operationID") in
    attempt rq (writeFleetError "operation not found") poll (λ operation,
    if negb flushes then
      Ret (WriteProblem (rq_XRequestID rq) StatusInternalServerError "streaming unsupported" "")
    else if finished operation then
      Ret (respond (rq_XRequestID rq) StatusOK (BodyStream
             (writeSSEData (op_Output operation) ++ done_event (op_ExitCode operation))))
    else
      r ← log_loop poll events;
      Ret (respond (rq_XRequestID rq) StatusOK (BodyStream r.1)))) rq.
End stream.
