(* ===== verification/Mux.v ===== *)
(** * Routing: net/http's ServeMux

    Patterns, which of them a path is dispatched to, and when two of them may
    be registered together. *)
From Stdlib Require Import Ascii.
From S2P Require Import Prelude Prog Store Principal Ports Json Http.

(** ** Patterns: ["METHOD /a/{wildcard}/b"] *)

Inductive segment :=
| Literal (s : string)
| Wildcard (name : string).

(** The parts of a string between the occurrences of a byte. *)
Fixpoint split_at (sep : ascii) (part s : string) : list string :=
  match s with
  | EmptyString => [part]
  | String c s =>
      if bool_decide (c = sep) then part :: split_at sep "" s
      else split_at sep (part +:+ String c "") s
  end.

Fixpoint drop_brace (s : string) : option string :=
  match s with
  | String "}" EmptyString => Some EmptyString
  | String c s => String c <$> drop_brace s
  | EmptyString => None
  end.
Definition parse_segment (s : string) : segment :=
  match s with
  | String "{" s => from_option Wildcard (Literal (String "{" s)) (drop_brace s)
  | s => Literal s
  end.

(** The method and the segments after the leading slash. *)
Definition parse_pattern (p : string) : string * list segment :=
  match split_at " " "" p with
  | [method; url] => (method, parse_segment <$> tail (split_at "/" "" url))
  | _ => ("", [])
  end.

(** ** Matching *)

(** A wildcard stands for one segment that is not empty. *)
Fixpoint match_path (p : list segment) (url : list string) : option (gmap string string) :=
  match p, url with
  | [], [] => Some ∅
  | Literal s :: p, t :: url => if s =ₛ t then match_path p url else None
  | Wildcard name :: p, t :: url =>
      if t =ₛ "" then None else <[name := t]> <$> match_path p url
  | _, _ => None
  end.

(** At the first segment where two patterns differ in kind the literal is
    preferred. *)
Fixpoint precedes (p q : list segment) : bool :=
  match p, q with
  | Literal _ :: _, Wildcard _ :: _ => true
  | Wildcard _ :: _, Literal _ :: _ => false
  | _ :: p, _ :: q => precedes p q
  | _, _ => false
  end.

(** [q] matches whatever [p] matches; [p] and [q] have no path in common. *)
Fixpoint covers (q p : list segment) : bool :=
  match q, p with
  | [], [] => true
  | Wildcard _ :: q, _ :: p => covers q p
  | Literal a :: q, Literal b :: p => (a =ₛ b) && covers q p
  | _, _ => false
  end.
Fixpoint apart (p q : list segment) : bool :=
  match p, q with
  | [], [] => false
  | Literal a :: p, Literal b :: q => negb (a =ₛ b) || apart p q
  | _ :: p, _ :: q => apart p q
  | _, _ => true
  end.
(** Two patterns that may both be registered: [ServeMux.Handle] panics when
    they overlap and neither is more specific than the other. *)
Definition narrower (p q : list segment) : bool := covers q p && negb (covers p q).
Definition compatible (a b : string) : bool :=
  let '(m, p) := parse_pattern a in
  let '(n, q) := parse_pattern b in
  negb (m =ₛ n) || apart p q || narrower p q || narrower q p.

Fixpoint all_pairs {A} (f : A → A → bool) (l : list A) : bool :=
  match l with
  | [] => true
  | x :: l => forallb (f x) l && all_pairs f l
  end.

Lemma all_pairs_elem {A} (f : A → A → bool) l x y :
  all_pairs f l = true → x ∈ l → y ∈ l → x = y ∨ f x y = true ∨ f y x = true.
Proof.
  induction l as [|z l IH]; simpl; intros Hf Hx Hy; [by apply not_elem_of_nil in Hx|].
  apply andb_true_iff in Hf as [Hz Hl]. rewrite forallb_forall in Hz.
  apply elem_of_cons in Hx as [->|Hx], Hy as [->|Hy];
    [by left|right; left; apply Hz; by apply list_elem_of_In
    |right; right; apply Hz; by apply list_elem_of_In|by apply IH].
Qed.

Lemma match_path_length p url values : match_path p url = Some values → length p = length url.
Proof.
  revert url values. induction p as [|[a|name] p IH]; intros [|t url] values H; try done; simpl in *.
  - case_bool_decide; [|done]. f_equal. by eapply IH.
  - case_bool_decide; [done|]. apply fmap_Some in H as (v & H & _). f_equal. by eapply IH.
Qed.

Lemma apart_sound p q url v v' :
  match_path p url = Some v → match_path q url = Some v' → apart p q = false.
Proof.
  revert q url v v'. induction p as [|s p IH]; intros q [|t url] v v' Hp Hq.
  - by destruct q as [|[] ?].
  - done.
  - by destruct s.
  - destruct q as [|s' q]; [done|]. destruct s as [a|n], s' as [b|n']; simpl in *;
      repeat case_bool_decide; try done; simplify_option_eq; subst; by eapply IH.
Qed.

Lemma narrower_precedes p q : covers q p = true → covers p q = false → precedes p q = true.
Proof.
  revert q. induction p as [|[a|n] p IH]; intros [|[b|m] q]; simpl; try done; [|apply IH].
  rewrite !andb_true_iff, !andb_false_iff. intros [Hab Hc] [Hba|Hc']; [|by apply IH].
  apply bool_decide_eq_true in Hab as ->. by apply bool_decide_eq_false in Hba.
Qed.

(** [precedes] orders the patterns that match one path. *)
Lemma precedes_asym p q : precedes p q = true → precedes q p = false.
Proof.
  revert q. induction p as [|[a|n] p IH]; intros [|[b|m] q]; simpl; (done || apply IH).
Qed.
Lemma precedes_cotrans p q r :
  length p = length q → precedes p r = true → precedes p q = true ∨ precedes q r = true.
Proof.
  revert q r. induction p as [|[a|n] p IH]; intros [|[b|m] q] [|[c|k] r] Hl; simpl in *;
    try done; try (by left); try (by right); intros Hp; by apply IH; [lia|].
Qed.

Section mux.
Context {X : Type}.
Notation HandlerFunc := (HandlerFunc (X:=X)).

Notation route := (string * HandlerFunc)%type.

Record found := mkFound {
  found_pattern : list segment;
  found_values : gmap string string;
  found_handler : HandlerFunc;
}.

(** The routes of a method that match a path. *)
Definition candidates (method : string) (url : list string) (routes : list route) : list found :=
  omap (λ r : route,
    let '(m, p) := parse_pattern r.1 in
    if m =ₛ method then (λ values, mkFound p values r.2) <$> match_path p url else None) routes.

Fixpoint best (l : list found) : option found :=
  match l with
  | [] => None
  | c :: l =>
      match best l with
      | None => Some c
      | Some d => Some (if precedes (found_pattern d) (found_pattern c) then d else c)
      end
  end.

(** A HEAD request that no HEAD pattern matches is matched as a GET. *)
Definition find_handler (method : string) (url : list string) (routes : list route)
    : option found :=
  match best (candidates method url routes) with
  | Some c => Some c
  | None => if method =ₛ "HEAD" then best (candidates "GET" url routes) else None
  end.

(** [http.Error], text/plain. *)
Definition plain_error (requestID : string) (status : Z) (text : string) : Response :=
  respond requestID status (BodyBytes (text +:+ Execution.newline)).

(** [ServeMux.ServeHTTP] on a clean path. *)
Definition ServeMux (routes : list route) : HandlerFunc := λ rq,
  match find_handler (rq_Method rq) (rq_Path rq) routes with
  | Some c => found_handler c (with_path_values (found_values c) rq)
  | None =>
      Ret (if bool_decide (List.Exists (λ r : route,
                is_Some (match_path (parse_pattern r.1).2 (rq_Path rq))) routes)
           then plain_error (rq_XRequestID rq) StatusMethodNotAllowed "Method Not Allowed"
           else plain_error (rq_XRequestID rq) StatusNotFound "404 page not found")
  end.

(** What is dispatched to is in the table. *)
Lemma best_elem l c : best l = Some c → c ∈ l.
Proof.
  revert c. induction l as [|x l IH]; intros c; simpl; [done|].
  destruct (best l) as [d|]; [|intros [= ->]; apply elem_of_cons; by left].
  intros [= <-]. apply elem_of_cons. case_match; [right; by apply IH|by left].
Qed.

(** Nothing that matches precedes what is chosen. *)
Lemma best_least l n c x :
  (∀ y, y ∈ l → length (found_pattern y) = n) → best l = Some c → x ∈ l →
  precedes (found_pattern x) (found_pattern c) = false.
Proof.
  revert c x. induction l as [|y l IH]; intros c x Hl Hb Hx; [done|]. simpl in Hb.
  assert (∀ p, precedes p p = false) as Hirr.
  { intros p. destruct (precedes p p) eqn:Hp; [|done]. by rewrite (precedes_asym _ _ Hp) in Hp. }
  destruct (best l) as [d|] eqn:Hd.
  2:{ injection Hb as ->. destruct l; [|simpl in Hd; by case_match].
      apply list_elem_of_singleton in Hx as ->. apply Hirr. }
  assert (∀ z, z ∈ l → precedes (found_pattern z) (found_pattern d) = false) as Hz.
  { intros z Hz. apply IH; [|done..]. intros ??. apply Hl. apply elem_of_cons; by right. }
  apply best_elem in Hd as Hdl. injection Hb as <-.
  destruct (precedes (found_pattern d) (found_pattern y)) eqn:Hdy;
    apply elem_of_cons in Hx as [->|Hx]; [by apply precedes_asym|by apply Hz|apply Hirr|].
  destruct (precedes (found_pattern x) (found_pattern y)) eqn:Hxy; [|done].
  apply (precedes_cotrans _ (found_pattern d)) in Hxy as [Hp|Hp]; [by rewrite Hz in Hp|congruence|].
  rewrite !Hl by (apply elem_of_cons; by right). done.
Qed.

(** A pattern serves its method, and HEAD when it is a GET pattern. *)
Definition serves (pattern method : string) (url : list string) : bool :=
  let '(m, p) := parse_pattern pattern in
  ((m =ₛ method) || ((method =ₛ "HEAD") && (m =ₛ "GET")))
  && bool_decide (is_Some (match_path p url)).

Lemma find_handler_route method url routes c :
  find_handler method url routes = Some c →
  ∃ r, r ∈ routes ∧ found_handler c = r.2 ∧ serves r.1 method url = true ∧
    match_path (parse_pattern r.1).2 url = Some (found_values c).
Proof.
  assert (∀ m, m = method ∨ method = "HEAD" ∧ m = "GET" → best (candidates m url routes) = Some c →
    ∃ r, r ∈ routes ∧ found_handler c = r.2 ∧ serves r.1 method url = true ∧
      match_path (parse_pattern r.1).2 url = Some (found_values c)) as Hm.
  { intros m Hm Hb%best_elem. unfold candidates in Hb. apply list_elem_of_omap in Hb as (r & Hr & Hc).
    exists r. split; [done|]. unfold serves. destruct (parse_pattern r.1) as [m' p] eqn:Hp. simpl in *.
    case_bool_decide as Hm'; [|done]. destruct (match_path p url) as [v|]; [|done].
    simpl in Hc. injection Hc as <-. simpl. split; [done|]. split; [|done].
    rewrite Hm'. destruct Hm as [->|[-> ->]]; [by rewrite bool_decide_true|done]. }
  unfold find_handler. intros H. destruct (best (candidates method url routes)) eqn:Hb.
  - injection H as ->. apply (Hm method); auto.
  - case_bool_decide; [|done]. apply (Hm "GET"); auto.
Qed.

(** A part of the table that does not match may be left out. *)
Lemma best_none l : best l = None → l = [].
Proof. destruct l; [done|]. simpl. by case_match. Qed.

Lemma candidates_app method url l1 l2 :
  candidates method url (l1 ++ l2) = candidates method url l1 ++ candidates method url l2.
Proof. apply omap_app. Qed.

Lemma find_handler_app method url l1 l2 :
  find_handler method url l1 = None → find_handler method url (l1 ++ l2) = find_handler method url l2.
Proof.
  unfold find_handler. destruct (best (candidates method url l1)) eqn:H1; [done|].
  intros H. rewrite !candidates_app, (best_none _ H1). simpl.
  destruct (best (candidates method url l2)); [done|]. case_bool_decide; [|done].
  by rewrite (best_none _ H).
Qed.

(** In a table without conflicts a request for the pattern of a route is
    served by that route, or by one whose pattern is narrower. *)
Lemma find_handler_narrowest (routes : list route) r url values :
  all_pairs (λ r r' : route, compatible r.1 r'.1) routes = true →
  r ∈ routes → match_path (parse_pattern r.1).2 url = Some values →
  ∃ c r', find_handler (parse_pattern r.1).1 url routes = Some c ∧ r' ∈ routes ∧
    found_handler c = r'.2 ∧ match_path (parse_pattern r'.1).2 url = Some (found_values c) ∧
    (r' = r ∨ narrower (parse_pattern r'.1).2 (parse_pattern r.1).2 = true).
Proof.
  intros Hpairs Hr Hm. destruct (parse_pattern r.1) as [method p] eqn:Hp. simpl in *.
  set (l := candidates method url routes).
  assert (∀ c, c ∈ l → ∃ r' : route, r' ∈ routes ∧ parse_pattern r'.1 = (method, found_pattern c) ∧
    found_handler c = r'.2 ∧ match_path (found_pattern c) url = Some (found_values c)) as Hl.
  { intros c (r' & Hr' & Hc)%list_elem_of_omap. exists r'. split; [done|].
    destruct (parse_pattern r'.1) as [m q]. case_bool_decide as Hm'; [|done].
    apply fmap_Some in Hc as (v & Hv & ->). by rewrite Hm'. }
  assert (mkFound p values r.2 ∈ l) as Hin.
  { apply list_elem_of_omap. exists r. split; [done|]. by rewrite Hp, bool_decide_true, Hm. }
  destruct (best l) as [c|] eqn:Hb; [|apply best_none in Hb; rewrite Hb in Hin; by apply not_elem_of_nil in Hin].
  destruct (Hl c) as (r' & Hr' & Hp' & Hh & Hv); [by apply best_elem|].
  exists c, r'. unfold find_handler. fold l. rewrite Hb, Hp'. split_and!; try done. simpl.
  apply (best_least _ (length url) c (mkFound p values r.2)) in Hb; [|clear - Hl|done].
  2:{ intros y (? & _ & _ & _ & Hy)%Hl. by eapply match_path_length. }
  simpl in Hb.
  assert (∀ a b : route, compatible a.1 b.1 = true → a = r ∧ b = r' ∨ a = r' ∧ b = r →
    narrower (found_pattern c) p = true) as Hcase.
  { unfold compatible. intros a b Hc [[-> ->]|[-> ->]]; rewrite Hp, Hp' in Hc;
      rewrite bool_decide_true in Hc by done;
      [rewrite (apart_sound p (found_pattern c) url _ _ Hm Hv) in Hc
      |rewrite (apart_sound (found_pattern c) p url _ _ Hv Hm) in Hc];
      simpl in Hc; apply orb_true_iff in Hc as [Hc|Hc]; try done;
      apply andb_true_iff in Hc as [H1 H2]; apply negb_true_iff in H2;
      by rewrite (narrower_precedes _ _ H1 H2) in Hb. }
  destruct (all_pairs_elem _ _ r r' Hpairs Hr Hr') as [->|[Hc|Hc]];
    [by left|right; eapply Hcase; [exact Hc|auto]..].
Qed.
End mux.
