(* ===== verification/Wiring.v ===== *)
(** * The adapters behind the ports, as cmd/control-plane/main.go wires them *)
From S2P Require Import Prelude Prog Store RunRepo WorkspaceRepo TenancyRepo IdentityRepo RbacRepo.
From S2P Require Import Principal Ports VariableDomain VariableApp RbacApp Registry Outbox.
From S2P Require Import Envelope Secrets FleetMachines.
From S2P Require Import WorkspaceDomain TenancyDomain IdentityDomain TenancyApp IdentityApp Execution AuditLog.

Section repositories.
Context {X : Type}.

(** membershipRepo, orgRepo, projectRepo, teamRepo, serviceAccountRepo *)
#[export] Instance membership_checker : MembershipChecker X :=
  {| IsMember := MembershipRepository_IsMember |}.
#[export] Instance organization_checker : OrganizationChecker X :=
  {| IsArchived := OrganizationRepository_IsArchived |}.
#[export] Instance project_checker : ProjectChecker X :=
  {| ProjectExists := ProjectRepository_ProjectExists |}.
#[export] Instance team_checker : TeamChecker X :=
  {| TeamExists := TeamRepository_TeamExists |}.
#[export] Instance service_account_checker : ServiceAccountChecker X :=
  {| ServiceAccountExists := ServiceAccountRepository_ServiceAccountExists |}.

(** roleBindingRepo *)
#[export] Instance permission_checker : PermissionChecker X :=
  {| HasPermission := RoleBindingRepository_HasPermission |}.
#[export] Instance scoped_permission_checker : ScopedPermissionChecker X :=
  {| HasPermissionAtScope := RoleBindingRepository_HasPermissionAtScope |}.
#[export] Instance visibility_checker : VisibilityChecker X :=
  {| HasScopedPermission := RoleBindingRepository_HasScopedPermission |}.

#[export] Instance role_manager : RoleManager X :=
  {| AssignRole := RoleBindingRepository_AssignRole;
     ReplaceRole := RoleBindingRepository_ReplaceRole;
     GetOrgScopeRoleName := RoleBindingRepository_GetOrgScopeRoleName;
     DeleteForSubject := RoleBindingRepository_DeleteForSubject |}.

(** userRepo *)
#[export] Instance user_reader : UserReader X :=
  {| GetUserByID := UserRepository_GetUser; ListAll := UserRepository_ListAll |}.
#[export] Instance platform_admins : PlatformAdmins X :=
  {| IsPlatformAdmin := UserRepository_IsPlatformAdmin;
     SetPlatformAdmin := UserRepository_SetPlatformAdmin |}.

(** defaultOrgBootstrapper *)
#[export] Instance default_org_bootstrapper : DefaultOrganizationBootstrapper X :=
  {| BootstrapDefaultOrganization ownerUserID :=
       void (CreateOrganization {| co_Name := "default"; co_Slug := "default";
                                   co_CreatedByUserID := ownerUserID |}) |}.

(** workspaceRepo, environmentRepo *)
#[export] Instance workspace_locker : WorkspaceLocker X :=
  {| TryLock := WorkspaceRepository_TryLock; Unlock := WorkspaceRepository_Unlock |}.
#[export] Instance workspace_checker : WorkspaceChecker X :=
  {| WorkspaceExists := WorkspaceRepository_WorkspaceExists |}.
#[export] Instance workspace_engine_reader : WorkspaceEngineReader X :=
  {| GetExecutionEngine := WorkspaceRepository_GetExecutionEngine |}.
#[export] Instance variable_workspace_checker : VariableWorkspaceChecker X :=
  {| Exists := WorkspaceRepository_Exists; GetScope := WorkspaceRepository_GetScope |}.
#[export] Instance rbac_workspace_checker : RbacWorkspaceChecker X :=
  {| RbacWorkspaceExists := WorkspaceRepository_Exists |}.
#[export] Instance environment_checker : EnvironmentChecker X :=
  {| EnvironmentExists := EnvironmentRepository_Exists |}.
(** The name readers: not found is no error. *)
Definition found_or_empty {A} (notFound : error) (name : A → string) (p : prog (World X) A)
    : prog (World X) (option string) :=
  r ← try p;
  match r with
  | Ok a => Ret (Some (name a))
  | Err err => if decide (err = notFound) then Ret None else Throw err
  end.

#[export] Instance name_readers : NameReaders X :=
  {| GetUser id :=
       u ← UserRepository_GetUser id;
       Ret (let '(username, _, found) := u : string * string * bool in
            if found : bool then Some username else None);
     GetTeamName organizationID teamID :=
       found_or_empty ErrTeamNotFound team_Name (TeamRepository_GetByID organizationID teamID);
     GetServiceAccountName organizationID serviceAccountID :=
       found_or_empty ErrServiceAccountNotFound sa_Name
         (ServiceAccountRepository_GetByID organizationID serviceAccountID);
     GetProjectName organizationID projectID :=
       found_or_empty (ErrProjectNotFound Tenancy) proj_Name
         (ProjectRepository_GetByID organizationID projectID);
     GetWorkspaceName organizationID workspaceID :=
       found_or_empty (ErrWorkspaceNotFound Workspaces) ws_Name
         (WorkspaceRepository_GetByID organizationID workspaceID) |}.

(** environmentProjectResolverFunc *)
#[export] Instance environment_project_resolver : EnvironmentProjectResolver X :=
  {| ProjectIDForEnvironment organizationID environmentID :=
       env ← EnvironmentRepository_GetByID organizationID environmentID;
       Ret (WorkspaceDomain.env_ProjectID env) |}.

(** resolveVariableService, over the Secrets context's resolver *)
#[export] Instance variable_resolver `{!SecretResolver X} : VariableResolver X :=
  {| ResolveValue := ResolveVariableService_ResolveValue |}.
End repositories.

(** workerRegistry, of the replica [self] *)
Section registry_ports.
Context {R : Type} `{!RedisOps R} (self : string).
Context (map_order : list (string * workerEntry) → list (string * workerEntry)).

Definition worker_dispatcher : WorkerDispatcher (Cluster R) :=
  {| Dispatch := Registry_Dispatch self map_order |}.
Definition worker_canceler : WorkerCanceler (Cluster R) :=
  {| CancelJob := Registry_CancelJob self |}.
Definition run_tracker : RunTracker (Cluster R) := {| Forget := Registry_Forget self |}.
End registry_ports.

(** combinedHandler: one outbox handler for both consumers of the events. *)
Definition combinedHandler {X} `{!WorkspaceLocker X, !WorkspaceEngineReader X,
    !VariableResolver X, !WorkerDispatcher X} : Handler X := λ event,
  RecordEntry event;; HandleEvent event.

(** ** The adapters leave the database alone *)

(** See through the wiring. *)
Ltac ports := cbn [IsMember IsArchived ProjectExists HasPermission HasPermissionAtScope
  WorkspaceExists GetExecutionEngine Exists GetScope ResolveValue
  membership_checker organization_checker project_checker permission_checker
  scoped_permission_checker workspace_checker workspace_engine_reader
  variable_workspace_checker variable_resolver].

Section reading.
Context {X : Type}.
Notation calm := (calm (X:=X)).

Lemma calm_HasPermissionAtScope ctx o u p pr ws :
  steps_in calm (RoleBindingRepository_HasPermissionAtScope ctx o u p pr ws).
Proof. unfold RoleBindingRepository_HasPermissionAtScope. calm_steps. Qed.

Lemma calm_HasPermission ctx o u p :
  steps_in calm (RoleBindingRepository_HasPermission ctx o u p).
Proof. apply calm_HasPermissionAtScope. Qed.

Lemma calm_IsArchived o : steps_in calm (OrganizationRepository_IsArchived o).
Proof. unfold OrganizationRepository_IsArchived. calm_steps. Qed.

Lemma calm_IsMember o u : steps_in calm (MembershipRepository_IsMember o u).
Proof. unfold MembershipRepository_IsMember. calm_steps. Qed.

Lemma calm_ProjectExists o p : steps_in calm (ProjectRepository_ProjectExists o p).
Proof. unfold ProjectRepository_ProjectExists. calm_steps. Qed.

Lemma calm_WorkspaceExists o p ws : steps_in calm (WorkspaceRepository_WorkspaceExists o p ws).
Proof. unfold WorkspaceRepository_WorkspaceExists. calm_steps. Qed.

Lemma calm_GetExecutionEngine o ws :
  steps_in calm (WorkspaceRepository_GetExecutionEngine o ws).
Proof. unfold WorkspaceRepository_GetExecutionEngine. calm_steps. Qed.

Lemma calm_cascade `{!SecretResolver X} o key scopes :
  (∀ m p, steps_in calm (ResolveSecret o m p)) →
  steps_in calm (cascade o key scopes).
Proof.
  intros Hsec. induction scopes as [|[t id] scopes IH]; cbn [cascade]; [done|].
  unfold tryScope, VariableRepository_GetByScope. calm_steps; auto.
Qed.

Lemma calm_ResolveValue `{!SecretResolver X} o ws k u :
  (∀ m p, steps_in calm (ResolveSecret o m p)) →
  steps_in calm (ResolveVariableService_ResolveValue o ws k u).
Proof.
  intros Hsec. unfold ResolveVariableService_ResolveValue, ResolveVariable. ports.
  unfold WorkspaceRepository_Exists, WorkspaceRepository_GetScope.
  calm_steps; auto using calm_IsMember, calm_cascade.
Qed.
End reading.

Section registry_calm.
Context {R : Type} `{!RedisOps R} (self : string).
Context (map_order : list (string * workerEntry) → list (string * workerEntry)).
Notation calm := (calm (X:=Cluster R)).

Lemma calm_redis_cmd {A} (f : Z → R → A * R) : steps_in calm (redis_cmd f).
Proof.
  apply steps_in_call. intros w.
  destruct (faults w) as [|[] fs] eqn:Hf; simpl; try destruct (f _ _) as [a r];
    split_and!; try done; unfold healthy; simpl; congruence.
Qed.

Lemma calm_locked {A} (f : RegistryState → A * RegistryState) :
  steps_in calm (locked self f).
Proof.
  apply steps_in_call. intros w. destruct (f _) as [a s]. split_and!; try done.
  by unfold healthy.
Qed.

Ltac registry_steps :=
  repeat first
    [ exact I
    | match goal with |- steps_in _ (lift ?r) => by destruct r end
    | apply calm_redis_cmd | apply calm_locked
    | apply steps_in_bind; [|intros ?] | apply steps_in_try | apply steps_in_void
    | apply steps_in_ensure | apply steps_in_range; intros ?
    | case_match ].

Lemma calm_Registry_Dispatch r o ws e c k :
  steps_in calm (Registry_Dispatch self map_order r o ws e c k).
Proof. unfold Registry_Dispatch, logged, Set_. registry_steps. Qed.

Lemma calm_cancelLocal r : steps_in calm (cancelLocal self r).
Proof. unfold cancelLocal, logged, Del. registry_steps. Qed.

Lemma calm_Registry_CancelJob r : steps_in calm (Registry_CancelJob self r).
Proof.
  unfold Registry_CancelJob, Get, Publish.
  apply steps_in_bind; [apply calm_cancelLocal|intros ?]. registry_steps.
Qed.

Lemma calm_Registry_Forget r : steps_in calm (Registry_Forget self r).
Proof. unfold Registry_Forget, logged, Del. registry_steps. Qed.

Lemma calm_Server_Register id es rs : steps_in calm (Server_Register self id es rs).
Proof. unfold Server_Register, register, logged, Set_. registry_steps. Qed.

Lemma calm_Heartbeat : steps_in calm (Heartbeat_tick self map_order).
Proof. unfold Heartbeat_tick, logged, Expire. registry_steps. Qed.

Lemma calm_stream_loop ch sends : steps_in calm (stream_loop self ch sends).
Proof.
  induction sends as [|b sends IH]; cbn [stream_loop]; [done|].
  apply steps_in_bind; [apply calm_locked|intros [cmd|]]; [|done].
  destruct b; [|done]. apply steps_in_bind; [done|intros ?]. done.
Qed.

Lemma calm_Server_StreamJobs id sends : steps_in calm (Server_StreamJobs self id sends).
Proof.
  unfold Server_StreamJobs, deregister, logged, Del. registry_steps. apply calm_stream_loop.
Qed.
End registry_calm.

Section replica_calm.
Context {R : Type} `{!RedisOps R, !SecretResolver (Cluster R)}.
Context (calm_secrets : ∀ o m p, steps_in calm (ResolveSecret (X:=Cluster R) o m p)).

(** The ports as the replica [self] wires them. *)
Lemma replica_calm self map_order :
  CalmPorts (Cluster R) (WorkerDispatcher0 := worker_dispatcher self map_order)
    (WorkerCanceler0 := worker_canceler self) (RunTracker0 := run_tracker self).
Proof using calm_secrets.
  split; intros; simpl;
    [apply calm_HasPermissionAtScope|apply calm_IsArchived|apply calm_WorkspaceExists
    |apply calm_GetExecutionEngine|by apply calm_ResolveValue
    |apply calm_Registry_Dispatch|apply calm_Registry_CancelJob|apply calm_Registry_Forget].
Qed.
End replica_calm.

(** ** The Secrets and Fleet adapters *)

Section secrets_ports.
Context {X : Type} `{!Aead, !VaultAPI X}.
Context (masterKey : string).

(** resolveSecretService, writeSecretService *)
Definition secret_resolver : SecretResolver X :=
  {| ResolveSecret := ResolveSecretService_ResolveValue masterKey |}.
Definition secret_writer : SecretWriter X :=
  {| WriteValue := WriteSecretService_WriteValue masterKey |}.

(** secretMountCheckerFunc: a missing mount is no error. *)
Definition secret_mount_exists (organizationID mountID : string) : prog (World X) bool :=
  r ← try (SecretMountRepository_GetByID organizationID mountID);
  match r with
  | Ok _ => Ret true
  | Err err => if bool_decide (err = ErrSecretMountNotFound) then Ret false else Throw err
  end.
Definition secret_mount_checker : SecretMountChecker X :=
  {| SecretMountExists := secret_mount_exists |}.
End secrets_ports.
