(* ===== verification/Routes.v ===== *)
(** * The route table of cmd/control-plane/main.go

    Every handler behind the middlewares main.go wraps it in, over the
    adapters of Wiring. *)
From S2P Require Import Prelude Prog FleetDomain Store Envelope Principal Ports IdentityRepo.
From S2P Require Import IdentityApp Wiring FleetMachines Secrets Cursor Json Http Mux.
From S2P Require Import HttpTenancy HttpIdentity HttpWorkspace HttpSecrets.
From S2P Require Import HttpFleet Stream.

Section routes.
Context {X : Type}.
(** What is not in the repository: JSON and time texts, passwords and tokens,
    ciphers, Vault, SSH, YAML, JWTs. *)
Context `{!JSON, !TimeText, !Crypto, !Aead, !VaultAPI X, !SSHRunner X}.
Context (parse_jwt : string → string → Z → option string).
Context (sign_jwt : string → string → Z → Z → res string).
Context (error_text : error → string).
Context (yaml_unmarshal : string → string + option (gmap string any)).
Context (quote : string → string).
Context (map_order : gmap string any → list (string * any)).
Context (string_map_order : gmap string string → list (string * string)).
(** The worker registry's port, and the critical sections of the limiters. *)
Context `{!WorkerCanceler X}.
Context (generalAllow loginAllow : string → prog (World X) (bool * Z)).
(** [pool.Ping], and what happens around an event stream. *)
Context (ping : prog (World X) ()).
Context (flushes : bool) (events : Request → list stream_event).
(** [cfg.JWTSigningKey], [cfg.MasterKey] *)
Context (secret masterKey : string).

#[local] Instance routes_resolver : SecretResolver X := secret_resolver masterKey.
#[local] Instance routes_writer : SecretWriter X := secret_writer masterKey.
#[local] Instance routes_mounts : SecretMountChecker X := secret_mount_checker.

Notation HandlerFunc := (HandlerFunc (X:=X)).
Notation route := (string * HandlerFunc)%type.

(** [healthHandler] *)
Definition healthHandler : HandlerFunc := λ rq,
  r ← try ping;
  Ret (match r with
       | Ok _ => respond (rq_XRequestID rq) StatusOK
                   (BodyJSON (JObject [("status", JString "healthy")]))
       | Err err => respond (rq_XRequestID rq) StatusServiceUnavailable
                      (BodyJSON (JObject [("error", JString (error_text err));
                                          ("status", JString "unhealthy")]))
       end).

(** ** Routes without a token *)
Definition public_routes : list route := [
  ("GET /healthz", healthHandler);
  ("POST /api/v1/users",
     RequireAuthOrFirstUserBootstrap parse_jwt (Some apiKeyResolver) secret UserRepository_Count
       CreateUserHandler);
  ("POST /api/v1/auth/login", LoginHandler sign_jwt secret loginAllow);
  ("POST /api/v1/auth/refresh", RefreshTokenHandler sign_jwt secret);
  ("POST /api/v1/auth/password-reset/request", RequestPasswordResetHandler);
  ("POST /api/v1/auth/password-reset/confirm", ConfirmPasswordResetHandler)].

(** ** Routes behind [RequireAuth], by context *)
Definition account_routes : list route := [
  ("PUT /api/v1/users/{id}/platform-admin", SetPlatformAdminHandler);
  ("GET /api/v1/users/me", GetOwnUserHandler);
  ("GET /api/v1/orgs", ListMyOrganizationsHandler);
  ("POST /api/v1/orgs", CreateOrganizationHandler)].

Definition tenancy_routes : list route := [
  ("GET /api/v1/orgs/{id}", GetOrganizationHandler);
  ("POST /api/v1/orgs/{id}/members", AddMemberHandler);
  ("GET /api/v1/orgs/{id}/members", ListMembersHandler);
  ("GET /api/v1/orgs/{id}/members/available", ListAvailableUsersHandler);
  ("PUT /api/v1/orgs/{id}/members/{userID}/role", ChangeMemberRoleHandler);
  ("PUT /api/v1/orgs/{id}/members/{userID}/block", BlockMemberHandler);
  ("PUT /api/v1/orgs/{id}/members/{userID}/unblock", UnblockMemberHandler);
  ("DELETE /api/v1/orgs/{id}/members/{userID}", RemoveMemberHandler);
  ("DELETE /api/v1/orgs/{id}", ArchiveOrganizationHandler);
  ("POST /api/v1/orgs/{id}/hard-delete", DeleteOrganizationHandler);
  ("POST /api/v1/orgs/{id}/teams", CreateTeamHandler);
  ("GET /api/v1/orgs/{id}/teams", ListTeamsHandler);
  ("POST /api/v1/orgs/{id}/teams/{team}/members", AddTeamMemberHandler);
  ("GET /api/v1/orgs/{id}/teams/{team}/members", ListTeamMembersHandler);
  ("DELETE /api/v1/orgs/{id}/teams/{team}/members/{user_id}", RemoveTeamMemberHandler);
  ("PUT /api/v1/orgs/{id}/teams/{team}", UpdateTeamHandler);
  ("DELETE /api/v1/orgs/{id}/teams/{team}", DeleteTeamHandler);
  ("POST /api/v1/orgs/{id}/projects", CreateProjectHandler);
  ("GET /api/v1/orgs/{id}/projects", ListProjectsHandler);
  ("GET /api/v1/orgs/{id}/projects/{projectID}", GetProjectHandler);
  ("DELETE /api/v1/orgs/{id}/projects/{projectID}", DeleteProjectHandler)].

Definition rbac_routes : list route := [
  ("POST /api/v1/orgs/{id}/roles", CreateRoleHandler);
  ("GET /api/v1/orgs/{id}/roles", ListRolesHandler);
  ("PUT /api/v1/orgs/{id}/roles/{role}", UpdateRoleHandler);
  ("POST /api/v1/orgs/{id}/role-bindings", CreateRoleBindingHandler);
  ("GET /api/v1/orgs/{id}/role-bindings", ListRoleBindingsHandler);
  ("DELETE /api/v1/orgs/{id}/role-bindings/{bindingID}", DeleteRoleBindingHandler)].

Definition workspace_routes : list route := [
  ("POST /api/v1/orgs/{id}/projects/{projectID}/environments", CreateEnvironmentHandler);
  ("GET /api/v1/orgs/{id}/projects/{projectID}/environments", ListEnvironmentsHandler);
  ("GET /api/v1/orgs/{id}/projects/{projectID}/environments/{envID}", GetEnvironmentHandler);
  ("POST /api/v1/orgs/{id}/projects/{projectID}/workspaces", CreateWorkspaceHandler);
  ("GET /api/v1/orgs/{id}/projects/{projectID}/workspaces", ListWorkspacesHandler);
  ("GET /api/v1/orgs/{id}/projects/{projectID}/workspaces/{workspaceID}", GetWorkspaceHandler);
  ("DELETE /api/v1/orgs/{id}/projects/{projectID}/workspaces/{workspaceID}",
     DeleteWorkspaceHandler)].

Definition run_routes : list route := [
  ("POST /api/v1/orgs/{id}/projects/{projectID}/workspaces/{workspaceID}/runs",
     Idempotency TriggerRunHandler);
  ("GET /api/v1/orgs/{id}/projects/{projectID}/workspaces/{workspaceID}/runs", ListRunsHandler);
  ("GET /api/v1/orgs/{id}/projects/{projectID}/workspaces/{workspaceID}/runs/{runID}",
     GetRunHandler);
  ("POST /api/v1/orgs/{id}/projects/{projectID}/workspaces/{workspaceID}/runs/{runID}/cancel",
     CancelRunHandler)].

Definition variable_routes : list route := [
  ("POST /api/v1/orgs/{id}/variables", CreateVariableHandler);
  ("GET /api/v1/orgs/{id}/variables", ListVariablesHandler);
  ("PUT /api/v1/orgs/{id}/variables/{variableID}", UpdateVariableHandler);
  ("DELETE /api/v1/orgs/{id}/variables/{variableID}", DeleteVariableHandler);
  ("GET /api/v1/orgs/{id}/projects/{projectID}/workspaces/{workspaceID}/variables/resolve",
     ResolveVariableHandler)].

Definition secret_routes : list route := [
  ("POST /api/v1/orgs/{id}/secret-mounts", CreateSecretMountHandler masterKey);
  ("GET /api/v1/orgs/{id}/secret-mounts", ListSecretMountsHandler);
  ("POST /api/v1/orgs/{id}/secret-mounts/{mount}/test-connection",
     TestConnectionHandler masterKey error_text);
  ("POST /api/v1/orgs/{id}/secret-mounts/{mount}/secrets",
     WriteSecretHandler masterKey error_text);
  ("GET /api/v1/orgs/{id}/audit-log", ListAuditLogHandler)].

Definition service_account_routes : list route := [
  ("POST /api/v1/orgs/{id}/service-accounts", CreateServiceAccountHandler);
  ("POST /api/v1/orgs/{id}/service-accounts/{sa}/api-keys", CreateAPIKeyHandler);
  ("DELETE /api/v1/orgs/{id}/service-accounts/{sa}/api-keys/{key}", RevokeAPIKeyHandler)].

Definition machine_routes : list route := [
  ("POST /api/v1/orgs/{id}/machines", CreateMachineHandler masterKey);
  ("GET /api/v1/orgs/{id}/machines", ListMachinesHandler);
  ("POST /api/v1/orgs/{id}/machines/test-connection", TestMachineConnectionHandler);
  ("GET /api/v1/orgs/{id}/machines/{machineID}", GetMachineHandler);
  ("PATCH /api/v1/orgs/{id}/machines/{machineID}", UpdateMachineHandler masterKey);
  ("DELETE /api/v1/orgs/{id}/machines/{machineID}", ArchiveMachineHandler);
  ("POST /api/v1/orgs/{id}/machines/{machineID}/unarchive", UnarchiveMachineHandler);
  ("POST /api/v1/orgs/{id}/machines/{machineID}/hard-delete", DeleteMachineHandler);
  ("POST /api/v1/orgs/{id}/machines/{machineID}/duplicate", DuplicateMachineHandler);
  ("POST /api/v1/orgs/{id}/machines/{machineID}/check-connection",
     CheckMachineConnectionHandler masterKey);
  ("POST /api/v1/orgs/{id}/networks", CreateNetworkHandler);
  ("GET /api/v1/orgs/{id}/networks", ListNetworksHandler);
  ("DELETE /api/v1/orgs/{id}/networks/{networkID}", DeleteNetworkHandler);
  ("POST /api/v1/orgs/{id}/volumes", CreateVolumeHandler);
  ("GET /api/v1/orgs/{id}/volumes", ListVolumesHandler);
  ("DELETE /api/v1/orgs/{id}/volumes/{volumeID}", DeleteVolumeHandler)].

Definition file_routes : list route := [
  ("GET /api/v1/orgs/{id}/projects/{projectID}/compose-files", ListProjectComposeFilesHandler);
  ("POST /api/v1/orgs/{id}/compose-files",
     CreateComposeFileHandler yaml_unmarshal quote map_order string_map_order);
  ("GET /api/v1/orgs/{id}/compose-files", ListComposeFilesHandler);
  ("GET /api/v1/orgs/{id}/compose-files/{composeFileID}", GetComposeFileHandler);
  ("PUT /api/v1/orgs/{id}/compose-files/{composeFileID}/content",
     UpdateComposeFileContentHandler yaml_unmarshal quote map_order string_map_order);
  ("DELETE /api/v1/orgs/{id}/compose-files/{composeFileID}", DeleteComposeFileHandler);
  ("POST /api/v1/orgs/{id}/compose-files/{composeFileID}/networks", AttachNetworkHandler);
  ("GET /api/v1/orgs/{id}/compose-files/{composeFileID}/networks", ListComposeFileNetworksHandler);
  ("DELETE /api/v1/orgs/{id}/compose-files/{composeFileID}/networks/{networkID}",
     DetachNetworkHandler);
  ("POST /api/v1/orgs/{id}/compose-files/{composeFileID}/volumes", AttachVolumeHandler);
  ("GET /api/v1/orgs/{id}/compose-files/{composeFileID}/volumes", ListComposeFileVolumesHandler);
  ("DELETE /api/v1/orgs/{id}/compose-files/{composeFileID}/volumes/{volumeID}",
     DetachVolumeHandler);
  ("POST /api/v1/orgs/{id}/compose-files/{composeFileID}/projects", AttachProjectHandler);
  ("GET /api/v1/orgs/{id}/compose-files/{composeFileID}/projects", ListComposeFileProjectsHandler);
  ("DELETE /api/v1/orgs/{id}/compose-files/{composeFileID}/projects/{projectID}",
     DetachProjectHandler);
  ("POST /api/v1/orgs/{id}/compose-files/{composeFileID}/variables", CreateFleetVariableHandler);
  ("GET /api/v1/orgs/{id}/compose-files/{composeFileID}/variables", ListFleetVariablesHandler);
  ("PUT /api/v1/orgs/{id}/compose-files/{composeFileID}/variables/{variableID}",
     UpdateFleetVariableHandler);
  ("DELETE /api/v1/orgs/{id}/compose-files/{composeFileID}/variables/{variableID}",
     DeleteFleetVariableHandler);
  ("POST /api/v1/orgs/{id}/compose-files/{composeFileID}/variables/secret",
     CreateSecretVariableHandler);
  ("GET /api/v1/orgs/{id}/compose-files/{composeFileID}/variables/{variableID}/reveal",
     RevealVariableHandler)].

Definition operation_routes : list route := [
  ("POST /api/v1/orgs/{id}/operations", Idempotency TriggerOperationHandler);
  ("GET /api/v1/orgs/{id}/operations", ListOperationsHandler);
  ("GET /api/v1/orgs/{id}/operations/{operationID}", GetOperationHandler);
  ("GET /api/v1/orgs/{id}/operations/{operationID}/stream",
     (λ rq, StreamOperationHandler flushes (events rq) rq))].

(** The routes of one organization, and all of them. *)
Definition organization_routes : list route :=
  tenancy_routes ++ rbac_routes ++ workspace_routes ++ run_routes ++ variable_routes
  ++ secret_routes ++ service_account_routes ++ machine_routes ++ file_routes
  ++ operation_routes.

Definition protected (r : route) : route :=
  (r.1, RequireAuth parse_jwt (Some apiKeyResolver) secret r.2).

Definition routes : list route :=
  public_routes ++ map protected (account_routes ++ organization_routes).

Definition mux : HandlerFunc := ServeMux routes.

(** [server.Handler] *)
Definition server_Handler : HandlerFunc := RequestID (RateLimit generalAllow mux).
End routes.
