(* ===== verification/HttpScenario.v ===== *)
(** * Concrete texts for the HTTP layer

    Stand-ins for encoding/json and the formats of package time, as simple as
    the laws of the theorems allow: a body ["a=b&c=d"] is an object of
    strings, and an instant is written in unary. *)
From Stdlib Require Import Ascii.
From stdpp Require Import pretty.
From S2P Require Import Prelude Json Cursor Mux.

(** ** Objects of strings *)
Definition demo_member (s : string) : string * json :=
  match split_at "=" "" s with
  | [key; value] => (key, JString value)
  | _ => (s, JBool true)
  end.
Definition demo_object (s : string) : json :=
  JObject (demo_member <$> split_at "&" "" s).

Fixpoint demo_text (v : json) : string :=
  match v with
  | JNull => "null"
  | JBool b => if b then "true" else "false"
  | JInt n => pretty n
  | JNumber s | JString s => s
  | JArray l => String.concat "," (map demo_text l)
  | JObject members =>
      String.concat "&" (map (λ kv, kv.1 +:+ "=" +:+ demo_text kv.2) members)
  end.

#[export] Instance demo_json : JSON := {|
  json_decode s := if s =ₛ "" then EndOfInput
                   else if s =ₛ "{" then Malformed "unexpected EOF" else Decoded (demo_object s);
  json_unmarshal s := if s =ₛ "" then None else Some (demo_object s);
  json_marshal := demo_text;
  json_misfit type _ := "json: cannot unmarshal into " +:+ type;
  format_time t := pretty t;
  parse_time _ := None;
|}.

(** ** Instants in unary *)
Fixpoint strokes (n : nat) : string :=
  match n with 0 => "" | S n => String "I" (strokes n) end.

Definition stroke_time (t : Z) : string :=
  String (if bool_decide (t < 0)%Z then "-" else "+") (strokes (Z.abs_nat t)).
Definition count_strokes (s : string) : option Z :=
  match s with
  | String "-" s => Some (- Z.of_nat (String.length s))%Z
  | String "+" s => Some (Z.of_nat (String.length s))
  | _ => None
  end.

#[export] Instance demo_times : TimeText :=
  {| format_nano := stroke_time; parse_nano := count_strokes |}.

Lemma strokes_length n : String.length (strokes n) = n.
Proof. induction n as [|n IH]; simpl; [done|by rewrite IH]. Qed.

Lemma strokes_no_bar n : Forall (λ c, c ≠ bar) (String.list_ascii_of_string (strokes n)).
Proof. by induction n; constructor. Qed.

#[export] Instance demo_times_laws : TimeTextLaws demo_times.
Proof.
  split; intros t; unfold format_nano, parse_nano; cbn [demo_times]; unfold stroke_time.
  - case_bool_decide; cbn [count_strokes]; rewrite strokes_length; f_equal; lia.
  - cbn [String.list_ascii_of_string]. constructor; [|apply strokes_no_bar].
    by case_bool_decide.
Qed.
