(* ===== verification/FleetLife.v ===== *)
(** * The life of an operation

    An operation is queued, then claimed by one executor, then finished by
    it.  [op_moves] is that state machine; this file shows that every atomic
    step of every Fleet service and of every executor at any replica stays
    within it, whatever the interleaving. *)
From S2P Require Import Prelude Prog Rely TenancyDomain FleetDomain Store Outbox Envelope FleetRepo.
From S2P Require Import FleetText Compose Principal Ports Registry FleetMachines FleetFiles.
From S2P Require Import DeployExecutor.

(** ** The state machine *)

Definition final_status (s : string) : Prop :=
  s = OperationStatusSuccess ∨ s = OperationStatusFailed.

(** One step of an operation; only its claimer, [mine], finishes it. *)
Inductive op_moves (mine : Prop) : Operation → Operation → Prop :=
| op_stays o : op_moves mine o o
| op_claimed o now :
    op_Status o = OperationStatusQueued → op_moves mine o (start_operation now o)
| op_finished o status now exitCode output :
    mine → op_Status o = OperationStatusRunning → final_status status →
    op_moves mine o (finish_operation status now exitCode output o).

(** The times an operation has, by its status. *)
Inductive op_wf : Operation → Prop :=
| wf_queued o :
    op_Status o = OperationStatusQueued → op_StartedAt o = None → op_FinishedAt o = None → op_wf o
| wf_running o t :
    op_Status o = OperationStatusRunning → op_StartedAt o = Some t → op_FinishedAt o = None →
    op_wf o
| wf_final o t t' :
    final_status (op_Status o) → op_StartedAt o = Some t → op_FinishedAt o = Some t' → op_wf o.

#[local] Ltac by_status :=
  unfold OperationStatusQueued, OperationStatusRunning, OperationStatusSuccess,
    OperationStatusFailed in *; congruence.

Lemma op_moves_wf mine o o' : op_moves mine o o' → op_wf o → op_wf o'.
Proof.
  destruct 1 as [o|o now Hq|o status now ec out _ Hr Hf]; [done| |]; intros Hwf.
  - apply (wf_running _ now); [done..|]. simpl. destruct Hwf as [| |? ? ? [H|H]]; by_status.
  - destruct Hwf as [|o t ? Hs _|? ? ? [H|H]]; [by_status| |by_status..].
    by apply (wf_final _ t now).
Qed.

Lemma op_moves_id mine o o' : op_moves mine o o' →
  op_ID o' = op_ID o ∧ op_OrganizationID o' = op_OrganizationID o.
Proof. by destruct 1. Qed.

(** A claimed operation keeps its start, and a finished one everything. *)
Lemma op_moves_claimed mine o o' : op_moves mine o o' → op_Status o ≠ OperationStatusQueued →
  op_Status o' ≠ OperationStatusQueued ∧ op_StartedAt o' = op_StartedAt o.
Proof.
  destruct 1 as [o|o now Hq|o status now ec out _ Hr Hf]; intros Hn; [done..|].
  split; [|done]. simpl. by destruct Hf as [->| ->].
Qed.

Lemma op_moves_final mine o o' :
  op_moves mine o o' → op_wf o → op_FinishedAt o ≠ None → o' = o.
Proof.
  destruct 1 as [o|o now Hq|o status now ec out _ Hr Hf]; intros Hwf Hn; [done|..];
    destruct Hwf as [| |? ? ? [H|H]]; by_status.
Qed.

Section life.
Context {X : Type}.
Implicit Types w : World X.

Definition op_drawn w (id : string) : Prop :=
  ∃ o, operations (db w) !! id = Some o ∧ op_Status o ≠ OperationStatusQueued.

Definition op_inv w : Prop := ∀ id o, operations (db w) !! id = Some o → op_ID o = id ∧ op_wf o.

(** What a step of a thread that claimed the operations [O] may do. *)
Definition op_guarantee (O : gset string) w w' : Prop := ∀ id o,
  operations (db w) !! id = Some o →
  ∃ o', operations (db w') !! id = Some o' ∧ op_moves (id ∈ O) o o'.

Notation silent := (silent op_inv op_guarantee).
Notation safe := (safe op_inv op_guarantee op_drawn).
Notation stable := (stable op_inv op_guarantee).

Lemma op_guarantee_mono O w w' : op_guarantee ∅ w w' → op_guarantee O w w'.
Proof.
  intros H id o Ho. destruct (H id o Ho) as (o' & Ho' & Hm). exists o'. split; [done|].
  destruct Hm as [| |]; [constructor|by constructor|set_solver].
Qed.

Lemma op_drawn_mono O w w' id : op_guarantee O w w' → op_drawn w id → op_drawn w' id.
Proof.
  intros HG (o & Ho & Hs). destruct (HG id o Ho) as (o' & Ho' & Hm). exists o'.
  split; [done|]. by eapply op_moves_claimed.
Qed.

(** ** Steps that no guarantee is needed for *)

Definition same_ops (d d' : DB) : Prop := operations d' = operations d.
#[export] Instance same_ops_preorder : PreOrder same_ops.
Proof. split; [done|]. intros d1 d2 d3 H1 H2. unfold same_ops in *. congruence. Qed.

Lemma same_ops_silent w w' : same_ops (db w) (db w') → silent w w'.
Proof.
  intros H. split.
  - intros Hi id o. rewrite H. apply Hi.
  - intros O id o Ho. exists o. rewrite H. split; [done|constructor].
Qed.

Lemma calm_silent {A} (p : prog (World X) A) : steps_in calm p → steps_in silent p.
Proof. apply steps_in_mono. intros w w' [Hd _]. apply same_ops_silent. by rewrite Hd. Qed.

(** A new operation is queued. *)
Definition ops_grow (d d' : DB) : Prop :=
  ∀ id, operations d' !! id = operations d !! id ∨
    operations d !! id = None ∧ ∃ o, operations d' !! id = Some o ∧ op_ID o = id ∧ op_wf o.
#[export] Instance ops_grow_preorder : PreOrder ops_grow.
Proof.
  split; [by left|]. intros d1 d2 d3 H1 H2 id.
  destruct (H1 id) as [E1|(Hn & o & Ho & ?)], (H2 id) as [E2|(Hn2 & o2 & Ho2 & ?)].
  - left. congruence.
  - right. split; [congruence|eauto].
  - right. split; [done|]. exists o. split_and!; [congruence|naive_solver..].
  - congruence.
Qed.

Lemma same_ops_grow d d' : same_ops d d' → ops_grow d d'.
Proof. intros H id. left. by rewrite H. Qed.

Lemma ops_grow_silent w w' : ops_grow (db w) (db w') → silent w w'.
Proof.
  intros H. split.
  - intros Hi id o Ho. destruct (H id) as [E|(_ & o' & Ho' & ?)]; [|by simplify_eq].
    apply Hi. by rewrite <-E.
  - intros O id o Ho. destruct (H id) as [E|[Hn _]]; [|congruence].
    exists o. rewrite E. split; [done|constructor].
Qed.

Lemma silent_txn {A} s (t : Tx X A) : tx_in ops_grow s t → steps_in silent (txn s t).
Proof.
  intros Ht. apply steps_in_call. intros w. apply ops_grow_silent.
  by apply run_txn_in; [apply _|].
Qed.
End life.

(** A table other than [operations], whose rows take none of it along. *)
Class BesideOps (T : Type) `{!Table T} : Prop := {
  beside_set (m : gmap string T) (d : DB) : operations (tset m d) = operations d;
  beside_cascade ids (d : DB) : operations (cascade (R:=T) ids d) = operations d;
}.

Section beside.
#[local] Ltac by_beside := by split; intros m d.
#[export] Instance beside_machine : BesideOps Machine. Proof. by_beside. Qed.
#[export] Instance beside_network : BesideOps Network. Proof. by_beside. Qed.
#[export] Instance beside_volume : BesideOps Volume. Proof. by_beside. Qed.
#[export] Instance beside_compose_file : BesideOps ComposeFile. Proof. by_beside. Qed.
#[export] Instance beside_na : BesideOps NetworkAttachment. Proof. by_beside. Qed.
#[export] Instance beside_va : BesideOps VolumeAttachment. Proof. by_beside. Qed.
#[export] Instance beside_pa : BesideOps ProjectAttachment. Proof. by_beside. Qed.
#[export] Instance beside_variable : BesideOps FleetVariable. Proof. by_beside. Qed.
#[export] Instance beside_outbox : BesideOps OutboxEvent. Proof. by_beside. Qed.
End beside.

Lemma beside_grows `{BesideOps T} (m : gmap string T) d : ops_grow d (tset m d).
Proof. apply same_ops_grow, beside_set. Qed.

Lemma beside_delete `{BesideOps T} P s d : ops_grow d (delete_rows (R:=T) P s d).
Proof.
  apply same_ops_grow. unfold same_ops, delete_rows. by rewrite beside_cascade, beside_set.
Qed.

Lemma new_operation_grows {X} s o :
  op_wf o → tx_in (X:=X) ops_grow s (insert_row o).
Proof.
  intros Hwf. apply tx_in_insert; [apply _|]. intros d Hn _ _ _ id. simpl in Hn |- *.
  destruct (decide (id = op_ID o)) as [->|Hne].
  - right. split; [done|]. exists o. by rewrite lookup_insert_eq.
  - left. by rewrite lookup_insert_ne.
Qed.

Lemma NewOperation_wf id now org c m t u o : NewOperation id now org c m t u = Ok o → op_wf o.
Proof.
  unfold NewOperation. destruct (require_all _ _); [|done]. intros [= <-]. by constructor.
Qed.

(** ** The services *)

(** What the executor and the services rely on: the other contexts' ports
    leave Fleet's tables alone, and [RunOperation] does nothing to them but
    call back. *)
Class CalmFleet (X : Type) `{!MembershipChecker X, !PermissionChecker X, !ProjectChecker X,
    !SecretMountChecker X, !SecretResolver X, !SecretWriter X, !SSHRunner X, !LogPublisher X}
    : Prop := {
  calm_member o u : steps_in calm (IsMember (X:=X) o u);
  calm_permission ctx o u p : steps_in calm (HasPermission (X:=X) ctx o u p);
  calm_project o p : steps_in calm (ProjectExists (X:=X) o p);
  calm_mount o m : steps_in calm (SecretMountExists (X:=X) o m);
  calm_resolve o m p : steps_in calm (ResolveSecret (X:=X) o m p);
  calm_write o m p v : steps_in calm (WriteValue (X:=X) o m p v);
  calm_probe t : steps_in calm (Probe (X:=X) t);
  calm_line id l : steps_in calm (PublishLine (X:=X) id l);
  calm_end id c : steps_in calm (PublishEnd (X:=X) id c);
  calm_run t fs cmd (onLine : string → prog (World X) ()) :
    (∀ l, steps_in calm (onLine l)) → steps_in calm (RunOperation (X:=X) t fs cmd onLine);
}.

Create HintDb fleet_reads.
Create HintDb fleet_writes.
Create HintDb fleet_services.
Create HintDb fleet_helpers.
#[export] Hint Unfold MachineRepository_GetByID MachineRepository_ListByOrganization
  NetworkRepository_ListByOrganization VolumeRepository_ListByOrganization
  ComposeFileRepository_GetByID ComposeFileRepository_GetGlobal
  ComposeFileRepository_ListByOrganization AttachmentRepository_ListNetworksForComposeFile
  AttachmentRepository_ListVolumesForComposeFile AttachmentRepository_ListProjectsForComposeFile
  AttachmentRepository_ListComposeFilesForProject FleetVariableRepository_GetByID
  FleetVariableRepository_ListByComposeFile OperationRepository_GetByID
  OperationRepository_ListByOrganization : fleet_reads.
#[export] Hint Unfold MachineRepository_Create MachineRepository_Update MachineRepository_Delete
  MachineRepository_Archive MachineRepository_Unarchive NetworkRepository_Create
  NetworkRepository_Delete VolumeRepository_Create VolumeRepository_Delete
  ComposeFileRepository_Create ComposeFileRepository_UpdateContent ComposeFileRepository_Delete
  AttachmentRepository_AttachNetwork AttachmentRepository_DetachNetwork
  AttachmentRepository_AttachVolume AttachmentRepository_DetachVolume
  AttachmentRepository_AttachProject AttachmentRepository_DetachProject
  FleetVariableRepository_Create FleetVariableRepository_Update FleetVariableRepository_Delete
  fleet_event delete_one : fleet_writes.
#[export] Hint Unfold CreateMachine ListMachines GetMachine UpdateMachine ArchiveMachine
  UnarchiveMachine DeleteMachine DuplicateMachine TestMachineConnection CheckMachineConnection
  CreateNetwork ListNetworks DeleteNetwork CreateVolume ListVolumes DeleteVolume
  CreateComposeFile ListComposeFiles GetComposeFile UpdateComposeFileContent DeleteComposeFile
  AttachNetwork DetachNetwork ListAttachedNetworks AttachVolume DetachVolume ListAttachedVolumes
  AttachProject DetachProject ListLinkedProjects ListComposeFilesForProject CreateFleetVariable
  ListFleetVariables RevealVariable UpdateFleetVariable DeleteFleetVariable CreateSecretVariable
  ListOperations GetOperation : fleet_services.
#[export] Hint Unfold credential_mount_check Seal create_clone resolveMachineCredential
  syncEnvVariablesFromCompose sync_one checkManage checkRead variable_mount_check update_source
  : fleet_helpers.

Lemma steps_in_lift_bind {W A B} (R : W → W → Prop) (r : res A) (f : A → prog W B) :
  (∀ a, r = Ok a → steps_in R (f a)) → steps_in R (lift r ≫= f).
Proof. destruct r; simpl; [auto|done]. Qed.

(** Go through a service whose writes are beside the operations, or create a
    queued one. *)
Ltac silent_tx :=
  apply silent_txn; tx_in_steps;
  first
    [ apply tx_in_update_pk; [exact _|intros; apply beside_grows]
    | apply tx_in_delete; [exact _|intros; apply beside_delete]
    | apply tx_in_insert; [exact _|intros; apply beside_grows]
    | apply tx_in_insert_or_nothing; [exact _|intros; apply beside_grows]
    | apply tx_in_on_second_global, tx_in_insert; [exact _|intros; apply beside_grows]
    | apply tx_in_insert_or_update; [exact _|intros; apply beside_grows] ].

Lemma calm_uuid {X} : steps_in (calm (X:=X)) new_uuid.
Proof. apply steps_in_call. intros w. split_and!; unfold healthy; simpl; auto. Qed.
Lemma calm_now {X} : steps_in (calm (X:=X)) time_now.
Proof. by apply steps_in_call. Qed.

Ltac silent_steps :=
  repeat lazymatch goal with
  | |- True => exact I
  | |- steps_in _ (Ret _) => exact I
  | |- steps_in _ (mret _) => exact I
  | |- steps_in _ (Throw _) => exact I
  | |- steps_in _ (lift _ ≫= _) => apply steps_in_lift_bind; intros ? ?
  | |- steps_in _ (_ ≫= _) => apply steps_in_bind; [|intros ?]
  | |- steps_in _ (ensure _ _) => apply steps_in_ensure
  | |- steps_in _ (lift _) => apply steps_in_lift
  | |- steps_in _ (try _) => apply steps_in_try
  | |- steps_in _ (void _) => apply steps_in_void
  | |- steps_in _ (range _ _) => apply steps_in_range; intros ?
  | |- steps_in _ (IsMember _ _) => apply calm_silent, calm_member
  | |- steps_in _ (HasPermission _ _ _ _) => apply calm_silent, calm_permission
  | |- steps_in _ (ProjectExists _ _) => apply calm_silent, calm_project
  | |- steps_in _ (SecretMountExists _ _) => apply calm_silent, calm_mount
  | |- steps_in _ (ResolveSecret _ _ _) => apply calm_silent, calm_resolve
  | |- steps_in _ (WriteValue _ _ _ _) => apply calm_silent, calm_write
  | |- steps_in _ (Probe _) => apply calm_silent, calm_probe
  | |- steps_in _ new_uuid => apply calm_silent, calm_uuid
  | |- steps_in _ time_now => apply calm_silent, calm_now
  | |- steps_in _ (org_txn _ _) =>
      apply calm_silent, calm_txn; [solve [tx_frame_steps]|solve [tx_in_steps]]
  | |- _ => case_match
  end.

Section silent_services.
Context {X : Type}.
Context `{calm_fleet : CalmFleet X, !Aead}.
Context (masterKey : string).
Context (yaml_unmarshal : string → string + option (gmap string Prelude.any)).
Context (quote : string → string).
Context (map_order : gmap string Prelude.any → list (string * Prelude.any)).
Context (string_map_order : gmap string string → list (string * string)).
Notation silent := (silent op_inv (op_guarantee (X:=X))).

Lemma silent_gate ctx o u p : steps_in silent (fleet_gate ctx o u p).
Proof using calm_fleet. unfold fleet_gate, permission_gate, member_gate. silent_steps. Qed.

(** The requests of the Fleet handlers, and the claim of one candidate. *)
Inductive fleet_service : prog (World X) () → Prop :=
| fs_CreateMachine ctx inp : fleet_service (void (CreateMachine masterKey ctx inp))
| fs_ListMachines ctx o u b : fleet_service (void (ListMachines ctx o u b))
| fs_GetMachine ctx o u id : fleet_service (void (GetMachine ctx o u id))
| fs_UpdateMachine ctx inp : fleet_service (void (UpdateMachine masterKey ctx inp))
| fs_ArchiveMachine ctx o u id : fleet_service (ArchiveMachine ctx o u id)
| fs_UnarchiveMachine ctx o u id : fleet_service (UnarchiveMachine ctx o u id)
| fs_DeleteMachine ctx o u id : fleet_service (DeleteMachine ctx o u id)
| fs_DuplicateMachine ctx inp : fleet_service (void (DuplicateMachine ctx inp))
| fs_TestMachineConnection ctx inp : fleet_service (void (TestMachineConnection ctx inp))
| fs_CheckMachineConnection ctx o u id :
    fleet_service (void (CheckMachineConnection masterKey ctx o u id))
| fs_CreateNetwork ctx o u n e : fleet_service (void (CreateNetwork ctx o u n e))
| fs_ListNetworks ctx o u : fleet_service (void (ListNetworks ctx o u))
| fs_DeleteNetwork ctx o u id : fleet_service (DeleteNetwork ctx o u id)
| fs_CreateVolume ctx o u n h : fleet_service (void (CreateVolume ctx o u n h))
| fs_ListVolumes ctx o u : fleet_service (void (ListVolumes ctx o u))
| fs_DeleteVolume ctx o u id : fleet_service (DeleteVolume ctx o u id)
| fs_CreateComposeFile ctx inp : fleet_service (void
    (CreateComposeFile yaml_unmarshal quote map_order string_map_order ctx inp))
| fs_ListComposeFiles ctx o u : fleet_service (void (ListComposeFiles ctx o u))
| fs_GetComposeFile ctx o u id : fleet_service (void (GetComposeFile ctx o u id))
| fs_UpdateComposeFileContent ctx o u id c : fleet_service
    (UpdateComposeFileContent yaml_unmarshal quote map_order string_map_order ctx o u id c)
| fs_DeleteComposeFile ctx o u id : fleet_service (DeleteComposeFile ctx o u id)
| fs_AttachNetwork ctx o u c n : fleet_service (AttachNetwork ctx o u c n)
| fs_DetachNetwork ctx o u c n : fleet_service (DetachNetwork ctx o u c n)
| fs_ListAttachedNetworks ctx o u c : fleet_service (void (ListAttachedNetworks ctx o u c))
| fs_AttachVolume ctx o u c v p : fleet_service (AttachVolume ctx o u c v p)
| fs_DetachVolume ctx o u c v : fleet_service (DetachVolume ctx o u c v)
| fs_ListAttachedVolumes ctx o u c : fleet_service (void (ListAttachedVolumes ctx o u c))
| fs_AttachProject ctx o u c p : fleet_service (AttachProject ctx o u c p)
| fs_DetachProject ctx o u c p : fleet_service (DetachProject ctx o u c p)
| fs_ListLinkedProjects ctx o u c : fleet_service (void (ListLinkedProjects ctx o u c))
| fs_ListComposeFilesForProject ctx o u p :
    fleet_service (void (ListComposeFilesForProject ctx o u p))
| fs_CreateFleetVariable ctx inp : fleet_service (void (CreateFleetVariable ctx inp))
| fs_ListFleetVariables ctx o u c : fleet_service (void (ListFleetVariables ctx o u c))
| fs_RevealVariable ctx o u id : fleet_service (void (RevealVariable ctx o u id))
| fs_UpdateFleetVariable ctx inp : fleet_service (void (UpdateFleetVariable ctx inp))
| fs_DeleteFleetVariable ctx o u id : fleet_service (DeleteFleetVariable ctx o u id)
| fs_CreateSecretVariable ctx inp : fleet_service (void (CreateSecretVariable ctx inp))
| fs_TriggerOperation ctx inp : fleet_service (void (TriggerOperation ctx inp))
| fs_ListOperations ctx o u c m : fleet_service (void (ListOperations ctx o u c m))
| fs_GetOperation ctx o u id : fleet_service (void (GetOperation ctx o u id)).

Lemma silent_OperationCreate o : op_wf o → steps_in silent (OperationRepository_Create o).
Proof.
  intros Hwf. unfold OperationRepository_Create, fleet_event. apply silent_txn. tx_in_steps.
  - by apply new_operation_grows.
  - apply tx_in_insert; [exact _|]. intros. apply beside_grows.
Qed.

Lemma silent_TriggerOperation ctx inp : steps_in silent (TriggerOperation ctx inp).
Proof using calm_fleet.
  unfold TriggerOperation. apply steps_in_bind; [apply silent_gate|intros _].
  autounfold with fleet_reads. silent_steps.
  by eapply silent_OperationCreate, NewOperation_wf.
Qed.

Lemma silent_names u m n k : steps_in silent (try_names u m n k).
Proof.
  revert n. induction k as [|k IH]; intros n; cbn [try_names]; [done|].
  unfold create_clone. silent_steps; [|apply IH].
  autounfold with fleet_writes. silent_tx.
Qed.

Lemma silent_service p : fleet_service p → steps_in silent p.
Proof using calm_fleet.
  destruct 1; try apply steps_in_void; try apply silent_TriggerOperation;
    autounfold with fleet_services;
    (apply steps_in_bind; [apply silent_gate|intros _]);
    autounfold with fleet_helpers fleet_reads;
    silent_steps; try apply silent_names; autounfold with fleet_writes; silent_tx.
Qed.
End silent_services.

(** ** The executor *)

Section executor_life.
Context {X : Type}.
Context `{calm_fleet : CalmFleet X, !Aead}.
Context (masterKey : string).
Context (yaml_unmarshal : string → string + option (gmap string Prelude.any)).
Context (yaml_marshal : gmap string Prelude.any → res string).
Context (string_map_order : gmap string string → list (string * string)).
Context (error_text : error → string) (quote : string → string).
Implicit Types w : World X.
Notation guarantee := (op_guarantee (X:=X)).
Notation safe := (safe op_inv guarantee op_drawn).
Notation stable := (stable op_inv guarantee).

(** What the claimer of [id] knows until it finishes it. *)
Definition op_running (id : string) w : Prop :=
  ∃ o, operations (db w) !! id = Some o ∧ op_Status o = OperationStatusRunning.

Lemma stable_running id : stable {[id]} (op_running id).
Proof using Type.
  intros O2 w w' Hd _ _ HG (o & Ho & Hr). destruct (HG id o Ho) as (o' & Ho' & Hm).
  exists o'. split; [done|]. destruct Hm as [|? ? Hq|? ? ? ? ? Hin]; [done|by rewrite Hr in Hq|].
  exfalso. apply (Hd id Hin). by apply elem_of_singleton.
Qed.
Lemma stable_anything O : stable O (λ _ : World X, True).
Proof. done. Qed.

Lemma safe_calm {A} O K (p : prog (World X) A) Φ :
  stable O K → steps_in calm p → (∀ r, Φ r O K) → safe O K p Φ.
Proof. intros HK Hp. apply safe_silent; [done|by apply calm_silent]. Qed.

Lemma safe_published O K id code :
  stable O K → safe O K (logged_error (PublishEnd id code)) Rely.any.
Proof using calm_fleet.
  intros HK. apply safe_calm; [done| |done].
  apply steps_in_void, steps_in_try, calm_end.
Qed.

(** A step that moves one operation. *)
Lemma moves_one O w w' id o o' :
  operations (db w) !! id = Some o → op_moves (id ∈ O) o o' →
  operations (db w') = <[id := o']> (operations (db w)) →
  op_inv w → op_inv w' ∧ guarantee O w w'.
Proof using Type.
  intros Ho Hm Heq Hi. split.
  - intros k x. rewrite Heq. destruct (decide (k = id)) as [->|Hne].
    + rewrite lookup_insert_eq. intros [= <-]. destruct (Hi id o Ho) as [<- Hwf].
      split; [by apply op_moves_id in Hm as [? _]|by eapply op_moves_wf].
    + rewrite lookup_insert_ne by done. apply Hi.
  - intros k x Hx. rewrite Heq. destruct (decide (k = id)) as [->|Hne].
    + rewrite lookup_insert_eq. simplify_eq. eauto.
    + rewrite lookup_insert_ne by done. exists x. split; [done|constructor].
Qed.

Lemma same_ops_safe O w w' : operations (db w') = operations (db w) →
  op_inv w → op_inv w' ∧ guarantee O w w'.
Proof using Type. intros [Hi HG]%same_ops_silent. auto. Qed.

(** The one write of a goroutine. *)
Lemma safe_MarkFinished o id status ec out :
  final_status status →
  safe {[id]} (op_running id)
    (logged_error (OperationRepository_MarkFinished o id status ec out))
    (λ _ O K, stable O K).
Proof using Type.
  intros Hf. unfold logged_error, void. apply safe_bind, safe_try, safe_call.
  intros w Hi HK _.
  match goal with |- context [run_txn ?s ?t w] => pose proof (run_txn_cases s t w) as Hc end.
  destruct (run_txn _ _ w) as [[u|e] w'] eqn:Hrun; simpl in *.
  - destruct Hc as [Hfr [fs Ht]]; [tx_frame_steps|]. tx_inv Ht.
    apply affected_ok in Ht as (n & Hn & Hne).
    apply update_pk_ok in Hn as [(_ & row & Hrow & _ & _ & Hw')|[-> _]]; [|done]. simpl in Hrow.
    destruct HK as (row' & Hrow' & Hr). assert (row' = row) as -> by (rewrite Hrow in Hrow'; by injection Hrow' as ->).
    destruct (moves_one {[id]} w w' id row (finish_operation status (clock w) ec out row))
      as [Hi' HG]; [done|apply op_finished; [by apply elem_of_singleton|done..]|by rewrite Hw'|done|].
    split_and!; [done..|]. exists {[id]}, (λ _, True). split_and!; [|done..].
    by apply own_step_refl.
  - destruct Hc as [Hfr Hd]; [tx_frame_steps|].
    destruct (same_ops_safe {[id]} w w') as [Hi' HG]; [by rewrite Hd|done|].
    split_and!; [done..|]. exists {[id]}, (op_running id).
    split_and!; [apply own_step_refl|apply stable_running| |apply stable_running].
    unfold op_running. by rewrite Hd.
Qed.

Lemma safe_finish_operation o id status ec out code :
  final_status status →
  safe {[id]} (op_running id)
    (logged_error (OperationRepository_MarkFinished o id status ec out);;
     logged_error (PublishEnd id code)) Rely.any.
Proof using calm_fleet.
  intros Hf. apply safe_bind. eapply safe_mono; [|by apply safe_MarkFinished].
  intros [u|e] O' K' HK; [|done]. by apply safe_published.
Qed.

Lemma safe_or_finish {A} o id what (p : prog (World X) A) k :
  steps_in calm p → (∀ a, safe {[id]} (op_running id) (k a) Rely.any) →
  safe {[id]} (op_running id) (or_finish error_text o id what p k) Rely.any.
Proof using calm_fleet.
  intros Hp Hk. unfold or_finish. apply safe_bind, safe_try, safe_calm; [apply stable_running|done|].
  intros [a|e]; [apply Hk|]. apply safe_finish_operation. by right.
Qed.

Lemma safe_files o id path values fvs fs k :
  (∀ fs, safe {[id]} (op_running id) (k fs) Rely.any) →
  safe {[id]} (op_running id) (file_variables error_text quote o id path values fvs fs k) Rely.any.
Proof using calm_fleet.
  intros Hk. revert fs. induction fvs as [|fv fvs IH]; intros fs; cbn [file_variables]; [apply Hk|].
  apply safe_or_finish; [by apply steps_in_lift|intros content; apply IH].
Qed.

Lemma calm_resolve_all o vs r : steps_in (calm (X:=X)) (resolve_all o vs r).
Proof using calm_fleet.
  revert r. induction vs as [|v vs IH]; intros r; cbn [resolve_all]; [done|].
  apply steps_in_bind; [|intros value; apply IH]. unfold variable_value.
  repeat case_match; try done. apply calm_resolve.
Qed.

Lemma calm_resolveComposeVariables o c : steps_in (calm (X:=X)) (resolveComposeVariables o c).
Proof using calm_fleet.
  unfold resolveComposeVariables, fallback_variables. autounfold with fleet_reads.
  calm_steps; apply calm_resolve_all.
Qed.

Lemma calm_credential m : steps_in (calm (X:=X)) (resolveMachineCredential masterKey m).
Proof using calm_fleet.
  unfold resolveMachineCredential. case_match; [apply steps_in_lift|apply calm_resolve].
Qed.

Lemma safe_run_operation o id target fs cmd vs :
  safe {[id]} (op_running id) (run_operation error_text o id target fs cmd vs) Rely.any.
Proof using calm_fleet.
  unfold run_operation. apply safe_or_finish.
  - apply calm_run. intros line. apply steps_in_void, steps_in_try, calm_line.
  - intros [code out]. apply safe_finish_operation. case_match; [by left|by right].
Qed.

Lemma safe_execute o id :
  safe {[id]} (op_running id)
    (execute masterKey yaml_unmarshal yaml_marshal string_map_order error_text quote o id)
    Rely.any.
Proof using calm_fleet.
  unfold execute, deploy_files. autounfold with fleet_reads.
  apply safe_bind, safe_try, safe_calm; [apply stable_running|calm_steps|].
  intros [op|e]; [|done].
  apply safe_or_finish; [calm_steps|intros file].
  apply safe_or_finish; [calm_steps|intros machine].
  apply safe_or_finish; [apply calm_credential|intros secret].
  apply safe_or_finish; [apply calm_resolveComposeVariables|intros resolved].
  case_match; [|apply safe_run_operation].
  apply safe_or_finish; [calm_steps|intros networks].
  apply safe_or_finish; [calm_steps|intros volumes].
  apply safe_or_finish; [by apply steps_in_lift|intros rendered].
  apply safe_files. intros fs. apply safe_run_operation.
Qed.

(** A claim that succeeds is a step from queued to running, which makes the
    operation the claimer's own. *)
Lemma safe_TryClaim o id (Φ : res bool → gset string → (World X → Prop) → Prop) :
  Φ (Ok true) {[id]} (op_running id) →
  (∀ r, r ≠ Ok true → Φ r ∅ (λ _, True)) →
  safe ∅ (λ _, True) (OperationRepository_TryClaim o id) Φ.
Proof using Type.
  intros Hyes Hno. apply safe_call. intros w Hi _ _.
  match goal with |- context [run_txn ?s ?t w] => pose proof (run_txn_cases s t w) as Hc end.
  destruct (run_txn _ _ w) as [[b|e] w'] eqn:Hrun; simpl in *.
  - destruct Hc as [Hfr [fs Ht]]; [tx_frame_steps|]. tx_inv Ht. subst b.
    match goal with E : w' = ?x |- _ => subst x end.
    apply update_pk_ok in Hst as [(-> & row & Hrow & _ & HP & Hw')|(-> & Hw' & _)].
    + simpl in Hrow. bools.
      destruct (moves_one ∅ w w' id row (start_operation (clock w) row))
        as [Hi' HG]; [done|by apply op_claimed|by rewrite Hw'|done|].
      split_and!; [done..|]. exists {[id]}, (op_running id). split_and!.
      * intros x ->%elem_of_singleton. right. split; [by intros (? & ? & ?); simplify_eq|].
        exists (start_operation (clock w) row). rewrite Hw'; simpl. by rewrite lookup_insert_eq.
      * apply stable_running.
      * exists (start_operation (clock w) row). rewrite Hw'; simpl. by rewrite lookup_insert_eq.
      * done.
    + destruct (same_ops_safe ∅ w w') as [Hi' HG]; [by rewrite Hw'|done|].
      split_and!; [done..|]. exists ∅, (λ _, True). split_and!; [apply own_step_refl|done..|].
      by apply Hno.
  - destruct Hc as [Hfr Hd]; [tx_frame_steps|].
    destruct (same_ops_safe ∅ w w') as [Hi' HG]; [by rewrite Hd|done|].
    split_and!; [done..|]. exists ∅, (λ _, True). split_and!; [apply own_step_refl|done..|].
    by apply Hno.
Qed.

Lemma safe_claim_and_execute c :
  safe ∅ (λ _, True)
    (claim_and_execute masterKey yaml_unmarshal yaml_marshal string_map_order error_text quote c)
    Rely.any.
Proof using calm_fleet.
  unfold claim_and_execute. apply safe_bind, safe_TryClaim; [apply safe_execute|].
  by intros [[]|e].
Qed.

(** ** Any interleaving *)

Context (map_order : gmap string Prelude.any → list (string * Prelude.any)).

(** A request at a handler, or an executor of some replica on its way
    through one candidate. *)
Definition fleet_request (p : prog (World X) ()) : Prop :=
  fleet_service masterKey yaml_unmarshal quote map_order string_map_order p ∨
  ∃ c, p = claim_and_execute masterKey yaml_unmarshal yaml_marshal string_map_order error_text
    quote c.

(** Between steps anything may happen but to the database. *)
Definition fleet_env w w' : Prop := db w' = db w.

Lemma fleet_request_safe p : fleet_request p → safe ∅ (λ _, True) p Rely.any.
Proof using calm_fleet.
  intros [Hp|[c ->]]; [|apply safe_claim_and_execute].
  apply safe_silent; [done|by eapply silent_service|done].
Qed.

(** What an operation that was claimed in [w] may have become in [w']. *)
Definition claimed_once w w' : Prop := ∀ id o,
  operations (db w) !! id = Some o → op_Status o ≠ OperationStatusQueued →
  ∃ o', operations (db w') !! id = Some o' ∧ op_Status o' ≠ OperationStatusQueued ∧
    op_StartedAt o' = op_StartedAt o ∧ (op_FinishedAt o ≠ None → o' = o).

(** C6: Whatever requests reach whatever handlers, and however many executors
    poll the same table, an operation is queued, claimed and finished in
    that order: it is claimed at most once, and what its one executor
    recorded at the end is never overwritten. *)
Theorem operation_claimed_once c c' :
  op_inv c.1 → Forall fleet_request c.2 → pool_steps fleet_env fleet_request c c' →
  op_inv c'.1 ∧ claimed_once c.1 c'.1.
Proof using calm_fleet.
  intros Hi Hall Hsteps.
  destruct (pool_safe op_inv guarantee op_drawn op_drawn_mono fleet_env fleet_request c c')
    as [Hi' HK]; [..|done|].
  - intros w w' Hw Hd. apply same_ops_safe; [by rewrite Hd|done].
  - apply fleet_request_safe.
  - done.
  - eapply Forall_impl; [exact Hall|]. apply fleet_request_safe.
  - split; [done|]. intros id o Ho Hn.
    apply (HK ∅ (λ w, ∃ o', operations (db w) !! id = Some o' ∧
      op_Status o' ≠ OperationStatusQueued ∧ op_StartedAt o' = op_StartedAt o ∧
      (op_FinishedAt o ≠ None → o' = o))); [|intros x Hx; set_solver|eauto].
    intros O2 w w' _ Hw _ HG (o1 & Ho1 & Hs1 & Hst1 & Hf1).
    destruct (HG id o1 Ho1) as (o2 & Ho2 & Hm). exists o2.
    destruct (op_moves_claimed _ _ _ Hm Hs1) as [Hs2 Hst2].
    split_and!; [done..|congruence|]. intros Hfin. specialize (Hf1 Hfin) as ->.
    destruct (Hw id o Ho1) as [_ Hwf]. by eapply op_moves_final.
Qed.
End executor_life.
