(* ===== verification/Scenario.v ===== *)
(** * A concrete deployment

    A coordination store that obeys [RedisLaws], a Secrets adapter, and a
    database with an organization, a project, two users and a workspace:
    what the theorems' witnesses are evaluated on. *)
From stdpp Require Import pretty.
From S2P Require Import Prelude Prog RunDomain WorkspaceDomain RbacDomain VariableDomain.
From S2P Require Import TenancyDomain IdentityDomain FleetDomain Store RunRepo Principal Ports Registry Execution Wiring.

(** ** A coordination store *)

Record Keyspace := mkKeyspace {
  entries : gmap string (string * option Z);
  messages : gmap string (list string);
}.

Definition live (t : Z) (e : string * option Z) : option string :=
  match e.2 with
  | Some deadline => if bool_decide (t < deadline)%Z then Some e.1 else None
  | None => Some e.1
  end.

#[export] Instance keyspace_ops : RedisOps Keyspace := {|
  redis_set t k v ttl r :=
    mkKeyspace (<[k := (v, (λ d, (t + d)%Z) <$> ttl)]> (entries r)) (messages r);
  redis_get t k r := entries r !! k ≫= live t;
  redis_del k r := mkKeyspace (delete k (entries r)) (messages r);
  redis_expire t k d r :=
    match entries r !! k ≫= live t with
    | Some v => mkKeyspace (<[k := (v, Some (t + d)%Z)]> (entries r)) (messages r)
    | None => r
    end;
  redis_publish c m r :=
    match messages r !! c with
    | Some l => mkKeyspace (entries r) (<[c := l ++ [m]]> (messages r))
    | None => r
    end;
  redis_receive c r :=
    match messages r !! c with
    | Some (m :: l) => Some (m, mkKeyspace (entries r) (<[c := l]> (messages r)))
    | _ => None
    end;
  redis_subscribed c r := bool_decide (is_Some (messages r !! c));
|}.

#[export] Instance keyspace_laws : RedisLaws Keyspace.
Proof.
  split; simpl.
  - intros t0 t k v ttl r Ht. rewrite lookup_insert_eq. simpl. by destruct ttl.
  - intros t0 t k k' v ttl r Hne. by rewrite lookup_insert_ne.
  - intros t k r. by rewrite lookup_delete_eq.
  - intros t k k' r Hne. by rewrite lookup_delete_ne.
  - intros t0 t k d r v Ht Hv. rewrite Hv. simpl. by rewrite lookup_insert_eq.
  - intros t k c m r. by destruct (messages r !! c).
  - intros c m r Hs Hn. bools. destruct Hs as [l Hl]. rewrite Hl in *.
    destruct l; [|done]. simpl. rewrite lookup_insert_eq. eauto.
Qed.

(** ** The Secrets adapter: every reference resolves to ["s3cret"]. *)
#[export] Instance secrets : SecretResolver (Cluster Keyspace) :=
  {| ResolveSecret o m p := Ret "s3cret" |}.

(** Every mount exists. *)
#[export] Instance demo_mounts : SecretMountChecker (Cluster Keyspace) :=
  {| SecretMountExists o m := Ret true |}.

(** ** Uuids *)
Definition uuid (i : nat) : string := "uuid-" +:+ pretty i.

Lemma uuid_inj i j : uuid i = uuid j → i = j.
Proof. unfold uuid. intros H. by apply (inj (String.append "uuid-")), (inj pretty) in H. Qed.

(** ** The database *)

Definition owner_role : Role := mkRole "role-owner" None RoleOwner AllPermissions.
Definition the_binding : RoleBinding :=
  NewOrganizationScopeBinding "binding-1" 0 "org" "role-owner" "alice".

Definition the_workspace : Workspace :=
  mkWorkspace "ws" "org" "project" None "web" "terraform" None None false None 0.

Definition the_config : VariableT :=
  mkVariable "var-1" "org" "workspace" "ws" "terraform_config" "engine_var" "plain"
    "resource {}" None 0.

Definition demo_user (id name email : string) (admin : bool) : User :=
  mkUser id name email AuthSourceLocal None "active" false 0 admin (Some "hash").

Definition demo_db : DB := mkDB
  {["org" := mkOrganization "org" "Acme" "acme" "active" None 0]}
  {["m-1" := mkMembership "m-1" "org" "alice" 0 None;
    "m-2" := mkMembership "m-2" "org" "bob" 0 None]}
  ∅
  {["project" := mkProject "project" "org" "Shop" "shop" "" 0]}
  ∅
  {["ws" := the_workspace]}
  ∅
  {["var-1" := the_config]}
  {["role-owner" := owner_role]}
  {["binding-1" := the_binding]}
  ∅ ∅ ∅ ∅ ∅
  (mkIdentityDB {["alice" := demo_user "alice" "alice" "alice@acme.io" true;
                  "bob" := demo_user "bob" "bob" "bob@acme.io" false]} ∅ ∅ ∅)
  (mkFleetDB ∅ ∅ ∅ ∅ ∅ ∅ ∅ ∅ ∅ ∅).

(** Replica ["cp-1"], subscribed to its own channel, with one worker. *)
Definition demo_keyspace : Keyspace :=
  mkKeyspace ∅ {[cancelChannel "cp-1" := []; cancelChannel "cp-2" := []]}.

Definition one_worker : RegistryState :=
  add_worker "worker-1" ["terraform"] [] NewRegistry.

Definition demo_cluster : Cluster Keyspace :=
  mkCluster {["cp-1" := one_worker]} demo_keyspace.

Definition demo_at (d : DB) (c : Cluster Keyspace) : World (Cluster Keyspace) :=
  mkWorld d 1000 uuid 0 [] c.

Definition demo : World (Cluster Keyspace) := demo_at demo_db demo_cluster.

(** Adapters of replica ["cp-1"]; its maps are walked in the order listed. *)
#[export] Instance demo_dispatcher : WorkerDispatcher (Cluster Keyspace) :=
  worker_dispatcher "cp-1" (λ l, l).
#[export] Instance demo_canceler : WorkerCanceler (Cluster Keyspace) := worker_canceler "cp-1".
#[export] Instance demo_tracker : RunTracker (Cluster Keyspace) := run_tracker "cp-1".

Lemma calm_secrets_demo o m p : steps_in calm (ResolveSecret (X:=Cluster Keyspace) o m p).
Proof. exact I. Qed.

Lemma calm_mounts_demo o m : steps_in calm (SecretMountExists (X:=Cluster Keyspace) o m).
Proof. exact I. Qed.

#[export] Instance demo_calm : CalmPorts (Cluster Keyspace) :=
  replica_calm calm_secrets_demo "cp-1" (λ l, l).

(** alice triggers a run of the workspace. *)
Definition demo_input : TriggerRunInput :=
  {| tr_OrganizationID := "org"; tr_ProjectID := "project"; tr_WorkspaceID := "ws";
     tr_RequestingUserID := "alice" |}.
