(* ===== verification/RegistrySpec.v ===== *)
(** * The worker registry: dispatch, cancel routing, bounded queues *)
From S2P Require Import Prelude Prog Store Registry Scenario.

(** The registry with a command added to channel [ch]. *)
Definition enqueued (ch : nat) (q : list WorkerCommand) (cmd : WorkerCommand)
    (s : RegistryState) : RegistryState :=
  mkRegistryState (workers s) (runToWorker s) (<[ch := q ++ [cmd]]> (channels s))
    (next_channel s).

(** Worker [id] can take a job for [engine]: it runs the engine, and its
    queue, holding [q], has room. *)
Definition available (s : RegistryState) (engine id : string) (wk : workerEntry)
    (q : list WorkerCommand) : Prop :=
  workers s !! id = Some wk ∧ engine ∈ supportedEngines wk ∧
  channels s !! jobs wk = Some q ∧ length q < channel_capacity.

Lemma try_send_cases ch cmd s :
  (∃ q, channels s !! ch = Some q ∧ length q < channel_capacity ∧
     try_send ch cmd s = (true, enqueued ch q cmd s)) ∨
  (∀ q, channels s !! ch = Some q → channel_capacity ≤ length q) ∧ try_send ch cmd s = (false, s).
Proof.
  unfold try_send. destruct (channels s !! ch) as [q|] eqn:Hq; [|right; naive_solver].
  case_bool_decide as Hl; [left; eauto|right]. split; [|done].
  intros q' [= <-]. lia.
Qed.

(** A worker of [ws] got the command, or none of them could take it. *)
Definition dispatch_outcome (cmd : WorkerCommand) (run engine : string)
    (ws : list (string * workerEntry)) (s : RegistryState) (r : string * RegistryState) : Prop :=
  (r.1 ≠ "" ∧ ∃ wk q, available s engine r.1 wk q ∧
     r.2 = set_route run r.1 (enqueued (jobs wk) q cmd s)) ∨
  (r.1 = "" ∧ r.2 = s ∧ ∀ i wk q, (i, wk) ∈ ws → ¬ available s engine i wk q).

Lemma dispatch_loop_cases cmd run engine ws s :
  (∀ i wk, (i, wk) ∈ ws → workers s !! i = Some wk ∧ i ≠ "") →
  dispatch_outcome cmd run engine ws s (dispatch_loop cmd run engine ws s).
Proof.
  intros Hws. induction ws as [|[i wk] ws IH]; cbn [dispatch_loop].
  { right. split_and!; [done..|]. by intros ? ? ? ?%not_elem_of_nil. }
  destruct (Hws i wk) as [Hi Hne]; [by apply elem_of_cons; left|].
  assert ((∀ q, ¬ available s engine i wk q) → dispatch_outcome cmd run engine ((i, wk) :: ws) s
    (dispatch_loop cmd run engine ws s)) as Hnext.
  { intros Hno. destruct IH as [?|(He & Hs & Hall)]; [|by left|].
    - intros i0 wk0 Hin. apply Hws. by apply elem_of_cons; right.
    - right. split_and!; [done..|].
      intros i0 wk0 q [[= -> ->]|Hin]%elem_of_cons; [done|by apply Hall]. }
  case_bool_decide as He; simpl.
  2:{ apply Hnext. by intros q (_ & ? & _). }
  destruct (try_send_cases (jobs wk) cmd s) as [(q & Hq & Hl & ->)|[Hfull ->]].
  - left. split; [done|]. exists wk, q. by split_and!.
  - apply Hnext. intros q (_ & _ & Hq & Hl). specialize (Hfull q Hq). lia.
Qed.

Section dispatch.
Context {R : Type} `{!RedisOps R} (self : string).
Context (map_order : list (string * workerEntry) → list (string * workerEntry)).
Context (map_order_perm : ∀ l, map_order l ≡ₚ l).
Implicit Types w : World (Cluster R).

Lemma exec_locked {A} (f : RegistryState → A * RegistryState) w :
  exec (locked self f) w =
    (Ok (f (registry_of self (aux w))).1,
     set_aux (mkCluster (<[self := (f (registry_of self (aux w))).2]> (registries (aux w)))
       (redis (aux w))) w).
Proof. unfold locked. rewrite exec_call. by destruct (f _). Qed.

(** A logged command always succeeds, and leaves the registries alone. *)
Lemma exec_logged p w :
  (∀ w1, registries (aux (exec p w1).2) = registries (aux w1)) →
  ∃ w', exec (logged p) w = (Ok (), w') ∧ registries (aux w') = registries (aux w).
Proof.
  intros Hp. unfold logged, void. rewrite exec_bind, exec_try. specialize (Hp w).
  destruct (exec p w) as [r w1]. by exists w1.
Qed.

Lemma redis_cmd_registries {A} (f : Z → R → A * R) w :
  registries (aux (exec (redis_cmd f) w).2) = registries (aux w).
Proof.
  unfold redis_cmd. rewrite exec_call. destruct (faults w) as [|[] fs]; [|done|];
    by destruct (f _ _).
Qed.

Lemma registry_of_set c s : registry_of self (mkCluster (<[self := s]> (registries c)) (redis (R:=R) c)) = s.
Proof. unfold registry_of. cbn [registries]. by rewrite lookup_insert_eq. Qed.

(** C38: [Dispatch] never fails: it answers yes exactly when a worker connected
    to this replica runs the engine and has room in its queue, and then the
    job is at the end of the queue of one such worker, which the run is
    routed to; if it answers no, the registry is unchanged. *)
Theorem Dispatch_spec run o ws engine config credential w :
  workers (registry_of self (aux w)) !! "" = None →
  let s := registry_of self (aux w) in
  let cmd := WorkerCommand_JobAssignment run o ws engine config credential in
  ∃ b w', exec (Registry_Dispatch self map_order run o ws engine config credential) w = (Ok b, w') ∧
    (b = true ↔ ∃ id wk q, available s engine id wk q) ∧
    match b with
    | true => ∃ id wk q, available s engine id wk q ∧
        registry_of self (aux w') = set_route run id (enqueued (jobs wk) q cmd s)
    | false => registry_of self (aux w') = s
    end.
Proof using map_order_perm.
  intros Hempty s cmd. unfold Registry_Dispatch. fold cmd. rewrite exec_bind, exec_locked.
  fold s.
  pose proof (dispatch_loop_cases cmd run engine (map_order (map_to_list (workers s))) s) as Hcases.
  destruct (dispatch_loop cmd run engine (map_order (map_to_list (workers s))) s) as [id s'].
  destruct Hcases as [(Hid & wk & q & Hav & Hs)|(Hid & Hs & Hnone)]; cbn [fst snd] in *; [|subst s'..].
  { intros i wk Hin. rewrite map_order_perm in Hin. apply elem_of_map_to_list in Hin.
    split; [done|]. intros ->. unfold s in Hin. congruence. }
  - rewrite bool_decide_false by done. rewrite exec_bind.
    set (w1 := set_aux _ w).
    destruct (exec_logged (Set_ (runWorkerKey run) id None) w1) as (w2 & H2 & Hr2);
      [intros; apply redis_cmd_registries|].
    rewrite H2. exists true, w2. split; [done|]. split; [naive_solver|].
    exists id, wk, q. split; [done|]. unfold registry_of. rewrite Hr2.
    apply (registry_of_set (aux w)).
  - subst id. rewrite bool_decide_true by done. exists false, (set_aux (mkCluster (<[self := s]> (registries (aux w)))
      (redis (aux w))) w). split; [done|]. split; [|apply (registry_of_set (aux w))].
    split; [done|]. intros (id & wk & q & Hav). exfalso. eapply Hnone; [|exact Hav].
    rewrite map_order_perm. apply elem_of_map_to_list. apply Hav.
Qed.
End dispatch.

(** ** Cancelling through another replica *)

Section forwarding.
Context {R : Type} `{!RedisOps R, !RedisLaws R}.
Implicit Types w : World (Cluster R).

Lemma registry_of_set_ne self other s (c : Cluster R) (r : R) :
  self ≠ other → registry_of other (mkCluster (<[self := s]> (registries c)) r) = registry_of other c.
Proof. intros Hne. unfold registry_of. cbn [registries]. by rewrite lookup_insert_ne. Qed.

Definition with_redis (r : R) w : World (Cluster R) :=
  set_aux (mkCluster (registries (aux w)) r) (set_faults [] w).

Lemma exec_redis_healthy {A} (f : Z → R → A * R) w :
  faults w = [] →
  exec (redis_cmd f) w =
    (Ok (f (clock w) (redis (aux w))).1, with_redis (f (clock w) (redis (aux w))).2 w).
Proof.
  intros Hf. unfold redis_cmd. rewrite exec_call, Hf. unfold with_redis.
  by destruct (f (clock w) (redis (aux w))).
Qed.

(** [cancelLocal] where the run is not routed, and where it is. *)
Lemma cancelLocal_elsewhere self run w :
  local_channel run (registry_of self (aux w)) = None →
  exec (cancelLocal self run) w = (Ok (false, false),
    set_aux (mkCluster (<[self := registry_of self (aux w)]> (registries (aux w)))
      (redis (aux w))) w).
Proof. intros Hn. unfold cancelLocal. rewrite exec_bind, exec_locked. cbn. by rewrite Hn. Qed.

Lemma cancelLocal_here self run ch q w :
  faults w = [] → local_channel run (registry_of self (aux w)) = Some ch →
  channels (registry_of self (aux w)) !! ch = Some q → length q < channel_capacity →
  ∃ w', exec (cancelLocal self run) w = (Ok (true, true), w') ∧
    registry_of self (aux w') = delete_route run
      (enqueued ch q (WorkerCommand_CancelJob run) (registry_of self (aux w))) ∧
    redis (aux w') = redis_del (runWorkerKey run) (redis (aux w)).
Proof.
  intros Hf Hch Hq Hl. unfold cancelLocal. rewrite exec_bind, exec_locked.
  cbn [fst snd]. rewrite Hch, exec_bind, exec_locked. cbn [set_aux aux].
  rewrite registry_of_set. destruct (try_send_cases ch (WorkerCommand_CancelJob run)
    (registry_of self (aux w))) as [(q' & Hq' & _ & ->)|[Hfull _]]; [|by specialize (Hfull q Hq); lia].
  assert (q' = q) as -> by congruence. cbn [fst snd].
  rewrite exec_bind, exec_locked. cbn [set_aux aux fst snd]. rewrite registry_of_set.
  rewrite exec_bind. unfold logged, void, Del. rewrite exec_bind, exec_try, exec_redis_healthy by done.
  eexists. split; [reflexivity|]. cbn. split; [|done]. unfold registry_of. cbn. by rewrite lookup_insert_eq.
Qed.

Lemma prefix_keys run worker : runWorkerKey run ≠ workerInstanceKey worker.
Proof. unfold runWorkerKey, workerInstanceKey. done. Qed.

(** A cancellation that reaches a replica the run's worker is not connected
    to is delivered by the replica it is connected to: while the store works
    and the worker's lease has not expired, [CancelJob] answers yes, and the
    owning replica's forwarding loop then puts the command at the end of the
    worker's queue and forgets the run, locally and in the store. *)
Theorem cancel_reaches_owner self owner run worker ch q w :
  faults w = [] → owner ≠ self →
  local_channel run (registry_of self (aux w)) = None →
  redis_get (clock w) (runWorkerKey run) (redis (aux w)) = Some worker →
  redis_get (clock w) (workerInstanceKey worker) (redis (aux w)) = Some owner →
  redis_subscribed (cancelChannel owner) (redis (aux w)) = true →
  redis_receive (cancelChannel owner) (redis (aux w)) = None →
  local_channel run (registry_of owner (aux w)) = Some ch →
  channels (registry_of owner (aux w)) !! ch = Some q → length q < channel_capacity →
  ∃ w1 w2, exec (Registry_CancelJob self run) w = (Ok true, w1) ∧
    exec (SubscribeCancelForwarding_step owner) w1 = (Ok (), w2) ∧
    channels (registry_of owner (aux w2)) !! ch = Some (q ++ [WorkerCommand_CancelJob run]) ∧
    runToWorker (registry_of owner (aux w2)) !! run = None ∧
    redis_get (clock w2) (runWorkerKey run) (redis (aux w2)) = None.
Proof using RedisLaws0.
  intros Hf Hne Hself Hrun Howner Hsub Hnomsg Hch Hq Hl.
  destruct (receive_publish (cancelChannel owner) run (redis (aux w)) Hsub Hnomsg)
    as (r' & Hrecv & _).
  unfold Registry_CancelJob. rewrite exec_bind, cancelLocal_elsewhere by done.
  rewrite exec_bind. unfold Get at 1. rewrite exec_redis_healthy by done.
  cbn [fst snd set_aux aux redis clock]. rewrite Hrun, exec_bind. unfold Get at 1.
  rewrite exec_redis_healthy by done. cbn [fst snd with_redis set_aux set_faults aux redis clock].
  rewrite Howner, bool_decide_false by done. rewrite exec_bind. unfold Publish.
  rewrite exec_redis_healthy by done.
  cbn [exec snd]. set (w1 := with_redis _ _). exists w1.
  unfold SubscribeCancelForwarding_step. rewrite exec_bind, exec_call.
  change (redis (aux w1)) with (redis_publish (cancelChannel owner) run (redis (aux w))).
  rewrite Hrecv.
  set (w1' := set_aux _ w1). unfold void. rewrite exec_bind.
  assert (registry_of owner (aux w1') = registry_of owner (aux w)) as Ho.
  { unfold registry_of, w1', w1. cbn. by rewrite lookup_insert_ne. }
  destruct (cancelLocal_here owner run ch q w1') as (w2 & H2 & Hs2 & Hr2);
    [done|by rewrite Ho..|done|].
  rewrite H2. exists w2. split; [done|]. split; [done|]. rewrite Hs2, Ho, Hr2. cbn.
  rewrite lookup_insert_eq, lookup_delete_eq, get_del. done.
Qed.
End forwarding.

(** ** Queues never overflow *)

Section bounded.
Context {R : Type} `{!RedisOps R}.
Notation W := (World (Cluster R)).

(** Every queue of every replica is within its channel's capacity. *)
Definition bounded (w : W) : Prop :=
  map_Forall (λ _ s, map_Forall (λ _ q, length q ≤ channel_capacity) (channels s))
    (registries (aux w)).

Definition keeps_bounds (w w' : W) : Prop := bounded w → bounded w'.

#[export] Instance keeps_bounds_preorder : PreOrder keeps_bounds.
Proof. unfold keeps_bounds. split; [by intros w|]. intros w1 w2 w3. auto. Qed.

Lemma bounds_redis {A} (f : Z → R → A * R) : steps_in keeps_bounds (redis_cmd f).
Proof.
  apply steps_in_call. intros w Hw. destruct (faults w) as [|[] fs]; [|done|];
    by destruct (f _ _).
Qed.

Lemma bounds_logged p : steps_in keeps_bounds p → steps_in keeps_bounds (logged p).
Proof. intros Hp. by apply steps_in_void, steps_in_try. Qed.

Definition queues_ok (s : RegistryState) : Prop :=
  map_Forall (λ _ q, length q ≤ channel_capacity) (channels s).

Lemma bounds_locked {A} self (f : RegistryState → A * RegistryState) :
  (∀ s, queues_ok s → queues_ok (f s).2) → steps_in keeps_bounds (locked self f).
Proof.
  intros Hf. apply steps_in_call. intros w Hw. specialize (Hf (registry_of self (aux w))).
  destruct (f _) as [a s]. apply map_Forall_insert_2; [|done]. apply Hf.
  unfold registry_of. destruct (registries (aux w) !! self) as [s'|] eqn:Hs; [|done].
  exact (Hw self s' Hs).
Qed.

Lemma queues_try_send ch cmd s : queues_ok s → queues_ok (try_send ch cmd s).2.
Proof.
  intros Hs. destruct (try_send_cases ch cmd s) as [(q & _ & Hl & ->)|[_ ->]]; [|done].
  apply map_Forall_insert_2; [|done]. rewrite length_app. simpl. lia.
Qed.

Lemma queues_try_receive ch s : queues_ok s → queues_ok (try_receive ch s).2.
Proof.
  intros Hs. unfold try_receive. destruct (channels s !! ch) as [[|cmd q]|] eqn:Hq; try done.
  apply map_Forall_insert_2; [|done]. specialize (Hs ch _ Hq). simpl in Hs. lia.
Qed.

Lemma queues_dispatch cmd run engine ws s :
  queues_ok s → queues_ok (dispatch_loop cmd run engine ws s).2.
Proof.
  intros Hs. induction ws as [|[i wk] ws IH]; cbn [dispatch_loop]; [done|].
  destruct (negb _); [done|]. pose proof (queues_try_send (jobs wk) cmd s Hs) as Hsend.
  by destruct (try_send (jobs wk) cmd s) as [[] s'].
Qed.

(** The requests a replica's registry serves: the workers' calls, the
    services', and the background loops. *)
Inductive registry_request (self : string)
    (map_order : list (string * workerEntry) → list (string * workerEntry)) : prog W () → Prop :=
| reg_register id engines runs : registry_request self map_order
    (void (Server_Register self id engines runs))
| reg_stream id sends : registry_request self map_order (void (Server_StreamJobs self id sends))
| reg_dispatch run o ws e c k : registry_request self map_order
    (void (Registry_Dispatch self map_order run o ws e c k))
| reg_cancel run : registry_request self map_order (void (Registry_CancelJob self run))
| reg_forward : registry_request self map_order (SubscribeCancelForwarding_step self)
| reg_heartbeat : registry_request self map_order (Heartbeat_tick self map_order)
| reg_forget run : registry_request self map_order (Registry_Forget self run).

Definition any_registry_request (p : prog W ()) : Prop :=
  ∃ self map_order, registry_request self map_order p.

Lemma bounds_cancelLocal self run : steps_in keeps_bounds (cancelLocal self run).
Proof.
  unfold cancelLocal. apply steps_in_bind; [by apply bounds_locked|intros [ch|]; [|exact I]].
  apply steps_in_bind; [apply bounds_locked; intros; by apply queues_try_send|intros delivered].
  apply steps_in_bind; [by apply bounds_locked|intros _].
  apply steps_in_bind; [apply bounds_logged, bounds_redis|done].
Qed.

Lemma bounds_stream self ch sends : steps_in keeps_bounds (stream_loop self ch sends).
Proof.
  induction sends as [|sent sends IH]; cbn [stream_loop]; [done|].
  apply steps_in_bind; [apply bounds_locked; intros; by apply queues_try_receive|].
  intros [cmd|]; [|done]. destruct sent; [|done]. by apply steps_in_bind.
Qed.

Lemma registry_request_bounds p : any_registry_request p → steps_in keeps_bounds p.
Proof.
  intros (self & map_order & Hp).
  assert (∀ s id, queues_ok s → queues_ok (delete_worker id s)) as Hdel by done.
  destruct Hp.
  - apply steps_in_void. unfold Server_Register, register.
    apply steps_in_bind; [apply steps_in_ensure|intros _]. apply steps_in_bind; [|done].
    apply steps_in_bind.
    { apply bounds_locked. intros s Hs. apply map_Forall_insert_2; [simpl; lia|exact Hs]. }
    intros _. apply steps_in_bind; [apply bounds_logged, bounds_redis|intros _].
    apply steps_in_range. intros r. apply bounds_logged, bounds_redis.
  - apply steps_in_void. unfold Server_StreamJobs.
    apply steps_in_bind; [by apply bounds_locked|intros [entry|]; [|done]].
    apply steps_in_bind; [apply steps_in_try, bounds_stream|intros r].
    apply steps_in_bind; [|intros _; apply steps_in_lift]. unfold deregister.
    apply steps_in_bind; [by apply bounds_locked|intros _; apply bounds_logged, bounds_redis].
  - apply steps_in_void. unfold Registry_Dispatch.
    apply steps_in_bind; [apply bounds_locked; intros; by apply queues_dispatch|intros id].
    case_bool_decide; [done|]. apply steps_in_bind; [apply bounds_logged, bounds_redis|done].
  - apply steps_in_void. unfold Registry_CancelJob.
    apply steps_in_bind; [apply bounds_cancelLocal|intros [delivered []]; [done|]].
    apply steps_in_bind; [apply bounds_redis|intros [worker|]; [|done]].
    apply steps_in_bind; [apply bounds_redis|intros [owner|]; [|done]].
    case_bool_decide; [done|]. apply steps_in_bind; [apply bounds_redis|done].
  - unfold SubscribeCancelForwarding_step. apply steps_in_bind.
    { apply steps_in_call. intros w Hw. by destruct (redis_receive _ _) as [[m r]|]. }
    intros [run|]; [|done]. apply steps_in_void, bounds_cancelLocal.
  - unfold Heartbeat_tick. apply steps_in_bind; [by apply bounds_locked|intros ids].
    apply steps_in_range. intros id. apply bounds_logged, bounds_redis.
  - unfold Registry_Forget. apply steps_in_bind; [by apply bounds_locked|intros _].
    apply bounds_logged, bounds_redis.
Qed.

(** No interleaving of registrations, streams, dispatches, cancellations
    and background loops of any replicas, with time passing and commands to
    the store failing, ever has more commands waiting for a worker than its
    channel holds. *)
Theorem queues_bounded c c' :
  Forall any_registry_request c.2 →
  pool_steps (λ w w', registries (aux w') = registries (aux w)) any_registry_request c c' →
  bounded c.1 → bounded c'.1.
Proof.
  intros Hall Hsteps.
  eapply (pool_steps_in _ any_registry_request keeps_bounds c c');
    [|exact registry_request_bounds| |exact Hsteps].
  - intros w w' Hw. unfold keeps_bounds, bounded. by rewrite Hw.
  - eapply Forall_impl; [exact Hall|exact registry_request_bounds].
Qed.
End bounded.

(** ** Concrete replicas *)

Lemma Dispatch_spec_witness :
  ∃ b w', exec (Registry_Dispatch "cp-1" (λ l, l) "run-1" "org" "ws" "terraform" "{}" "{}") demo =
      (Ok b, w') ∧
    (b = true ↔ ∃ id wk q, available one_worker "terraform" id wk q) ∧
    match b with
    | true => ∃ id wk q, available one_worker "terraform" id wk q ∧
        registry_of "cp-1" (aux w') = set_route "run-1" id (enqueued (jobs wk) q
          (WorkerCommand_JobAssignment "run-1" "org" "ws" "terraform" "{}" "{}") one_worker)
    | false => registry_of "cp-1" (aux w') = one_worker
    end.
Proof.
  apply (Dispatch_spec "cp-1" (λ l, l) ltac:(done) "run-1" "org" "ws" "terraform" "{}" "{}" demo).
  by vm_compute.
Defined.

(** ["run-1"] runs on the worker of replica ["cp-2"]. *)
Definition two_replicas : World (Cluster Keyspace) :=
  (exec (register "cp-2" "worker-2" ["terraform"] ["run-1"]) demo).2.

Lemma cancel_reaches_owner_witness :
  ∃ w1 w2, exec (Registry_CancelJob "cp-1" "run-1") two_replicas = (Ok true, w1) ∧
    exec (SubscribeCancelForwarding_step "cp-2") w1 = (Ok (), w2) ∧
    channels (registry_of "cp-2" (aux w2)) !! 0 = Some [WorkerCommand_CancelJob "run-1"] ∧
    runToWorker (registry_of "cp-2" (aux w2)) !! "run-1" = None ∧
    redis_get (clock w2) (runWorkerKey "run-1") (redis (aux w2)) = None.
Proof.
  apply (cancel_reaches_owner "cp-1" "cp-2" "run-1" "worker-2" 0 [] two_replicas);
    first [done|by vm_compute|by unfold channel_capacity; simpl; lia].
Defined.

Definition dispatching : prog (World (Cluster Keyspace)) () :=
  void (Registry_Dispatch "cp-1" (λ l, l) "run-1" "org" "ws" "terraform" "{}" "{}").
Definition canceling : prog (World (Cluster Keyspace)) () :=
  void (Registry_CancelJob "cp-1" "run-1").

Lemma queues_bounded_witness :
  bounded (sched [0; 1; 0; 1; 1; 1] (demo, [dispatching; canceling])).1.
Proof.
  apply (queues_bounded (demo, [dispatching; canceling])).
  - constructor; [|constructor; [|constructor]]; exists "cp-1", (λ l, l).
    + apply reg_dispatch.
    + apply reg_cancel.
  - apply sched_steps.
  - apply (bool_decide_unpack _). by vm_compute.
Defined.

(** ** A worker that registers again while its old stream is open *)

(** ["worker-1"] loses its connection and registers again before the
    handler of its first stream returns: what that stream does after its
    [defer] is reached. *)
Definition reregistered : World (Cluster Keyspace) :=
  (exec (Server_Register "cp-1" "worker-1" ["terraform"] []) demo).2.

(** The deferred [deregister] of a stream removes whatever entry bears the
    worker's name: when a worker has registered again before its old stream
    ends, the new registration is removed, and a job that a moment ago could
    be dispatched to it finds no worker. *)
Lemma stale_stream_unregisters :
  (exec (Registry_Dispatch "cp-1" (λ l, l) "run-1" "org" "ws" "terraform" "{}" "{}")
     reregistered).1 = Ok true ∧
  let after := (exec (deregister "cp-1" "worker-1") reregistered).2 in
  workers (registry_of "cp-1" (aux after)) !! "worker-1" = None ∧
  (exec (Registry_Dispatch "cp-1" (λ l, l) "run-1" "org" "ws" "terraform" "{}" "{}")
     after).1 = Ok false.
Proof. by vm_compute. Qed.
