(* ===== verification/WorkerSpec.v ===== *)
(** * What the worker guarantees

    A job leaves no process and no file of its own behind, however it ends;
    it is reported once, unless it was canceled, and then never. *)
From S2P Require Import Prelude Prog FleetDomain FleetText Registry Worker.

Section worker_spec.
Context {X : Type} `{!Processes X}.
Notation W := (WorkerState X).
Implicit Types (w : W) (p : prog W Result).

(** ** One job at a time *)

Section jobs.
Context {laws : ProcessLaws X}.

(** The worker's own bookkeeping is as before. *)
Definition same_books w w' : Prop :=
  running w' = running w ∧ contexts w' = contexts w ∧ canceled w' = canceled w ∧
  reported w' = reported w.

Lemma same_books_trans w1 w2 w3 : same_books w1 w2 → same_books w2 w3 → same_books w1 w3.
Proof using All. intros (?&?&?&?) (?&?&?&?). repeat split; congruence. Qed.

(** Apart from its files, and from what the tools do, a step leaves nothing. *)
Definition leaves_no_process w w' : Prop :=
  same_books w w' ∧ live w' = live w ∧ temp_dirs w' = temp_dirs w ∧ temp_files w' = temp_files w.

Lemma leaves_refl w : leaves_no_process w w.
Proof using All. by repeat split. Qed.
Lemma leaves_trans w1 w2 w3 :
  leaves_no_process w1 w2 → leaves_no_process w2 w3 → leaves_no_process w1 w3.
Proof using All.
  intros (?&?&?&?) (?&?&?&?). split; [by eapply same_books_trans|]. repeat split; congruence.
Qed.

Lemma ctx_done_books ctx w w' : leaves_no_process w w' → ctx_done ctx w' = ctx_done ctx w.
Proof using All. intros ((_ & _ & Hc & _) & _). unfold ctx_done. by rewrite Hc. Qed.

(** A result is [context.Canceled] only if the context is done. *)
Definition honest (ctx : nat) w (r : Result) : Prop :=
  ∀ e, r.2 = Some e → err_canceled e = true → ctx_done ctx w = true.

(** The part of an engine after its [defer]s. *)
Definition body (ctx : nat) p : Prop := ∀ w, ∃ r w',
  exec p w = (Ok r, w') ∧ leaves_no_process w w' ∧ honest ctx w r.

Lemma body_ret ctx out err : (∀ e, err = Some e → err_canceled e = false) → body ctx (Ret (out, err)).
Proof using All.
  intros He w. exists (out, err), w. split; [done|]. split; [apply leaves_refl|].
  intros e Hsome Hc. by rewrite (He e Hsome) in Hc.
Qed.

Lemma body_or_return {A} ctx (p : prog W (go_err + A)) k :
  (∀ w, ∃ r w', exec p w = (Ok r, w') ∧ leaves_no_process w w' ∧
     ∀ e, r = inl e → err_canceled e = false) →
  (∀ a, body ctx (k a)) → body ctx (or_return p k).
Proof using All.
  intros Hp Hk w. destruct (Hp w) as (r & w1 & Hx & Hl & He). unfold or_return.
  rewrite exec_bind, Hx. destruct r as [e|a].
  - exists ("", Some e), w1. split; [done|]. split; [done|]. intros ? [= <-] Hc.
    by rewrite (He e eq_refl) in Hc.
  - destruct (Hk a w1) as (r & w2 & Hx2 & Hl2 & Hh). exists r, w2. split; [done|].
    split; [by eapply leaves_trans|]. intros e Hr Hc. rewrite <-(ctx_done_books ctx w w1 Hl).
    by eapply Hh.
Qed.

Lemma WriteFile_body name content mode w : ∃ r w',
  exec (WriteFile name content mode) w = (Ok r, w') ∧ leaves_no_process w w' ∧
  ∀ e, r = inl e → err_canceled e = false.
Proof using All.
  unfold WriteFile, step. rewrite exec_call. destruct (io_error name (host w)) as [e|] eqn:He.
  - exists (inl e), w. split; [done|]. split; [apply leaves_refl|]. intros ? [= <-].
    by eapply io_not_canceled.
  - eexists _, _. split; [reflexivity|]. split; [by repeat split|done].
Qed.

Lemma body_deferred_all ctx d p : body ctx p → body ctx (deferred (RemoveAll d) p).
Proof using All.
  intros Hp w. destruct (Hp w) as (r & w1 & Hx & Hl & Hh). unfold deferred.
  rewrite exec_bind, Hx. eexists r, _. split; [reflexivity|]. split; [|done].
  eapply leaves_trans; [exact Hl|]. by repeat split.
Qed.

(** Starting a process and waiting for it leaves no process. *)
Lemma Start_cases cmd w :
  (∃ e w', exec (Start cmd) w = (Ok (inl e), w') ∧ leaves_no_process w w' ∧ err_canceled e = false) ∨
  (∃ pid w', exec (Start cmd) w = (Ok (inr pid), w') ∧ pid ∉ live w ∧
     live w' = {[pid]} ∪ live w ∧ same_books w w' ∧ temp_dirs w' = temp_dirs w ∧
     temp_files w' = temp_files w).
Proof using All.
  unfold Start, step. rewrite exec_call.
  destruct (start cmd (live w) (files w) (host w)) as [[[e|pid] fs] x] eqn:Hs; cbn.
  - left. eexists _, _. split; [reflexivity|]. split; [by repeat split|].
    by eapply start_not_canceled.
  - right. eexists _, _. split; [reflexivity|]. split; [by eapply start_fresh|]. by repeat split.
Qed.

Lemma Wait_exec pid w : ∃ err w', exec (Wait pid) w = (Ok err, w') ∧
  live w' = live w ∖ {[pid]} ∧ same_books w w' ∧ temp_dirs w' = temp_dirs w ∧
  temp_files w' = temp_files w ∧ ∀ e, err = Some e → err_canceled e = false.
Proof using All.
  unfold Wait, step. rewrite exec_call. destruct (exits pid (files w) (host w)) as [[err fs] x] eqn:He.
  cbn. eexists _, _. split; [reflexivity|]. repeat split. intros e ->. by eapply exits_not_canceled.
Qed.

Lemma waited pid (l l1 l2 : gset nat) : pid ∉ l → l1 = {[pid]} ∪ l → l2 = l1 ∖ {[pid]} → l2 = l.
Proof using All. intros Hp -> ->. set_solver. Qed.

Lemma body_execWithCancel ctx cmd : body ctx (execWithCancel ctx cmd).
Proof using All.
  intros w. unfold execWithCancel. rewrite exec_bind.
  destruct (Start_cases cmd w) as [(e & w1 & -> & Hl & He)|(pid & w1 & -> & Hp & Hl & Hb & Hd & Hf)].
  { exists ("", Some e), w1. split; [done|]. split; [done|]. intros ? [= <-]. congruence. }
  rewrite exec_bind. unfold select_exit at 1, step. rewrite exec_call.
  destruct (negb (ctx_done ctx w1) || ready pid (host w1)) eqn:Hsel.
  - rewrite exec_bind. destruct (Wait_exec pid w1) as (err & w2 & -> & Hl2 & Hb2 & Hd2 & Hf2 & He).
    eexists (_, err), w2. split; [reflexivity|]. split.
    + split; [by eapply same_books_trans|]. split; [by eapply waited|]. split; congruence.
    + intros e Hr Hc. simpl in Hr. by rewrite (He e Hr) in Hc.
  - apply orb_false_iff in Hsel as [Hdone _]. apply negb_false_iff in Hdone.
    rewrite exec_bind. unfold Kill at 1, step. rewrite exec_call, exec_bind.
    set (w2 := set_host _ _ _ w1). unfold select_grace, step. rewrite exec_call, exec_bind.
    assert (∃ w3, exec (if ready pid (host w2) then Ret () else Kill pid SIGKILL) w2 = (Ok (), w3) ∧
      live w3 = live w1 ∧ same_books w1 w3 ∧ temp_dirs w3 = temp_dirs w1 ∧
      temp_files w3 = temp_files w1) as (w3 & -> & Hl3 & Hb3 & Hd3 & Hf3).
    { destruct (ready pid (host w2)); eexists; (split; [reflexivity|]); by repeat split. }
    rewrite exec_bind. destruct (Wait_exec pid w3) as (err & w4 & -> & Hl4 & Hb4 & Hd4 & Hf4 & _).
    eexists (_, Some Canceled), w4. split; [reflexivity|]. split.
    + split; [by do 2 (eapply same_books_trans; [|done])|].
      split; [eapply waited; [done|exact Hl|congruence]|]. split; congruence.
    + intros _ _ _. destruct Hb as (_ & _ & Hc & _). revert Hdone. unfold ctx_done. by rewrite Hc.
Qed.

Lemma CombinedOutput_exec cmd w : ∃ r w', exec (CombinedOutput cmd) w = (Ok r, w') ∧
  leaves_no_process w w' ∧ ∀ e, r.2 = Some e → err_canceled e = false.
Proof using All.
  unfold CombinedOutput. rewrite exec_bind.
  destruct (Start_cases cmd w) as [(e & w1 & -> & Hl & He)|(pid & w1 & -> & Hp & Hl & Hb & Hd & Hf)].
  { exists ("", Some e), w1. split; [done|]. split; [done|]. by intros ? [= <-]. }
  rewrite exec_bind. destruct (Wait_exec pid w1) as (err & w2 & -> & Hl2 & Hb2 & Hd2 & Hf2 & He).
  eexists (_, err), w2. split; [reflexivity|]. split; [|exact He].
  split; [by eapply same_books_trans|]. split; [by eapply waited|]. split; congruence.
Qed.

(** What is done with a result keeps a body honest. *)
Lemma body_bind ctx p (k : Result → prog W Result) : body ctx p →
  (∀ out e, err_canceled e = false → body ctx (k (out, Some e))) →
  (∀ out, body ctx (k (out, None))) →
  (∀ out e w, ctx_done ctx w = true → ∃ r w', exec (k (out, Some e)) w = (Ok r, w') ∧
     leaves_no_process w w') →
  body ctx (p ≫= k).
Proof using All.
  intros Hp Herr Hok Hdone w. destruct (Hp w) as (r & w1 & Hx & Hl & Hh). rewrite exec_bind, Hx.
  pose proof (ctx_done_books ctx w w1 Hl) as Hcd. destruct r as [out [e|]].
  - destruct (err_canceled e) eqn:Hc.
    + specialize (Hh e eq_refl Hc). rewrite <-Hcd in Hh.
      destruct (Hdone out e w1 Hh) as (r & w2 & Hx2 & Hl2). exists r, w2. split; [done|].
      split; [by eapply leaves_trans|]. intros _ _ _. by rewrite <-Hcd.
    + destruct (Herr out e Hc w1) as (r & w2 & Hx2 & Hl2 & Hh2). exists r, w2. split; [done|].
      split; [by eapply leaves_trans|]. intros e' Hr Hc'. rewrite <-Hcd. by eapply Hh2.
  - destruct (Hok out w1) as (r & w2 & Hx2 & Hl2 & Hh2). exists r, w2. split; [done|].
    split; [by eapply leaves_trans|]. intros e' Hr Hc'. rewrite <-Hcd. by eapply Hh2.
Qed.

Lemma body_run_tool ctx cmd what k : (∀ out, body ctx (k out)) → body ctx (run_tool ctx cmd what k).
Proof using All.
  intros Hk. apply body_bind; [apply body_execWithCancel|..].
  - intros out e He. apply body_ret. by intros ? [= <-].
  - exact Hk.
  - intros out e w _. eexists _, w. split; [reflexivity|apply leaves_refl].
Qed.

Lemma body_then_tool ctx cmd what initOut : body ctx (then_tool ctx cmd what initOut).
Proof using All.
  apply body_bind; [apply body_execWithCancel|..].
  - intros out e He. apply body_ret. by intros ? [= <-].
  - intros out. by apply body_ret.
  - intros out e w _. eexists _, w. split; [reflexivity|apply leaves_refl].
Qed.

(** ** The engines *)

Definition dir_gone w (dir : string) : Prop := ∀ path, below dir path = true → files w !! path = None.

(** What a job left behind: the same processes as before, and of the files
    and directories it was given names for, none. *)
Definition nothing_left w w' : Prop :=
  same_books w w' ∧ live w' = live w ∧
  ∃ dirs fs, temp_dirs w' = dirs ++ temp_dirs w ∧ temp_files w' = fs ++ temp_files w ∧
    (∀ d, d ∈ dirs → dir_gone w' d) ∧ (∀ f, f ∈ fs → files w' !! f = None).

Definition tidy (ctx : nat) p : Prop := ∀ w, ∃ r w',
  exec p w = (Ok r, w') ∧ nothing_left w w' ∧ honest ctx w r.

Lemma tidy_body ctx p : body ctx p → tidy ctx p.
Proof using All.
  intros Hp w. destruct (Hp w) as (r & w' & Hx & (Hb & Hl & Hd & Hf) & Hh). exists r, w'.
  split; [done|]. split; [|done]. split; [done|]. split; [done|]. exists [], [].
  split_and!; [done|done|by intros d ?%elem_of_nil|by intros d ?%elem_of_nil].
Qed.

Lemma RemoveAll_gone d (fs : Files) path : below d path = true →
  filter (λ f : string * (string * Z), below d f.1 = false) fs !! path = None.
Proof using All.
  intros Hb. apply map_lookup_filter_None. right. intros x _. simpl. by rewrite Hb.
Qed.

Lemma tidy_in_dir ctx pattern k : (∀ d, body ctx (k d)) →
  tidy ctx (or_return (MkdirTemp pattern) (λ d, deferred (RemoveAll d) (k d))).
Proof using All.
  intros Hk w. unfold or_return, MkdirTemp, step. rewrite exec_bind, exec_call.
  destruct (io_error pattern (host w)) as [e|] eqn:He.
  { destruct (tidy_body ctx (Ret ("", Some e))) with w as (r & w' & Hx & H); [|by exists r, w'].
    apply body_ret. intros ? [= <-]. by eapply io_not_canceled. }
  set (d := temp_name _ _ _). set (w1 := add_temp _ _ w). unfold deferred. rewrite exec_bind.
  destruct (Hk d w1) as (r & w2 & -> & (Hb & Hl & Hd & Hf) & Hh).
  eexists r, _. split; [reflexivity|]. split; [|exact Hh]. split; [exact Hb|]. split; [exact Hl|].
  exists [d], []. split_and!; [exact Hd|exact Hf| |by intros f ?%elem_of_nil].
  intros d' ->%list_elem_of_singleton path Hp. by apply RemoveAll_gone.
Qed.

Lemma tidy_with_file ctx pattern k : (∀ f, body ctx (k f)) →
  tidy ctx (or_return (CreateTemp pattern) (λ f, deferred (Remove f) (k f))).
Proof using All.
  intros Hk w. unfold or_return, CreateTemp, step. rewrite exec_bind, exec_call.
  destruct (io_error pattern (host w)) as [e|] eqn:He.
  { destruct (tidy_body ctx (Ret ("", Some e))) with w as (r & w' & Hx & H); [|by exists r, w'].
    apply body_ret. intros ? [= <-]. by eapply io_not_canceled. }
  set (f := temp_name _ _ _). set (w1 := add_temp _ _ _). unfold deferred. rewrite exec_bind.
  destruct (Hk f w1) as (r & w2 & -> & (Hb & Hl & Hd & Hf) & Hh).
  eexists r, _. split; [reflexivity|]. split; [|exact Hh]. split; [exact Hb|]. split; [exact Hl|].
  exists [], [f]. split_and!; [exact Hd|exact Hf|by intros d ?%elem_of_nil|].
  intros f' ->%list_elem_of_singleton. apply lookup_delete_eq.
Qed.

Lemma body_compose ctx tmp compose content :
  body ctx (or_return (WriteFile tmp content 384) (λ _,
    r ← execWithCancel ctx (compose ["up"; "-d"]);
    match r with
    | (out, Some err) =>
        (if err_canceled err then void (CombinedOutput (compose ["down"])) else Ret ());;
        Ret (out, Some err)
    | _ => Ret r
    end)).
Proof using All.
  apply body_or_return; [apply WriteFile_body|intros _].
  apply body_bind; [apply body_execWithCancel|..].
  - intros out e He. rewrite He. apply body_ret. by intros ? [= <-].
  - intros out. by apply body_ret.
  - intros out e w _. destruct (err_canceled e).
    + destruct (CombinedOutput_exec (compose ["down"]) w) as (r & w' & Hx & Hl & _).
      eexists _, w'. split; [|exact Hl]. unfold void. by rewrite !exec_bind, Hx.
    + eexists _, w. split; [reflexivity|apply leaves_refl].
Qed.

Lemma tidy_one_tool ctx pattern file content cmd what :
  tidy ctx (or_return (MkdirTemp pattern) (λ workDir, deferred (RemoveAll workDir)
    (or_return (WriteFile (path_Join workDir file) content 420) (λ _,
     run_tool ctx (cmd workDir) what (λ out, Ret (out, None)))))).
Proof using All.
  apply tidy_in_dir. intros d. apply body_or_return; [apply WriteFile_body|intros _].
  apply body_run_tool. intros out. by apply body_ret.
Qed.

Lemma tidy_two_tools ctx pattern file content cmd1 cmd2 what1 what2 :
  tidy ctx (or_return (MkdirTemp pattern) (λ workDir, deferred (RemoveAll workDir)
    (or_return (WriteFile (path_Join workDir file) content 420) (λ _,
     run_tool ctx (cmd1 workDir) what1 (then_tool ctx (cmd2 workDir) what2))))).
Proof using All.
  apply tidy_in_dir. intros d. apply body_or_return; [apply WriteFile_body|intros _].
  apply body_run_tool. intros out. apply body_then_tool.
Qed.

Lemma tidy_kubeconfig ctx job name manifest args what :
  tidy ctx (kubeconfig_Execute name manifest args what ctx job).
Proof using All.
  unfold kubeconfig_Execute. destruct (negb _).
  - apply tidy_body, body_ret. by intros ? [= <-].
  - apply tidy_in_dir. intros d. do 2 (apply body_or_return; [apply WriteFile_body|intros _]).
    apply body_run_tool. intros out. by apply body_ret.
Qed.

Lemma tidy_kubespray ctx job : tidy ctx (KubesprayEngine_Execute ctx job).
Proof using All.
  unfold KubesprayEngine_Execute. destruct (negb _).
  - apply tidy_body, body_ret. by intros ? [= <-].
  - apply tidy_in_dir. intros d. apply body_or_return; [apply WriteFile_body|intros _].
    apply body_deferred_all, body_bind.
    + intros w. destruct (CombinedOutput_exec (mkCmd ["cp"; "-r";
        path_Join kubesprayDir (path_Join "inventory" "sample"); inventory_dir job] "" []) w)
        as (r & w' & Hx & Hl & He).
      exists r, w'. split; [done|]. split; [done|]. intros e Hr Hc. by rewrite (He e Hr) in Hc.
    + intros out e He. apply body_ret. by intros ? [= <-].
    + intros out. apply body_or_return; [apply WriteFile_body|intros _].
      apply body_run_tool. intros out'. by apply body_ret.
    + intros out e w _. eexists _, w. split; [reflexivity|apply leaves_refl].
Qed.

Lemma tidy_engine name eng ctx job : engine_for name = Some eng → tidy ctx (eng ctx job).
Proof using All.
  unfold engine_for, engines. cbn [List.find fst snd].
  repeat (case_bool_decide; [intros [= <-]|]); [..|done].
  - apply tidy_with_file. intros f. apply body_compose.
  - apply tidy_two_tools.
  - apply tidy_two_tools.
  - apply tidy_one_tool.
  - apply tidy_two_tools.
  - apply tidy_kubeconfig.
  - apply tidy_kubeconfig.
  - apply tidy_kubespray.
Qed.

Lemma handleJob_ends ctx job w :
  ∃ w', exec (handleJob ctx job) w = (Ok (), w') ∧ running w' = running w.
Proof using All.
  unfold handleJob, report, step.
  destruct (engine_for (job_ExecutionEngine job)) as [eng|] eqn:Heng.
  - destruct (tidy_engine _ eng ctx job Heng w) as (r & w1 & Hx & ((Hr & _) & _) & _).
    rewrite exec_bind, Hx. destruct r as [out [e|]]; cbn beta iota; [destruct (err_canceled e)|];
      rewrite ?exec_call; eexists; (split; [reflexivity|]); try done; by destruct (ctx_done ctx w1).
  - rewrite exec_call. eexists. split; [reflexivity|]. by destruct (ctx_done ctx w).
Qed.

(** The report a job deserves: [applied] with the output when its tools
    succeeded, and otherwise [failed] with the error. *)
Definition job_report (ctx : nat) (job : JobAssignment) w (r : JobStatusReport) : Prop :=
  (jr_RunId r, jr_OrganizationId r, jr_WorkspaceId r) =
    (job_RunId job, job_OrganizationId job, job_WorkspaceId job) ∧
  match engine_for (job_ExecutionEngine job) with
  | None => jr_Status r = "failed"
  | Some eng => ∃ out err w', exec (eng ctx job) w = (Ok (out, err), w') ∧ jr_LogLine r = out ∧
      match err with
      | None => jr_Status r = "applied" ∧ jr_ErrorMessage r = ""
      | Some e => jr_Status r = "failed" ∧ jr_ErrorMessage r = err_text e
      end
  end.

(** C24: However a job ends - its tools succeed or fail, a file cannot be
    written, or it is canceled - every process it started has exited and
    every file and directory it was given is gone; one report with the
    outcome is sent, or none if the job was canceled. *)
Theorem handleJob_spec ctx job w :
  ∃ w', exec (handleJob ctx job) w = (Ok (), w') ∧
    running w' = running w ∧ live w' = live w ∧
    (∃ dirs fs, temp_dirs w' = dirs ++ temp_dirs w ∧ temp_files w' = fs ++ temp_files w ∧
       (∀ d, d ∈ dirs → dir_gone w' d) ∧ (∀ f, f ∈ fs → files w' !! f = None)) ∧
    if ctx_done ctx w then reported w' = reported w
    else ∃ r, reported w' = reported w ++ [r] ∧ job_report ctx job w r.
Proof using All.
  unfold handleJob, report, step.
  destruct (engine_for (job_ExecutionEngine job)) as [eng|] eqn:Heng.
  - destruct (tidy_engine _ eng ctx job Heng w) as (r & w1 & Hx & ((Hr & Hcs & Hc & Hrep) & Hl & Hfs) & Hh).
    assert (ctx_done ctx w1 = ctx_done ctx w) as Hcd by (unfold ctx_done; by rewrite Hc).
    rewrite exec_bind, Hx. destruct r as [out [e|]]; cbn beta iota; [destruct (err_canceled e) eqn:Hec|].
    + exists w1. split; [done|]. split; [exact Hr|]. split; [exact Hl|]. split; [exact Hfs|].
      by rewrite (Hh e eq_refl Hec).
    + rewrite exec_call, Hcd. destruct (ctx_done ctx w).
      * exists w1. split; [reflexivity|]. split; [exact Hr|]. split; [exact Hl|]. by split.
      * eexists. split; [reflexivity|]. split; [exact Hr|]. split; [exact Hl|]. split; [exact Hfs|].
        eexists. split; [by simpl; rewrite Hrep|]. split; [done|]. rewrite Heng.
        exists out, (Some e), w1. by split_and!.
    + rewrite exec_call, Hcd. destruct (ctx_done ctx w).
      * exists w1. split; [reflexivity|]. split; [exact Hr|]. split; [exact Hl|]. by split.
      * eexists. split; [reflexivity|]. split; [exact Hr|]. split; [exact Hl|]. split; [exact Hfs|].
        eexists. split; [by simpl; rewrite Hrep|]. split; [done|]. rewrite Heng.
        exists out, None, w1. by split_and!.
  - rewrite exec_call. destruct (ctx_done ctx w) eqn:Hcd.
    + exists w. split; [done|]. split; [done|]. split; [done|]. split; [|done]. exists [], [].
      split_and!; [done|done|by intros d ?%elem_of_nil|by intros d ?%elem_of_nil].
    + eexists. split; [reflexivity|]. split; [done|]. split; [done|]. split.
      * exists [], []. split_and!; [done|done|by intros d ?%elem_of_nil|by intros d ?%elem_of_nil].
      * eexists. split; [reflexivity|]. split; [done|]. by rewrite Heng.
Qed.

(** A job that ran to its end is forgotten, so a later cancellation of its
    run finds nothing. *)
Lemma goroutine_forgets ctx job w :
  ∃ w', exec (goroutine ctx job) w = (Ok (), w') ∧ running w' = delete (job_RunId job) (running w).
Proof using All.
  destruct (handleJob_ends ctx job w) as (w1 & Hx & Hr). unfold goroutine, step.
  rewrite exec_bind, Hx. eexists. split; [reflexivity|]. simpl. by rewrite Hr.
Qed.
End jobs.

(** ** Any interleaving *)

Section interleaving.
Context (run : string) (ctx : nat).

Definition of_run (rs : list JobStatusReport) : list JobStatusReport :=
  filter (λ r, jr_RunId r = run) rs.

(** Once the context is canceled no report of the run is sent. *)
Definition silenced w w' : Prop :=
  canceled w ⊆ canceled w' ∧ (ctx ∈ canceled w → of_run (reported w') = of_run (reported w)).
#[local] Instance silenced_preorder : PreOrder silenced.
Proof.
  split; [by intros w|]. intros w1 w2 w3 [H1 H1'] [H2 H2']. split; [set_solver|].
  intros Hin. rewrite H2' by set_solver. auto.
Qed.

(** Steps that neither cancel nor report. *)
Definition unreported w w' : Prop := canceled w' = canceled w ∧ reported w' = reported w.
Lemma unreported_silenced w w' : unreported w w' → silenced w w'.
Proof using Type. intros [Hc Hr]. split; [by rewrite Hc|]. by rewrite Hr. Qed.

Lemma step_silenced {A} (f : W → A * W) : (∀ w, silenced w (f w).2) → steps_in silenced (step f).
Proof using Type. intros Hf. apply steps_in_call. intros w. specialize (Hf w). by destruct (f w). Qed.
Lemma step_unreported {A} (f : W → A * W) : (∀ w, unreported w (f w).2) → steps_in silenced (step f).
Proof using Type. intros Hf. apply step_silenced. intros w. apply unreported_silenced, Hf. Qed.

Ltac quiet_tool :=
  repeat first
    [ exact I
    | apply steps_in_bind; [|intros ?]
    | apply step_unreported; intros ?; by repeat case_match
    | case_match ].

Lemma silenced_exec ctx' cmd : steps_in silenced (execWithCancel ctx' cmd).
Proof using Type. unfold execWithCancel, Start, Wait, Output, Kill, select_exit, select_grace. quiet_tool. Qed.
Lemma silenced_combined cmd : steps_in silenced (CombinedOutput cmd).
Proof using Type. unfold CombinedOutput, Start, Wait, Output. quiet_tool. Qed.
Lemma silenced_write n c m : steps_in silenced (WriteFile n c m).
Proof using Type. unfold WriteFile. quiet_tool. Qed.

Lemma silenced_or_return {A} (p : prog W (go_err + A)) k :
  steps_in silenced p → (∀ a, steps_in silenced (k a)) → steps_in silenced (or_return p k).
Proof using Type. intros Hp Hk. apply steps_in_bind; [done|]. intros [e|a]; [exact I|apply Hk]. Qed.
Lemma silenced_in_dir pattern k : (∀ d, steps_in silenced (k d)) →
  steps_in silenced (or_return (MkdirTemp pattern) (λ d, deferred (RemoveAll d) (k d))).
Proof using Type.
  intros Hk. apply silenced_or_return; [unfold MkdirTemp; quiet_tool|]. intros d.
  apply steps_in_bind; [apply Hk|intros r]. unfold RemoveAll. quiet_tool.
Qed.
Lemma silenced_tool ctx' cmd what k :
  (∀ out, steps_in silenced (k out)) → steps_in silenced (run_tool ctx' cmd what k).
Proof using Type.
  intros Hk. apply steps_in_bind; [apply silenced_exec|]. intros [out [e|]]; [exact I|apply Hk].
Qed.
Lemma silenced_then ctx' cmd what out : steps_in silenced (then_tool ctx' cmd what out).
Proof using Type. apply steps_in_bind; [apply silenced_exec|]. by intros [o e]. Qed.

Lemma silenced_engine name eng ctx' job : engine_for name = Some eng → steps_in silenced (eng ctx' job).
Proof using Type.
  unfold engine_for, engines. cbn [List.find fst snd].
  repeat (case_bool_decide; [intros [= <-]|]); [..|done];
    unfold ComposeEngine_Execute, terraformFamilyEngine_Execute, AnsibleEngine_Execute,
      PackerEngine_Execute, KubernetesEngine_Execute, HelmEngine_Execute, kubeconfig_Execute,
      KubesprayEngine_Execute;
    try (destruct (negb _); [exact I|]);
    try (apply silenced_in_dir; intros d);
    repeat (apply silenced_or_return; [apply silenced_write|intros _]);
    try (apply silenced_tool; intros o); try exact I; try apply silenced_then.
  - apply silenced_or_return; [unfold CreateTemp; quiet_tool|]. intros f.
    apply steps_in_bind; [|intros r; unfold Remove; quiet_tool].
    apply silenced_or_return; [apply silenced_write|intros _].
    apply steps_in_bind; [apply silenced_exec|]. intros [o [e|]]; [|exact I].
    apply steps_in_bind; [|done]. destruct (err_canceled e); [|exact I].
    apply steps_in_void, silenced_combined.
  - apply steps_in_bind; [|intros r; unfold RemoveAll; quiet_tool].
    apply steps_in_bind; [apply silenced_combined|]. intros [o [e|]]; [exact I|].
    apply silenced_or_return; [apply silenced_write|intros _]. by apply silenced_tool.
Qed.

(** A report is silent when it is another run's, or when its job's context
    is [ctx]: a call whose context is done is not sent. *)
Lemma silenced_report ctx' job st out e : job_RunId job ≠ run ∨ ctx' = ctx →
  steps_in silenced (report ctx' job st out e).
Proof using Type.
  intros Hor. apply step_silenced. intros w. simpl. unfold ctx_done.
  case_bool_decide as Hd; [done|]. split; [done|]. simpl. intros Hin.
  unfold of_run. rewrite filter_app. destruct Hor as [Hne| ->]; [|done].
  rewrite (filter_cons_False _ _ []) by done. by rewrite filter_nil, app_nil_r.
Qed.

Lemma silenced_goroutine ctx' job : job_RunId job ≠ run ∨ ctx' = ctx →
  steps_in silenced (goroutine ctx' job).
Proof using Type.
  intros Hor. unfold goroutine. apply steps_in_bind; [|intros _].
  - unfold handleJob. destruct (engine_for _) as [eng|] eqn:He; [|by apply silenced_report].
    apply steps_in_bind; [by eapply silenced_engine|]. intros [o [e|]]; [|by apply silenced_report].
    destruct (err_canceled e); [exact I|by apply silenced_report].
  - apply steps_in_bind; [by apply step_unreported|intros _].
    apply step_silenced. intros w. split; [simpl; set_solver|done].
Qed.

(** The goroutine of the run's job, the jobs of other runs, cancellations. *)
Inductive worker_thread : prog W () → Prop :=
| wt_mine job : worker_thread (goroutine ctx job)
| wt_other job : job_RunId job ≠ run → worker_thread (assign job)
| wt_cancel r : worker_thread (cancel r).

Lemma worker_thread_silenced (t : prog W ()) : worker_thread t → steps_in silenced t.
Proof using Type.
  destruct 1 as [job|job Hne|r].
  - apply silenced_goroutine. by right.
  - unfold assign. apply steps_in_bind; [by apply step_unreported|intros ctx'].
    apply steps_in_bind; [by apply step_unreported|intros _]. apply silenced_goroutine. by left.
  - unfold cancel. apply steps_in_bind; [by apply step_unreported|]. intros [ctx'|]; [|exact I].
    apply step_silenced. intros w. split; [simpl; set_solver|done].
Qed.

(** Between steps contexts may be canceled: the process is shutting down. *)
Definition worker_env w w' : Prop := reported w' = reported w ∧ canceled w ⊆ canceled w'.

(** C25: From the moment the context of a run's job is canceled nothing is
    reported of the run any more, whatever the worker's other jobs and
    commands do: the report a canceled job could still send does not
    overwrite the cancellation. *)
Theorem canceled_run_not_reported c0 c1 c2 :
  Forall worker_thread c0.2 → pool_steps worker_env worker_thread c0 c1 →
  ctx ∈ canceled c1.1 → pool_steps worker_env worker_thread c1 c2 →
  of_run (reported c2.1) = of_run (reported c1.1).
Proof using Type.
  intros Hall H01 Hin H12.
  assert (∀ w w', worker_env w w' → silenced w w') as Henv.
  { intros w w' [Hr Hc]. split; [done|]. by rewrite Hr. }
  destruct (pool_steps_in worker_env worker_thread silenced c0 c1) as [_ Hall1];
    [exact Henv|exact worker_thread_silenced| |exact H01|].
  { eapply Forall_impl; [exact Hall|exact worker_thread_silenced]. }
  destruct (pool_steps_in worker_env worker_thread silenced c1 c2) as [[_ H] _];
    [exact Henv|exact worker_thread_silenced|exact Hall1|exact H12|]. auto.
Qed.
End interleaving.
End worker_spec.

(** ** A concrete worker *)

(** Tools that never end by themselves, and end when they are signalled. *)
#[export] Instance demo_processes : Processes () := {|
  start cmd live fs x := (inr (fresh live), fs, x);
  exits pid fs x := (None, fs, x);
  ready pid x := false;
  signal pid sig x := x;
  output pid x := "output";
  io_error name x := None;
  temp_name pattern fs x := "/tmp/" +:+ pattern;
|}.

#[export] Instance demo_process_laws : ProcessLaws ().
Proof. split; intros; simplify_eq/=; try done. apply is_fresh. Qed.

Definition demo_worker : WorkerState () := mkWorker {["run" := 0]} 1 ∅ ∅ ∅ [] [] [] ().
Definition kube_job (run : string) : JobAssignment :=
  mkJob run "org" "ws" "kubernetes" "kind: Pod" "kubeconfig".

Lemma handleJob_spec_witness :
  ∃ w', exec (handleJob 0 (kube_job "run")) demo_worker = (Ok (), w') ∧
    temp_dirs w' = ["/tmp/job-run-kubernetes"] ∧ files w' = ∅ ∧ live w' = ∅ ∧
    reported w' = [mkReport "run" "org" "ws" "applied" "output" ""].
Proof.
  destruct (handleJob_spec 0 (kube_job "run") demo_worker) as (w' & Hx & _ & Hl & _ & r & Hr & _).
  exists w'. split; [exact Hx|].
  assert ((exec (handleJob 0 (kube_job "run")) demo_worker).2 = w') as <- by (rewrite Hx; reflexivity).
  split; [reflexivity|]. split; [vm_compute; reflexivity|]. split; [exact Hl|]. reflexivity.
Defined.

(** A cancellation overtakes the job, beside a job of another run. *)
Definition racing_jobs : WorkerState () * pool (W:=WorkerState ()) :=
  (demo_worker, [goroutine 0 (kube_job "run"); cancel "run"; assign (kube_job "other")]).

Lemma canceled_run_not_reported_witness :
  let c1 := sched [0; 2; 0; 1; 1] racing_jobs in
  let c2 := sched (replicate 20 0 ++ replicate 20 2) c1 in
  of_run "run" (reported c2.1) = [] ∧ length (reported c2.1) = 1 ∧ running c2.1 = ∅.
Proof.
  split; [|split; vm_compute; reflexivity].
  set (c1 := sched _ racing_jobs).
  rewrite (canceled_run_not_reported "run" 0 racing_jobs c1 _).
  - reflexivity.
  - repeat apply Forall_cons_2; [apply wt_mine|apply wt_cancel|by apply wt_other|constructor].
  - apply sched_steps.
  - vm_compute. reflexivity.
  - apply sched_steps.
Defined.
