(* ===== verification/RbacSpec.v ===== *)
(** * Authorization: what the RBAC queries decide

    [allowed] is the access rule the documentation states, over the rows of
    the database; the theorems show the queries compute it. *)
From S2P Require Import Prelude Prog RbacDomain TenancyDomain IdentityDomain Store RbacRepo Principal Ports.
From S2P Require Import Registry TenancyRepo RbacApp Wiring Scenario.

(** ** The rule *)

(** [s] is the subject of [b], or a member of the team that is. *)
Definition is_subject (d : DB) (o s : string) (b : RoleBinding) : Prop :=
  (rb_SubjectType b ∈ [SubjectTypeUser; SubjectTypeServiceAccount] ∧ rb_SubjectID b = s) ∨
  (rb_SubjectType b = SubjectTypeTeam ∧ ∃ k m, team_memberships d !! k = Some m ∧
     tm_OrganizationID m = o ∧ tm_UserID m = s ∧ tm_TeamID m = rb_SubjectID b).

(** The role of [b], a built-in one or the organization's, has [p]. *)
Definition role_has (d : DB) (o p : string) (b : RoleBinding) : Prop :=
  ∃ k r, roles d !! k = Some r ∧ role_ID r = rb_RoleID b ∧ p ∈ role_Permissions r ∧
    (role_OrganizationID r = None ∨ role_OrganizationID r = Some o).

(** [b] speaks about [s] doing [p] in organization [o]. *)
Definition applies (d : DB) (o s p : string) (covers : RoleBinding → Prop)
    (b : RoleBinding) : Prop :=
  (∃ k, role_bindings d !! k = Some b) ∧ rb_OrganizationID b = o ∧
  is_subject d o s b ∧ covers b ∧ role_has d o p b.

(** Some binding allows it and none denies it. *)
Definition allowed (d : DB) (o s p : string) (covers : RoleBinding → Prop) : Prop :=
  (∃ b, applies d o s p covers b ∧ rb_Effect b = EffectAllow) ∧
  ¬ ∃ b, applies d o s p covers b ∧ rb_Effect b = EffectDeny.

(** The organization itself, and the project and the workspace if given. *)
Definition covers_at (o : string) (project workspace : option string) (b : RoleBinding) : Prop :=
  (rb_ScopeType b = ScopeTypeOrganization ∧ rb_ScopeID b = o) ∨
  (rb_ScopeType b = ScopeTypeProject ∧ project = Some (rb_ScopeID b)) ∨
  (rb_ScopeType b = ScopeTypeWorkspace ∧ workspace = Some (rb_ScopeID b)).

(** Exactly one scope. *)
Definition covers_only (t id : string) (b : RoleBinding) : Prop :=
  rb_ScopeType b = t ∧ rb_ScopeID b = id.

(** An API key with scopes narrows its subject to them. *)
Definition key_permits (ctx : Ctx) (p : string) : Prop :=
  ∀ scopes, ctx_scopes ctx = Some scopes → scopes ≠ [] → p ∈ scopes.

Section queries.
Context {X : Type}.
Implicit Types w : World X.

Lemma scope_matches_spec o pr ws b : scope_matches o pr ws b = true ↔ covers_at o pr ws b.
Proof.
  unfold scope_matches, covers_at, optional_scope.
  rewrite !orb_true_iff, andb_true_iff, !bool_decide_eq_true.
  destruct pr, ws; rewrite ?andb_true_iff, ?bool_decide_eq_true; naive_solver.
Qed.

Lemma only_spec t id b :
  (rb_ScopeType b =ₛ t) && (rb_ScopeID b =ₛ id) = true ↔ covers_only t id b.
Proof. unfold covers_only. by rewrite andb_true_iff, !bool_decide_eq_true. Qed.

Lemma subject_matches_spec d o s b :
  subject_matches s (map tm_TeamID (filter (λ m : TeamMembership,
    visible (AppRole (Some o)) m &&
    ((tm_UserID m =ₛ s) && (tm_OrganizationID m =ₛ o))) (rows d))) b = true ↔
  is_subject d o s b.
Proof.
  unfold subject_matches, is_subject.
  rewrite orb_true_iff, !andb_true_iff, !bool_decide_eq_true, list_elem_of_fmap.
  apply or_iff_compat_l, and_iff_compat_l. split.
  - intros (m & Hid & ([k Hk] & Hv & Hb)%elem_of_selected). bools. eauto 10.
  - intros (k & m & Hk & Ho & Hu & Hid). exists m. split; [done|].
    apply elem_of_selected. split_and!; [by eauto| |].
    + simpl. unfold tenant_is. by rewrite Ho, bool_decide_true.
    + by rewrite !bool_decide_true.
Qed.

Lemma role_grants_spec d o p b :
  role_grants (filter (λ r : Role, visible (AppRole (Some o)) r && true) (rows d)) p b = true ↔
  role_has d o p b.
Proof.
  unfold role_grants, role_has. rewrite existsb_exists. split.
  - intros (r & Hr%list_elem_of_In & Hb). apply elem_of_selected in Hr as ([k Hk] & Hv & _).
    bools. exists k, r. split_and!; [done..|]. simpl in Hv.
    destruct (role_OrganizationID r) as [o'|]; [|by left].
    unfold tenant_is in Hv. bools. by right.
  - intros (k & r & Hk & Hid & Hp & Ho). exists r. split.
    + apply list_elem_of_In, elem_of_selected. split_and!; [by eauto| |done].
      simpl. destruct Ho as [->| ->]; [done|]. unfold tenant_is. by apply bool_decide_true.
    + by rewrite !bool_decide_true.
Qed.

(** [matching_effects] in a session of organization [o]. *)
Lemma matching_effects_ok o s p in_scope covers w l w' :
  (∀ b, in_scope b = true ↔ covers b) →
  matching_effects o s p in_scope (AppRole (Some o)) w = (Ok l, w') →
  w' = w ∧ ∀ e, e ∈ l ↔ ∃ b, applies (db w) o s p covers b ∧ rb_Effect b = e.
Proof.
  intros Hcov H. unfold matching_effects in H. tx_inv H.
  apply select_ok in Hst as [-> ->], Hst0 as [-> ->], Hst1 as [-> ->].
  subst. split; [done|]. intros e. rewrite list_elem_of_fmap.
  assert (∀ b, b ∈ filter (λ b, visible (AppRole (Some o)) b && (rb_org o b &&
      subject_matches s (map tm_TeamID (filter (λ m : TeamMembership,
        visible (AppRole (Some o)) m &&
        ((tm_UserID m =ₛ s) && (tm_OrganizationID m =ₛ o))) (rows (db w)))) b &&
      in_scope b && role_grants (filter (λ r : Role,
        visible (AppRole (Some o)) r && true) (rows (db w))) p b)) (rows (db w)) ↔
    applies (db w) o s p covers b) as Happ.
  { intros b. rewrite elem_of_selected, !andb_true_iff, Hcov, subject_matches_spec,
      role_grants_spec.
    unfold applies, rb_org. simpl. unfold tenant_is. rewrite !bool_decide_eq_true.
    naive_solver. }
  split.
  - intros (b & -> & Hb%Happ). eauto.
  - intros (b & Hb%Happ & <-). eauto.
Qed.

(** The transaction of the query decides [allowed]. *)
Lemma permission_query_exec o s p in_scope covers w r w' :
  (∀ b, in_scope b = true ↔ covers b) →
  exec (org_txn o (permission_query o s p in_scope)) w = (r, w') →
  calm w w' ∧ match r with
              | Ok b => b = true ↔ allowed (db w) o s p covers
              | Err _ => True
              end.
Proof.
  intros Hcov H. split.
  { eapply calm_exec; [|exact H]. unfold permission_query, matching_effects. calm_steps. }
  apply exec_txn in H as [_ Hr];
    [|unfold permission_query, matching_effects; tx_frame_steps].
  destruct r as [b|e]; [|done]. destruct Hr as [fs Hr].
  unfold permission_query in Hr. tx_inv Hr. subst.
  apply (matching_effects_ok o s p in_scope covers) in Hst as [-> Hl]; [|done].
  unfold decide_effects, allowed.
  by rewrite andb_true_iff, negb_true_iff, bool_decide_eq_true, bool_decide_eq_false, !Hl.
Qed.

Lemma permission_query_healthy o s p in_scope w :
  faults w = [] →
  ∃ b, exec (org_txn o (permission_query o s p in_scope)) w = (Ok b, w).
Proof.
  intros Hf. destruct (exec_txn_nofault (AppRole (Some o)) (permission_query o s p in_scope) w)
    as [He _]; [unfold permission_query, matching_effects; tx_frame_steps|done|].
  unfold org_txn. rewrite He. eexists. reflexivity.
Qed.
End queries.

(** ** Membership *)

(** An unblocked member, or a service account of the organization. *)
Definition is_member (d : DB) (o u : string) : Prop :=
  (∃ k m, organization_memberships d !! k = Some m ∧ om_OrganizationID m = o ∧
     om_UserID m = u ∧ om_BlockedAt m = None) ∨
  (∃ k a, service_accounts d !! k = Some a ∧ sa_OrganizationID a = o ∧ sa_ID a = u).

Section membership.
Context {X : Type}.
Implicit Types w : World X.

Lemma exists_visible `{Table T} s d (P : T → bool) :
  existsb (λ r, visible s r && P r) (rows d) = true ↔
  ∃ k r, tget d !! k = Some r ∧ visible s r = true ∧ P r = true.
Proof. rewrite existsb_rows. setoid_rewrite andb_true_iff. done. Qed.

Lemma IsMember_exec o u w r w' :
  exec (MembershipRepository_IsMember o u) w = (r, w') →
  calm w w' ∧ match r with Ok b => b = true ↔ is_member (db w) o u | Err _ => True end.
Proof.
  intros H. split; [by eapply calm_exec; [apply calm_IsMember|]|].
  apply exec_txn in H as [_ Hr]; [|tx_frame_steps].
  destruct r as [b|e]; [|done]. destruct Hr as [fs Hr]. tx_inv Hr.
  apply exists_where_ok in Hst as [-> ->], Hst0 as [-> ->]. subst.
  rewrite orb_true_iff, !exists_visible. unfold is_member.
  simpl. unfold tenant_is, om_in, not_blocked, sa_in.
  setoid_rewrite andb_true_iff. setoid_rewrite andb_true_iff.
  setoid_rewrite bool_decide_eq_true. naive_solver.
Qed.

(** Suspending a member ends their membership at once and lifting the
    suspension restores it; nobody else's membership changes. *)
Theorem SetBlocked_spec o u blocked w w' :
  exec (MembershipRepository_SetBlocked o u blocked) w = (Ok (), w') →
  (∀ o' v, (o', v) ≠ (o, u) → is_member (db w') o' v ↔ is_member (db w) o' v) ∧
  (is_member (db w') o u ↔
     (blocked = false ∧ ∃ k m, organization_memberships (db w) !! k = Some m ∧
        om_OrganizationID m = o ∧ om_UserID m = u) ∨
     ∃ k a, service_accounts (db w) !! k = Some a ∧ sa_OrganizationID a = o ∧ sa_ID a = u).
Proof.
  intros H. apply exec_txn in H as [_ [fs Hr]]; [|tx_frame_steps].
  tx_inv Hr. injection Hst as <- <-. subst. unfold is_member. simpl.
  assert (∀ m, (visible (AppRole (Some o)) m && om_in o u m = true) ↔
    om_OrganizationID m = o ∧ om_UserID m = u) as Hin.
  { intros m. simpl. unfold tenant_is, om_in.
    rewrite !andb_true_iff, !bool_decide_eq_true. naive_solver. }
  simpl in Hin. setoid_rewrite lookup_fmap. setoid_rewrite fmap_Some. split.
  - intros o' v Hne. apply or_iff_compat_r. split.
    + intros (k & m' & (m & Hm & ->) & Ho & Hu & Hb). exists k, m.
      destruct (tenant_is _ _ && om_in o u m) eqn:Hi; [|done].
      apply Hin in Hi as [<- <-]. simpl in *. congruence.
    + intros (k & m & Hm & Ho & Hu & Hb). eexists k, _. split; [by eauto|].
      destruct (tenant_is _ _ && om_in o u m) eqn:Hi; [|done].
      apply Hin in Hi as [<- <-]. congruence.
  - apply or_iff_compat_r. split.
    + intros (k & m' & (m & Hm & ->) & Ho & Hu & Hb).
      destruct (tenant_is _ _ && om_in o u m) eqn:Hi.
      * apply Hin in Hi as [? ?]. simpl in Hb. destruct blocked; [done|]. eauto 10.
      * pose proof (proj2 (Hin m) (conj Ho Hu)). congruence.
    + intros (-> & k & m & Hm & Ho & Hu). eexists k, _. split; [by eauto|].
      by rewrite (proj2 (Hin m) (conj Ho Hu)).
Qed.
End membership.

Lemma SetBlocked_spec_witness :
  let w' := (exec (MembershipRepository_SetBlocked "org" "bob" true) demo).2 in
  ¬ is_member (db w') "org" "bob" ∧ is_member (db w') "org" "alice".
Proof.
  cbv zeta.
  destruct (exec (MembershipRepository_SetBlocked "org" "bob" true) demo) as [[[]|e] w'] eqn:H;
    [|by vm_compute in H].
  destruct (SetBlocked_spec "org" "bob" true demo w' H) as [Hothers Hbob]. simpl. split.
  - rewrite Hbob. intros [[? _]|(k & a & Ha & _)]; [done|].
    change ((∅ : gmap string ServiceAccount) !! k = Some a) in Ha.
    by apply lookup_empty_Some in Ha.
  - apply Hothers; [done|]. left. eexists "m-1", _. split; [by vm_compute|]. done.
Defined.

(** ** Access decisions *)

Section decisions.
Context {X : Type}.
Implicit Types w : World X.

Lemma key_permits_spec ctx p : scope_forbids ctx p = false ↔ key_permits ctx p.
Proof.
  unfold key_permits. rewrite <- not_true_iff_false, scope_forbids_spec. split.
  - intros H scopes Hs Hne. destruct (decide (p ∈ scopes)); [done|]. exfalso; eauto.
  - intros H (scopes & Hs & Hne & Hp). eauto.
Qed.

Lemma HasPermissionAtScope_exec ctx o s p pr ws w r w' :
  exec (RoleBindingRepository_HasPermissionAtScope ctx o s p pr ws) w = (r, w') →
  calm w w' ∧
  match r with
  | Ok b => b = true ↔ key_permits ctx p ∧ allowed (db w) o s p (covers_at o pr ws)
  | Err _ => True
  end.
Proof.
  unfold RoleBindingRepository_HasPermissionAtScope.
  pose proof (key_permits_spec ctx p) as Hk. destruct (scope_forbids ctx p).
  - intros [= <- <-]. split; [done|naive_solver].
  - intros H. apply (permission_query_exec _ _ _ _ (covers_at o pr ws)) in H;
      [|intros; apply scope_matches_spec].
    destruct r; naive_solver.
Qed.

Lemma HasScopedPermission_exec ctx o s p t id w r w' :
  exec (RoleBindingRepository_HasScopedPermission ctx o s p t id) w = (r, w') →
  calm w w' ∧
  match r with
  | Ok b => b = true ↔ key_permits ctx p ∧ allowed (db w) o s p (covers_only t id)
  | Err _ => True
  end.
Proof.
  unfold RoleBindingRepository_HasScopedPermission.
  pose proof (key_permits_spec ctx p) as Hk. destruct (scope_forbids ctx p).
  - intros [= <- <-]. split; [done|naive_solver].
  - intros H. apply (permission_query_exec _ _ _ _ (covers_only t id)) in H;
      [|intros; apply only_spec].
    destruct r; naive_solver.
Qed.

(** What [HasPermission] is asked before every management action. *)
Definition may (d : DB) (ctx : Ctx) (o u p : string) : Prop :=
  key_permits ctx p ∧ allowed d o u p (covers_at o None None).

(** While nothing fails, whoever may is let through. *)
Lemma HasPermission_may ctx o u p w :
  faults w = [] → may (db w) ctx o u p →
  exec (RoleBindingRepository_HasPermission ctx o u p) w = (Ok true, w).
Proof.
  intros Hf Hmay. destruct (exec (RoleBindingRepository_HasPermission ctx o u p) w)
    as [r w'] eqn:H. pose proof H as H0. unfold RoleBindingRepository_HasPermission in H0.
  unfold RoleBindingRepository_HasPermissionAtScope in H0.
  rewrite (proj2 (key_permits_spec ctx p)) in H0 by apply Hmay.
  destruct (permission_query_healthy o u p (scope_matches o None None) w Hf) as [b Hb].
  rewrite Hb in H0. injection H0 as <- <-.
  apply HasPermissionAtScope_exec in H as [_ Hiff].
  by rewrite (proj2 Hiff Hmay).
Qed.

Definition sees_project (d : DB) (ctx : Ctx) (o u p : string) : Prop :=
  may d ctx o u "organization:manage" ∨
  (key_permits ctx "project:read" ∧ allowed d o u "project:read" (covers_only "project" p)).

Lemma canAccessProject_exec ctx o u p w r w' :
  exec (canAccessProject (X:=X) ctx o u p) w = (r, w') →
  calm w w' ∧ match r with Ok b => b = true ↔ sees_project (db w) ctx o u p | Err _ => True end.
Proof.
  unfold canAccessProject, sees_project. simpl HasPermission. simpl HasScopedPermission.
  intros H. apply exec_bind_inv in H as [(e & H & ->)|([|] & w1 & H & H2)].
  - apply HasPermissionAtScope_exec in H as [? _]. done.
  - apply HasPermissionAtScope_exec in H as [? Hb]. injection H2 as <- <-.
    split; [done|]. unfold may. tauto.
  - apply HasPermissionAtScope_exec in H as [Hc Hb].
    apply HasScopedPermission_exec in H2 as [Hc2 Hb2].
    split; [by etrans|]. destruct r as [b|e]; [|done].
    destruct Hc as (Hd & _). rewrite Hd in Hb2. unfold may.
    rewrite Hb2. assert (¬ (key_permits ctx "organization:manage" ∧ allowed (db w) o u
      "organization:manage" (covers_at o None None))) by (rewrite <- Hb; done). tauto.
Qed.
End decisions.

Section access.
Context {X : Type}.
Implicit Types w : World X.


(** A workspace is visible exactly to those who may manage the
    organization and to those with a read binding on that very project or
    that very workspace; a read binding on the organization is not enough. *)
Theorem workspace_visibility ctx o u p ws w b w' :
  exec (canAccessWorkspace (X:=X) ctx o u p ws) w = (Ok b, w') →
  db w' = db w ∧
  (b = true ↔ sees_project (db w) ctx o u p ∨
     (key_permits ctx "workspace:read" ∧
      allowed (db w) o u "workspace:read" (covers_only "workspace" ws))).
Proof.
  unfold canAccessWorkspace. intros H.
  apply exec_bind_inv in H as [(e & _ & ?)|(b1 & w1 & H & H2)]; [done|].
  apply canAccessProject_exec in H as [[Hd _] Hb]. destruct b1.
  - injection H2 as <- <-. split; [done|]. tauto.
  - simpl in H2. apply HasScopedPermission_exec in H2 as [[Hd2 _] Hb2].
    split; [congruence|]. rewrite Hd in Hb2. rewrite Hb2.
    assert (¬ sees_project (db w) ctx o u p) by (rewrite <- Hb; done). tauto.
Qed.

(** The first two checks of a mutation. *)
Lemma manage_gate_ok ctx o u w w' x :
  exec (manage_gate (X:=X) ctx o u) w = (Ok x, w') →
  calm w w' ∧ is_member (db w) o u ∧ may (db w) ctx o u "organization:manage".
Proof.
  unfold manage_gate. intros H.
  apply exec_bind_ok in H as (b1 & w1 & H1 & H).
  apply IsMember_exec in H1 as [Hc1 Hb1].
  apply exec_bind_ok in H as (? & w2 & H2 & H). apply exec_ensure_ok in H2 as [-> ->].
  apply exec_bind_ok in H as (b3 & w3 & H3 & H). simpl in H3.
  apply HasPermissionAtScope_exec in H3 as [Hc3 Hb3].
  apply exec_ensure_ok in H as [-> ->].
  split; [by etrans|]. destruct Hc1 as (Hd1 & _). rewrite Hd1 in Hb3.
  split; [by apply Hb1|by apply Hb3].
Qed.
End access.


Lemma workspace_visibility_witness :
  db demo = db demo ∧
  (false = true ↔ sees_project demo_db background "org" "bob" "project" ∨
     (key_permits background "workspace:read" ∧
      allowed demo_db "org" "bob" "workspace:read" (covers_only "workspace" "ws"))).
Proof.
  apply (workspace_visibility background "org" "bob" "project" "ws" demo false demo).
  by vm_compute.
Defined.

(** The built-in roles form a chain, read below write below admin below
    owner; owner has every permission, only owner has the deletions, and
    every permission of a built-in role is a known one. *)
Theorem builtin_roles_nested :
  builtin_permissions RoleRead ⊆ builtin_permissions RoleWrite ∧
  builtin_permissions RoleWrite ⊆ builtin_permissions RoleAdmin ∧
  builtin_permissions RoleAdmin ⊆ builtin_permissions RoleOwner ∧
  (∀ p, p ∈ builtin_permissions RoleOwner ↔ p ∈ AllPermissions) ∧
  (∀ p, p ∈ AllPermissions → p ∉ builtin_permissions RoleAdmin →
     p ∈ [PermissionOrganizationDelete; PermissionProjectDelete; PermissionWorkspaceDelete;
          PermissionMachineDelete; PermissionNetworkVolumeDelete; PermissionComposeFileDelete]).
Proof.
  assert (∀ l1 l2 : list string, bool_decide (Forall (λ p, p ∈ l2) l1) = true → l1 ⊆ l2)
    as Hsub.
  { intros l1 l2 H%bool_decide_eq_true p Hp. by eapply Forall_forall in H. }
  split_and!; [by apply Hsub; vm_compute..| |].
  - intros p. split; apply Hsub; by vm_compute.
  - intros p Hp Hn.
    assert (p ∈ filter (λ p, p ∉ builtin_permissions RoleAdmin) AllPermissions) as Hf
      by by apply list_elem_of_filter.
    revert Hf. apply Hsub. by vm_compute.
Qed.
