(* ===== verification/Gates.v ===== *)
(** * What the gates of the services establish

    The questions a service asks before it acts, and what a "yes" means about
    the rows of the database. *)
From S2P Require Import Prelude Prog RunDomain WorkspaceDomain TenancyDomain IdentityDomain Store WorkspaceRepo.
From S2P Require Import TenancyRepo RbacRepo Principal Ports WorkspaceApp Registry Wiring RbacSpec.

Section gates.
Context {X : Type}.
Implicit Types w : World X.

Lemma WorkspaceExists_exec o p ws w r w' :
  exec (WorkspaceRepository_WorkspaceExists o p ws) w = (r, w') →
  calm w w' ∧
  match r with
  | Ok b => b = true ↔ ∃ k row, workspaces (db w) !! k = Some row ∧
      ws_OrganizationID row = o ∧ ws_ProjectID row = p ∧ ws_ID row = ws
  | Err _ => True
  end.
Proof.
  intros H. split; [by eapply calm_exec; [apply calm_WorkspaceExists|]|].
  apply exec_txn in H as [_ Hr]; [|tx_frame_steps].
  destruct r as [b|e]; [|done]. destruct Hr as [fs Hr].
  apply exists_where_ok in Hr as [-> ->]. rewrite exists_visible. simpl.
  unfold tenant_is, ws_in_org. setoid_rewrite andb_true_iff. setoid_rewrite andb_true_iff.
  setoid_rewrite bool_decide_eq_true. naive_solver.
Qed.

Lemma IsArchived_exec o w r w' :
  exec (OrganizationRepository_IsArchived o) w = (r, w') →
  calm w w' ∧
  match r with
  | Ok b => ∃ row, organizations (db w) !! o = Some row ∧
      (b = true ↔ org_Status row = OrganizationStatusArchived)
  | Err _ => True
  end.
Proof.
  intros H. split; [by eapply calm_exec; [apply calm_IsArchived|]|].
  apply exec_txn in H as [_ Hr]; [|tx_frame_steps].
  destruct r as [b|e]; [|done]. destruct Hr as [fs Hr]. tx_inv Hr.
  apply select_pk_ok in Hst as [-> ->].
  destruct (row_at _ _ _ _) as [row|] eqn:Hrow; tx_inv Hr. subst.
  apply row_at_Some in Hrow as (Hrow & _ & _). exists row. split; [done|].
  by rewrite bool_decide_eq_true.
Qed.

Definition has_project (d : DB) (o p : string) : Prop :=
  ∃ k row, projects d !! k = Some row ∧ proj_OrganizationID row = o ∧ proj_ID row = p.

Lemma ProjectExists_exec o p w r w' :
  exec (ProjectRepository_ProjectExists o p) w = (r, w') →
  calm w w' ∧ match r with Ok b => b = true ↔ has_project (db w) o p | Err _ => True end.
Proof.
  intros H. split; [by eapply calm_exec; [apply calm_ProjectExists|]|].
  apply exec_txn in H as [_ Hr]; [|tx_frame_steps].
  destruct r as [b|e]; [|done]. destruct Hr as [fs Hr].
  apply exists_where_ok in Hr as [-> ->]. rewrite exists_visible. unfold has_project. simpl.
  unfold tenant_is. setoid_rewrite andb_true_iff. setoid_rewrite bool_decide_eq_true.
  naive_solver.
Qed.

(** The gate of the workspace services: a member, a project of the
    organization. *)
Lemma project_gate_ok o p u w w' :
  exec (project_gate (X:=X) o p u) w = (Ok (), w') →
  calm w w' ∧ is_member (db w) o u ∧ has_project (db w) o p.
Proof.
  unfold project_gate. ports. intros H.
  apply exec_bind_ok in H as (b & w1 & H1 & H). apply IsMember_exec in H1 as [Hc1 Hm].
  apply exec_bind_ok in H as ([] & w1' & [-> ->]%exec_ensure_ok & H).
  apply exec_bind_ok in H as (b & w2 & H2 & H). apply ProjectExists_exec in H2 as [Hc2 Hp].
  apply exec_ensure_ok in H as [-> ->].
  split; [by etrans|]. split; [by apply Hm|]. destruct Hc1 as [Hd _]. rewrite Hd in Hp. by apply Hp.
Qed.

(** The gate of the tenancy and identity services: a member with a permission
    in the organization. *)
Lemma permission_gate_ok notMember forbidden ctx o u p w w' :
  exec (permission_gate (X:=X) notMember forbidden ctx o u p) w = (Ok (), w') →
  calm w w' ∧ is_member (db w) o u ∧ may (db w) ctx o u p.
Proof.
  unfold permission_gate, member_gate. ports. simpl HasPermission. intros H.
  apply exec_bind_ok in H as ([] & w1 & H1 & H).
  apply exec_bind_ok in H1 as (b & w1' & H1 & [-> ->]%exec_ensure_ok).
  apply IsMember_exec in H1 as [Hc1 Hm].
  apply exec_bind_ok in H as (b & w2 & H2 & H). unfold RoleBindingRepository_HasPermission in H2.
  apply HasPermissionAtScope_exec in H2 as [Hc2 Hb].
  apply exec_ensure_ok in H as [-> ->]. split; [by etrans|]. destruct Hc1 as [Hd _].
  rewrite Hd in Hb. split; [by apply Hm|by apply Hb].
Qed.

Definition is_active (d : DB) (o : string) : Prop :=
  ∃ org, organizations d !! o = Some org ∧ org_Status org ≠ OrganizationStatusArchived.

Lemma not_archived_ok o w w' e :
  exec (archived ← OrganizationRepository_IsArchived o; ensure (negb archived) e) w =
    (Ok (), w') →
  calm w w' ∧ is_active (db w) o.
Proof.
  intros (b & w1 & H1 & [Hb ->]%exec_ensure_ok)%exec_bind_ok.
  apply IsArchived_exec in H1 as [Hc (row & Hrow & Hs)]. split; [done|].
  exists row. split; [done|]. intros Harch%Hs. by subst.
Qed.
End gates.
