(* ===== verification/RbacMutations.v ===== *)
(** * What the RBAC mutations do

    Replacing a role, creating and updating custom roles, creating bindings;
    and two things they allow that their comments exclude. *)
From S2P Require Import Prelude Prog RbacDomain TenancyDomain IdentityDomain Store RbacRepo Principal Ports.
From S2P Require Import Registry TenancyRepo IdentityRepo RbacApp Wiring Scenario RbacSpec.

Section mutations.
Context {X : Type}.
Implicit Types w : World X.

(** ** Built-in role names *)

Lemma builtin_role_id_frame name : tx_frame (X:=X) (builtin_role_id name).
Proof. unfold builtin_role_id. tx_frame_steps. Qed.

Lemma builtin_role_id_ok name s w id w' :
  builtin_role_id name s w = (Ok id, w') →
  w' = w ∧ ∃ k r, roles (db w) !! k = Some r ∧ role_ID r = id ∧ role_Name r = name ∧
    role_OrganizationID r = None.
Proof.
  unfold builtin_role_id. intros H. tx_inv H. apply select_ok in Hst as [-> ->].
  destruct (filter _ _) as [|r l] eqn:Hl; tx_inv H. subst. split; [done|].
  assert (r ∈ filter (λ r, visible s r && builtin_named name r) (rows (db w))) as Hr
    by (rewrite Hl; set_solver).
  apply elem_of_selected in Hr as ([k Hk] & _ & Hb). unfold builtin_named in Hb. bools. eauto 10.
Qed.

(** The organization-scope bindings of a user. *)
Definition org_bindings (d : DB) (o u : string) (b : RoleBinding) : Prop :=
  ∃ k, role_bindings d !! k = Some b ∧ org_scope_user_binding o u b = true.

Lemma org_scope_visible o u b :
  org_scope_user_binding o u b = true → visible (AppRole (Some o)) b = true.
Proof.
  unfold org_scope_user_binding, rb_org. intros H. bools. simpl. unfold tenant_is.
  by apply bool_decide_true; f_equal.
Qed.

Lemma new_org_binding_matches id now o role u :
  org_scope_user_binding o u (NewOrganizationScopeBinding id now o role u) = true.
Proof. unfold org_scope_user_binding, rb_org. simpl. by rewrite !bool_decide_true. Qed.

(** After [ReplaceRole] the user has exactly one organization-scope
    binding, an allow of a built-in role of that name; every other binding
    of every subject is as it was.  If it fails nothing has changed. *)
Theorem ReplaceRole_spec o u name w r w' :
  exec (RoleBindingRepository_ReplaceRole o u name) w = (r, w') →
  match r with
  | Err _ => db w' = db w
  | Ok _ => ∃ new role, (∃ k, roles (db w) !! k = Some role) ∧
      role_Name role = name ∧ role_OrganizationID role = None ∧
      rb_RoleID new = role_ID role ∧ rb_Effect new = EffectAllow ∧
      (∀ b, org_bindings (db w') o u b ↔ b = new) ∧
      (∀ k b, org_scope_user_binding o u b = false →
         role_bindings (db w') !! k = Some b ↔ role_bindings (db w) !! k = Some b)
  end.
Proof.
  intros H. apply exec_txn in H as [_ Hr];
    [|unfold insert_org_binding; tx_frame_steps; apply builtin_role_id_frame].
  destruct r as [[]|e]; [|done]. destruct Hr as [fs Hr]. tx_inv Hr.
  apply builtin_role_id_ok in Hst as (-> & k & role & Hk & <- & Hn & Ho).
  apply delete_where_ok in Hst0 as (_ & -> & _). unfold insert_org_binding, delete_rows in Hr. cbn in Hr.
  apply insert_row_ok in Hr as (_ & Hfresh & _ & _ & ->). simpl in *.
  set (new := NewOrganizationScopeBinding _ _ _ _ _) in *.
  exists new, role. split_and!; [by eauto|done..| |].
  - intros b. unfold org_bindings. simpl. split.
    + intros (j & [[_ <-]|[_ [Hj Hf]%map_lookup_filter_Some]]%lookup_insert_Some & Hm); [done|].
      simpl in Hf. pose proof (org_scope_visible o u b Hm) as Hv. simpl in Hv.
      by rewrite Hv, Hm in Hf.
    + intros ->. exists (rb_ID new). rewrite lookup_insert_eq. split; [done|].
      apply new_org_binding_matches.
  - intros j b Hm. simpl. rewrite lookup_insert_Some, map_lookup_filter_Some. simpl.
    rewrite Hm, andb_false_r. split.
    + intros [[_ <-]|[_ [? _]]]; [|done].
      unfold new in Hm. by rewrite new_org_binding_matches in Hm.
    + intros Hj. right. split; [|done]. intros <-.
      apply map_lookup_filter_None in Hfresh as [?|Hf]; [congruence|].
      apply (Hf b Hj). simpl. by rewrite Hm, andb_false_r.
Qed.

(** ** Custom roles *)

Lemma or_already_exists_world {A} (t : Tx X A) s w :
  (or_already_exists t s w).2 = (t s w).2.
Proof.
  unfold or_already_exists. destruct (t s w) as [[a|e] w1]; [done|].
  destruct e; try done. by repeat case_match.
Qed.

Lemma or_already_exists_ok {A} (t : Tx X A) s w a w' :
  or_already_exists t s w = (Ok a, w') → t s w = (Ok a, w').
Proof.
  unfold or_already_exists. destruct (t s w) as [[a'|e] w1]; [done|].
  destruct e; try done. by repeat case_match.
Qed.

(** A role is created only by a member who may manage the organization,
    with permissions of the fixed set and at least one, and becomes a role
    of that organization: it is never a built-in one. *)
Theorem CreateRole_ok ctx inp w role w' :
  exec (CreateRole (X:=X) ctx inp) w = (Ok role, w') →
  is_member (db w) (cr_OrganizationID inp) (cr_RequestingUserID inp) ∧
  may (db w) ctx (cr_OrganizationID inp) (cr_RequestingUserID inp) "organization:manage" ∧
  role_OrganizationID role = Some (cr_OrganizationID inp) ∧
  role_Name role = cr_Name inp ∧ role_Permissions role = cr_Permissions inp ∧
  role_Permissions role ≠ [] ∧ Forall (λ p, p ∈ AllPermissions) (role_Permissions role) ∧
  roles (db w) !! role_ID role = None ∧
  db w' = put_row (role_ID role) role (db w).
Proof.
  unfold CreateRole. intros H.
  apply exec_bind_ok in H as (? & w1 & H1 & H). apply manage_gate_ok in H1 as ([Hd1 _] & Hm & Hp).
  apply exec_bind_ok in H as (ps & w2 & H2 & H). rewrite exec_lift in H2.
  injection H2 as H2 <-. apply known_permissions_ok in H2 as [-> Hall].
  apply exec_bind_ok in H as (id & w3 & H3 & H). injection H3 as <- <-.
  apply exec_bind_ok in H as (r & w4 & H4 & H). rewrite exec_lift in H4.
  injection H4 as H4 <-. apply NewRole_ok in H4 as (_ & _ & Hne & ->).
  apply exec_bind_ok in H as (? & w5 & H5 & H). injection H as <- <-.
  unfold RoleRepository_Create in H5. simpl in H5.
  apply exec_txn in H5 as [_ [fs H5]].
  2:{ intros s w0. rewrite or_already_exists_world. apply tx_frame_insert. }
  apply or_already_exists_ok, insert_row_ok in H5 as (_ & Hn & _ & _ & ->).
  simpl in *. rewrite Hd1 in *. split_and!; done.
Qed.

(** Built-in roles, as rows, are what they were. *)
Definition keeps_builtin (d d' : DB) : Prop := ∀ k r,
  roles d !! k = Some r → role_OrganizationID r = None → roles d' !! k = Some r.

#[export] Instance keeps_builtin_preorder : PreOrder keeps_builtin.
Proof. split; [by intros d k r|]. intros d1 d2 d3 H1 H2 k r Hk Ho. by apply H2; [apply H1|]. Qed.

Definition keeps (w w' : World X) : Prop := keeps_builtin (db w) (db w').
#[export] Instance keeps_preorder : PreOrder keeps.
Proof. unfold keeps. split; [intros w; reflexivity|]. intros w1 w2 w3 ??. by etrans. Qed.

Lemma calm_keeps {A} (p : prog (World X) A) : steps_in calm p → steps_in keeps p.
Proof. apply steps_in_mono. intros w w' [Hd _]. unfold keeps. by rewrite Hd. Qed.

Lemma keeps_org_txn {A} o (t : Tx X A) :
  tx_in keeps_builtin (AppRole (Some o)) t → steps_in keeps (org_txn o t).
Proof. intros H. by apply (txn_in keeps_builtin). Qed.

Lemma keeps_Create role : steps_in keeps (RoleRepository_Create role).
Proof.
  unfold RoleRepository_Create. destruct (role_OrganizationID role) as [o|] eqn:Ho; [|done].
  apply keeps_org_txn. intros w. rewrite or_already_exists_world.
  apply (tx_in_insert keeps_builtin). intros d Hd _ _ _ k r Hk _. simpl in *.
  rewrite lookup_insert_ne; [done|congruence].
Qed.

Lemma keeps_Update role : steps_in keeps (RoleRepository_Update role).
Proof.
  unfold RoleRepository_Update. destruct (role_OrganizationID role) as [o|] eqn:Ho; [|done].
  apply keeps_org_txn. tx_in_steps. apply tx_in_update_pk; [apply _|].
  intros d r Hr _ Hb k r' Hk Hn. bools. simpl in *.
  rewrite lookup_insert_ne; [done|]. intros <-. congruence.
Qed.

Lemma keeps_binding_Create b : steps_in keeps (RoleBindingRepository_Create b).
Proof. apply keeps_org_txn. apply tx_in_insert_or_nothing; [apply _|]. by intros d ???? k r. Qed.

Lemma keeps_binding_Delete o id : steps_in keeps (RoleBindingRepository_Delete o id).
Proof. apply keeps_org_txn. tx_in_steps. apply tx_in_delete; [apply _|]. by intros d k r. Qed.
End mutations.

Section immutability.
Context {X : Type}.
Notation keeps := (keeps (X:=X)).

Lemma keeps_manage_gate ctx o u : steps_in keeps (manage_gate (X:=X) ctx o u).
Proof.
  apply calm_keeps. unfold manage_gate. ports. simpl HasPermission.
  unfold RoleBindingRepository_HasPermission.
  calm_steps; auto using calm_IsMember, calm_HasPermissionAtScope.
Qed.

Lemma keeps_GetByID o id : steps_in keeps (RoleRepository_GetByID o id).
Proof. apply calm_keeps. unfold RoleRepository_GetByID. calm_steps. Qed.

Lemma keeps_CreateRole ctx inp : steps_in keeps (CreateRole (X:=X) ctx inp).
Proof.
  unfold CreateRole. apply steps_in_bind; [apply keeps_manage_gate|intros ?].
  apply steps_in_bind; [by destruct (known_permissions _)|intros ps].
  apply steps_in_bind; [apply calm_keeps; calm_steps|intros id].
  apply steps_in_bind; [by destruct (NewRole _ _ _ _)|intros role].
  apply steps_in_bind; [apply keeps_Create|done].
Qed.

Lemma keeps_UpdateRole ctx inp : steps_in keeps (UpdateRole (X:=X) ctx inp).
Proof.
  unfold UpdateRole. apply steps_in_bind; [apply keeps_manage_gate|intros ?].
  apply steps_in_bind; [apply keeps_GetByID|intros role].
  apply steps_in_bind; [apply steps_in_ensure|intros ?].
  apply steps_in_bind; [by destruct (known_permissions _)|intros ps].
  apply steps_in_bind; [apply steps_in_ensure|intros ?].
  apply steps_in_bind; [apply keeps_Update|done].
Qed.

Lemma keeps_CreateRoleBinding ctx inp : steps_in keeps (CreateRoleBinding (X:=X) ctx inp).
Proof.
  unfold CreateRoleBinding. apply steps_in_bind; [apply keeps_manage_gate|intros ?].
  do 3 (apply steps_in_bind; [apply steps_in_ensure|intros ?]).
  apply steps_in_bind; [apply keeps_GetByID|intros role].
  apply steps_in_bind; [apply steps_in_ensure|intros ?].
  apply steps_in_bind.
  { apply calm_keeps. unfold check_subject. cbn [TeamExists ServiceAccountExists IsMember
      team_checker service_account_checker membership_checker].
    unfold TeamRepository_TeamExists, ServiceAccountRepository_ServiceAccountExists.
    calm_steps; apply calm_IsMember. }
  intros _. apply steps_in_bind.
  { apply calm_keeps. unfold check_scope. cbn [ProjectExists RbacWorkspaceExists
      project_checker rbac_workspace_checker].
    unfold WorkspaceRepo.WorkspaceRepository_Exists.
    calm_steps; apply calm_ProjectExists. }
  intros _. apply steps_in_bind; [apply calm_keeps; calm_steps|intros id].
  apply steps_in_bind; [apply calm_keeps; calm_steps|intros now].
  apply steps_in_bind; [apply keeps_binding_Create|done].
Qed.

Lemma keeps_DeleteRoleBinding ctx o u id :
  steps_in keeps (DeleteRoleBinding (X:=X) ctx o u id).
Proof.
  unfold DeleteRoleBinding. apply steps_in_bind; [apply keeps_manage_gate|intros ?].
  apply keeps_binding_Delete.
Qed.

(** The requests of this context that change something. *)
Inductive rbac_request : prog (World X) () → Prop :=
| req_create_role ctx inp : rbac_request (void (CreateRole ctx inp))
| req_update_role ctx inp : rbac_request (void (UpdateRole ctx inp))
| req_create_binding ctx inp : rbac_request (void (CreateRoleBinding ctx inp))
| req_delete_binding ctx o u id : rbac_request (DeleteRoleBinding ctx o u id).

Lemma rbac_request_keeps p : rbac_request p → steps_in keeps p.
Proof.
  destruct 1; try apply steps_in_void;
    auto using keeps_CreateRole, keeps_UpdateRole, keeps_CreateRoleBinding,
      keeps_DeleteRoleBinding.
Qed.

(** C40: No interleaving of role and binding requests, whoever makes them,
    changes or removes a built-in role. *)
Theorem builtin_roles_immutable c c' k r :
  Forall rbac_request c.2 →
  pool_steps (λ w w', db w' = db w) rbac_request c c' →
  roles (db c.1) !! k = Some r → role_OrganizationID r = None →
  roles (db c'.1) !! k = Some r.
Proof.
  intros Hall Hsteps.
  eapply (pool_steps_in _ rbac_request keeps c c'); [| |  |exact Hsteps].
  - intros w w' Hd. unfold RbacMutations.keeps. by rewrite Hd.
  - apply rbac_request_keeps.
  - eapply Forall_impl; [exact Hall|]. apply rbac_request_keeps.
Qed.
End immutability.

(** ** Witnesses, and two surprises *)

Definition bob_is (roleName : string) (w : World (Cluster Keyspace)) :=
  (exec (RoleBindingRepository_ReplaceRole "org" "bob" roleName) w).2.

Definition admin_role : Role :=
  mkRole "role-admin" None RoleAdmin (builtin_permissions RoleAdmin).

(** The demo deployment with the built-in admin role, and bob an admin. *)
Definition with_admin : World (Cluster Keyspace) :=
  bob_is RoleAdmin (set_db (tset (<["role-admin" := admin_role]> (roles demo_db)) demo_db) demo).

Lemma ReplaceRole_spec_witness :
  let w' := (exec (RoleBindingRepository_ReplaceRole "org" "alice" RoleOwner) demo).2 in
  ∃ new, ∀ b, org_bindings (db w') "org" "alice" b ↔ b = new.
Proof.
  cbv zeta.
  destruct (exec (RoleBindingRepository_ReplaceRole "org" "alice" RoleOwner) demo)
    as [[u|e] w'] eqn:H; [|by vm_compute in H].
  destruct (ReplaceRole_spec "org" "alice" RoleOwner demo (Ok u) w' H)
    as (new & role & _ & _ & _ & _ & _ & Hb & _).
  exists new. exact Hb.
Defined.

Definition deploy_role : CreateRoleInput :=
  {| cr_OrganizationID := "org"; cr_RequestingUserID := "alice"; cr_Name := "deployer";
     cr_Permissions := ["workspace:apply"] |}.

Lemma CreateRole_ok_witness :
  let w' := (exec (CreateRole background deploy_role) demo).2 in
  ∃ role, role_Permissions role = ["workspace:apply"] ∧
    db w' = put_row (role_ID role) role (db demo).
Proof.
  cbv zeta. destruct (exec (CreateRole background deploy_role) demo) as [[role|e] w'] eqn:H;
    [|by vm_compute in H].
  destruct (CreateRole_ok background deploy_role demo role w' H)
    as (_ & _ & _ & _ & Hps & _ & _ & _ & Hdb).
  exists role. split; [exact Hps|exact Hdb].
Defined.

Definition rbac_pool : World (Cluster Keyspace) * pool (W:=World (Cluster Keyspace)) :=
  (demo, [void (CreateRole background deploy_role);
          void (UpdateRole background {| ur_OrganizationID := "org";
            ur_RequestingUserID := "alice"; ur_RoleID := "role-owner";
            ur_Permissions := ["workspace:read"] |})]).

Lemma builtin_roles_immutable_witness :
  let c' := sched (concat (repeat [0; 1] 8)) rbac_pool in
  c'.2 = [Ret (); Throw (ErrForbidden Rbac)] ∧
  roles (db c'.1) !! "role-owner" = Some owner_role.
Proof.
  split; [by vm_compute|].
  apply (builtin_roles_immutable rbac_pool _ "role-owner" owner_role).
  - constructor; [apply req_create_role|]. constructor; [apply req_update_role|constructor].
  - apply sched_steps.
  - done.
  - done.
Defined.

(** Two bindings of the same role to the same subject at the same scope. *)
Definition same_grant (a b : RoleBinding) : Prop :=
  rb_RoleID a = rb_RoleID b ∧ rb_SubjectType a = rb_SubjectType b ∧
  rb_SubjectID a = rb_SubjectID b ∧ rb_ScopeType a = rb_ScopeType b ∧
  rb_ScopeID a = rb_ScopeID b.

(** Creating a binding where one of the same role, subject and scope is
    already there reports success and changes nothing, whatever the effects
    are: a Deny created over an existing Allow denies nothing. *)
Theorem second_effect_is_dropped {X} (w : World X) new old k :
  faults w = [] → role_bindings (db w) !! k = Some old → same_grant new old →
  ∃ w', exec (RoleBindingRepository_Create new) w = (Ok (), w') ∧ db w' = db w.
Proof.
  intros Hf Hk (H1 & H2 & H3 & H4 & H5). exists w.
  unfold RoleBindingRepository_Create, org_txn, txn. rewrite exec_call.
  rewrite run_txn_nofault by done. unfold insert_or_nothing. simpl. unfold tenant_is.
  rewrite bool_decide_true by done. simpl.
  assert (conflicts new (db w) = true) as ->; [|done].
  apply existsb_rows. exists k, old. split; [done|]. simpl. by rewrite !bool_decide_true.
Qed.

(** The owner denies bob the role he holds. *)
Definition deny_bob : CreateRoleBindingInput :=
  {| crb_OrganizationID := "org"; crb_RequestingUserID := "alice";
     crb_RoleID := "role-owner"; crb_SubjectType := "user"; crb_SubjectID := "bob";
     crb_ScopeType := "organization"; crb_ScopeID := "org"; crb_Effect := "deny" |}.
Definition bob_owner : World (Cluster Keyspace) := bob_is RoleOwner demo.

Lemma second_effect_is_dropped_witness :
  (∃ b w', exec (CreateRoleBinding background deny_bob) bob_owner = (Ok b, w') ∧
     rb_Effect b = EffectDeny ∧
     (exec (RoleBindingRepository_HasPermission background "org" "bob"
        "organization:manage") w').1 = Ok true) ∧
  ∃ w', exec (RoleBindingRepository_Create
      (NewRoleBinding "b" 0 "org" "role-owner" "user" "bob" "organization" "org" "deny"))
      bob_owner = (Ok (), w') ∧ db w' = db bob_owner.
Proof.
  split; [apply exec_ok_intro; vm_compute; split; reflexivity|].
  eapply (second_effect_is_dropped bob_owner _ _ "uuid-0"); by vm_compute.
Defined.

(** What bob asks for: a role with a deletion, bound to himself. *)
Definition bob_role : CreateRoleInput :=
  {| cr_OrganizationID := "org"; cr_RequestingUserID := "bob"; cr_Name := "cleaner";
     cr_Permissions := ["workspace:delete"] |}.
Definition bob_binding (roleID : string) : CreateRoleBindingInput :=
  {| crb_OrganizationID := "org"; crb_RequestingUserID := "bob"; crb_RoleID := roleID;
     crb_SubjectType := "user"; crb_SubjectID := "bob"; crb_ScopeType := "organization";
     crb_ScopeID := "org"; crb_Effect := "allow" |}.

(** The deletions reserved to owners are one custom role away from any
    admin: creating a role asks only for [organization:manage] and does not
    compare the new permissions with the creator's own. *)
Theorem admin_grants_itself_deletion :
  let may_delete w := (exec (RoleBindingRepository_HasPermission background "org" "bob"
    PermissionWorkspaceDelete) w).1 in
  may_delete with_admin = Ok false ∧
  ∃ role w1, exec (CreateRole background bob_role) with_admin = (Ok role, w1) ∧
    ∃ binding w2,
      exec (CreateRoleBinding background (bob_binding (role_ID role))) w1 = (Ok binding, w2) ∧
      may_delete w2 = Ok true.
Proof.
  cbv zeta. split; [by vm_compute|].
  destruct (exec (CreateRole background bob_role) with_admin) as [[role|e] w1] eqn:H;
    [|by vm_compute in H].
  assert (w1 = (exec (CreateRole background bob_role) with_admin).2) as Hw by by rewrite H.
  assert (Ok role = (exec (CreateRole background bob_role) with_admin).1) as Hr by by rewrite H.
  vm_compute in Hr. injection Hr as Hr. exists role, w1. split; [done|].
  apply exec_ok_intro. subst role w1. vm_compute. reflexivity.
Qed.
