(* ===== verification/WorkspaceSpec.v ===== *)
(** * Workspaces: creation and deletion

    What a successful [CreateWorkspace] and [DeleteWorkspace] guarantee. *)
From S2P Require Import Prelude Prog RunDomain WorkspaceDomain RbacDomain VariableDomain.
From S2P Require Import TenancyDomain IdentityDomain Store WorkspaceRepo TenancyRepo RbacRepo Principal Ports.
From S2P Require Import WorkspaceApp Registry Wiring RbacSpec Gates Scenario.

Section workspaces.
Context {X : Type}.
Implicit Types w : World X.

(** The subject may do [perm] at [project], and at [workspace] if given. *)
Definition may_at (d : DB) (ctx : Ctx) (o u perm project : string)
    (workspace : option string) : Prop :=
  key_permits ctx perm ∧ allowed d o u perm (covers_at o (Some project) workspace).

(** Environment [id] belongs to [project]. *)
Definition environment_of (d : DB) (o project id : string) : Prop :=
  ∃ env, environments d !! id = Some env ∧ env_OrganizationID env = o ∧
    env_ProjectID env = project.

Lemma check_environment_ok o p env w w' :
  exec (check_environment (X:=X) o p env) w = (Ok (), w') →
  calm w w' ∧ ∀ id, env = Some id → environment_of (db w) o p id.
Proof.
  intros H. split.
  { eapply calm_exec; [|exact H]. unfold check_environment, EnvironmentRepository_GetByID.
    calm_steps. }
  intros id ->. unfold check_environment in H. rewrite exec_bind, exec_try in H.
  destruct (exec (EnvironmentRepository_GetByID o id) w) as [r w1] eqn:H1.
  destruct r as [row|e]; [|done]. apply exec_ensure_ok in H as [Hp ->].
  apply exec_txn in H1 as [_ [fs H1]]; [|tx_frame_steps]. tx_inv H1.
  apply select_pk_ok in Hst as [-> ->].
  destruct (row_at _ _ _ _) as [row'|] eqn:Hrow; tx_inv H1. subst.
  apply row_at_Some in Hrow as (Hrow & _ & Ho). unfold env_in_org in Ho. bools. by exists row'.
Qed.

(** A workspace is created only by a member who may manage workspaces of
    that project of an organization that is not archived, in an environment
    of that same project if one is given; it is unlocked, its engine is not
    the retired one, no workspace of the project had its name, and nothing
    else in the database changes. *)
Theorem CreateWorkspace_ok ctx inp w ws w' :
  exec (CreateWorkspace (X:=X) ctx inp) w = (Ok ws, w') →
  let o := cw_OrganizationID inp in let p := cw_ProjectID inp in
  let u := cw_RequestingUserID inp in
  is_member (db w) o u ∧ has_project (db w) o p ∧
  may_at (db w) ctx o u "workspace:manage" p None ∧ is_active (db w) o ∧
  (∀ id, cw_EnvironmentID inp = Some id → environment_of (db w) o p id) ∧
  namePattern (ws_Name ws) = true ∧ ws_ExecutionEngine ws ≠ ExecutionEngineCompose ∧
  ws_OrganizationID ws = o ∧ ws_ProjectID ws = p ∧ ws_EnvironmentID ws = cw_EnvironmentID inp ∧
  ws_Name ws = cw_Name inp ∧ ws_Locked ws = false ∧ ws_LockedByRunID ws = None ∧
  workspaces (db w) !! ws_ID ws = None ∧
  (∀ k row, workspaces (db w) !! k = Some row → ws_ProjectID row = p → ws_Name row ≠ ws_Name ws) ∧
  db w' = put_row (ws_ID ws) ws (db w).
Proof.
  unfold CreateWorkspace. ports. intros H. cbv zeta.
  apply exec_bind_ok in H as ([] & w1 & H1 & H). apply project_gate_ok in H1 as ([Hd1 _] & Hm & Hp).
  apply exec_bind_ok in H as (b & w2 & H2 & H). apply HasPermissionAtScope_exec in H2 as [[Hd2 _] Hb].
  apply exec_bind_ok in H as ([] & w2' & [-> ->]%exec_ensure_ok & H).
  apply exec_bind_ok in H as (arch & w3 & H3 & H). apply IsArchived_exec in H3 as [[Hd3 _] (org & Horg & Hs)].
  apply exec_bind_ok in H as ([] & w3' & [Harch ->]%exec_ensure_ok & H).
  apply exec_bind_ok in H as ([] & w4 & H4 & H). apply check_environment_ok in H4 as [[Hd4 _] Henv].
  apply exec_bind_ok in H as (id & w5 & H5 & H). injection H5 as <- <-.
  apply exec_bind_ok in H as (now & w6 & H6 & H). injection H6 as <- <-.
  apply exec_bind_ok in H as (row & w7 & H7 & H). rewrite exec_lift in H7. injection H7 as H7 <-.
  apply NewWorkspace_ok in H7 as (_ & _ & Hname & Heng%engine_valid_spec & ->).
  apply exec_bind_ok in H as ([] & w8 & H8 & [= <- <-]).
  apply exec_txn in H8 as [_ [fs H8]]; [|tx_frame_steps].
  apply insert_row_ok in H8 as (_ & Hn & Hc & _ & ->). simpl in *.
  rewrite Hd1 in *. rewrite Hd2 in *. rewrite Hd3 in *. rewrite Hd4 in *.
  split_and!; try done.
  - unfold may_at. tauto.
  - exists org. split; [done|]. intros Ha%Hs. by subst.
  - by destruct Heng.
  - intros k row Hk Hpr Hnm. apply (proj1 (existsb_rows_false _ _)) with (id := k) (r := row) in Hc;
      [|done]. simpl in Hc. by rewrite Hpr, Hnm, !bool_decide_true in Hc.
Qed.
(** [d'] is [d] without the workspace and what is scoped to it. *)
Record purged (o ws : string) (d d' : DB) : Prop := {
  purged_runs k r : runs d' !! k = Some r ↔
    runs d !! k = Some r ∧ ¬ (run_OrganizationID r = o ∧ run_WorkspaceID r = ws);
  purged_variables k v : variables d' !! k = Some v ↔
    variables d !! k = Some v ∧
    ¬ (var_OrganizationID v = o ∧ var_ScopeType v = "workspace" ∧ var_ScopeID v = ws);
  purged_bindings k b : role_bindings d' !! k = Some b ↔
    role_bindings d !! k = Some b ∧
    ¬ (rb_OrganizationID b = o ∧ rb_ScopeType b = "workspace" ∧ rb_ScopeID b = ws);
  purged_workspaces k row : workspaces d' !! k = Some row ↔
    workspaces d !! k = Some row ∧ ¬ (ws_OrganizationID row = o ∧ ws_ID row = ws);
  purged_outbox : outbox_events d' = outbox_events d;
  purged_audit : audit_entries d' = audit_entries d;
  purged_structure : organizations d' = organizations d ∧ projects d' = projects d ∧
    environments d' = environments d ∧ roles d' = roles d;
}.

Lemma Purge_ok o ws w w' :
  exec (WorkspaceRepository_Purge (X:=X) o ws) w = (Ok (), w') → purged o ws (db w) (db w').
Proof.
  intros H. apply exec_txn in H as [_ [fs H]]; [|tx_frame_steps].
  tx_inv H. apply delete_where_ok in Hst as (_ & -> & _), Hst0 as (_ & -> & _),
    Hst1 as (_ & -> & _), Hst2 as (_ & -> & _). subst w'. unfold delete_rows.
  split; simpl; try done; intros k r; rewrite map_lookup_filter_Some; simpl;
    unfold tenant_is, ws_in_org; apply and_iff_compat_l;
    rewrite <- not_true_iff_false, ?andb_true_iff, !bool_decide_eq_true; naive_solver.
Qed.

(** Deleting a workspace is for a member with the deletion permission on
    it, through its own project; it removes the workspace with its runs,
    its variables and the bindings at its scope, and nothing else: other
    workspaces, the outbox and the audit log stay. *)
Theorem DeleteWorkspace_ok ctx inp w w' :
  exec (DeleteWorkspace (X:=X) ctx inp) w = (Ok (), w') →
  let o := dw_OrganizationID inp in let p := dw_ProjectID inp in
  is_member (db w) o (dw_RequestingUserID inp) ∧ has_project (db w) o p ∧
  may_at (db w) ctx o (dw_RequestingUserID inp) "workspace:delete" p (Some (dw_WorkspaceID inp)) ∧
  (∃ row, ws_row (db w) o (dw_WorkspaceID inp) = Some row ∧ ws_ProjectID row = p) ∧
  purged o (dw_WorkspaceID inp) (db w) (db w').
Proof.
  unfold DeleteWorkspace. ports. intros H. cbv zeta.
  apply exec_bind_ok in H as ([] & w1 & H1 & H). apply project_gate_ok in H1 as ([Hd1 _] & Hm & Hp).
  apply exec_bind_ok in H as (b & w2 & H2 & H). apply HasPermissionAtScope_exec in H2 as [[Hd2 _] Hb].
  apply exec_bind_ok in H as ([] & w2' & [-> ->]%exec_ensure_ok & H).
  apply exec_bind_ok in H as (row & w3 & H3 & H).
  apply WorkspaceRepository_GetByID_exec in H3 as (_ & Hd3 & Hrow).
  apply exec_bind_ok in H as ([] & w3' & [Hpr ->]%exec_ensure_ok & H). bools.
  apply Purge_ok in H. rewrite Hd3, Hd2, Hd1 in *.
  split_and!; [done..|unfold may_at; tauto|by exists row|done].
Qed.
End workspaces.

(** ** Witnesses *)

Definition new_workspace : CreateWorkspaceInput :=
  {| cw_OrganizationID := "org"; cw_ProjectID := "project"; cw_EnvironmentID := Some "staging";
     cw_Name := "api"; cw_ExecutionEngine := "opentofu"; cw_RequestingUserID := "alice" |}.

Definition with_staging : World (Cluster Keyspace) :=
  demo_at (tset (R:=Environment)
    {["staging" := mkEnvironment "staging" "org" "project" "staging" 1 false 0]} demo_db)
    demo_cluster.

Lemma CreateWorkspace_ok_witness :
  ∃ ws w', exec (CreateWorkspace background new_workspace) with_staging = (Ok ws, w') ∧
    db w' = put_row (ws_ID ws) ws (db with_staging) ∧
    environment_of (db with_staging) "org" "project" "staging".
Proof.
  destruct (exec (CreateWorkspace background new_workspace) with_staging) as [[ws|e] w'] eqn:H;
    [|by vm_compute in H].
  exists ws, w'. split; [done|].
  destruct (CreateWorkspace_ok background new_workspace with_staging ws w' H)
    as (_ & _ & _ & _ & Henv & _ & _ & _ & _ & _ & _ & _ & _ & _ & _ & Hd).
  split; [exact Hd|]. by apply Henv.
Defined.

Definition delete_web : DeleteWorkspaceInput :=
  {| dw_OrganizationID := "org"; dw_ProjectID := "project"; dw_WorkspaceID := "ws";
     dw_RequestingUserID := "alice" |}.

Lemma DeleteWorkspace_ok_witness :
  ∃ w', exec (DeleteWorkspace background delete_web) demo = (Ok (), w') ∧
    workspaces (db w') = ∅ ∧ purged "org" "ws" (db demo) (db w').
Proof.
  destruct (exec (DeleteWorkspace background delete_web) demo) as [[[]|e] w'] eqn:H;
    [|by vm_compute in H].
  exists w'. split; [done|]. split.
  - assert (w' = (exec (DeleteWorkspace background delete_web) demo).2) as -> by by rewrite H.
    by vm_compute.
  - apply (DeleteWorkspace_ok background delete_web demo w' H).
Defined.
