(* ===== verification/ExecutionSpec.v ===== *)
(** * What each execution service does, run alone

    The outcome of TriggerRun, HandleEvent, HandleReport, CancelRun and the
    reaper on every branch, as equations on the database. *)
From S2P Require Import Prelude Prog RunDomain WorkspaceDomain TenancyDomain IdentityDomain RbacDomain Store.
From S2P Require Import Outbox RunRepo WorkspaceRepo TenancyRepo RbacRepo Principal Ports.
From S2P Require Import Registry Execution RbacApp Wiring Scenario RbacSpec Gates.

(** ** Shared laws *)

(** The rows are filed under their own ids. *)
Definition keyed (d : DB) : Prop :=
  map_Forall (λ k r, ws_ID r = k) (workspaces d) ∧
  map_Forall (λ k r, run_ID r = k) (runs d).
#[export] Instance keyed_dec d : Decision (keyed d).
Proof. unfold keyed. apply _. Defined.

(** The effect of [Unlock]. *)
Definition unlocked (o ws id : string) (d : DB) : DB :=
  match ws_row d o ws with
  | Some row => if bool_decide (ws_LockedByRunID row = Some id)
                then put_row ws (set_lock false None row) d else d
  | None => d
  end.

(** The effect of [Update] on a run that is there. *)
Definition recorded (id : string) (run : Run) (ev : OutboxEvent) (d : DB) : DB :=
  add_event ev (put_row id run d).

Section laws.
Context {X : Type}.
Implicit Types w : World X.

Lemma Unlock_exec o ws id w r w' :
  exec (WorkspaceRepository_Unlock o ws id) w = (r, w') →
  clock w' = clock w ∧
  db w' = match r with Ok _ => unlocked o ws id (db w) | Err _ => db w end.
Proof.
  intros H. apply WorkspaceRepository_Unlock_exec in H as [(Hc & _) Hr].
  split; [done|]. destruct r as [u|e]; [|done]. unfold unlocked.
  destruct Hr as [(row & -> & Hby & ->)|[Hn ->]]; [by rewrite bool_decide_true|].
  destruct (ws_row (db w) o ws) as [row|] eqn:Hrow; [|done].
  rewrite bool_decide_false; [done|]. by apply Hn.
Qed.

Lemma Unlock_healthy o ws id w :
  faults w = [] → (exec (WorkspaceRepository_Unlock o ws id) w).1 = Ok ().
Proof.
  intros Hf. unfold WorkspaceRepository_Unlock, org_txn, txn.
  rewrite exec_call, run_txn_nofault by done.
  unfold mbind, tx_bind, update_pk. destruct (tget (db w) !! ws) as [row|]; [|done].
  by destruct (visible _ _ && _).
Qed.

End laws.

(** ** Triggering *)

(** The database with the new run [run], its workspace locked and its event. *)
Definition queued (run : Run) (row : Workspace) (ev : OutboxEvent) (d : DB) : DB :=
  add_event ev (set_run run
    (put_row (run_WorkspaceID run) (set_lock true (Some (run_ID run)) row) d)).

Section trigger.
Context {X : Type}.
Implicit Types w : World X.

(** The gates of [TriggerRun], as the rows have them. *)
Definition may_trigger (d : DB) (ctx : Ctx) (inp : TriggerRunInput) : Prop :=
  (∃ k row, workspaces d !! k = Some row ∧
     ws_OrganizationID row = tr_OrganizationID inp ∧
     ws_ProjectID row = tr_ProjectID inp ∧ ws_ID row = tr_WorkspaceID inp) ∧
  (key_permits ctx permissionWorkspaceApply ∧
   allowed d (tr_OrganizationID inp) (tr_RequestingUserID inp) permissionWorkspaceApply
     (covers_at (tr_OrganizationID inp) (Some (tr_ProjectID inp))
        (Some (tr_WorkspaceID inp)))) ∧
  ∃ org, organizations d !! tr_OrganizationID inp = Some org ∧
    org_Status org ≠ OrganizationStatusArchived.

Definition new_run (id : string) (now : Z) (inp : TriggerRunInput) : Run :=
  mkRun id (tr_OrganizationID inp) (tr_WorkspaceID inp) RunTriggerManual
    (tr_RequestingUserID inp) RunStatusQueued None None now None None.

(** What is left of [TriggerRun] once the gates are passed. *)
Definition enqueue (inp : TriggerRunInput) (run : Run) : prog (World X) Run :=
  locked ← TryLock (tr_OrganizationID inp) (tr_WorkspaceID inp) (run_ID run);
  ensure locked ErrWorkspaceLocked;;
  created ← try (RunRepository_Create run);
  match created with
  | Err err =>
      _ ← try (Unlock (tr_OrganizationID inp) (tr_WorkspaceID inp) (run_ID run));
      Throw err
  | Ok _ => Ret run
  end.

(** The gates read, and are passed only by those who may. *)
Lemma TriggerRun_gates ctx inp w r w' :
  exec (TriggerRun (X:=X) ctx inp) w = (r, w') →
  (∃ e, r = Err e ∧ calm w w') ∨
  (may_trigger (db w) ctx inp ∧
   tr_OrganizationID inp ≠ "" ∧ tr_WorkspaceID inp ≠ "" ∧ tr_RequestingUserID inp ≠ "" ∧
   ∃ id w1, calm w w1 ∧ exec (enqueue inp (new_run id (clock w) inp)) w1 = (r, w')).
Proof.
  unfold TriggerRun. intros H.
  apply exec_bind_inv in H as [(e & H & ->)|(b1 & w1 & H1 & H)].
  { apply WorkspaceExists_exec in H as [? _]. eauto. }
  apply WorkspaceExists_exec in H1 as [Hc1 Hb1].
  apply exec_bind_inv in H as [(e & H & ->)|(? & w2 & H2 & H)].
  { rewrite exec_ensure in H. injection H as ? <-. eauto. }
  apply exec_ensure_ok in H2 as [-> ->].
  apply exec_bind_inv in H as [(e & H & ->)|(b2 & w2 & H2 & H)].
  { apply HasPermissionAtScope_exec in H as [Hc _]. left. eexists; split; [done|by etrans]. }
  apply HasPermissionAtScope_exec in H2 as [Hc2 Hb2].
  apply exec_bind_inv in H as [(e & H & ->)|(? & w3 & H3 & H)].
  { rewrite exec_ensure in H. injection H as ? <-. left. eexists; split; [done|by etrans]. }
  apply exec_ensure_ok in H3 as [-> ->].
  apply exec_bind_inv in H as [(e & H & ->)|(b3 & w3 & H3 & H)].
  { apply IsArchived_exec in H as [Hc _]. left. eexists; split; [done|].
    etrans; [done|]. by etrans. }
  apply IsArchived_exec in H3 as [Hc3 (org & Horg & Hb3)].
  assert (calm w w3) as Hc by (etrans; [done|]; by etrans).
  apply exec_bind_inv in H as [(e & H & ->)|(? & w4 & H4 & H)].
  { rewrite exec_ensure in H. injection H as ? <-. eauto. }
  apply exec_ensure_ok in H4 as [Hna ->]. apply negb_true_iff in Hna.
  apply exec_bind_inv in H as [(e & H & ->)|(id & w4 & H4 & H)]; [done|].
  injection H4 as _ <-.
  apply exec_bind_inv in H as [(e & H & ->)|(now & w5 & H5 & H)]; [done|].
  injection H5 as <- <-.
  assert (calm w (next_uuid w3)) as Hc4.
  { etrans; [exact Hc|]. split_and!; unfold healthy; simpl; auto. }
  apply exec_bind_inv in H as [(e & H & ->)|(run & w6 & H6 & H)].
  { rewrite exec_lift in H. injection H as _ <-. eauto. }
  rewrite exec_lift in H6. injection H6 as Hrun <-.
  apply NewRun_ok in Hrun as (Ho & Hw & Hu & ->).
  right. destruct Hc1 as (Hd1 & Hk1 & _), Hc2 as (Hd2 & Hk2 & _), Hc3 as (_ & Hk3 & _).
  rewrite Hd1 in Hb2. rewrite Hd2, Hd1 in Horg. split_and!; [|done..|].
  - split; [by apply Hb1|]. split; [by apply Hb2|]. exists org. split; [done|].
    intros Ha. rewrite (proj2 Hb3 Ha) in Hna. done.
  - exists id, (next_uuid w3). split; [done|]. simpl in H. simpl.
    rewrite Hk3, Hk2, Hk1 in H. exact H.
Qed.
End trigger.

Section enqueue.
Context {X : Type}.
Implicit Types w : World X.

Lemma unlock_restores o ws id row d :
  ws_row d o ws = Some row → ws_Locked row = false → lock_wf row →
  unlocked o ws id (put_row ws (set_lock true (Some id) row) d) = d.
Proof.
  intros Hrow Hl Hwf. apply ws_row_Some in Hrow as [Hrow Ho].
  unfold unlocked.
  rewrite (proj2 (ws_row_Some _ o ws (set_lock true (Some id) row))).
  2:{ split; [|done]. simpl. by rewrite lookup_insert_eq. }
  rewrite bool_decide_true by done.
  assert (set_lock false None (set_lock true (Some id) row) = row) as ->.
  { destruct row as [? ? ? ? ? ? ? ? l by_run ?]. unfold lock_wf in Hwf. simpl in *. subst.
    destruct by_run; [|done]. by destruct Hwf as [_ Hwf]; discriminate Hwf. }
  destruct d. unfold put_row. simpl in *. by rewrite insert_insert_eq, insert_id.
Qed.

(** A failed [enqueue] leaves the database as it was, or, when releasing
    the lock failed too, the workspace locked by a run that is not there. *)
Lemma enqueue_spec inp run w r w' :
  run_WorkspaceID run = tr_WorkspaceID inp →
  run_OrganizationID run = tr_OrganizationID inp →
  exec (enqueue inp run) w = (r, w') →
  match r with
  | Ok run' => run' = run ∧ ∃ row ev,
      ws_row (db w) (run_OrganizationID run) (run_WorkspaceID run) = Some row ∧
      ws_Locked row = false ∧ runs (db w) !! run_ID run = None ∧
      oe_EventType ev = "RunQueued" ∧ oe_OrganizationID ev = run_OrganizationID run ∧
      oe_PublishedAt ev = None ∧
      oe_Payload ev = payload [("actor", run_TriggeredBy run); ("target_type", "run");
        ("target_id", run_ID run); ("workspace_id", run_WorkspaceID run)] ∧
      outbox_events (db w) !! oe_ID ev = None ∧
      db w' = queued run row ev (db w)
  | Err _ =>
      db w' = db w ∨ ∃ row, ws_row (db w) (run_OrganizationID run) (run_WorkspaceID run) = Some row ∧
        ws_Locked row = false ∧ 
        (db w' = unlocked (run_OrganizationID run) (run_WorkspaceID run) (run_ID run)
           (put_row (run_WorkspaceID run) (set_lock true (Some (run_ID run)) row) (db w)) ∨
         (faults w ≠ [] ∧
          db w' = put_row (run_WorkspaceID run) (set_lock true (Some (run_ID run)) row) (db w)))
  end.
Proof.
  intros Hws Ho. unfold enqueue. simpl TryLock. simpl Unlock. rewrite <- Hws, <- Ho. intros H.
  apply exec_bind_inv in H as [(e & H & ->)|(b & w1 & H1 & H)].
  { apply WorkspaceRepository_TryLock_exec in H as [_ ->]. by left. }
  assert (faults w = [] → faults w1 = []) as Hh.
  { intros Hf. eapply healthy_exec; [|exact H1|done].
    apply healthy_txn. tx_frame_steps; apply workspace_row_frame. }
  apply WorkspaceRepository_TryLock_exec in H1 as [Hf1 Hr].
  apply exec_bind_inv in H as [(e & H & ->)|(? & w2 & H2 & H)].
  { rewrite exec_ensure in H. injection H as Hb <-. destruct b; [done|].
    destruct Hr as (row & _ & _ & ->). by left. }
  apply exec_ensure_ok in H2 as [-> ->]. destruct Hr as (row & Hrow & Hl & Hd1).
  apply exec_bind_inv in H as [(e & H & ->)|(created & w2 & H2 & H)].
  { rewrite exec_try in H. by destruct (exec _ _). }
  rewrite exec_try in H2. destruct (exec (RunRepository_Create run) w1) as [rc wc] eqn:Hcr.
  injection H2 as <- <-.
  assert (faults w = [] → faults wc = []) as Hhc.
  { intros Hf. eapply healthy_exec; [|exact Hcr|by apply Hh].
    apply healthy_txn. tx_frame_steps; apply Write_frame. }
  apply RunRepository_Create_exec in Hcr as [_ Hcr]. destruct rc as [u|e].
  - injection H as <- <-. split; [done|].
    destruct Hcr as (Hn & _ & _ & ev & Ht & Hoe & Hp & Hpl & Hev & Hdb).
    rewrite Hd1 in *. exists row, ev. by split_and!.
  - apply exec_bind_inv in H as [(e' & H & ->)|(y & w3 & H3 & H)].
    { rewrite exec_try in H. by destruct (exec _ _). }
    injection H as <- <-. rewrite exec_try in H3.
    destruct (exec (WorkspaceRepository_Unlock _ _ _) wc) as [ru wu] eqn:Hun.
    injection H3 as _ <-. right. exists row. split_and!; [done..|].
    pose proof (Unlock_healthy (run_OrganizationID run) (run_WorkspaceID run)
      (run_ID run) wc) as Hok. rewrite Hun in Hok.
    apply Unlock_exec in Hun as [_ Hun]. rewrite Hcr, Hd1 in Hun.
    destruct ru as [u|e'']; [by left|]. right. split; [|done].
    intros Hf. by specialize (Hok (Hhc Hf)).
Qed.
End enqueue.

Section trigger_claims.
Context {X : Type}.
Implicit Types w : World X.

(** C14: A triggered run was asked for by someone who may apply that
    workspace of that project, in an organization that is not archived; the
    run is new and queued, the workspace was free and is now locked by it,
    and one [RunQueued] event about it is in the outbox - and nothing else
    in the database changed. *)
Theorem TriggerRun_ok ctx inp w run w' :
  exec (TriggerRun (X:=X) ctx inp) w = (Ok run, w') →
  may_trigger (db w) ctx inp ∧
  run = new_run (run_ID run) (clock w) inp ∧ runs (db w) !! run_ID run = None ∧
  ∃ row ev,
    workspaces (db w) !! tr_WorkspaceID inp = Some row ∧
    ws_OrganizationID row = tr_OrganizationID inp ∧ ws_Locked row = false ∧
    oe_EventType ev = "RunQueued" ∧ oe_OrganizationID ev = tr_OrganizationID inp ∧
    oe_PublishedAt ev = None ∧
    oe_Payload ev = payload [("actor", tr_RequestingUserID inp); ("target_type", "run");
      ("target_id", run_ID run); ("workspace_id", tr_WorkspaceID inp)] ∧
    outbox_events (db w) !! oe_ID ev = None ∧
    db w' = queued run row ev (db w).
Proof.
  intros [(e & ? & _)|(Hmay & _ & _ & _ & id & w1 & (Hd & _) & H)]%TriggerRun_gates; [done|].
  apply enqueue_spec in H as [-> (row & ev & Hrow & Hl & Hn & Ht & Ho & Hp & Hpl & Hev & Hdb)];
    [|done..].
  rewrite Hd in *. apply ws_row_Some in Hrow as [Hrow Hor].
  split_and!; [done..|]. by exists row, ev.
Qed.

(** C33: A request to trigger a run that is refused, or that fails with no
    infrastructure failure on the way, changes nothing in the database: the
    lock taken for a run that could not be created is released. *)
Theorem TriggerRun_fails_clean ctx inp w e w' :
  faults w = [] → (∀ k ws, workspaces (db w) !! k = Some ws → lock_wf ws) →
  exec (TriggerRun (X:=X) ctx inp) w = (Err e, w') → db w' = db w.
Proof.
  intros Hf Hwf
    [(e' & _ & [Hd _])|(_ & _ & _ & _ & id & w1 & (Hd & _ & _ & _ & Hh) & H)]%TriggerRun_gates;
    [done|].
  apply enqueue_spec in H as [?|(row & Hrow & Hl & Hcases)]; [congruence| |done..].
  rewrite Hd in *. assert (lock_wf row) as Hlwf.
  { apply ws_row_Some in Hrow as [Hrow _]. by eapply Hwf. }
  destruct Hcases as [->|[Hnf _]]; [by apply unlock_restores|]. by rewrite Hh in Hnf.
Qed.
End trigger_claims.

(** The demo deployment after one trigger. *)
Definition demo_queued : World (Cluster Keyspace) := (exec (TriggerRun background demo_input) demo).2.

Lemma TriggerRun_ok_witness :
  ∃ run row ev, run_ID run = "uuid-0" ∧ db demo_queued = queued run row ev (db demo).
Proof.
  destruct (exec (TriggerRun background demo_input) demo) as [[run|e] w'] eqn:H;
    [|by vm_compute in H].
  destruct (TriggerRun_ok background demo_input demo run w' H)
    as (_ & _ & _ & row & ev & _ & _ & _ & _ & _ & _ & _ & _ & Hdb).
  exists run, row, ev. unfold demo_queued. rewrite H. split; [|exact Hdb].
  assert (run = match (exec (TriggerRun background demo_input) demo).1 with
                | Ok run => run | Err _ => run end) as -> by by rewrite H.
  by vm_compute.
Defined.

Lemma demo_locks k ws : workspaces (db demo) !! k = Some ws → lock_wf ws.
Proof. simpl. intros [<- <-]%lookup_singleton_Some. split; simpl; [done|by intros [? ?]]. Qed.

(** bob, a member without the permission, is refused. *)
Lemma TriggerRun_fails_clean_witness :
  let inp := {| tr_OrganizationID := "org"; tr_ProjectID := "project";
    tr_WorkspaceID := "ws"; tr_RequestingUserID := "bob" |} in
  db (exec (TriggerRun background inp) demo).2 = db demo.
Proof.
  intros inp. destruct (exec (TriggerRun background inp) demo) as [[run|e] w'] eqn:H;
    [by vm_compute in H|].
  exact (TriggerRun_fails_clean background inp demo e w' eq_refl demo_locks H).
Defined.

(** Suspension does not stop runs: a member suspended in the organization
    triggers a run all the same, for [TriggerRun] asks for a permission and
    not for a membership, while reading that run is refused to them. *)
Theorem suspended_member_triggers :
  let w := (exec (MembershipRepository_SetBlocked "org" "alice" true) demo).2 in
  ¬ is_member (db w) "org" "alice" ∧
  ∃ run w', exec (TriggerRun background demo_input) w = (Ok run, w') ∧
    (exec (GetRun background "org" "project" "ws" (run_ID run) "alice") w').1 =
      Err (ErrWorkspaceNotFound Execution).
Proof.
  intros w. split.
  - destruct (exec (MembershipRepository_IsMember "org" "alice") w) as [[b|e] w1] eqn:H;
      [|by vm_compute in H].
    assert (b = false) as ->.
    { assert (Ok b = (exec (MembershipRepository_IsMember "org" "alice") w).1) as Hb by by rewrite H.
      vm_compute in Hb. congruence. }
    apply IsMember_exec in H as [_ Hb]. rewrite <- Hb. done.
  - apply exec_ok_intro. vm_compute. reflexivity.
Qed.

(** ** Recording an outcome *)

Section recording.
Context {X : Type}.
Implicit Types w : World X.

(** [Update] of a run that is there, then [Unlock]: the common tail of
    the services that finish a run. *)
Lemma Update_recorded id o run row actor t w r w' :
  runs (db w) !! id = Some row → run_OrganizationID row = o →
  run_OrganizationID run = o → run_ID run = id →
  update_event (run_Status run) = Some t →
  exec (RunRepository_Update run actor) w = (r, w') →
  clock w' = clock w ∧
  match r with
  | Err _ => db w' = db w
  | Ok _ => ∃ ev, oe_EventType ev = t ∧ oe_OrganizationID ev = o ∧
      outbox_events (db w) !! oe_ID ev = None ∧
      db w' = recorded id (overwrite run row) ev (db w)
  end.
Proof.
  intros Hrow <- Ho <- Ht H. apply RunRepository_Update_exec in H as [(Hc & _) Hr].
  split; [done|]. destruct r as [u|e]; [|done]. rewrite Ht in Hr.
  destruct Hr as (ev & Hev & Hoe & Hn & Hdb). exists ev. rewrite <- Ho.
  split_and!; [done..|]. unfold recorded. rewrite Hdb. unfold updated.
  by rewrite (proj2 (run_row_Some _ _ _ _ row)).
Qed.

Lemma overwrite_self s f run : overwrite (set_status s f run) run = set_status s f run.
Proof. by destruct run. Qed.

(** [fail]: the run is failed and its lock released, unless a transaction
    fails on the way. *)
Lemma dispatch_fail_exec id o ws run w r w' :
  runs (db w) !! id = Some run → run_OrganizationID run = o → run_ID run = id →
  run_Status run = RunStatusApplying →
  exec (dispatch_fail run ws) w = (r, w') →
  (∃ ev, oe_EventType ev = "RunFailed" ∧
     let d := recorded id (set_status RunStatusFailed (Some (clock w)) run) ev (db w) in
     (r = Ok () ∧ db w' = unlocked o ws id d) ∨ (∃ e, r = Err e ∧ db w' = d)) ∨
  (∃ e, r = Err e ∧ db w' = db w).
Proof.
  intros Hrun Ho Hid Hs H. unfold dispatch_fail in H.
  apply exec_bind_inv in H as [(e & H & ->)|(now & w1 & H1 & H)]; [done|].
  injection H1 as <- <-.
  apply exec_bind_inv in H as [(e & H & ->)|(run' & w2 & H2 & H)].
  { rewrite exec_lift in H. injection H as _ <-. eauto. }
  rewrite exec_lift in H2. injection H2 as Hm <-. apply MarkFailed_ok in Hm as [_ ->].
  apply exec_bind_inv in H as [(e & H & ->)|(u & w3 & H3 & H)].
  - apply (Update_recorded id o _ run _ "RunFailed") in H as [_ H]; [|done..]. eauto.
  - apply (Update_recorded id o _ run _ "RunFailed") in H3 as [_ H3]; [|done..].
    destruct H3 as (ev & Ht & _ & _ & Hd). rewrite overwrite_self in Hd.
    simpl Unlock in H. apply Unlock_exec in H as [_ H]. simpl in H. rewrite Hid, Ho in H.
    left. exists ev. split; [done|]. cbv zeta. rewrite <- Hd.
    destruct r as [[]|e]; [by left|right; eauto].
Qed.
End recording.

(** ** Dispatching *)

Section dispatch.
Context {X : Type} `{!ScopedPermissionChecker X, !OrganizationChecker X,
  !WorkspaceChecker X, !WorkspaceEngineReader X, !VariableResolver X,
  !WorkerDispatcher X, !WorkerCanceler X, !RunTracker X} {calm_ports : CalmPorts X}.
Implicit Types w : World X.

(** What the dispatcher found out before it gave a run up: no variable for
    the engine, or one that does not resolve. *)
Definition nothing_to_send (o ws engine user : string) : Prop :=
  configVariableKeyByEngine !! engine = None ∨
  (∃ key w1 w2, configVariableKeyByEngine !! engine = Some key ∧
     exec (ResolveValue o ws key user) w1 = (Ok None, w2)) ∨
  (∃ w1 w2, exec (resolve_credential engine o ws user) w1 = (Ok None, w2)).

(** How [HandleEvent] may end, for a run [row] that was queued. *)
Inductive dispatched (o id ws : string) (row : Run) w : res () → World X → Prop :=
| not_started e w' : db w' = db w → dispatched o id ws row w (Err e) w'
| sent ev engine key config cred w1 w' :
    configVariableKeyByEngine !! engine = Some key →
    exec (Dispatch id o ws engine config cred) w1 = (Ok true, w') →
    oe_EventType ev = "RunApplying" →
    db w' = recorded id (start_run (clock w) row) ev (db w) →
    dispatched o id ws row w (Ok ()) w'
| given_up ev ev' engine w' :
    nothing_to_send o ws engine (run_TriggeredBy row) →
    oe_EventType ev = "RunApplying" → oe_EventType ev' = "RunFailed" →
    db w' = unlocked o ws id
      (recorded id (set_status RunStatusFailed (Some (clock w)) (start_run (clock w) row)) ev'
        (recorded id (start_run (clock w) row) ev (db w))) →
    dispatched o id ws row w (Ok ()) w'
| requeued ev engine config cred w1 w2 w' :
    exec (Dispatch id o ws engine config cred) w1 = (Ok false, w2) →
    oe_EventType ev = "RunApplying" →
    runs (db w') = <[id := set_started None
      (set_status RunStatusQueued (run_FinishedAt row) row)]> (runs (db w)) →
    workspaces (db w') = workspaces (db w) →
    dispatched o id ws row w (Err ErrNoWorkerAvailable) w'
| stranded ev e w' :
    oe_EventType ev = "RunApplying" →
    db w' = recorded id (start_run (clock w) row) ev (db w) →
    dispatched o id ws row w (Err e) w'
| still_locked ev ev' e w' :
    oe_EventType ev = "RunApplying" → oe_EventType ev' = "RunFailed" →
    db w' = recorded id (set_status RunStatusFailed (Some (clock w))
        (start_run (clock w) row)) ev'
      (recorded id (start_run (clock w) row) ev (db w)) →
    dispatched o id ws row w (Err e) w'.

(** The part of [HandleEvent] that runs once the run is claimed. *)
Definition send_job (o id ws : string) (run : Run) : prog (World X) () :=
  engine ← GetExecutionEngine o ws;
  match configVariableKeyByEngine !! engine with
  | None => dispatch_fail run ws
  | Some key =>
      config ← ResolveValue o ws key (run_TriggeredBy run);
      match config with
      | None => dispatch_fail run ws
      | Some config =>
          cred ← resolve_credential engine o ws (run_TriggeredBy run);
          match cred with
          | None => dispatch_fail run ws
          | Some cred =>
              sent ← Dispatch id o ws engine config cred;
              if sent : bool then Ret ()
              else RunRepository_RevertToQueued o id;; Throw ErrNoWorkerAvailable
          end
      end
  end.

Lemma HandleEvent_queued ev :
  ev_EventType ev = "RunQueued" →
  let o := ev_OrganizationID ev in
  let id := field "target_id" (ev_Payload ev) in
  let ws := field "workspace_id" (ev_Payload ev) in
  HandleEvent ev =
    started ← RunRepository_TryStartApplying o id ws;
    if negb started then Ret ()
    else run ← RunRepository_GetByID o id; send_job o id ws run.
Proof. intros Ht. unfold HandleEvent. by rewrite bool_decide_true. Qed.

Lemma calm_resolve_credential engine o ws u :
  steps_in calm (resolve_credential engine o ws u).
Proof using calm_ports.
  unfold resolve_credential. destruct (_ !! _); [apply calm_resolve|done].
Qed.

(** [send_job] asks, then gives the run up, sends it, or puts it back. *)
Lemma send_job_cases o id ws run w r w' :
  exec (send_job o id ws run) w = (r, w') →
  (∃ w1 engine, calm w w1 ∧ nothing_to_send o ws engine (run_TriggeredBy run) ∧
     exec (dispatch_fail run ws) w1 = (r, w')) ∨
  (∃ e, r = Err e ∧ calm w w') ∨
  (∃ engine key config cred w1 b w2, calm w w2 ∧
     configVariableKeyByEngine !! engine = Some key ∧
     exec (Dispatch id o ws engine config cred) w1 = (Ok b, w2) ∧
     exec (if b : bool then Ret ()
           else RunRepository_RevertToQueued o id;; Throw ErrNoWorkerAvailable) w2 = (r, w')).
Proof using calm_ports.
  unfold send_job. intros H.
  apply exec_bind_inv in H as [(e & H & ->)|(engine & w1 & H1 & H)].
  { apply calm_exec in H; [eauto|apply calm_engine]. }
  apply calm_exec in H1; [|apply calm_engine].
  destruct (configVariableKeyByEngine !! engine) as [key|] eqn:Hkey.
  2:{ left. exists w1, engine. split_and!; [done|by left|done]. }
  apply exec_bind_inv in H as [(e & H & ->)|(config & w2 & H2 & H)].
  { apply calm_exec in H; [|apply calm_resolve]. right; left.
    exists e. split; [done|by etrans]. }
  pose proof H2 as Hc2. apply calm_exec in Hc2; [|apply calm_resolve].
  destruct config as [config|].
  2:{ left. exists w2, engine. split_and!; [by etrans|right; left; eauto|done]. }
  apply exec_bind_inv in H as [(e & H & ->)|(cred & w3 & H3 & H)].
  { apply calm_exec in H; [|apply calm_resolve_credential]. right; left.
    exists e. split; [done|]. etrans; [done|]. by etrans. }
  pose proof H3 as Hc3. apply calm_exec in Hc3; [|apply calm_resolve_credential].
  assert (calm w w3) as Hc by (etrans; [done|]; by etrans).
  destruct cred as [cred|].
  2:{ left. exists w3, engine. split_and!; [done|right; right; eauto|done]. }
  apply exec_bind_inv in H as [(e & H & ->)|(b & w4 & H4 & H)].
  { apply calm_exec in H; [|apply calm_dispatch]. right; left.
    exists e. split; [done|by etrans]. }
  right; right. exists engine, key, config, cred, w3, b, w4. split_and!; [|done..].
  etrans; [exact Hc|]. eapply calm_exec; [apply calm_dispatch|exact H4].
Qed.

(** The claim of [TryStartApplying], from a queued run. *)
Lemma start_queued o id ws row w r w' :
  runs (db w) !! id = Some row → run_OrganizationID row = o →
  run_Status row = RunStatusQueued →
  exec (RunRepository_TryStartApplying o id ws) w = (r, w') →
  clock w' = clock w ∧
  match r with
  | Err _ => db w' = db w
  | Ok b => b = true ∧ ∃ ev, oe_EventType ev = "RunApplying" ∧
      db w' = recorded id (start_run (clock w) row) ev (db w)
  end.
Proof.
  intros Hrow Ho Hs H. apply RunRepository_TryStartApplying_exec in H as [(Hc & _) H].
  split; [done|].
  assert (run_row (db w) o id (is_status RunStatusQueued) = Some row) as Hr.
  { apply run_row_Some. split_and!; [done..|]. by apply bool_decide_true. }
  destruct r as [[]|e]; [|destruct H; congruence|done].
  destruct H as (row' & ev & Hr' & Ht & _ & _ & _ & _ & Hd). simplify_eq. eauto.
Qed.

(** Putting a claimed run back. *)
Lemma reverted o id ws row engine config cred ev w w1 w2 r w' :
  run_OrganizationID row = o → run_Status row = RunStatusQueued →
  oe_EventType ev = "RunApplying" →
  exec (Dispatch id o ws engine config cred) w1 = (Ok false, w2) →
  runs (db w2) !! id = Some (start_run (clock w) row) →
  db w2 = recorded id (start_run (clock w) row) ev (db w) →
  exec (RunRepository_RevertToQueued o id;; Throw (A:=()) ErrNoWorkerAvailable) w2 = (r, w') →
  dispatched o id ws row w r w'.
Proof.
  intros Ho Hs HA Hdisp Hrun Hd2 H.
  apply exec_bind_inv in H as [(e & H & ->)|(u & w3 & H3 & H)].
  - apply RunRepository_RevertToQueued_exec in H as [_ H].
    apply (stranded _ _ _ _ _ ev); congruence.
  - injection H as <- <-. apply RunRepository_RevertToQueued_exec in H3 as [_ H].
    rewrite (proj2 (run_row_Some _ _ _ _ (start_run (clock w) row))) in H by done.
    apply (requeued _ _ _ _ _ ev engine config cred w1 w2); [done|done|..].
    + rewrite H. simpl. rewrite Hd2. simpl. by rewrite insert_insert_eq.
    + rewrite H. simpl. by rewrite Hd2.
Qed.


(** Delivering the event again does nothing: when the run is not queued
    (any more), the handler succeeds and the database is as before. *)
Theorem redelivery_is_a_no_op ev w :
  faults w = [] → ev_EventType ev = "RunQueued" →
  (∀ row, runs (db w) !! field "target_id" (ev_Payload ev) = Some row →
     run_OrganizationID row = ev_OrganizationID ev → run_Status row ≠ RunStatusQueued) →
  ∃ w', exec (HandleEvent ev) w = (Ok (), w') ∧ db w' = db w.
Proof.
  intros Hf Ht Hnq. rewrite HandleEvent_queued by done.
  set (o := ev_OrganizationID ev). set (id := field "target_id" _). set (ws := field _ _).
  assert (run_row (db w) o id (is_status RunStatusQueued) = None) as Hr.
  { apply run_row_None. intros row Hrow Ho. apply bool_decide_false. by apply Hnq. }
  assert (exec (RunRepository_TryStartApplying o id ws) w = (Ok false, w)) as Hex.
  { unfold RunRepository_TryStartApplying, org_txn, txn.
    rewrite exec_call, run_txn_nofault by done.
    rewrite tx_bind_eq. cbn [sql_now]. rewrite tx_bind_eq.
    by rewrite (update_pk_none id _ _ _ w Hr). }
  exists w. by rewrite exec_bind, Hex.
Qed.
End dispatch.

(** ** Reports *)

(** The status a report asks for. *)
Definition reported (status : string) : option RunStatus :=
  if status =ₛ "applied" then Some RunStatusApplied
  else if (status =ₛ "failed") || (status =ₛ "errored") then Some RunStatusFailed
  else None.

(** The output a report leaves, if any. *)
Definition with_report (line err : string) (run : Run) : Run :=
  let output := report_output line err in
  if negb (output =ₛ "") then set_output (Some output) run else run.

Section reports.
Context {X : Type} `{!ScopedPermissionChecker X, !OrganizationChecker X,
  !WorkspaceChecker X, !WorkspaceEngineReader X, !VariableResolver X,
  !WorkerDispatcher X, !WorkerCanceler X, !RunTracker X} {calm_ports : CalmPorts X}.
Implicit Types w : World X.

Lemma finish_report_exec o id ws output s run w w' :
  runs (db w) !! id = Some run → run_OrganizationID run = o → run_ID run = id →
  is_Some (update_event s) →
  exec (finish_report o ws output (set_status s (Some (clock w)) run)) w = (Ok (), w') →
  let run' := set_status s (Some (clock w)) run in
  ∃ ev, Some (oe_EventType ev) = update_event s ∧ db w' = unlocked o ws id
    (recorded id (if negb (output =ₛ "") then set_output (Some output) run' else run') ev (db w)).
Proof using calm_ports.
  intros Hrun Ho Hid [t Ht] H. unfold finish_report in H. cbv zeta in *.
  set (run' := if negb _ then _ else _) in *.
  assert (run_OrganizationID run' = o ∧ run_ID run' = id ∧ run_Status run' = s ∧
    overwrite run' run = run') as (Ho' & Hid' & Hs' & Hov).
  { unfold run'. destruct (negb _); simpl; split_and!; try done; by destruct run. }
  apply exec_bind_ok in H as (u & w1 & H1 & H).
  apply (Update_recorded id o _ run _ t) in H1 as [_ (ev & Hev & _ & _ & Hd1)];
    [|done|done|done|done|congruence].
  apply exec_bind_ok in H as (y & w2 & H2 & H).
  apply calm_exec in H2 as [Hd2 _]; [|apply calm_forget].
  simpl Unlock in H. apply Unlock_exec in H as [_ H]. rewrite Hid' in H.
  exists ev. split; [congruence|]. rewrite H, Hd2, Hd1, Hov. done.
Qed.

(** A worker's report on a run it is applying finishes that run - applied
    for "applied", failed for "failed" and "errored" - with the log and the
    error message as its output, adds the matching event, and releases the
    workspace if the run holds it; and nothing else changes. *)
Theorem report_finishes o id ws status line err s row w w' :
  runs (db w) !! id = Some row → run_ID row = id → run_OrganizationID row = o →
  run_Status row = RunStatusApplying → reported status = Some s →
  exec (HandleReport o id ws status line err) w = (Ok (), w') →
  ∃ ev, Some (oe_EventType ev) = update_event s ∧
    db w' = unlocked o ws id (recorded id
      (with_report line err (set_status s (Some (clock w)) row)) ev (db w)).
Proof using calm_ports.
  intros Hrow Hid Ho Hs Hrep H. unfold HandleReport in H.
  apply exec_bind_ok in H as (run & w1 & H1 & H).
  apply RunRepository_GetByID_exec in H1 as ((Hc & _) & Hd & Hrun & _).
  assert (run = row) as -> by congruence. cbv zeta in H.
  rewrite <- Hd in Hrow. rewrite <- Hd, <- Hc. clear Hrun Hd Hc.
  unfold reported in Hrep.
  destruct (status =ₛ "applied").
  { injection Hrep as <-. apply exec_bind_ok in H as (now & w2 & H2 & H).
    injection H2 as <- <-. unfold MarkApplied in H. rewrite bool_decide_false in H by (by intros []).
    by apply (finish_report_exec _ id) in H. }
  destruct (_ || _); [|done]. injection Hrep as <-.
  apply exec_bind_ok in H as (now & w2 & H2 & H).
  injection H2 as <- <-. unfold MarkFailed in H. rewrite bool_decide_false in H by (by intros []).
  by apply (finish_report_exec _ id) in H.
Qed.

(** A report on a run that is not being applied - a late or repeated one,
    or one after a cancellation - and a report with an unknown status leave
    the database as it is. *)
Theorem late_report_ignored o id ws status line err row w r w' :
  runs (db w) !! id = Some row →
  run_Status row ≠ RunStatusApplying ∨ reported status = None →
  exec (HandleReport o id ws status line err) w = (r, w') → db w' = db w.
Proof.
  intros Hrow Hor H. unfold HandleReport in H.
  apply exec_bind_inv in H as [(e & H & ->)|(run & w1 & H1 & H)].
  { by apply RunRepository_GetByID_exec in H as (_ & Hd & _). }
  apply RunRepository_GetByID_exec in H1 as (_ & Hd & Hrun & _).
  assert (run = row) as -> by congruence. cbv zeta in H. unfold reported in Hor.
  destruct (status =ₛ "applied").
  { destruct Hor as [Hna|]; [|done]. unfold MarkApplied in H.
    rewrite bool_decide_true in H by done. simpl in H. by injection H as <- <-. }
  destruct (_ || _).
  - destruct Hor as [Hna|]; [|done]. unfold MarkFailed in H.
    rewrite bool_decide_true in H by done. simpl in H. by injection H as <- <-.
  - by injection H as <- <-.
Qed.

(** The reaper's verdict on one candidate: a run that is not being
    applied is left alone; one that is becomes errored, with the matching
    event, and its lock is released - unless a transaction fails, in which
    case the run is untouched, or errored with its lock still held. *)
Theorem reap_one_spec c w r w' :
  let o := cand_OrganizationID c in
  let id := cand_RunID c in
  let ws := cand_WorkspaceID c in
  exec (reap_one c) w = (r, w') →
  db w' = db w ∨
  ∃ row ev, runs (db w) !! id = Some row ∧ run_OrganizationID row = o ∧
    run_Status row = RunStatusApplying ∧ oe_EventType ev = "RunErrored" ∧
    let d := recorded id (set_status RunStatusErrored (Some (clock w)) row) ev (db w) in
    (db w' = unlocked o ws id d ∨ (faults w ≠ [] ∧ db w' = d)).
Proof using calm_ports.
  intros o id ws H. unfold reap_one in H. fold o id ws in H.
  apply exec_bind_inv in H as [(e & H & _)|(m & w1 & H1 & H)].
  { rewrite exec_try in H. by destruct (exec _ _). }
  rewrite exec_try in H1. destruct (exec (RunRepository_MarkErroredIfStillApplying o id) w)
    as [rm wm] eqn:Hm. injection H1 as <- <-.
  assert (faults w = [] → faults wm = []) as Hh.
  { intros Hf. eapply healthy_exec; [|exact Hm|done].
    apply healthy_txn. tx_frame_steps; apply Write_frame. }
  apply RunRepository_MarkErroredIfStillApplying_exec in Hm as [_ Hm].
  destruct rm as [[]|e].
  2:{ injection H as _ <-. left. apply Hm. }
  2:{ injection H as _ <-. by left. }
  destruct Hm as (row & ev & Hrow & Ht & _ & _ & Hd).
  apply run_row_Some in Hrow as (Hrow & Ho & Hs). apply bool_decide_eq_true in Hs.
  right. exists row, ev. split_and!; [done..|]. cbv zeta. unfold recorded. rewrite <- Hd.
  apply exec_bind_inv in H as [(e & H & _)|(x & w2 & H2 & H)].
  { rewrite exec_try in H. by destruct (exec _ _). }
  rewrite exec_try in H2. simpl Unlock in H2.
  pose proof (Unlock_healthy o ws id wm) as Hun.
  destruct (exec (WorkspaceRepository_Unlock o ws id) wm) as [ru wu] eqn:Hu.
  injection H2 as <- <-. apply Unlock_exec in Hu as [_ Hu]. destruct ru as [y|e].
  - apply calm_exec in H as [-> _]; [|apply calm_forget]. by left.
  - injection H as _ <-. right. split; [|done]. intros Hf. by specialize (Hun (Hh Hf)).
Qed.
End reports.

(** ** Cancelling *)

Section cancelling.
Context {X : Type} `{!VariableResolver X, !WorkerDispatcher X, !WorkerCanceler X,
  !RunTracker X} {calm_ports : CalmPorts X}.
Implicit Types w : World X.

(** C34: A cancelled run was not finished and belongs to the workspace named
    in the request, whose lock is released; the requester may apply at the
    project and workspace the request names. *)
Theorem CancelRun_ok ctx o p ws id u run w w' :
  keyed (db w) →
  exec (CancelRun ctx o p ws id u) w = (Ok run, w') →
  (key_permits ctx permissionWorkspaceApply ∧
   allowed (db w) o u permissionWorkspaceApply (covers_at o (Some p) (Some ws))) ∧
  ∃ row ev, runs (db w) !! id = Some row ∧ run_OrganizationID row = o ∧
    run_WorkspaceID row = ws ∧ IsTerminal (run_Status row) = false ∧
    run = set_status RunStatusCanceled (Some (clock w)) row ∧
    oe_EventType ev = "RunCanceled" ∧
    db w' = unlocked o ws id (recorded id run ev (db w)).
Proof using calm_ports.
  intros [_ Hkey] H. unfold CancelRun in H.
  apply exec_bind_ok in H as (b & w1 & H1 & H).
  apply HasPermissionAtScope_exec in H1 as [(Hd1 & Hc1 & _) Hb].
  apply exec_bind_ok in H as (? & w2 & H2 & H). apply exec_ensure_ok in H2 as [-> ->].
  apply exec_bind_ok in H as (row & w3 & H3 & H).
  apply RunRepository_GetByID_exec in H3 as ((Hc3 & _) & Hd3 & Hrow & Ho).
  apply exec_bind_ok in H as (? & w4 & H4 & H). apply exec_ensure_ok in H4 as [Hws ->].
  bools. apply exec_bind_ok in H as (now & w5 & H5 & H). injection H5 as <- <-.
  apply exec_bind_ok in H as (run' & w6 & H6 & H). rewrite exec_lift in H6.
  injection H6 as Hcan <-. apply Cancel_ok in Hcan as [Hnt ->].
  assert (run_ID row = id) as Hid by (rewrite Hd1 in Hrow; eauto).
  rewrite <- Hd3 in Hrow.
  apply exec_bind_ok in H as (? & w7 & H7 & H).
  apply (Update_recorded id o _ row _ "RunCanceled") in H7 as [_ (ev & Hev & _ & _ & Hd7)];
    [|done..].
  apply exec_bind_ok in H as (? & w8 & H8 & H). simpl Unlock in H8.
  apply Unlock_exec in H8 as [_ Hd8].
  apply exec_bind_ok in H as (? & w9 & H9 & H). injection H as <- <-.
  apply calm_exec in H9 as [Hd9 _]; [|apply steps_in_try, calm_cancel].
  rewrite Hd3, Hd1 in Hrow. split; [by apply Hb|].
  exists row, ev. rewrite Hc3, Hc1 in *. rewrite overwrite_self, Hd3, Hd1 in Hd7.
  split_and!; [done..|]. rewrite Hd9, Hd8, Hd7. simpl. by rewrite Hid.
Qed.
End cancelling.

(** ** Witnesses *)

Definition queued_event : Event := mkEvent "uuid-1" "org" "RunQueued"
  (payload [("actor", "alice"); ("target_type", "run"); ("target_id", "uuid-0");
            ("workspace_id", "ws")]) 1000.

Definition the_run (s : RunStatus) : Run :=
  mkRun "uuid-0" "org" "ws" RunTriggerManual "alice" s None None 1000
    (match s with RunStatusApplying => Some 1000%Z | _ => None end) None.

(** After the job was sent to the worker. *)
Definition demo_applying : World (Cluster Keyspace) := (exec (HandleEvent queued_event) demo_queued).2.


Lemma redelivery_is_a_no_op_witness :
  ∃ w', exec (HandleEvent queued_event) demo_applying = (Ok (), w') ∧ db w' = db demo_applying.
Proof.
  apply (redelivery_is_a_no_op queued_event demo_applying); [by vm_compute|done|].
  intros row Hrow _ Hs. vm_compute in Hrow. injection Hrow as <-. done.
Defined.

Definition reported_world : World (Cluster Keyspace) :=
  (exec (HandleReport "org" "uuid-0" "ws" "failed" "plan ok" "apply timed out") demo_applying).2.

Lemma report_finishes_witness :
  ∃ ev, db reported_world = unlocked "org" "ws" "uuid-0" (recorded "uuid-0"
    (with_report "plan ok" "apply timed out"
       (set_status RunStatusFailed (Some 1000%Z) (the_run RunStatusApplying))) ev
    (db demo_applying)).
Proof.
  destruct (report_finishes "org" "uuid-0" "ws" "failed" "plan ok" "apply timed out"
    RunStatusFailed (the_run RunStatusApplying) demo_applying reported_world)
    as (ev & _ & Hd); [by vm_compute..|].
  exists ev. exact Hd.
Defined.

Lemma late_report_ignored_witness :
  db (exec (HandleReport "org" "uuid-0" "ws" "applied" "" "") reported_world).2 =
    db reported_world.
Proof.
  destruct (exec (HandleReport "org" "uuid-0" "ws" "applied" "" "") reported_world)
    as [r w'] eqn:H.
  destruct (runs (db reported_world) !! "uuid-0") as [row|] eqn:Hrow; [|by vm_compute in Hrow].
  apply (late_report_ignored "org" "uuid-0" "ws" "applied" "" "" row reported_world r w');
    [exact Hrow| |exact H].
  left. vm_compute in Hrow. by injection Hrow as <-.
Defined.

Lemma CancelRun_ok_witness :
  ∃ run ev, run = set_status RunStatusCanceled (Some 1000%Z) (the_run RunStatusApplying) ∧
    db (exec (CancelRun background "org" "project" "ws" "uuid-0" "alice") demo_applying).2 =
      unlocked "org" "ws" "uuid-0" (recorded "uuid-0" run ev (db demo_applying)).
Proof.
  destruct (exec (CancelRun background "org" "project" "ws" "uuid-0" "alice") demo_applying)
    as [[run|e] w'] eqn:H; [|by vm_compute in H].
  destruct (CancelRun_ok background "org" "project" "ws" "uuid-0" "alice" run demo_applying w')
    as (_ & row & ev & Hrow & _ & _ & _ & Hrun & _ & Hd); [|exact H|].
  - by apply (bool_decide_unpack _); vm_compute.
  - exists run, ev. split; [|exact Hd]. rewrite Hrun.
    vm_compute in Hrow. by injection Hrow as <-.
Defined.

(** A deployment without workers strands nothing; one whose database drops
    the connection does. *)
Definition dropped_connection : World (Cluster Keyspace) :=
  set_faults [false; false; true] demo_queued.

(** A dispatch that fails half way is not retried: when the transaction
    after the claim is lost, the handler reports an error and the event is
    delivered again, but the redelivery finds the run applying and succeeds
    without sending anything, and no worker ever hears of the run. *)
Theorem failed_dispatch_is_not_retried :
  ∃ e w1, exec (HandleEvent queued_event) dropped_connection = (Err e, w1) ∧
    run_Status <$> runs (db w1) !! "uuid-0" = Some RunStatusApplying ∧
    ∃ u w2, exec (HandleEvent queued_event) w1 = (Ok u, w2) ∧
      run_Status <$> runs (db w2) !! "uuid-0" = Some RunStatusApplying ∧
      channels <$> registries (aux w2) !! "cp-1" = Some {[0 := []]} ∧
      ws_Locked <$> workspaces (db w2) !! "ws" = Some true.
Proof.
  apply exec_err_intro.
  destruct (exec (HandleEvent queued_event) dropped_connection) as [[u|e] w1] eqn:H;
    [by vm_compute in H|].
  assert (w1 = (exec (HandleEvent queued_event) dropped_connection).2) as -> by by rewrite H.
  split; [vm_compute; reflexivity|]. apply exec_ok_intro.
  vm_compute. split_and!; reflexivity.
Qed.

Lemma reap_one_spec_witness :
  ∃ row ev, run_Status row = RunStatusApplying ∧
    db (exec (reap_one {| cand_OrganizationID := "org"; cand_RunID := "uuid-0";
                          cand_WorkspaceID := "ws" |}) demo_applying).2 =
      unlocked "org" "ws" "uuid-0" (recorded "uuid-0"
        (set_status RunStatusErrored (Some 1000%Z) row) ev (db demo_applying)).
Proof.
  set (c := {| cand_OrganizationID := "org" |}).
  destruct (exec (reap_one c) demo_applying) as [r w'] eqn:H.
  destruct (reap_one_spec c demo_applying r w' H)
    as [Hd|(row & ev & _ & _ & Hs & _ & [Hd|[Hf _]])].
  - assert (run_Status <$> runs (db (exec (reap_one c) demo_applying).2) !! "uuid-0" =
      Some RunStatusErrored) as He by by vm_compute.
    rewrite H in He. simpl in He. rewrite Hd in He. by vm_compute in He.
  - exists row, ev. split; [exact Hs|]. exact Hd.
  - exfalso. apply Hf. by vm_compute.
Defined.

(** A run claimed long ago, put back since, and claimed again just now. *)
Definition no_worker : World (Cluster Keyspace) :=
  demo_at demo_db (mkCluster {["cp-1" := NewRegistry]} demo_keyspace).
Definition put_back : World (Cluster Keyspace) :=
  (exec (HandleEvent queued_event) (exec (TriggerRun background demo_input) no_worker).2).2.
Definition sent_later : World (Cluster Keyspace) :=
  (exec (HandleEvent queued_event)
     (set_clock 9000 (set_aux demo_cluster put_back))).2.

(** The reaper measures the age of a run's first claim, not of its current
    one: a run that found no worker and was queued again is errored, and its
    workspace released, although it was handed to a worker in this very
    instant. *)
Theorem reaper_errors_a_fresh_run :
  run_Status <$> runs (db put_back) !! "uuid-0" = Some RunStatusQueued ∧
  (∃ r, runs (db sent_later) !! "uuid-0" = Some r ∧ run_Status r = RunStatusApplying ∧
     run_StartedAt r = Some (clock sent_later)) ∧
  let swept := (exec (reapOnce 5000) sent_later).2 in
  clock swept = clock sent_later ∧
  run_Status <$> runs (db swept) !! "uuid-0" = Some RunStatusErrored ∧
  ws_Locked <$> workspaces (db swept) !! "ws" = Some false.
Proof. split_and!; [by vm_compute| |by vm_compute..]. eexists. split_and!; by vm_compute. Qed.

(** carol may apply in another project only. *)
Definition other_project_binding : RoleBinding :=
  NewRoleBinding "binding-2" 0 "org" "role-owner" "user" "carol" "project" "other" "allow".
Definition with_carol : World (Cluster Keyspace) :=
  set_db (tset (<["binding-2" := other_project_binding]> (role_bindings (db demo_applying)))
            (db demo_applying)) demo_applying.

(** Cancelling does not check that the workspace belongs to the project of
    the request: a permission on another project cancels the run, although
    the same subject may neither trigger nor cancel it through its own
    project. *)
Theorem cancel_through_another_project :
  (exec (CancelRun background "org" "project" "ws" "uuid-0" "carol") with_carol).1 =
    Err (ErrForbidden Execution) ∧
  (exec (TriggerRun background {| tr_OrganizationID := "org"; tr_ProjectID := "other";
     tr_WorkspaceID := "ws"; tr_RequestingUserID := "carol" |}) with_carol).1 =
    Err (ErrWorkspaceNotFound Execution) ∧
  ∃ run w', exec (CancelRun background "org" "other" "ws" "uuid-0" "carol") with_carol =
      (Ok run, w') ∧ run_Status run = RunStatusCanceled.
Proof. split_and!; [by vm_compute..|]. eexists _, _. split; by vm_compute. Qed.
