(* ===== verification/Writes.v ===== *)
(** * The writes of the execution context

    Everything the services, the relay and the reaper do to the database is
    made of six kinds of writes.  A relation that allows each of them is
    respected by any interleaving of any number of requests. *)
From S2P Require Import Prelude Prog RunDomain WorkspaceDomain TenancyDomain IdentityDomain Store Outbox.
From S2P Require Import RunRepo WorkspaceRepo Principal Ports Registry Execution AuditLog.
From S2P Require Import Wiring.

Class AllowsWrites (R : DB → DB → Prop) : Prop := {
  aw_preorder :: PreOrder R;
  aw_event d ev : outbox_events d !! oe_ID ev = None → oe_PublishedAt ev = None →
    R d (add_event ev d);
  aw_new_run d (run : Run) : runs d !! run_ID run = None → R d (put_row (run_ID run) run d);
  aw_run d k (run run' : Run) : runs d !! k = Some run → R d (put_row k run' d);
  aw_lock d k ws l by_run : workspaces d !! k = Some ws → R d (put_row k (set_lock l by_run ws) d);
  aw_entry d (e : Entry) : audit_entries d !! entry_ID e = None → conflicts e d = false →
    R d (put_row (entry_ID e) e d);
}.

(** The relay's own write. *)
Class AllowsPublishing (R : DB → DB → Prop) : Prop :=
  aw_published d k ev t : outbox_events d !! k = Some ev →
    R d (put_row k (set_published t ev) d).

Section writes.
Context (R : DB → DB → Prop) `{!AllowsWrites R}.

Definition on_db {X} (w w' : World X) : Prop := R (db w) (db w').

#[export] Instance on_db_preorder {X} : PreOrder (@on_db X).
Proof using AllowsWrites0.
  unfold on_db. split; [intros w; reflexivity|]. intros w1 w2 w3 ??. by etrans.
Qed.

Lemma calm_on_db {X A} (p : prog (World X) A) : steps_in calm p → steps_in on_db p.
Proof using AllowsWrites0.
  apply steps_in_mono. intros w w' [Hd _]. unfold on_db. rewrite Hd. reflexivity.
Qed.

Lemma on_db_txn {X A} s (t : Tx X A) : tx_in R s t → steps_in on_db (txn s t).
Proof using AllowsWrites0. intros H. by apply (txn_in R). Qed.

(** ** Transactions *)

Context {X : Type}.
Notation writes := (on_db (X:=X)).

Lemma event_insert_on s id o t p now :
  tx_in R s (insert_row (X:=X) (mkOutboxEvent id o t p now None)).
Proof using AllowsWrites0.
  apply tx_in_insert; [exact _|]. intros d Hd _ _ _. by apply aw_event.
Qed.

Lemma RunRepository_Create_on run : steps_in writes (RunRepository_Create run).
Proof using AllowsWrites0.
  apply on_db_txn. tx_in_steps; [|apply event_insert_on].
  apply tx_in_insert; [exact _|]. intros d Hd _ _ _. by apply (aw_new_run d run).
Qed.

Lemma run_update_on s id P f : tx_in R s (update_pk (X:=X) (R:=Run) id P f).
Proof using AllowsWrites0.
  apply tx_in_update_pk; [exact _|]. intros d r Hr _ _. by apply (aw_run d id r (f r)).
Qed.

Lemma lock_update_on s id P l b : tx_in R s (update_pk (X:=X) id P (set_lock l b)).
Proof using AllowsWrites0.
  apply tx_in_update_pk; [exact _|]. intros d r Hr _ _. by apply (aw_lock d id r l b).
Qed.

Ltac repo := apply on_db_txn; tx_in_steps; first [apply run_update_on|apply lock_update_on|apply event_insert_on].

Lemma RunRepository_GetByID_on o id : steps_in writes (RunRepository_GetByID o id).
Proof using AllowsWrites0. apply calm_on_db. unfold RunRepository_GetByID. calm_steps. Qed.
Lemma RunRepository_Update_on run u : steps_in writes (RunRepository_Update run u).
Proof using AllowsWrites0. repo. Qed.
Lemma RunRepository_TryStartApplying_on o id ws :
  steps_in writes (RunRepository_TryStartApplying o id ws).
Proof using AllowsWrites0. repo. Qed.
Lemma RunRepository_RevertToQueued_on o id : steps_in writes (RunRepository_RevertToQueued o id).
Proof using AllowsWrites0. repo. Qed.
Lemma RunRepository_MarkErrored_on o id :
  steps_in writes (RunRepository_MarkErroredIfStillApplying o id).
Proof using AllowsWrites0. repo. Qed.
Lemma WorkspaceRepository_TryLock_on o ws id :
  steps_in writes (WorkspaceRepository_TryLock o ws id).
Proof using AllowsWrites0. unfold WorkspaceRepository_TryLock, workspace_row. repo. Qed.
Lemma WorkspaceRepository_Unlock_on o ws id :
  steps_in writes (WorkspaceRepository_Unlock o ws id).
Proof using AllowsWrites0. repo. Qed.

Lemma RecordEntry_on ev : steps_in writes (RecordEntry ev).
Proof using AllowsWrites0.
  unfold RecordEntry, AuditEntryRepository_Create.
  apply steps_in_bind; [apply calm_on_db; calm_steps|intros id].
  apply steps_in_bind; [apply calm_on_db; calm_steps|intros now].
  apply on_db_txn, tx_in_insert_or_nothing; [exact _|].
  intros d Hd _ Hc _. by apply aw_entry.
Qed.

Lemma mark_published_on `{!AllowsPublishing R} id : steps_in writes (txn (X:=X) (AppRole None) (mark_published id)).
Proof using AllowsWrites0.
  apply on_db_txn. unfold mark_published. tx_in_steps.
  apply tx_in_update_pk; [exact _|]. intros d ev Hev _ _. by apply aw_published.
Qed.
End writes.

(** ** Services *)

Section services.
Context (R : DB → DB → Prop) `{!AllowsWrites R}.
Context {X : Type} `{!ScopedPermissionChecker X, !OrganizationChecker X,
  !WorkspaceChecker X, !WorkspaceEngineReader X, !VariableResolver X,
  !WorkerDispatcher X, !WorkerCanceler X, !RunTracker X} {calm_ports : CalmPorts X}.
Notation writes := (on_db R (X:=X)).

(** Walk down a service to the operations above and the ports' questions. *)
Ltac service :=
  repeat match goal with
  | |- steps_in _ (_ ≫= _) => apply steps_in_bind; [|intros ?]
  | |- steps_in _ (try _) => apply steps_in_try
  | |- steps_in _ (ensure _ _) => apply steps_in_ensure
  | |- steps_in _ (lift ?r) => by destruct r
  | |- steps_in _ (range _ _) => apply steps_in_range; intros ?
  | |- steps_in _ (RunRepository_Create _) => apply (RunRepository_Create_on R)
  | |- steps_in _ (RunRepository_GetByID _ _) => apply (RunRepository_GetByID_on R)
  | |- steps_in _ (RunRepository_Update _ _) => apply (RunRepository_Update_on R)
  | |- steps_in _ (RunRepository_TryStartApplying _ _ _) =>
      apply (RunRepository_TryStartApplying_on R)
  | |- steps_in _ (RunRepository_RevertToQueued _ _) =>
      apply (RunRepository_RevertToQueued_on R)
  | |- steps_in _ (RunRepository_MarkErroredIfStillApplying _ _) =>
      apply (RunRepository_MarkErrored_on R)
  | |- steps_in _ (WorkspaceRepository_TryLock _ _ _) =>
      apply (WorkspaceRepository_TryLock_on R)
  | |- steps_in _ (WorkspaceRepository_Unlock _ _ _) =>
      apply (WorkspaceRepository_Unlock_on R)
  | |- steps_in _ (txn _ (mark_published _)) => apply (mark_published_on R)
  | |- steps_in _ (HasPermissionAtScope _ _ _ _ _ _) => apply (calm_on_db R), calm_permission
  | |- steps_in _ (IsArchived _) => apply (calm_on_db R), calm_archived
  | |- steps_in _ (WorkspaceExists _ _ _) => apply (calm_on_db R), calm_exists
  | |- steps_in _ (GetExecutionEngine _ _) => apply (calm_on_db R), calm_engine
  | |- steps_in _ (ResolveValue _ _ _ _) => apply (calm_on_db R), calm_resolve
  | |- steps_in _ (Dispatch _ _ _ _ _ _) => apply (calm_on_db R), calm_dispatch
  | |- steps_in _ (CancelJob _) => apply (calm_on_db R), calm_cancel
  | |- steps_in _ (Forget _) => apply (calm_on_db R), calm_forget
  | |- steps_in _ new_uuid => apply (calm_on_db R); calm_steps
  | |- steps_in _ time_now => apply (calm_on_db R); calm_steps
  | |- steps_in _ (Ret _) => exact I
  | |- steps_in _ (Throw _) => exact I
  | _ => case_match
  end.

Lemma TriggerRun_on ctx inp : steps_in writes (TriggerRun ctx inp).
Proof using AllowsWrites0 calm_ports. unfold TriggerRun. simpl TryLock. simpl Unlock. service. Qed.

Lemma CancelRun_on ctx o p ws id u : steps_in writes (CancelRun ctx o p ws id u).
Proof using AllowsWrites0 calm_ports. unfold CancelRun. simpl Unlock. service. Qed.

Lemma HandleReport_on o id ws status line err :
  steps_in writes (HandleReport o id ws status line err).
Proof using AllowsWrites0 calm_ports.
  unfold HandleReport, finish_report. simpl Unlock. cbv zeta. service.
Qed.

Lemma HandleEvent_on ev : steps_in writes (HandleEvent ev).
Proof using AllowsWrites0 calm_ports.
  unfold HandleEvent, dispatch_fail, resolve_credential. simpl Unlock. cbv zeta. service.
Qed.

Lemma combinedHandler_on ev : steps_in writes (combinedHandler ev).
Proof using AllowsWrites0 calm_ports.
  unfold combinedHandler. apply steps_in_bind; [apply RecordEntry_on, _|intros ?].
  apply HandleEvent_on.
Qed.

Lemma relay_one_on `{!AllowsPublishing R} (h : Handler X) e :
  (∀ ev, steps_in writes (h ev)) → steps_in writes (relay_one h e).
Proof using AllowsWrites0. intros Hh. unfold relay_one. service; auto. Qed.

Lemma relayBatch_on `{!AllowsPublishing R} (h : Handler X) :
  (∀ ev, steps_in writes (h ev)) → steps_in writes (relayBatch h).
Proof using AllowsWrites0.
  intros Hh. unfold relayBatch. apply steps_in_bind.
  - apply (calm_on_db R). unfold unpublished_batch. calm_steps.
  - intros es. apply steps_in_range. intros e. by apply relay_one_on.
Qed.

Lemma Relay_Run_on `{!AllowsPublishing R} (h : Handler X) n :
  (∀ ev, steps_in writes (h ev)) → steps_in writes (Relay_Run h n).
Proof using AllowsWrites0.
  intros Hh. induction n as [|n IH]; cbn [Relay_Run]; [done|].
  apply steps_in_bind; [|done]. by apply steps_in_void, steps_in_try, relayBatch_on.
Qed.

Lemma StaleRunReaper_Run_on t n : steps_in writes (StaleRunReaper_Run t n).
Proof using AllowsWrites0 calm_ports.
  induction n as [|n IH]; cbn [StaleRunReaper_Run]; [done|].
  apply steps_in_bind; [|done]. apply steps_in_void, steps_in_try.
  unfold reapOnce, RunRepository_FindStaleApplyingRuns, reap_one. simpl Unlock.
  apply steps_in_bind; [service|intros now].
  apply steps_in_bind; [|intros cs; service].
  apply (calm_on_db R), calm_txn; [tx_frame_steps|tx_in_steps].
Qed.
End services.

(** ** Requests *)

Section requests.
Context {Rd : Type} `{!RedisOps Rd, !SecretResolver (Cluster Rd)}.
Context (calm_secrets : ∀ o m p, steps_in calm (ResolveSecret (X:=Cluster Rd) o m p)).
Notation X := (Cluster Rd).

(** What the replica [self] runs in this context. *)
Inductive execution_request (self : string)
    (map_order : list (string * workerEntry) → list (string * workerEntry))
    : prog (World X) () → Prop :=
| er_trigger ctx inp : execution_request self map_order (void (TriggerRun ctx inp))
| er_cancel ctx o p ws id u : execution_request self map_order
    (void (CancelRun (WorkerCanceler0 := worker_canceler self) ctx o p ws id u))
| er_report o id ws status line err : execution_request self map_order
    (HandleReport (RunTracker0 := run_tracker self) o id ws status line err)
| er_relay n : execution_request self map_order
    (Relay_Run (combinedHandler (WorkerDispatcher0 := worker_dispatcher self map_order)) n)
| er_reaper t n : execution_request self map_order
    (StaleRunReaper_Run (RunTracker0 := run_tracker self) t n)
| er_calm p : steps_in calm p → execution_request self map_order p.

Definition any_execution_request (p : prog (World X) ()) : Prop :=
  ∃ self map_order, execution_request self map_order p.

(** Between steps the database stays put. *)
Definition idle (w w' : World X) : Prop := db w' = db w.

Lemma execution_request_on R `{!AllowsWrites R, !AllowsPublishing R} p :
  any_execution_request p → steps_in (on_db R) p.
Proof using calm_secrets.
  intros (self & map_order & Hp).
  pose proof (replica_calm calm_secrets self map_order) as Hc.
  destruct Hp.
  - apply steps_in_void, (TriggerRun_on R (calm_ports := Hc)).
  - apply steps_in_void, (CancelRun_on R (calm_ports := Hc)).
  - apply (HandleReport_on R (calm_ports := Hc)).
  - apply Relay_Run_on; [exact _..|]. intros ev. apply (combinedHandler_on R (calm_ports := Hc)).
  - apply (StaleRunReaper_Run_on R (calm_ports := Hc)).
  - by apply calm_on_db.
Qed.

(** Whatever relation the six writes respect, every interleaving does. *)
Lemma interleaved_writes R `{!AllowsWrites R, !AllowsPublishing R} c c' :
  Forall any_execution_request c.2 →
  pool_steps idle any_execution_request c c' → R (db c.1) (db c'.1).
Proof using calm_secrets.
  intros Hall Hsteps.
  eapply (pool_steps_in _ any_execution_request (on_db R) c c'); [| | |exact Hsteps].
  - intros w w' Hd. unfold on_db. rewrite Hd. reflexivity.
  - intros p. by apply execution_request_on.
  - eapply Forall_impl; [exact Hall|]. intros p. by apply execution_request_on.
Qed.
End requests.
