(* ===== verification/OutboxSpec.v ===== *)
(** * The outbox and the audit log

    Events are never lost or altered, are marked published only once they
    were handled, and end up in the audit log at most once each. *)
From S2P Require Import Prelude Prog RunDomain WorkspaceDomain TenancyDomain IdentityDomain Store Outbox.
From S2P Require Import Principal Ports Registry Execution AuditLog Wiring Scenario.
From S2P Require Import ExecutionSpec Writes.

(** ** Events are kept *)

(** Every event stays, with its content, and a published one stays published. *)
Definition kept_events (d d' : DB) : Prop := ∀ k ev,
  outbox_events d !! k = Some ev →
  ∃ ev', outbox_events d' !! k = Some ev' ∧ event_of ev' = event_of ev ∧
    (is_Some (oe_PublishedAt ev) → is_Some (oe_PublishedAt ev')).

#[export] Instance kept_events_preorder : PreOrder kept_events.
Proof.
  split; [intros d k ev; eauto|]. intros d1 d2 d3 H12 H23 k ev Hev.
  destruct (H12 k ev Hev) as (ev2 & Hev2 & He2 & Hp2).
  destruct (H23 k ev2 Hev2) as (ev3 & Hev3 & He3 & Hp3).
  exists ev3. split_and!; [done|congruence|auto].
Qed.

#[export] Instance kept_events_writes : AllowsWrites kept_events.
Proof.
  split; [exact _|..]; try (intros; intros k' ev' ?; by eauto).
  - intros d ev Hn _ k ev' Hev. exists ev'. simpl.
    rewrite lookup_insert_ne by congruence. auto.
Qed.

#[export] Instance kept_events_publishing : AllowsPublishing kept_events.
Proof.
  intros d k ev t Hev k' ev' Hev'. simpl. destruct (decide (k = k')) as [<-|Hne].
  - rewrite lookup_insert_eq. simplify_eq. eexists. split_and!; [done..|]. simpl. eauto.
  - rewrite lookup_insert_ne by done. eauto.
Qed.

(** ** Every source event is audited at most once *)

Definition audited_once (d : DB) : Prop := ∀ k1 k2 e1 e2,
  audit_entries d !! k1 = Some e1 → audit_entries d !! k2 = Some e2 →
  entry_SourceEventID e1 = entry_SourceEventID e2 → k1 = k2.

Definition keeps_audited_once (d d' : DB) : Prop := audited_once d → audited_once d'.

#[export] Instance keeps_audited_once_writes : AllowsWrites keeps_audited_once.
Proof.
  split.
  - split; [intros d H; exact H|]. intros d1 d2 d3 H12 H23 H1. auto.
  - intros d ev _ _ H. exact H.
  - intros d run _ H. exact H.
  - intros d k r r' _ H. exact H.
  - intros d k ws l b _ H. exact H.
  - intros d e Hn Hc H k1 k2 e1 e2. simpl.
    assert (∀ k e', audit_entries d !! k = Some e' →
      entry_SourceEventID e' ≠ entry_SourceEventID e) as Hfresh.
    { intros k e' He Heq.
      pose proof (proj1 (existsb_rows_false d (tunique e)) Hc k e' He) as Hb.
      simpl in Hb. bools. congruence. }
    intros [[<- <-]|[Hne1 H1]]%lookup_insert_Some [[<- <-]|[Hne2 H2]]%lookup_insert_Some Heq.
    + done.
    + by destruct (Hfresh _ _ H2).
    + by destruct (Hfresh _ _ H1).
    + by eapply H.
Qed.

#[export] Instance keeps_audited_once_publishing : AllowsPublishing keeps_audited_once.
Proof. intros d k ev t _ H. exact H. Qed.

Lemma no_audit_yet d : audit_entries d = ∅ → audited_once d.
Proof. intros He k1 k2 e1 e2 H1. rewrite He in H1. by apply lookup_empty_Some in H1. Qed.

Section interleavings.
Context {Rd : Type} `{!RedisOps Rd, !SecretResolver (Cluster Rd)}.
Context (calm_secrets : ∀ o m p, steps_in calm (ResolveSecret (X:=Cluster Rd) o m p)).

(** The outbox only grows: under any interleaving of triggers,
    cancellations, reports, relays and reapers, an event written is never
    removed or altered, and once marked published it stays so. *)
Theorem outbox_only_grows c c' k ev :
  Forall (any_execution_request (Rd:=Rd)) c.2 →
  pool_steps idle any_execution_request c c' →
  outbox_events (db c.1) !! k = Some ev →
  ∃ ev', outbox_events (db c'.1) !! k = Some ev' ∧ event_of ev' = event_of ev ∧
    (is_Some (oe_PublishedAt ev) → is_Some (oe_PublishedAt ev')).
Proof using calm_secrets.
  intros Hall Hsteps. by apply (interleaved_writes calm_secrets kept_events c c').
Qed.

End interleavings.

(** Two relays deliver the events of one trigger at the same time. *)
Definition two_relays : World (Cluster Keyspace) * pool (W:=World (Cluster Keyspace)) :=
  (demo_queued, [Relay_Run combinedHandler 2; Relay_Run combinedHandler 2]).
Definition relayed := sched (concat (repeat [0; 1] 40)) two_relays.

Lemma two_relays_requests : Forall any_execution_request two_relays.2.
Proof. repeat constructor; exists "cp-1", (λ l, l); apply er_relay. Qed.

Lemma outbox_only_grows_witness :
  relayed.2 = [Ret (); Ret ()] ∧
  ∃ ev', outbox_events (db relayed.1) !! "uuid-1" = Some ev' ∧ oe_EventType ev' = "RunQueued".
Proof.
  split; [by vm_compute|].
  destruct (outbox_events (db demo_queued) !! "uuid-1") as [ev|] eqn:Hev; [|by vm_compute in Hev].
  destruct (outbox_only_grows calm_secrets_demo two_relays relayed "uuid-1" ev)
    as (ev' & Hev' & He & _); [exact two_relays_requests|apply sched_steps|exact Hev|].
  exists ev'. split; [exact Hev'|].
  assert (ev_EventType (event_of ev') = "RunQueued") as Ht; [|exact Ht].
  rewrite He. vm_compute in Hev. by injection Hev as <-.
Defined.


(** ** The relay *)

(** Events published after were published before, unaltered. *)
Definition publishes_nothing (d d' : DB) : Prop := ∀ k ev,
  outbox_events d' !! k = Some ev → is_Some (oe_PublishedAt ev) →
  outbox_events d !! k = Some ev.

#[export] Instance publishes_nothing_writes : AllowsWrites publishes_nothing.
Proof.
  split; try (intros; intros k' ev' ?; by eauto).
  - split; [intros d k ev; eauto|]. intros d1 d2 d3 H12 H23 k ev Hev Hp. auto.
  - intros d ev _ Hp k ev' Hev [t Ht]. simpl in Hev.
    apply lookup_insert_Some in Hev as [[<- <-]|[_ ?]]; [congruence|done].
Qed.

Section relay.
Context {X : Type}.
Implicit Types w : World X.

(** The handler was run on [e] and succeeded. *)
Definition handled (h : Handler X) (e : Event) : Prop :=
  ∃ w1 w2, exec (h e) w1 = (Ok (), w2).

Lemma mark_published_exec id w r w' :
  exec (txn (AppRole None) (mark_published id)) w = (r, w') →
  match r with
  | Err _ => db w' = db w
  | Ok _ => db w' = match outbox_events (db w) !! id with
                    | Some ev => put_row id (set_published (clock w) ev) (db w)
                    | None => db w
                    end
  end.
Proof.
  intros H. apply exec_txn in H as [_ Hr]; [|unfold mark_published; tx_frame_steps].
  destruct r as [[]|e]; [|done]. destruct Hr as [fs Hr]. unfold mark_published in Hr.
  tx_inv Hr. subst. apply update_pk_row in Hst. unfold row_at in Hst. simpl in Hst.
  destruct (outbox_events (db w) !! id); simpl in Hst; by destruct Hst as [_ ->].
Qed.

(** What one turn of the loop published. *)
Lemma relay_one_published (h : Handler X) e w r w' k ev :
  steps_in (on_db publishes_nothing) (h e) →
  exec (relay_one h e) w = (r, w') →
  outbox_events (db w') !! k = Some ev → is_Some (oe_PublishedAt ev) →
  outbox_events (db w) !! k = Some ev ∨ (k = ev_ID e ∧ handled h e).
Proof.
  intros Hh H Hk Hp. unfold relay_one in H.
  apply exec_bind_inv in H as [(x & H & _)|(rh & w1 & H1 & H)].
  { rewrite exec_try in H. by destruct (exec _ _). }
  rewrite exec_try in H1. destruct (exec (h e) w) as [rh' wh] eqn:Hex. injection H1 as <- <-.
  assert (publishes_nothing (db w) (db wh)) as Hpub.
  { pose proof (steps_in_exec (on_db publishes_nothing) _ w Hh) as Hon. by rewrite Hex in Hon. }
  destruct rh' as [[]|x].
  - apply mark_published_exec in H. destruct r as [u|x]; [|rewrite H in Hk; left; by apply Hpub].
    destruct (decide (k = ev_ID e)) as [->|Hne]; [right; split; [done|by exists w, wh]|].
    left. apply Hpub; [|done]. destruct (outbox_events (db wh) !! ev_ID e); rewrite H in Hk; [|done].
    simpl in Hk. by rewrite lookup_insert_ne in Hk.
  - injection H as _ <-. left. by apply Hpub.
Qed.

Lemma range_published (h : Handler X) es w r w' k ev :
  (∀ e, steps_in (on_db publishes_nothing) (h e)) →
  exec (range es (relay_one h)) w = (r, w') →
  outbox_events (db w') !! k = Some ev → is_Some (oe_PublishedAt ev) →
  outbox_events (db w) !! k = Some ev ∨ ∃ e, e ∈ es ∧ k = ev_ID e ∧ handled h e.
Proof.
  intros Hh. revert w; induction es as [|e es IH]; intros w; cbn [range].
  - intros [= <- <-]. by left.
  - intros [(x & H & _)|([] & w1 & H1 & H)]%exec_bind_inv Hk Hp.
    + destruct (relay_one_published h e w (Err x) w' k ev) as [?|[??]]; [done..|by left|].
      right. exists e. set_solver.
    + destruct (IH w1 H Hk Hp) as [Hk1|(e' & ? & ? & ?)]; [|right; exists e'; set_solver].
      destruct (relay_one_published h e w (Ok ()) w1 k ev) as [?|[??]]; [done..|by left|].
      right. exists e. set_solver.
Qed.

(** The rows a batch takes. *)
Lemma unpublished_batch_exec w r w' :
  exec (txn (AppRole None) unpublished_batch) w = (r, w') →
  db w' = db w ∧
  match r with
  | Err _ => True
  | Ok es => es = event_of <$> take 100 (merge_sort earlier
               (filter (λ e : OutboxEvent, visible (AppRole None) e && unpublished e) (rows (db w))))
  end.
Proof.
  intros H. apply exec_txn in H as [_ Hr]; [|unfold unpublished_batch; tx_frame_steps].
  destruct r as [es|e]; [|done]. destruct Hr as [fs Hr]. unfold unpublished_batch in Hr.
  tx_inv Hr. apply select_ok in Hst as [-> ->]. by subst.
Qed.

Lemma in_batch d e :
  e ∈ event_of <$> take 100 (merge_sort earlier
    (filter (λ e : OutboxEvent, visible (AppRole None) e && unpublished e) (rows d))) →
  ∃ k ev, outbox_events d !! k = Some ev ∧ oe_PublishedAt ev = None ∧ e = event_of ev.
Proof.
  rewrite list_elem_of_fmap. intros (ev & -> & Hin).
  apply (subseteq_take 100) in Hin. rewrite merge_sort_Permutation in Hin.
  apply elem_of_selected in Hin as ([k Hk] & _ & Hu). unfold unpublished in Hu. bools. eauto.
Qed.

(** C5: An event is marked published only if its handler succeeded: for a
    handler that does not touch the flags itself, whatever is published
    after a batch was published before it, or is an event of the outbox
    that the handler was run on with success. *)
Theorem published_means_handled (h : Handler X) w r w' k ev :
  (∀ e, steps_in (on_db publishes_nothing) (h e)) →
  (∀ k ev, outbox_events (db w) !! k = Some ev → oe_ID ev = k) →
  exec (relayBatch h) w = (r, w') →
  outbox_events (db w') !! k = Some ev → is_Some (oe_PublishedAt ev) →
  outbox_events (db w) !! k = Some ev ∨
  ∃ ev0, outbox_events (db w) !! k = Some ev0 ∧ oe_PublishedAt ev0 = None ∧
    handled h (event_of ev0).
Proof.
  intros Hh Hkeyed H Hk Hp. unfold relayBatch in H.
  apply exec_bind_inv in H as [(x & H & _)|(es & w1 & H1 & H)].
  { apply unpublished_batch_exec in H as [Hd _]. rewrite Hd in Hk. by left. }
  apply unpublished_batch_exec in H1 as [Hd ->].
  destruct (range_published h _ w1 r w' k ev Hh H Hk Hp) as [Hk1|(e & Hin & -> & Hhd)].
  - left. by rewrite Hd in Hk1.
  - right. apply in_batch in Hin as (k0 & ev0 & Hk0 & Hu & ->).
    pose proof (Hkeyed _ _ Hk0) as Hid. exists ev0. simpl. by rewrite Hid.
Qed.
End relay.

(** The events waiting for the relay. *)
Definition backlog (d : DB) : list OutboxEvent :=
  filter (λ e : OutboxEvent, visible (AppRole None) e && unpublished e) (rows d).

#[export] Instance earlier_trans : Transitive earlier.
Proof. unfold earlier. intros x y z. lia. Qed.
#[export] Instance earlier_total : Total earlier.
Proof. unfold earlier. intros x y. lia. Qed.

Section progress.
Context {X : Type}.
Implicit Types w : World X.

(** A batch is the oldest of the backlog, oldest first, and all of it
    unless there are more than a hundred events waiting. *)
Theorem batch_is_oldest w es w' :
  exec (txn (AppRole None) unpublished_batch) w = (Ok es, w') →
  ∃ taken rest, es = event_of <$> taken ∧ taken ++ rest ≡ₚ backlog (db w) ∧
    StronglySorted earlier taken ∧
    (∀ e f, e ∈ taken → f ∈ rest → (oe_OccurredAt e ≤ oe_OccurredAt f)%Z) ∧
    (rest ≠ [] → length taken = 100).
Proof.
  intros [_ ->]%unpublished_batch_exec. fold (backlog (db w)).
  set (l := merge_sort earlier (backlog (db w))).
  assert (StronglySorted earlier (take 100 l ++ drop 100 l)) as Hs.
  { rewrite take_drop. apply (StronglySorted_merge_sort earlier); exact _. }
  exists (take 100 l), (drop 100 l). split_and!; [done|..].
  - rewrite take_drop. apply merge_sort_Permutation.
  - by eapply StronglySorted_app_1_l.
  - intros e f He Hf. by eapply (StronglySorted_app_1_elem_of earlier).
  - intros Hr. rewrite length_take. assert (100 < length l); [|lia].
    destruct (decide (100 < length l)); [done|]. destruct Hr. apply drop_ge. lia.
Qed.

(** A handler that succeeds and loses no event, while nothing fails. *)
Definition reliable (h : Handler X) : Prop := ∀ e w, faults w = [] →
  ∃ w', exec (h e) w = (Ok (), w') ∧ faults w' = [] ∧ kept_events (db w) (db w').

Definition published_at (k : string) w : Prop :=
  ∃ ev, outbox_events (db w) !! k = Some ev ∧ is_Some (oe_PublishedAt ev).

Lemma kept_published k w w' :
  kept_events (db w) (db w') → published_at k w → published_at k w'.
Proof. intros Hk (ev & Hev & Hp). destruct (Hk k ev Hev) as (ev' & ? & _ & ?). exists ev'. auto. Qed.

Lemma mark_published_healthy id w :
  faults w = [] →
  ∃ w', exec (txn (AppRole None) (mark_published id)) w = (Ok (), w') ∧ faults w' = [] ∧
    kept_events (db w) (db w') ∧
    (is_Some (outbox_events (db w) !! id) → published_at id w').
Proof.
  intros Hf.
  destruct (exec_txn_nofault (AppRole None) (mark_published id) w) as [He Hf'];
    [unfold mark_published; tx_frame_steps|done|].
  destruct (exec (txn (AppRole None) (mark_published id)) w) as [r w'] eqn:H. simpl in Hf'.
  assert (kept_events (db w) (db w')) as Hkept.
  { pose proof (steps_in_exec (on_db kept_events) _ w (mark_published_on kept_events id)) as Hon.
    by rewrite H in Hon. }
  apply mark_published_exec in H. destruct r as [[]|e].
  - exists w'. split_and!; [done..|]. intros [ev Hev]. rewrite Hev in H.
    unfold published_at. rewrite H. simpl. rewrite lookup_insert_eq. eexists. by split; [|eexists].
  - exfalso. unfold mark_published in He. rewrite tx_bind_eq in He. cbn [sql_now] in He.
    rewrite tx_bind_eq in He.
    destruct (row_at (AppRole None) (db w) id (λ _ : OutboxEvent, true)) as [ev|] eqn:Hr.
    + by rewrite (update_pk_some _ _ _ _ _ _ Hr) in He.
    + by rewrite (update_pk_none _ _ _ _ _ Hr) in He.
Qed.

Lemma range_progress (h : Handler X) es w :
  reliable h → faults w = [] →
  (∀ e, e ∈ es → is_Some (outbox_events (db w) !! ev_ID e)) →
  ∃ w', exec (range es (relay_one h)) w = (Ok (), w') ∧ kept_events (db w) (db w') ∧
    ∀ e, e ∈ es → published_at (ev_ID e) w'.
Proof.
  intros Hh. revert w; induction es as [|e es IH]; intros w Hf Hin; cbn [range].
  { exists w. split_and!; [done|reflexivity|]. intros e He. set_solver. }
  destruct (Hh e w Hf) as (w1 & H1 & Hf1 & Hk1).
  destruct (mark_published_healthy (ev_ID e) w1 Hf1) as (w2 & H2 & Hf2 & Hk2 & Hp2).
  assert (∀ e', e' ∈ e :: es → is_Some (outbox_events (db w1) !! ev_ID e')) as Hin1.
  { intros e' He'. destruct (Hin e' He') as [ev Hev].
    destruct (Hk1 _ _ Hev) as (ev' & ? & _). by exists ev'. }
  destruct (IH w2 Hf2) as (w3 & H3 & Hk3 & Hp3).
  { intros e' He'. destruct (Hin1 e') as [ev Hev]; [set_solver|].
    destruct (Hk2 _ _ Hev) as (ev' & ? & _). by exists ev'. }
  exists w3. split_and!.
  - rewrite exec_bind. unfold relay_one at 1. rewrite exec_bind, exec_try, H1, H2. exact H3.
  - etrans; [exact Hk1|]. by etrans.
  - intros e' [->|He']%elem_of_cons; [|by apply Hp3].
    eapply kept_published; [exact Hk3|]. apply Hp2, Hin1. set_solver.
Qed.

(** While nothing fails and the handler succeeds, one batch publishes a
    backlog of up to a hundred events: afterwards every event that was in
    the outbox is marked published. *)
Theorem relay_drains_backlog (h : Handler X) w :
  reliable h → faults w = [] →
  (∀ k ev, outbox_events (db w) !! k = Some ev → oe_ID ev = k) →
  length (backlog (db w)) ≤ 100 →
  ∃ w', exec (relayBatch h) w = (Ok (), w') ∧
    ∀ k ev, outbox_events (db w) !! k = Some ev → published_at k w'.
Proof.
  intros Hh Hf Hkeyed Hlen. unfold relayBatch.
  set (es := event_of <$> take 100 (merge_sort earlier (backlog (db w)))).
  destruct (exec_txn_nofault (AppRole None) unpublished_batch w) as [He Hf1];
    [unfold unpublished_batch; tx_frame_steps|done|].
  assert (exec (txn (AppRole None) unpublished_batch) w = (Ok es, w)) as Hex by by rewrite He.
  destruct (range_progress h es w Hh Hf) as (w' & Hw' & Hk & Hp).
  { intros e (k & ev & Hk & _ & ->)%in_batch. simpl. rewrite (Hkeyed _ _ Hk). eauto. }
  exists w'. split; [by rewrite exec_bind, Hex|].
  intros k ev Hev. destruct (oe_PublishedAt ev) as [t|] eqn:Hpub.
  - eapply kept_published; [exact Hk|]. exists ev. rewrite Hpub. eauto.
  - rewrite <- (Hkeyed _ _ Hev). apply (Hp (event_of ev)). unfold es.
    rewrite take_ge by by rewrite merge_sort_Permutation.
    apply list_elem_of_fmap. exists ev. split; [done|]. rewrite merge_sort_Permutation.
    apply elem_of_selected. split_and!; [by exists k|done|]. by apply bool_decide_true.
Qed.
End progress.

(** ** Witnesses *)

Lemma combined_publishes_nothing ev :
  steps_in (on_db publishes_nothing) (combinedHandler (X:=Cluster Keyspace) ev).
Proof. apply (combinedHandler_on publishes_nothing). Qed.

(** The outbox rows are filed under their ids. *)
Definition keyed_outbox (d : DB) : Prop := map_Forall (λ k e, oe_ID e = k) (outbox_events d).
#[export] Instance keyed_outbox_dec d : Decision (keyed_outbox d).
Proof. unfold keyed_outbox. apply _. Defined.

Lemma demo_queued_keyed : keyed_outbox (db demo_queued).
Proof. by apply (bool_decide_unpack _); vm_compute. Qed.

Definition one_batch : World (Cluster Keyspace) := (exec (relayBatch combinedHandler) demo_queued).2.

Lemma published_means_handled_witness :
  (∃ ev, outbox_events (db one_batch) !! "uuid-1" = Some ev ∧ is_Some (oe_PublishedAt ev)) ∧
  ∃ ev0, outbox_events (db demo_queued) !! "uuid-1" = Some ev0 ∧
    handled combinedHandler (event_of ev0).
Proof.
  destruct (outbox_events (db one_batch) !! "uuid-1") as [ev|] eqn:Hev; [|by vm_compute in Hev].
  assert (is_Some (oe_PublishedAt ev)) as Hp.
  { vm_compute in Hev. injection Hev as <-. by eexists. }
  split; [exists ev; split; [done|exact Hp]|].
  destruct (exec (relayBatch combinedHandler) demo_queued) as [r w'] eqn:H.
  assert (one_batch = w') as Hw by (unfold one_batch; by rewrite H).
  rewrite Hw in Hev.
  destruct (published_means_handled combinedHandler demo_queued r w' "uuid-1" ev
    combined_publishes_nothing demo_queued_keyed H Hev Hp) as [Hold|(ev0 & Hev0 & _ & Hh)].
  - exfalso. vm_compute in Hold. injection Hold as <-. destruct Hp as [t Ht]. discriminate Ht.
  - exists ev0. split; [exact Hev0|exact Hh].
Defined.

Lemma batch_is_oldest_witness :
  ∃ es w', exec (txn (AppRole None) unpublished_batch) demo_queued = (Ok es, w') ∧
    ∃ taken rest, es = event_of <$> taken ∧ taken ++ rest ≡ₚ backlog (db demo_queued).
Proof.
  destruct (exec (txn (AppRole None) unpublished_batch) demo_queued) as [[es|e] w'] eqn:H;
    [|by vm_compute in H].
  exists es, w'. split; [reflexivity|].
  destruct (batch_is_oldest demo_queued es w' H) as (taken & rest & He & Hp & _).
  exists taken, rest. split; [exact He|exact Hp].
Defined.

(** A handler that only records the event. *)
Definition noting : Handler (Cluster Keyspace) := λ _, Ret ().

Lemma noting_reliable : reliable noting.
Proof. intros e w Hf. exists w. by split_and!. Qed.

Lemma relay_drains_backlog_witness :
  length (backlog (db demo_queued)) = 1 ∧
  ∃ w', exec (relayBatch noting) demo_queued = (Ok (), w') ∧
    ∀ k ev, outbox_events (db demo_queued) !! k = Some ev → published_at k w'.
Proof.
  split; [by vm_compute|].
  apply (relay_drains_backlog noting demo_queued noting_reliable).
  - by vm_compute.
  - exact demo_queued_keyed.
  - by vm_compute; lia.
Defined.
