(* ===== verification/AuditSpec.v ===== *)
(** * The audit log: its pages, in order, are the whole log

    [ListAuditEntries] pages by the key [(created_at, id)] of the last entry
    shown.  The order of the keys is total and strict on the entries of a
    table, so a page boundary neither repeats nor skips an entry. *)
From Stdlib Require Import Ascii.
From S2P Require Import Prelude Prog TenancyDomain IdentityDomain Store Outbox Principal Ports RbacRepo.
From S2P Require Import Registry Execution AuditLog Cursor Wiring RbacSpec Scenario HttpScenario.

(** ** The order of keys *)

Lemma ascii_compare_lt_trans a b c :
  Ascii.compare a b = Lt → Ascii.compare b c = Lt → Ascii.compare a c = Lt.
Proof. unfold Ascii.compare. rewrite !N.compare_lt_iff. lia. Qed.

Lemma string_compare_lt_trans a b c :
  String.compare a b = Lt → String.compare b c = Lt → String.compare a c = Lt.
Proof.
  revert b c; induction a as [|x a IH]; intros [|y b] [|z c]; simpl; try done.
  destruct (Ascii.compare x y) eqn:Hxy; try done.
  - apply Ascii.compare_eq_iff in Hxy as ->.
    destruct (Ascii.compare y z); [apply IH|done..].
  - intros _. destruct (Ascii.compare y z) eqn:Hyz; try done; intros _.
    + apply Ascii.compare_eq_iff in Hyz as ->. by rewrite Hxy.
    + by rewrite (ascii_compare_lt_trans x y z).
Qed.

Lemma string_compare_refl a : String.compare a a = Eq.
Proof.
  induction a as [|x a IH]; simpl; [done|]. unfold Ascii.compare. by rewrite N.compare_refl.
Qed.

Lemma string_ltb_lt a b : String.ltb a b = true ↔ String.compare a b = Lt.
Proof. unfold String.ltb. by destruct (String.compare a b). Qed.

Lemma key_lt_spec a b :
  key_lt a b = true ↔ (a.1 < b.1)%Z ∨ a.1 = b.1 ∧ String.compare a.2 b.2 = Lt.
Proof.
  unfold key_lt. by rewrite orb_true_iff, andb_true_iff, !bool_decide_eq_true, string_ltb_lt.
Qed.

Lemma key_lt_trans a b c : key_lt a b = true → key_lt b c = true → key_lt a c = true.
Proof.
  rewrite !key_lt_spec. intros [?|[? ?]] [?|[? ?]]; [left; lia| left; lia| left; lia|].
  right. split; [lia|]. by eapply string_compare_lt_trans.
Qed.

Lemma key_lt_irrefl a : key_lt a a = false.
Proof.
  destruct (key_lt a a) eqn:H; [|done]. apply key_lt_spec in H as [?|[_ H]]; [lia|].
  by rewrite string_compare_refl in H.
Qed.

Lemma key_trichotomy a b : key_lt a b = false → key_lt b a = false → a = b.
Proof.
  rewrite <- !not_true_iff_false, !key_lt_spec. destruct a as [t x], b as [t' y]; simpl.
  intros H1 H2. assert (t = t') as -> by lia.
  destruct (String.compare x y) eqn:Hc.
  - by apply String.compare_eq_iff in Hc as ->.
  - destruct H1. by right.
  - destruct H2. right. split; [done|]. rewrite String.compare_antisym, Hc. done.
Qed.

Lemma newer_lt a b : newer a b ↔ key_lt (entry_key a) (entry_key b) = false.
Proof. unfold newer. by rewrite Is_true_true, negb_true_iff. Qed.

#[export] Instance newer_total : Total newer.
Proof.
  intros a b. rewrite !newer_lt. destruct (key_lt (entry_key a) (entry_key b)) eqn:H; [|by left].
  right. destruct (key_lt (entry_key b) (entry_key a)) eqn:H'; [|done].
  pose proof (key_lt_trans _ _ _ H H') as Hx. by rewrite key_lt_irrefl in Hx.
Qed.

#[export] Instance newer_trans : Transitive newer.
Proof.
  intros a b c. rewrite !newer_lt. intros H1 H2.
  destruct (key_lt (entry_key a) (entry_key c)) eqn:H; [|done].
  destruct (key_lt (entry_key c) (entry_key b)) eqn:Hcb.
  - by rewrite (key_lt_trans _ _ _ H Hcb) in H1.
  - by rewrite <- (key_trichotomy _ _ H2 Hcb), H1 in H.
Qed.

(** ** The log and its pages *)

(** The organization's entries, newest first. *)
Definition audit_log (d : DB) (o : string) : list Entry :=
  merge_sort newer (filter (λ e : Entry, visible (AppRole (Some o)) e &&
    ((entry_OrganizationID e =ₛ o) && true)) (rows d)).

(** The entries that come after a cursor. *)
Definition after (before : option (Z * string)) (e : Entry) : bool :=
  match before with None => true | Some c => key_lt (entry_key e) c end.

Definition keyed_entries (d : DB) : Prop := map_Forall (λ k e, entry_ID e = k) (audit_entries d).
#[export] Instance keyed_entries_dec d : Decision (keyed_entries d).
Proof. unfold keyed_entries. apply _. Defined.

(** A list of entries without two of the same key, newest first. *)
Definition strictly_newer (l : list Entry) : Prop :=
  StronglySorted (λ a b, key_lt (entry_key b) (entry_key a) = true) l.

Lemma entry_ids_NoDup d : keyed_entries d → NoDup (entry_ID <$> rows (R:=Entry) d).
Proof.
  intros Hk. unfold rows. rewrite <- list_fmap_compose.
  rewrite (list_fmap_ext _ fst); [apply NoDup_fst_map_to_list|].
  intros i [k e] Hi%list_elem_of_lookup_2%elem_of_map_to_list. exact (Hk k e Hi).
Qed.

Lemma sorted_strictly l :
  NoDup (entry_ID <$> l) → strictly_newer (merge_sort newer l).
Proof.
  intros Hnd. rewrite <- (merge_sort_Permutation newer l) in Hnd.
  assert (StronglySorted newer (merge_sort newer l)) as Hs
    by (apply (StronglySorted_merge_sort newer); exact _).
  induction Hs as [|e m _ IH Hall]; [constructor|].
  apply NoDup_cons in Hnd as [Hni Hnd]. constructor; [by apply IH|].
  apply Forall_forall. intros f Hf. rewrite Forall_forall in Hall.
  pose proof (proj1 (newer_lt _ _) (Hall f Hf)) as Hef.
  destruct (key_lt (entry_key f) (entry_key e)) eqn:Hfe; [done|].
  pose proof (key_trichotomy _ _ Hef Hfe) as [= _ Hid].
  destruct Hni. rewrite Hid. by apply list_elem_of_fmap_2.
Qed.

Lemma strictly_newer_unique l m : strictly_newer l → strictly_newer m → l ≡ₚ m → l = m.
Proof.
  intros Hl Hm. eapply StronglySorted_unique_strong; [|exact Hl|exact Hm].
  intros a b _ _ H1 H2. pose proof (key_lt_trans _ _ _ H1 H2) as H. by rewrite key_lt_irrefl in H.
Qed.

Lemma strictly_newer_filter (P : Entry → bool) l : strictly_newer l → strictly_newer (filter P l).
Proof.
  induction 1 as [|e l _ IH Hall]; [constructor|]. rewrite filter_cons.
  destruct (decide (P e)); [|done]. constructor; [done|].
  apply Forall_forall. intros f [_ Hf]%list_elem_of_filter. by rewrite Forall_forall in Hall; apply Hall.
Qed.

(** What the log holds after the last entry shown. *)
Lemma after_last pre x post :
  strictly_newer (pre ++ x :: post) →
  filter (after (Some (entry_key x))) (pre ++ x :: post) = post.
Proof.
  intros Hs. induction pre as [|e pre IH]; simpl in *.
  - apply StronglySorted_inv in Hs as [_ Hall]. rewrite filter_cons_False.
    2:{ cbn. rewrite key_lt_irrefl. intros []. }
    induction Hall as [|f post Hf _ IH']; [done|]. rewrite filter_cons_True; [by f_equal|].
    cbn. rewrite Hf. exact I.
  - apply StronglySorted_inv in Hs as [Hs Hall]. rewrite filter_cons_False; [by apply IH|].
    cbn. rewrite Forall_app, Forall_cons in Hall. destruct Hall as (_ & Hx & _).
    destruct (key_lt (entry_key e) (entry_key x)) eqn:H; [|by intros []].
    pose proof (key_lt_trans _ _ _ Hx H) as Hc. by rewrite key_lt_irrefl in Hc.
Qed.

Section log.
Context (d : DB) (o : string) (Hkeyed : keyed_entries d).

Lemma audit_log_strict : strictly_newer (audit_log d o).
Proof using Hkeyed.
  apply sorted_strictly. eapply sublist_NoDup; [by apply entry_ids_NoDup|].
  apply fmap_sublist, sublist_filter.
Qed.

(** The rows the repository's query selects after a cursor. *)
Lemma selected_after before :
  merge_sort newer (filter (λ e : Entry, visible (AppRole (Some o)) e &&
    ((entry_OrganizationID e =ₛ o) && after before e)) (rows d)) =
  filter (after before) (audit_log d o).
Proof using Hkeyed.
  apply strictly_newer_unique.
  - apply sorted_strictly. eapply sublist_NoDup; [by apply entry_ids_NoDup|].
    apply fmap_sublist, sublist_filter.
  - apply strictly_newer_filter, audit_log_strict.
  - unfold audit_log. rewrite !merge_sort_Permutation, list_filter_filter.
    erewrite list_filter_iff; [reflexivity|]. intros e. rewrite !Is_true_true, !andb_true_iff. tauto.
Qed.
End log.

(** ** A reader that follows the cursors *)

Section reader.
Context {Rd : Type}.
Notation X := (Cluster Rd).
Implicit Types w : World X.

(** It asks for page after page, [n] at most, and stops at the page
    without a next one. *)
Fixpoint read_log (ctx : Ctx) (o u : string) (limit : Z) (cursor : option (Z * string))
    (n : nat) : prog (World X) (list Entry) :=
  match n with
  | 0 => Ret []
  | S n =>
      page ← ListAuditEntries ctx o u limit cursor;
      match NextCursor page with
      | None => Ret (Entries page)
      | Some c => rest ← read_log ctx o u limit (Some c) n; Ret (Entries page ++ rest)
      end
  end.

Lemma page_limit_bounds limit : 1 ≤ Z.to_nat (page_limit limit) ≤ 500.
Proof. unfold page_limit, defaultPageLimit, maxPageLimit. repeat case_bool_decide; lia. Qed.

(** One page: the first entries after the cursor. *)
Lemma ListAuditEntries_healthy ctx o u limit cursor w :
  faults w = [] → keyed_entries (db w) → may (db w) ctx o u "organization:manage" →
  exec (ListAuditEntries ctx o u limit cursor) w =
    (let n := Z.to_nat (page_limit limit) in
     Ok (make_page n (take (n + 1) (filter (after cursor) (audit_log (db w) o)))), w).
Proof.
  intros Hf Hk Hmay. unfold ListAuditEntries, audit_gate, audit_page.
  rewrite exec_bind, exec_bind. cbn [HasPermission permission_checker].
  rewrite HasPermission_may by done. cbn [ensure exec]. cbv zeta. rewrite <- selected_after by done.
  unfold AuditEntryRepository_ListByOrganization.
  match goal with |- context [org_txn o ?t] =>
    destruct (exec_txn_nofault (AppRole (Some o)) t w) as [He _]; [tx_frame_steps|done|]
  end.
  rewrite exec_bind. unfold org_txn at 1. rewrite He. reflexivity.
Qed.

(** From a cursor on, the reader reads what is left of the log. *)
Lemma read_log_rest ctx o u limit w n cursor pre rest :
  faults w = [] → keyed_entries (db w) → may (db w) ctx o u "organization:manage" →
  audit_log (db w) o = pre ++ rest → filter (after cursor) (audit_log (db w) o) = rest →
  length rest < n →
  exec (read_log ctx o u limit cursor n) w = (Ok rest, w).
Proof.
  intros Hf Hk Hmay. revert cursor pre rest.
  induction n as [|n IH]; intros cursor pre rest Hlog Hrest Hn; [lia|].
  cbn [read_log]. rewrite exec_bind, ListAuditEntries_healthy, Hrest by done.
  pose proof (page_limit_bounds limit) as Hl. set (k := Z.to_nat (page_limit limit)) in *.
  unfold make_page. rewrite length_take, take_take, (Nat.min_l k (k + 1)) by lia.
  case_bool_decide as Hmore; cbn [NextCursor Entries].
  2:{ by rewrite take_ge by lia. }
  rewrite lookup_take_lt by lia.
  destruct (rest !! (k - 1)) as [x|] eqn:Hx; [|apply lookup_ge_None in Hx; lia].
  assert (rest = take (k - 1) rest ++ x :: drop k rest) as Hsplit.
  { rewrite <- (take_drop_middle rest (k - 1) x) at 1 by done.
    by replace (S (k - 1)) with k by lia. }
  cbn [fmap option_fmap option_map]. rewrite exec_bind.
  assert (audit_log (db w) o = (pre ++ take (k - 1) rest) ++ x :: drop k rest) as Hlog'.
  { by rewrite <- app_assoc, <- Hsplit. }
  rewrite (IH _ ((pre ++ take (k - 1) rest) ++ [x]) (drop k rest)).
  - cbn. by rewrite take_drop.
  - by rewrite <- app_assoc.
  - rewrite Hlog'. apply after_last. rewrite <- Hlog'. by apply audit_log_strict.
  - rewrite length_drop. lia.
Qed.

(** The whole of it, from the start. *)
Lemma read_log_whole ctx o u limit n w :
  faults w = [] → keyed_entries (db w) → may (db w) ctx o u "organization:manage" →
  length (audit_log (db w) o) < n →
  exec (read_log ctx o u limit None n) w = (Ok (audit_log (db w) o), w).
Proof.
  intros Hf Hk Hmay Hn. apply (read_log_rest _ _ _ _ _ _ None []); try done.
  clear. induction (audit_log (db w) o) as [|e l IH]; [done|].
  rewrite filter_cons_True; [by f_equal|exact I].
Qed.

(** The same reader with the cursors as the API hands them out: [next_cursor]
    of one page is [cursor] of the next request. *)
Fixpoint read_pages `{!TimeText} (ctx : Ctx) (o u : string) (limit : Z) (cursor : string) (n : nat)
    : prog (World X) (list Entry) :=
  match n with
  | 0 => Ret []
  | S n =>
      page ← ListAuditEntries_text ctx o u limit cursor;
      if page.2 =ₛ "" then Ret page.1
      else rest ← read_pages ctx o u limit page.2 n; Ret (page.1 ++ rest)
  end.

Lemma read_pages_log `{!TimeText, !TimeTextLaws _} ctx o u limit before n w :
  exec (read_pages ctx o u limit (cursor_text before) n) w =
  exec (read_log ctx o u limit before n) w.
Proof.
  revert before w. induction n as [|n IH]; intros before w; [done|]. cbn [read_pages read_log].
  rewrite exec_bind, ListAuditEntries_text_spec, !exec_bind.
  destruct (exec (ListAuditEntries ctx o u limit before) w) as [[page|e] w1]; [|done].
  cbn [exec fst snd]. destruct (NextCursor page) as [c|].
  - cbn [cursor_text]. rewrite bool_decide_false by apply EncodeCursor_not_empty.
    change (EncodeCursor c) with (cursor_text (Some c)). by rewrite !exec_bind, IH.
  - done.
Qed.

(** C39: Following [next_cursor] of the audit log's pages from the first, with
    any limit, a reader is given the whole audit log of its organization:
    every entry of it once, newest first, and no other. *)
Theorem pages_are_the_log `{!TimeText, !TimeTextLaws _} ctx o u limit n w :
  faults w = [] → keyed_entries (db w) → may (db w) ctx o u "organization:manage" →
  length (audit_log (db w) o) < n →
  ∃ es, exec (read_pages ctx o u limit "" n) w = (Ok es, w) ∧
    NoDup es ∧ strictly_newer es ∧
    ∀ e, e ∈ es ↔ ∃ k, audit_entries (db w) !! k = Some e ∧ entry_OrganizationID e = o.
Proof.
  intros Hf Hk Hmay Hn. exists (audit_log (db w) o).
  pose proof (audit_log_strict (db w) o Hk) as Hs. split_and!; [|..|done|].
  - change "" with (cursor_text None). rewrite read_pages_log. by apply read_log_whole.
  - apply (NoDup_fmap_1 entry_ID). unfold audit_log. rewrite merge_sort_Permutation.
    eapply sublist_NoDup; [by apply entry_ids_NoDup|]. apply fmap_sublist, sublist_filter.
  - intros e. unfold audit_log. rewrite merge_sort_Permutation, elem_of_selected.
    cbn [visible rls entry_table]. unfold tenant_is.
    rewrite andb_true_r, !bool_decide_eq_true. naive_solver.
Qed.
End reader.

(** ** Witness *)

(** Three entries of the organization, two of them of the same instant, and
    one of another organization. *)
Definition log_entry (id : string) (t : Z) (o : string) : Entry :=
  NewEntry id t o ("event-" +:+ id) "alice" "run.applied" "run" "run-1" ∅.

Definition some_entries : gmap string Entry := {[
  "a" := log_entry "a" 10 "org"; "b" := log_entry "b" 20 "org";
  "c" := log_entry "c" 20 "org"; "d" := log_entry "d" 15 "other" ]}.

Definition audited_world : World (Cluster Keyspace) :=
  demo_at (tset (R:=Entry) some_entries demo_db) demo_cluster.

Lemma alice_manages : may (db audited_world) background "org" "alice" "organization:manage".
Proof.
  destruct (exec (RoleBindingRepository_HasPermission background "org" "alice"
    "organization:manage") audited_world) as [r w'] eqn:H.
  pose proof (HasPermissionAtScope_exec background "org" "alice" "organization:manage" None None
    audited_world r w' H) as [_ Hr].
  vm_compute in H. injection H as <- <-. by apply Hr.
Qed.

Lemma pages_are_the_log_witness :
  ∃ es, exec (read_pages background "org" "alice" 2 "" 4) audited_world =
      (Ok es, audited_world) ∧
    entry_ID <$> es = ["c"; "b"; "a"] ∧ strictly_newer es.
Proof.
  destruct (pages_are_the_log background "org" "alice" 2 4 audited_world) as (es & H & _ & Hs & _).
  - reflexivity.
  - apply (bool_decide_unpack _). vm_compute. exact I.
  - exact alice_manages.
  - vm_compute. lia.
  - exists es. split; [exact H|]. split; [|exact Hs].
    assert ((exec (read_pages background "org" "alice" 2 "" 4) audited_world).1 = Ok es) as H1
      by (rewrite H; reflexivity).
    vm_compute in H1. injection H1 as <-. reflexivity.
Defined.
