(* ===== verification/VariableSpec.v ===== *)
(** * Variables: the cascade, and values that are secrets

    What [ResolveVariable] finds, what an update leaves behind, and that no
    interleaving of requests stores a variable with both a value and a
    secret reference. *)
From S2P Require Import Prelude Prog WorkspaceDomain VariableDomain TenancyDomain IdentityDomain Store.
From S2P Require Import WorkspaceRepo TenancyRepo Principal Ports RbacRepo VariableApp Registry.
From S2P Require Import Wiring RbacSpec Scenario.

(** ** The columns of a value *)

(** The CHECK constraint [variables_value_xor_secret_ref] of the table. *)
Definition columns_ok (c : columns) : Prop :=
  match c with
  | (Some _, None, None) | (None, Some _, Some _) => True
  | _ => False
  end.

Lemma scan_columns v : value_xor_secret v → scanVariable v (valueOrSecretRefColumns v) = v.
Proof.
  unfold value_xor_secret, valueOrSecretRefColumns.
  destruct v as [? ? ? ? ? ? ? value [[m p]|] ?]; simpl; [|done]. by intros [-> _].
Qed.

(** The three columns a value is stored in and the value itself determine
    each other: writing a well-formed variable and reading it back gives the
    variable, its columns meet the table's CHECK constraint, and reading
    columns that meet it and writing them back gives the columns. *)
Theorem columns_round_trip v row c :
  value_xor_secret v → columns_ok c →
  scanVariable v (valueOrSecretRefColumns v) = v ∧
  columns_ok (valueOrSecretRefColumns v) ∧
  valueOrSecretRefColumns (scanVariable row c) = c.
Proof.
  intros Hv Hc. split_and!; [by apply scan_columns|..];
    unfold columns_ok, valueOrSecretRefColumns in *.
  - by destruct (var_SecretRef v).
  - by destruct c as [[[?|] [?|]] [?|]].
Qed.

Lemma columns_round_trip_witness :
  let v := mkVariable "v" "org" "workspace" "ws" "TOKEN" "env_var" "sensitive" ""
             (Some (mkSecretReference "mount" "kv/token")) 7 in
  valueOrSecretRefColumns v = (None, Some "mount", Some "kv/token") ∧
  scanVariable v (valueOrSecretRefColumns v) = v ∧
  columns_ok (valueOrSecretRefColumns v) ∧
  valueOrSecretRefColumns (scanVariable v (Some "x", None, None)) = (Some "x", None, None).
Proof.
  split; [reflexivity|].
  apply (columns_round_trip _ _ (Some "x", None, None)); [|exact I]. by split_and!.
Defined.

(** ** The cascade *)

(** Scope [s] of organization [o] defines [key] as [v]. *)
Definition defines (d : DB) (o key : string) (s : string * string) (v : VariableT) : Prop :=
  ∃ k, variables d !! k = Some v ∧ var_OrganizationID v = o ∧
    var_ScopeType v = s.1 ∧ var_ScopeID v = s.2 ∧ var_Key v = key.

(** [v] is the definition in the first scope of the list that has one. *)
Definition nearest (d : DB) (o key : string) (scopes : list (string * string))
    (v : VariableT) : Prop :=
  ∃ before s after, scopes = before ++ s :: after ∧ defines d o key s v ∧
    ∀ s' v', s' ∈ before → ¬ defines d o key s' v'.

Section cascade.
Context {X : Type} `{!SecretResolver X}.
Context (calm_secrets : ∀ o m p, steps_in calm (ResolveSecret (X:=X) o m p)).
Implicit Types w : World X.

(** [got] is [v] with the value its secret resolves to now. *)
Definition revealed (d : DB) (o : string) (v : VariableT) (got : res VariableT) : Prop :=
  match var_SecretRef v with
  | None => got = Ok v
  | Some sr => ∃ w1 r w2, db w1 = d ∧
      exec (ResolveSecret (X:=X) o (sr_MountID sr) (sr_Path sr)) w1 = (r, w2) ∧
      got = match r with Ok value => Ok (set_value value v) | Err e => Err e end
  end.

Lemma var_at_spec o t id key v :
  visible (AppRole (Some o)) v && (var_at o t id v && (var_Key v =ₛ key)) = true ↔
  var_OrganizationID v = o ∧ var_ScopeType v = t ∧ var_ScopeID v = id ∧ var_Key v = key.
Proof.
  simpl. unfold tenant_is, var_at, var_in_org.
  rewrite !andb_true_iff, !bool_decide_eq_true. naive_solver.
Qed.

Lemma GetByScope_exec o t id key w r w' :
  exec (VariableRepository_GetByScope o t id key) w = (r, w') →
  calm w w' ∧
  match r with
  | Ok v => defines (db w) o key (t, id) v
  | Err e => e = ErrVariableNotFound → ∀ v, ¬ defines (db w) o key (t, id) v
  end.
Proof.
  intros H. split.
  { eapply calm_exec; [|exact H]. unfold VariableRepository_GetByScope. calm_steps. }
  unfold VariableRepository_GetByScope, org_txn in H. destruct r as [v|e].
  - apply exec_txn in H as [_ [fs H]]; [|tx_frame_steps].
    tx_inv H. apply select_ok in Hst as [-> ->].
    destruct (filter _ _) as [|v' l] eqn:Hl; tx_inv H. subst v'.
    assert (v ∈ v :: l) as Hin by constructor. rewrite <- Hl in Hin.
    apply elem_of_selected in Hin as ([k Hk] & Hvis & Hv). exists k. split; [exact Hk|].
    apply (var_at_spec o t id key v). by rewrite Hvis, Hv.
  - intros ->. apply exec_txn_err in H as [?|(fs & w1 & H)]; [done|].
    rewrite tx_bind_eq in H. cbn [select] in H.
    destruct (filter _ _) as [|v' l] eqn:Hl; [|done].
    intros v (k & Hk & Hv).
    apply (proj2 (var_at_spec o t id key v)), andb_true_iff in Hv as [Hvis Hv].
    eapply not_elem_of_nil. rewrite <- Hl. apply elem_of_selected. eauto.
Qed.


Lemma tryScope_exec o t id key w r w' :
  exec (tryScope o t id key) w = (r, w') →
  calm w w' ∧
  match r with
  | Ok None => ∀ v, ¬ defines (db w) o key (t, id) v
  | Ok (Some got) => ∃ v, defines (db w) o key (t, id) v ∧ revealed (db w) o v (Ok got)
  | Err e => e = ErrVariableNotFound →
      ∃ v, defines (db w) o key (t, id) v ∧ revealed (db w) o v (Err e)
  end.
Proof.
  unfold tryScope. rewrite exec_bind, exec_try.
  destruct (exec (VariableRepository_GetByScope o t id key) w) as [r1 w1] eqn:H1.
  apply GetByScope_exec in H1 as [Hc1 Hr1]. destruct r1 as [v|e].
  2:{ case_bool_decide as He; intros [= <- <-]; (split; [done|]); [by apply Hr1|done]. }
  destruct (var_SecretRef v) as [sr|] eqn:Hsr.
  2:{ intros [= <- <-]. split; [done|]. exists v. unfold revealed. by rewrite Hsr. }
  rewrite exec_bind.
  destruct (exec (ResolveSecret o (sr_MountID sr) (sr_Path sr)) w1) as [r2 w2] eqn:H2.
  pose proof (calm_exec _ _ _ _ (calm_secrets _ _ _) H2) as Hc2.
  assert (∀ got, got = match r2 with Ok value => Ok (set_value value v) | Err e => Err e end →
    revealed (db w) o v got) as Hrev.
  { intros got ->. unfold revealed. rewrite Hsr. exists w1, r2, w2.
    split_and!; [by destruct Hc1|done|done]. }
  destruct r2 as [value|e]; intros [= <- <-]; (split; [by etrans|]); [eauto|].
  intros _. eauto.
Qed.

(** What walking the scopes in order finds. *)
Lemma cascade_exec o key scopes w r w' :
  exec (cascade o key scopes) w = (r, w') →
  calm w w' ∧
  match r with
  | Ok got => ∃ v, nearest (db w) o key scopes v ∧ revealed (db w) o v (Ok got)
  | Err e => e = ErrVariableNotFound →
      (∀ s v, s ∈ scopes → ¬ defines (db w) o key s v) ∨
      ∃ v, nearest (db w) o key scopes v ∧ revealed (db w) o v (Err e)
  end.
Proof.
  revert w; induction scopes as [|[t id] scopes IH]; intros w; cbn [cascade].
  { intros [= <- <-]. split; [done|]. intros _. left. intros s v []%not_elem_of_nil. }
  intros [(e & H & ->)|([got|] & w1 & H & H2)]%exec_bind_inv;
    apply tryScope_exec in H as [Hc Hr].
  - split; [done|]. intros He. right. destruct (Hr He) as (v & Hv & Hrev).
    exists v. split; [|done]. exists [], (t, id), scopes. split_and!; [done..|].
    by intros ? ? ?%not_elem_of_nil.
  - injection H2 as <- <-. split; [done|]. destruct Hr as (v & Hv & Hrev).
    exists v. split; [|done]. exists [], (t, id), scopes. split_and!; [done..|].
    by intros ? ? ?%not_elem_of_nil.
  - apply IH in H2 as [Hc2 Hr2]. split; [by etrans|]. destruct Hc as [Hd _].
    rewrite Hd in Hr2. clear IH.
    assert (∀ v, nearest (db w) o key scopes v → nearest (db w) o key ((t, id) :: scopes) v)
      as Hcons.
    { intros v (l1 & s & l2 & -> & Hs & Hl1). exists ((t, id) :: l1), s, l2.
      split_and!; [done..|]. intros s' v' [->|Hin]%elem_of_cons; [apply Hr|by apply Hl1]. }
    destruct r as [got|e].
    + destruct Hr2 as (v & Hv & ?). eauto.
    + intros He. destruct (Hr2 He) as [Hn|(v & Hv & ?)]; [left|right; eauto].
      intros s v [->|Hin]%elem_of_cons; [apply Hr|by apply Hn].
Qed.

(** The scopes of a workspace, narrowest first. *)
Definition scopes_of (o ws : string) (row : Workspace) : list (string * string) :=
  cascade_scopes o ws (ws_ProjectID row) (ws_EnvironmentID row).

Lemma GetScope_exec o ws w r w' :
  exec (WorkspaceRepository_GetScope (X:=X) o ws) w = (r, w') →
  calm w w' ∧
  match r with
  | Ok scope => ∃ row, ws_row (db w) o ws = Some row ∧
      scope = (ws_ProjectID row, ws_EnvironmentID row)
  | Err e => e ≠ ErrVariableNotFound
  end.
Proof.
  intros H. split.
  { eapply calm_exec; [|exact H].
    unfold WorkspaceRepository_GetScope, workspace_row. calm_steps. }
  unfold WorkspaceRepository_GetScope, org_txn in H. destruct r as [scope|e].
  - apply exec_txn in H as [_ [fs H]]; [|tx_frame_steps; apply workspace_row_frame].
    apply tx_bind_ok in H as (row & w1 & Hrow & H). apply workspace_row_ok in Hrow as [-> Hrow].
    tx_inv H. eauto.
  - apply exec_txn_err in H as [->|(fs & w1 & H)]; [done|].
    rewrite tx_bind_eq in H. unfold workspace_row in H. rewrite tx_bind_eq in H.
    cbn [select_pk] in H. unfold tx_fail in H.
    repeat (case_match; simplify_eq/=); done.
Qed.

Lemma ws_exists_exec o ws w r w' :
  exec (WorkspaceRepository_Exists (X:=X) o ws) w = (r, w') →
  calm w w' ∧ ∀ e, r = Err e → e ≠ ErrVariableNotFound.
Proof.
  intros H. split; [eapply calm_exec; [|exact H]; unfold WorkspaceRepository_Exists; calm_steps|].
  intros e -> ->. apply exec_txn_total in H; [done|tx_total_steps].
Qed.

Lemma member_error o u w e w' :
  exec (MembershipRepository_IsMember (X:=X) o u) w = (Err e, w') → e = PgError "08006".
Proof. intros H. eapply exec_txn_total; [|exact H]. tx_total_steps. Qed.

(** C36: [ResolveVariable] finds the definition in the narrowest scope of the
    workspace that has one (workspace, then environment, project and
    organization), with the value its secret has now; it answers "not
    found" only when no scope defines the key, or the secret backend says
    so. *)
Theorem ResolveVariable_spec o ws key u w r w' :
  exec (ResolveVariable (X:=X) o ws key u) w = (r, w') →
  db w' = db w ∧
  match r with
  | Ok got => is_member (db w) o u ∧
      ∃ row v, ws_row (db w) o ws = Some row ∧
        nearest (db w) o key (scopes_of o ws row) v ∧ revealed (db w) o v (Ok got)
  | Err e => e = ErrVariableNotFound → is_member (db w) o u ∧
      ∃ row, ws_row (db w) o ws = Some row ∧
        ((∀ s v, s ∈ scopes_of o ws row → ¬ defines (db w) o key s v) ∨
         ∃ v, nearest (db w) o key (scopes_of o ws row) v ∧ revealed (db w) o v (Err e))
  end.
Proof.
  unfold ResolveVariable. ports.
  intros [(e & H & ->)|(b & w1 & H1 & H)]%exec_bind_inv.
  { pose proof (member_error _ _ _ _ _ H) as ->. by apply IsMember_exec in H as [[Hd _] _]. }
  apply IsMember_exec in H1 as [[Hd1 _] Hm].
  destruct b; [|by injection H as <- <-]. pose proof (proj1 Hm eq_refl) as Hmem. clear Hm.
  apply exec_bind_inv in H as [(? & H & ->)|([] & w1' & [= <-] & H)]; [discriminate H|].
  apply exec_bind_inv in H as [(e & H & ->)|(b & w2 & H2 & H)].
  { apply ws_exists_exec in H as [[Hd2 _] He]. split; [congruence|].
    intros ->. by destruct (He _ eq_refl). }
  apply ws_exists_exec in H2 as [[Hd2 _] _].
  destruct b; [|injection H as <- <-; split; [congruence|done]].
  apply exec_bind_inv in H as [(? & H & ->)|([] & w2' & [= <-] & H)]; [discriminate H|].
  apply exec_bind_inv in H as [(e & H & ->)|(scope & w3 & H3 & H)].
  { apply GetScope_exec in H as [[Hd3 _] He]. split; [congruence|done]. }
  apply GetScope_exec in H3 as [[Hd3 _] (row & Hrow & ->)].
  apply cascade_exec in H as [[Hd _] Hr].
  assert (db w3 = db w) as Hd' by congruence. rewrite Hd' in Hd, Hr.
  rewrite Hd2, Hd1 in Hrow. split; [done|].
  destruct r as [got|e].
  - split; [done|]. destruct Hr as (v & Hv & Hrev). by exists row, v.
  - intros He. split; [done|]. exists row. split; [done|]. by apply Hr.
Qed.
End cascade.

(** ** Updates *)

Section updates.
Context {X : Type}.
Implicit Types w : World X.

(** A successful update was made by a member with the permission of the
    variable's scope; it leaves the variable with the given value and no
    secret reference, its scope and key as they were, and touches no other
    row of the database. *)
Theorem UpdateVariable_ok ctx inp w v w' :
  exec (UpdateVariable (X:=X) ctx inp) w = (Ok v, w') →
  let o := uv_OrganizationID inp in
  is_member (db w) o (uv_RequestingUserID inp) ∧
  ∃ row, variables (db w) !! uv_VariableID inp = Some row ∧ var_OrganizationID row = o ∧
    may (db w) ctx o (uv_RequestingUserID inp)
      (if var_ScopeType row =ₛ "workspace" then "workspace:manage" else "organization:manage") ∧
    category_valid (uv_Category inp) = true ∧ sensitivity_valid (uv_Sensitivity inp) = true ∧
    v = set_fields (uv_Value inp) (uv_Category inp) (uv_Sensitivity inp) row ∧
    (var_ID row = uv_VariableID inp → db w' = put_row (uv_VariableID inp) v (db w)).
Proof.
  unfold UpdateVariable. ports. intros H. cbv zeta.
  apply exec_bind_ok in H as (b & w1 & H1 & H). apply IsMember_exec in H1 as [[Hd1 _] Hm].
  apply exec_bind_ok in H as ([] & w1' & [-> ->]%exec_ensure_ok & H).
  apply exec_bind_ok in H as (row & w2 & H2 & H).
  unfold VariableRepository_GetByID in H2. apply exec_txn in H2 as [_ [fs H2]]; [|tx_frame_steps].
  tx_inv H2. apply select_pk_ok in Hst as [-> ->].
  destruct (row_at _ _ _ _) as [row'|] eqn:Hrow; tx_inv H2. subst row' w2.
  apply row_at_Some in Hrow as (Hrow & _ & Ho). unfold var_in_org in Ho. bools. simpl in Hrow.
  apply exec_bind_ok in H as (b & w3 & H3 & H).
  apply HasPermissionAtScope_exec in H3 as [[Hd3 _] Hp].
  apply exec_bind_ok in H as ([] & w3' & [-> ->]%exec_ensure_ok & H).
  apply exec_bind_ok in H as ([] & w4 & [Hcat ->]%exec_ensure_ok & H).
  apply exec_bind_ok in H as ([] & w5 & [Hsen ->]%exec_ensure_ok & H).
  apply exec_bind_ok in H as ([] & w6 & H6 & [= <- <-]).
  simpl in Hd3. rewrite Hd1 in Hrow, Hd3.
  split; [by apply Hm|]. exists row. split_and!; [done|done| |done|done|done|].
  { simpl in Hp. rewrite Hd1 in Hp. by apply Hp. }
  intros Hid. unfold VariableRepository_Update in H6.
  apply exec_txn in H6 as [_ [fs' H6]]; [|tx_frame_steps]. tx_inv H6.
  apply update_pk_row in Hst. simpl in Hst. rewrite Hid in Hst.
  assert (row_at (AppRole (Some (var_OrganizationID row))) (db w3) (uv_VariableID inp)
    (var_in_org (var_OrganizationID row)) = Some row) as Hat.
  { apply row_at_Some. simpl. rewrite Hd3. unfold tenant_is, var_in_org.
    by rewrite !bool_decide_true. }
  rewrite Hat in Hst. destruct Hst as [_ ->]. subst. simpl. rewrite Hd3.
  by destruct row.
Qed.
End updates.

(** ** Value or secret, never both *)

Definition all_xor (d : DB) : Prop := map_Forall (λ _ v, value_xor_secret v) (variables d).

Section invariant.
Context {X : Type} `{!SecretMountChecker X}.
Context (calm_mounts : ∀ o m, steps_in calm (SecretMountExists (X:=X) o m)).
Notation keeps_xor := (keeping all_xor (X:=X)).

Lemma xor_insert d v k : value_xor_secret v → all_xor d → all_xor (put_row k v d).
Proof. intros Hv Hd. apply map_Forall_insert_2; [exact Hv|exact Hd]. Qed.

Lemma requested_variable_xor id now inp v :
  requested_variable id now inp = Ok v → value_xor_secret v.
Proof.
  unfold requested_variable. destruct (uses_secret_ref inp).
  - apply NewVariableWithSecretRef_xor.
  - apply NewVariable_xor.
Qed.

Lemma keeps_xor_Create v : value_xor_secret v → steps_in keeps_xor (VariableRepository_Create v).
Proof.
  intros Hv. apply keeping_txn, tx_in_insert; [exact _|]. intros d _ _ _ _ Hd.
  apply xor_insert; [|done].
  by rewrite scan_columns.
Qed.

Lemma keeps_xor_Update v : steps_in keeps_xor (VariableRepository_Update v).
Proof.
  apply keeping_txn. tx_in_steps. apply tx_in_update_pk; [exact _|].
  intros d row _ _ _ Hd. by apply xor_insert.
Qed.

Lemma keeps_xor_Delete o id : steps_in keeps_xor (VariableRepository_Delete o id).
Proof.
  apply keeping_txn. tx_in_steps. apply tx_in_delete; [apply _|]. intros d Hd.
  intros k v [Hk _]%map_lookup_filter_Some. by apply (Hd k).
Qed.

Lemma calm_GetByID o id : steps_in calm (VariableRepository_GetByID (X:=X) o id).
Proof. unfold VariableRepository_GetByID. calm_steps. Qed.

Lemma keeps_xor_CreateVariable ctx inp : steps_in keeps_xor (CreateVariable ctx inp).
Proof using calm_mounts.
  unfold CreateVariable. ports.
  repeat match goal with
  | |- steps_in _ (lift _ ≫= _) => fail 1
  | |- steps_in _ (ensure _ _ ≫= _) => apply steps_in_bind; [apply steps_in_ensure|intros ?]
  | |- steps_in _ (_ ≫= _) => apply steps_in_bind; [apply calm_keeping; calm_steps|intros ?]
  end.
  destruct (requested_variable _ _ _) as [v|e] eqn:Hv; [|exact I].
  apply requested_variable_xor in Hv. cbn [lift mbind prog_bind].
  repeat (apply steps_in_bind; [|intros ?]); try apply steps_in_ensure; try exact I;
    [..|by apply keeps_xor_Create]; apply calm_keeping;
    auto using calm_IsMember, calm_IsArchived, calm_HasPermission.
  - unfold resolveScope. ports. unfold WorkspaceRepository_Exists.
    cbn [EnvironmentExists environment_checker]. unfold EnvironmentRepository_Exists.
    calm_steps; apply calm_ProjectExists.
  - unfold check_mount. calm_steps. apply calm_mounts.
Qed.

(** What may be asked of the variables context, and anything that leaves
    the database alone. *)
Inductive variable_request : prog (World X) () → Prop :=
| req_create_variable ctx inp : variable_request (void (CreateVariable ctx inp))
| req_update_variable ctx inp : variable_request (void (UpdateVariable ctx inp))
| req_delete_variable ctx o u id : variable_request (DeleteVariable ctx o u id)
| req_read p : steps_in calm p → variable_request p.

Lemma variable_request_keeps p : variable_request p → steps_in keeps_xor p.
Proof using calm_mounts.
  destruct 1; [apply steps_in_void, keeps_xor_CreateVariable| | |by apply calm_keeping].
  - apply steps_in_void. unfold UpdateVariable. ports.
    repeat (apply steps_in_bind; [|intros ?]); try apply steps_in_ensure; try exact I;
      [..|apply keeps_xor_Update]; apply calm_keeping;
      auto using calm_IsMember, calm_GetByID, calm_HasPermission.
  - unfold DeleteVariable. ports.
    repeat (apply steps_in_bind; [|intros ?]); try apply steps_in_ensure;
      [..|apply keeps_xor_Delete]; apply calm_keeping;
      auto using calm_IsMember, calm_GetByID, calm_HasPermission.
Qed.

(** C37: No interleaving of requests to create, update and delete variables
    stores one that has both a value and a secret reference, or a reference
    without a mount or a path. *)
Theorem value_xor_secret_always c c' :
  Forall variable_request c.2 →
  pool_steps (λ w w', db w' = db w) variable_request c c' →
  all_xor (db c.1) → all_xor (db c'.1).
Proof using calm_mounts. apply keeping_pool, variable_request_keeps. Qed.
End invariant.

(** ** Witnesses *)

(** A secret-backed token, at the organization and at the workspace. *)
Definition token_at (id scopeType scopeID path : string) : VariableT :=
  mkVariable id "org" scopeType scopeID "TOKEN" "env_var" "sensitive" ""
    (Some (mkSecretReference "mount" path)) 0.

Definition with_tokens : World (Cluster Keyspace) :=
  demo_at (tset (R:=VariableT) ({[
    "v-org" := token_at "v-org" "organization" "org" "kv/org";
    "v-ws" := token_at "v-ws" "workspace" "ws" "kv/ws" ]}) demo_db) demo_cluster.

Lemma ResolveVariable_spec_witness :
  ∃ got w', exec (ResolveVariable "org" "ws" "TOKEN" "bob") with_tokens = (Ok got, w') ∧
    var_ID got = "v-ws" ∧ var_Value got = "s3cret" ∧
    is_member (db with_tokens) "org" "bob".
Proof.
  destruct (exec (ResolveVariable "org" "ws" "TOKEN" "bob") with_tokens) as [[got|e] w'] eqn:H;
    [|by vm_compute in H].
  exists got, w'. split; [done|].
  destruct (ResolveVariable_spec calm_secrets_demo "org" "ws" "TOKEN" "bob" with_tokens _ _ H)
    as (_ & Hm & _).
  assert ((exec (ResolveVariable "org" "ws" "TOKEN" "bob") with_tokens).1 = Ok got) as Hg
    by by rewrite H.
  vm_compute in Hg. injection Hg as <-. split_and!; [done|done|exact Hm].
Defined.

Definition reset_token : UpdateVariableInput :=
  {| uv_OrganizationID := "org"; uv_RequestingUserID := "alice"; uv_VariableID := "v-ws";
     uv_Value := "plain text"; uv_Category := "env_var"; uv_Sensitivity := "plain" |}.

Lemma UpdateVariable_ok_witness :
  ∃ v w', exec (UpdateVariable background reset_token) with_tokens = (Ok v, w') ∧
    var_SecretRef v = None ∧ var_Value v = "plain text" ∧
    db w' = put_row "v-ws" v (db with_tokens).
Proof.
  destruct (exec (UpdateVariable background reset_token) with_tokens) as [[v|e] w'] eqn:H;
    [|by vm_compute in H].
  exists v, w'. split; [done|].
  destruct (UpdateVariable_ok background reset_token with_tokens v w' H)
    as (_ & row & Hrow & _ & _ & _ & _ & -> & Hd).
  split_and!; [done|done|]. apply Hd. vm_compute in Hrow. by injection Hrow as <-.
Defined.

Definition new_token : CreateVariableInput :=
  {| cv_OrganizationID := "org"; cv_RequestingUserID := "alice"; cv_ScopeType := "project";
     cv_ScopeID := "project"; cv_Key := "TOKEN"; cv_Category := "env_var";
     cv_Sensitivity := "sensitive"; cv_Value := ""; cv_SecretMountID := "mount";
     cv_SecretPath := "kv/project" |}.

Definition variable_pool : World (Cluster Keyspace) * pool (W:=World (Cluster Keyspace)) :=
  (with_tokens, [void (CreateVariable background new_token);
                 void (UpdateVariable background reset_token)]).

Lemma value_xor_secret_always_witness :
  let c' := sched (concat (repeat [0; 1] 12)) variable_pool in
  c'.2 = [Ret (); Ret ()] ∧ size (variables (db c'.1)) = 3 ∧ all_xor (db c'.1).
Proof.
  split; [by vm_compute|]. split; [by vm_compute|].
  apply (value_xor_secret_always calm_mounts_demo variable_pool).
  - constructor; [apply req_create_variable|].
    constructor; [apply req_update_variable|constructor].
  - apply sched_steps.
  - intros k v. cbn. intros [[<- <-]|[_ [<- <-]%lookup_singleton_Some]]%lookup_insert_Some; done.
Defined.
