(* ===== verification/LockInvariant.v ===== *)
(** * The workspace lock under interleaving

    "Only one Run may be in a non-terminal status per Workspace at a time -
    this IS the Workspace's lock_status" (execution/application/ports.go).
    [Inv] is the invariant behind that sentence; this file shows that every
    atomic step of every service of the execution context keeps it, whatever
    other requests, relay batches and sweeps run in between. *)
From S2P Require Import Prelude Prog Rely RunDomain WorkspaceDomain TenancyDomain IdentityDomain Store Outbox.
From S2P Require Import RunRepo WorkspaceRepo Principal Ports Execution Wiring.

Section invariant.
Context {X : Type}.
Implicit Types w : World X.

(** A run that has not finished. *)
Definition active (r : Run) : Prop := IsTerminal (run_Status r) = false.
Definition finished (r : Run) : Prop := IsTerminal (run_Status r) = true.

(** The uuids drawn so far. *)
Definition drawn w (x : string) : Prop := ∃ i, i < uuid_next w ∧ uuid_at w i = x.

Record Inv w : Prop := {
  inv_fresh : ∀ i j, uuid_at w i = uuid_at w j → i = j;
  inv_runs : ∀ k r, runs (db w) !! k = Some r → run_ID r = k ∧ drawn w k;
  inv_ws : ∀ k ws, workspaces (db w) !! k = Some ws → lock_wf ws;
  inv_lock : ∀ k r, runs (db w) !! k = Some r → active r →
    ∃ ws, workspaces (db w) !! run_WorkspaceID r = Some ws ∧ ws_LockedByRunID ws = Some k;
}.

(** What a step of a thread that owns the run ids [O] may do: it creates
    no run but its own, keeps every run's identity and its being finished,
    and releases a lock only for a run of its own or a finished one. *)
Record G (O : gset string) w w' : Prop := {
  g_uuid : uuid_at w' = uuid_at w ∧ uuid_next w ≤ uuid_next w';
  g_runs : ∀ k r, runs (db w) !! k = Some r → ∃ r', runs (db w') !! k = Some r' ∧
    run_WorkspaceID r' = run_WorkspaceID r ∧ run_OrganizationID r' = run_OrganizationID r ∧
    (finished r → finished r');
  g_new : ∀ k, runs (db w) !! k = None → k ∉ O → runs (db w') !! k = None;
  g_ws : ∀ k ws, workspaces (db w) !! k = Some ws →
    ∃ ws', workspaces (db w') !! k = Some ws' ∧
      ∀ r, ws_LockedByRunID ws = Some r →
        ws_LockedByRunID ws' = Some r ∨ r ∈ O ∨
        ∃ run, runs (db w) !! r = Some run ∧ finished run;
}.

Lemma G_mono O w w' : G ∅ w w' → G O w w'.
Proof.
  intros [H1 H2 H3 H4]. split; [done|done| |].
  - intros k Hk _. apply H3; [done|set_solver].
  - intros k ws Hk. destruct (H4 k ws Hk) as (ws' & ? & Hby). exists ws'. split; [done|].
    intros r Hr. destruct (Hby r Hr) as [?|[?|?]]; [auto|set_solver|auto].
Qed.

Lemma drawn_G O w w' x : G O w w' → drawn w x → drawn w' x.
Proof.
  intros [[Hu Hn] _ _ _] (i & Hi & <-). exists i. split; [lia|]. by rewrite Hu.
Qed.

(** ** Steps that leave runs and workspaces alone *)
Definition quiet w w' : Prop :=
  uuid_at w' = uuid_at w ∧ uuid_next w ≤ uuid_next w' ∧
  runs (db w') = runs (db w) ∧ workspaces (db w') = workspaces (db w).

Lemma quiet_Inv w w' : quiet w w' → Inv w → Inv w'.
Proof.
  intros (Hu & Hn & Hr & Hw) [H1 H2 H3 H4]. split.
  - by rewrite Hu.
  - rewrite Hr. intros k r Hk. destruct (H2 k r Hk) as [? (i & ? & ?)]. split; [done|].
    exists i. rewrite Hu. split; [lia|done].
  - by rewrite Hw.
  - by rewrite Hr, Hw.
Qed.

Lemma quiet_G O w w' : quiet w w' → G O w w'.
Proof.
  intros (Hu & Hn & Hr & Hw). split; [done|rewrite Hr; eauto 10|by rewrite Hr|].
  rewrite Hw. eauto 10.
Qed.

Lemma quiet_silent w w' : quiet w w' → silent Inv G w w'.
Proof. intros Hq. split; [by apply quiet_Inv|]. intros O. by apply quiet_G. Qed.

Lemma calm_quiet {A} (p : prog (World X) A) : steps_in calm p → steps_in quiet p.
Proof.
  apply steps_in_mono. intros w w' (Hd & _ & ? & ? & _). unfold quiet. by rewrite Hd.
Qed.

Lemma wframe_quiet w w' : wframe w w' → db w' = db w → quiet w w'.
Proof. intros (_ & _ & ? & ?) Hd. unfold quiet. by rewrite Hd. Qed.

(** A transaction whose statements leave both tables as they are. *)
Definition same_tables (d d' : DB) : Prop :=
  runs d' = runs d ∧ workspaces d' = workspaces d.

#[export] Instance same_tables_preorder : PreOrder same_tables.
Proof. split; [done|]. intros d1 d2 d3 [??] [??]. split; congruence. Qed.

Lemma quiet_txn {A} s (t : Tx X A) :
  tx_frame t → tx_in same_tables s t → steps_in quiet (txn s t).
Proof.
  intros Hf Ht. apply steps_in_call. intros w.
  destruct (run_txn_frame s t w Hf) as (_ & _ & ? & ?).
  by destruct (run_txn_in same_tables s t Ht w).
Qed.

Lemma safe_quiet {A} O K (p : prog (World X) A) Φ :
  stable Inv G O K → steps_in quiet p → (∀ r, Φ r O K) → safe Inv G drawn O K p Φ.
Proof.
  intros HK Hp HΦ. apply safe_silent; [exact HK| |exact HΦ].
  eapply steps_in_mono; [|exact Hp]. intros; by apply quiet_silent.
Qed.

(** ** Changing one run, one workspace *)

(** The effect of one step on the tables this file is about. *)
Definition changes w w' (rs : gmap string Run) (wss : gmap string Workspace) : Prop :=
  wframe w w' ∧ runs (db w') = rs ∧ workspaces (db w') = wss.

Lemma change_run O w w' k r r' :
  changes w w' (<[k := r']> (runs (db w))) (workspaces (db w)) →
  runs (db w) !! k = Some r →
  run_ID r' = run_ID r → run_WorkspaceID r' = run_WorkspaceID r →
  run_OrganizationID r' = run_OrganizationID r → (finished r → finished r') →
  Inv w → Inv w' ∧ G O w w'.
Proof.
  intros ((_ & _ & Hu & Hn) & Hr & Hw) Hk Hid Hws Horg Hfin [H1 H2 H3 H4]. split.
  - split.
    + by rewrite Hu.
    + intros k' r0. rewrite Hr. intros Hk'.
      assert (∃ r1, runs (db w) !! k' = Some r1 ∧ run_ID r0 = run_ID r1) as (r1 & Hr1 & Hid1).
      { apply lookup_insert_Some in Hk' as [[<- <-]|[_ ?]]; eauto. }
      destruct (H2 _ _ Hr1) as [? (i & ? & ?)]. split; [congruence|].
      exists i. rewrite Hu. split; [lia|done].
    + by rewrite Hw.
    + intros k' r0. rewrite Hr, Hw. intros Hk' Ha.
      apply lookup_insert_Some in Hk' as [[<- <-]|[_ Hk']]; [|by eapply H4].
      rewrite Hws. eapply H4; [done|]. unfold active, finished in *.
      destruct (IsTerminal (run_Status r)); [|done]. by rewrite Hfin in Ha.
  - split; [done| | |].
    + intros k' r0 Hk'. rewrite Hr. destruct (decide (k = k')) as [<-|Hne].
      * rewrite lookup_insert_eq. simplify_eq. eauto.
      * rewrite lookup_insert_ne by done. eauto.
    + intros k' Hnone _. rewrite Hr. rewrite lookup_insert_ne; [done|]. by intros ->; congruence.
    + rewrite Hw. eauto 10.
Qed.

Lemma change_ws O w w' k ws ws' :
  changes w w' (runs (db w)) (<[k := ws']> (workspaces (db w))) →
  workspaces (db w) !! k = Some ws → lock_wf ws' →
  (∀ r, ws_LockedByRunID ws = Some r → ws_LockedByRunID ws' = Some r ∨
     (r ∈ O ∧ runs (db w) !! r = None) ∨
     ∃ run, runs (db w) !! r = Some run ∧ finished run) →
  Inv w → Inv w' ∧ G O w w'.
Proof.
  intros ((_ & _ & Hu & Hn) & Hr & Hw) Hk Hwf Hlock [H1 H2 H3 H4]. split.
  - split.
    + by rewrite Hu.
    + rewrite Hr. intros k' r Hk'. destruct (H2 _ _ Hk') as [? (i & ? & ?)].
      split; [done|]. exists i. rewrite Hu. split; [lia|done].
    + rewrite Hw. intros k' ws0 Hk'.
      apply lookup_insert_Some in Hk' as [[<- <-]|[_ ?]]; [done|by eapply H3].
    + rewrite Hr, Hw. intros k' r Hk' Ha. destruct (H4 _ _ Hk' Ha) as (ws0 & Hws0 & Hby).
      destruct (decide (k = run_WorkspaceID r)) as [Heq|Hne].
      * exists ws'. subst k. rewrite lookup_insert_eq. split; [done|].
        simplify_eq. destruct (Hlock _ Hby) as [?|[[_ ?]|(run & ? & ?)]]; [done|congruence|].
        unfold active, finished in *. simplify_eq. congruence.
      * exists ws0. by rewrite lookup_insert_ne.
  - split; [done|rewrite Hr; eauto|by rewrite Hr|].
    intros k' ws0 Hk'. rewrite Hw. destruct (decide (k = k')) as [<-|Hne].
    + exists ws'. rewrite lookup_insert_eq. split; [done|]. simplify_eq.
      intros r Hby. destruct (Hlock r Hby) as [?|[[??]|?]]; auto.
    + exists ws0. rewrite lookup_insert_ne by done. auto.
Qed.
End invariant.

(** ** What a thread may know *)

Section knowledge.
Context {X : Type}.
Implicit Types w : World X.
Notation stable := (stable Inv G).

(** Nobody but the owner of [id] can make this false. *)
Definition unborn (id : string) w : Prop := runs (db w) !! id = None.

(** The run [id], not created yet, holds the lock of [ws]. *)
Definition holds (id ws : string) w : Prop :=
  unborn id w ∧ ∃ row, workspaces (db w) !! ws = Some row ∧ ws_LockedByRunID row = Some id.

(** The run [id] exists, in organization [o] and workspace [ws]. *)
Definition known (id o ws : string) w : Prop :=
  ∃ run, runs (db w) !! id = Some run ∧ run_OrganizationID run = o ∧ run_WorkspaceID run = ws.

Definition over (id : string) w : Prop :=
  ∃ run, runs (db w) !! id = Some run ∧ finished run.

Lemma stable_true O : stable O (λ _ : World X, True).
Proof. by intros O2 w w'. Qed.

Lemma stable_unborn O id : id ∈ O → stable O (unborn id).
Proof. intros Hid O2 w w' Hd _ _ HG Hn. eapply g_new; [exact HG|done|set_solver]. Qed.

Lemma stable_holds O id ws : id ∈ O → stable O (holds id ws).
Proof.
  intros Hid O2 w w' Hd Hi Hi' HG [Hn (row & Hrow & Hby)]. split.
  - by eapply (stable_unborn O id Hid O2 w).
  - destruct (g_ws _ _ _ HG _ _ Hrow) as (row' & Hrow' & Hby'). exists row'. split; [done|].
    destruct (Hby' _ Hby) as [?|[?|(run & Hrun & _)]]; [done|set_solver|].
    unfold unborn in Hn. congruence.
Qed.

Lemma stable_known O id o ws : stable O (known id o ws).
Proof.
  intros O2 w w' _ _ _ HG (run & Hrun & <- & <-).
  destruct (g_runs _ _ _ HG _ _ Hrun) as (run' & Hrun' & ? & ? & _). by exists run'.
Qed.

Lemma stable_over O id : stable O (over id).
Proof.
  intros O2 w w' _ _ _ HG (run & Hrun & Hf).
  destruct (g_runs _ _ _ HG _ _ Hrun) as (run' & Hrun' & _ & _ & Hf'). exists run'. auto.
Qed.
End knowledge.

#[export] Hint Resolve stable_true stable_unborn stable_holds stable_known stable_over : lock.
#[export] Hint Resolve own_step_refl : lock.

(** ** The repositories' operations *)

Section operations.
Context {X : Type}.
Implicit Types w : World X.
Notation stable := (stable Inv G).
Notation safe := (safe Inv G drawn).

Lemma safe_txn {A} O K s (t : Tx X A) Φ :
  (∀ w r w', Inv w → K w → owned drawn O w → exec (txn s t) w = (r, w') →
     (Inv w' ∧ G O w w') ∧
     ∃ O' K', own_step drawn O O' w w' ∧ stable O' K' ∧ K' w' ∧ Φ r O' K') →
  safe O K (txn s t) Φ.
Proof.
  intros H. apply safe_call. intros w Hi HK Ho.
  specialize (H w (run_txn s t w).1 (run_txn s t w).2 Hi HK Ho).
  unfold txn in H. rewrite exec_call in H.
  destruct (run_txn s t w) as [r w']. destruct (H eq_refl) as [[? ?] ?]. done.
Qed.

(** A step that changed nothing the invariant is about. *)
Lemma safe_unchanged O w w' :
  wframe w w' → db w' = db w → Inv w → Inv w' ∧ G O w w'.
Proof.
  intros Hf Hd Hi. pose proof (wframe_quiet _ _ Hf Hd) as Hq.
  split; [by eapply quiet_Inv|by apply quiet_G].
Qed.

Lemma changes_event w w' rs wss ev d :
  wframe w w' → db w' = add_event ev d → runs d = rs → workspaces d = wss →
  changes w w' rs wss.
Proof. intros Hf Hd Hr Hw. split; [done|]. by rewrite Hd. Qed.

(** [NewRun]'s id. *)
Lemma safe_new_uuid K (Φ : res string → gset string → (World X → Prop) → Prop) :
  (∀ id, Φ (Ok id) {[id]} (unborn id)) → safe ∅ K new_uuid Φ.
Proof.
  intros HΦ. apply safe_call. intros w Hi HK _. simpl.
  assert (quiet w (next_uuid w)) as Hq by (unfold quiet; simpl; auto).
  set (id := uuid_at w (uuid_next w)).
  assert (¬ drawn w id) as Hnd.
  { intros (i & Hlt & Heq). apply (inv_fresh _ Hi) in Heq. lia. }
  split_and!; [by eapply quiet_Inv|by apply quiet_G|].
  exists {[id]}, (unborn id). split_and!.
  - intros x ->%elem_of_singleton. right. split; [done|].
    exists (uuid_next w). simpl. split; [lia|done].
  - apply stable_unborn. set_solver.
  - unfold unborn. simpl. destruct (runs (db w) !! id) as [r|] eqn:Hr; [|done].
    by destruct (inv_runs _ Hi _ _ Hr).
  - apply HΦ.
Qed.

Lemma safe_time_now O K (Φ : res Z → gset string → (World X → Prop) → Prop) :
  stable O K → (∀ t, Φ (Ok t) O K) → safe O K time_now Φ.
Proof.
  intros HK HΦ. apply safe_call. intros w Hi HKw _. simpl.
  assert (quiet w w) by by split_and!.
  split_and!; [done|by apply quiet_G|]. exists O, K. eauto 10 with lock.
Qed.

Lemma safe_TryLock id o ws
    (Φ : res bool → gset string → (World X → Prop) → Prop) :
  Φ (Ok true) {[id]} (holds id ws) →
  (∀ r, r ≠ Ok true → Φ r {[id]} (unborn id)) →
  safe {[id]} (unborn id) (WorkspaceRepository_TryLock o ws id) Φ.
Proof.
  intros Htrue Hother. apply safe_txn. intros w r w' Hi HK _ Hex.
  apply WorkspaceRepository_TryLock_exec in Hex as [Hf Hr].
  destruct r as [[|]|e].
  - destruct Hr as (row & Hrow & Hl & Hd). apply ws_row_Some in Hrow as [Hrow _].
    assert (changes w w' (runs (db w)) (<[ws := set_lock true (Some id) row]> (workspaces (db w))))
      as Hc by (split; [done|split; by rewrite Hd]).
    split.
    + eapply change_ws; [exact Hc|exact Hrow| | |done].
      * split; simpl; eauto.
      * intros r Hby. apply (inv_ws _ Hi) in Hrow as Hwf.
        pose proof (proj2 Hwf (ex_intro _ _ Hby)). congruence.
    + exists {[id]}, (holds id ws). split_and!; [auto with lock| | |done].
      * apply stable_holds. set_solver.
      * destruct Hc as (_ & Hrs & Hws). split; [unfold unborn; by rewrite Hrs|].
        rewrite Hws. eexists. by rewrite lookup_insert_eq.
  - destruct Hr as (row & _ & _ & Hd). split; [by apply safe_unchanged|].
    exists {[id]}, (unborn id). split_and!; [auto with lock|apply stable_unborn; set_solver| |by apply Hother].
    unfold unborn. by rewrite Hd.
  - split; [by apply safe_unchanged|].
    exists {[id]}, (unborn id). split_and!; [auto with lock|apply stable_unborn; set_solver| |by apply Hother].
    unfold unborn. by rewrite Hr.
Qed.

(** The lock is taken before the run is created, so the new run finds
    itself holding it. *)
Lemma safe_Create run (Φ : res () → gset string → (World X → Prop) → Prop) :
  run_Status run = RunStatusQueued →
  (∀ u, Φ (Ok u) ∅ (λ _, True)) →
  (∀ e, Φ (Err e) {[run_ID run]} (holds (run_ID run) (run_WorkspaceID run))) →
  safe {[run_ID run]} (holds (run_ID run) (run_WorkspaceID run))
    (RunRepository_Create run) Φ.
Proof.
  intros Hq Hok Herr. apply safe_txn. intros w r w' Hi [Hn Hlock] Ho Hex.
  apply RunRepository_Create_exec in Hex as [Hf Hr]. destruct r as [u|e].
  - destruct Hr as (_ & _ & _ & ev & _ & _ & _ & _ & _ & Hd).
    assert (changes w w' (<[run_ID run := run]> (runs (db w))) (workspaces (db w)))
      as (_ & Hrs & Hws) by (by eapply changes_event).
    destruct Hf as (_ & _ & Hu & Hnx). destruct Hi as [H1 H2 H3 H4].
    assert (drawn w (run_ID run)) as Hdr by (apply Ho; set_solver).
    assert (∀ x, drawn w x → drawn w' x) as Hmono.
    { intros x (i & ? & ?). exists i. rewrite Hu. split; [lia|done]. }
    split; [split; split|].
    + by rewrite Hu.
    + intros k r. rewrite Hrs. intros [[<- <-]|[_ Hk]]%lookup_insert_Some; [auto|].
      destruct (H2 _ _ Hk). auto.
    + by rewrite Hws.
    + intros k r. rewrite Hrs, Hws. intros [[<- <-]|[_ Hk]]%lookup_insert_Some; eauto.
    + done.
    + intros k r Hk. rewrite Hrs. rewrite lookup_insert_ne by (intros <-; unfold unborn in Hn; congruence).
      eauto.
    + intros k Hk Hnot. rewrite Hrs. rewrite lookup_insert_ne; [done|set_solver].
    + rewrite Hws. eauto.
    + exists ∅, (λ _, True). split_and!; [apply own_step_sub; set_solver|apply stable_true|done|done].
  - split; [by apply safe_unchanged|].
    exists {[run_ID run]}, (holds (run_ID run) (run_WorkspaceID run)).
    split_and!; [apply own_step_refl|apply stable_holds; set_solver| |done].
    split; [unfold unborn; by rewrite Hr|by rewrite Hr].
Qed.

(** [Unlock] is safe for a run that was never created or has finished. *)
Lemma safe_Unlock O K o ws id (Φ : res () → gset string → (World X → Prop) → Prop) :
  (∀ w, K w → (id ∈ O ∧ unborn id w) ∨ over id w) →
  (∀ r, Φ r O (λ _, True)) →
  safe O K (WorkspaceRepository_Unlock o ws id) Φ.
Proof.
  intros HK HΦ. apply safe_txn. intros w r w' Hi HKw _ Hex.
  apply WorkspaceRepository_Unlock_exec in Hex as [Hf Hr].
  split; [|exists O, (λ _, True); split_and!; [apply own_step_refl|apply stable_true|done|done]].
  destruct r as [u|e]; [|by apply safe_unchanged].
  destruct Hr as [(row & Hrow & Hby & Hd)|[_ Hd]]; [|by apply safe_unchanged].
  apply ws_row_Some in Hrow as [Hrow _].
  eapply (change_ws O w w' ws row (set_lock false None row)); [|done| | |done].
  - split; [done|split; by rewrite Hd].
  - split; simpl; [done|by intros [? ?]].
  - intros r Hr. assert (r = id) as -> by congruence.
    destruct (HK w HKw) as [?|?]; auto.
Qed.

Lemma safe_GetByID O K o id (Φ : res Run → gset string → (World X → Prop) → Prop) :
  (∀ run, run_OrganizationID run = o → run_ID run = id →
     Φ (Ok run) O (known (run_ID run) o (run_WorkspaceID run))) →
  (∀ e, Φ (Err e) O (λ _, True)) →
  safe O K (RunRepository_GetByID o id) Φ.
Proof.
  intros Hok Herr. apply safe_txn. intros w r w' Hi _ _ Hex.
  apply RunRepository_GetByID_exec in Hex as (Hf & Hd & Hr).
  split; [by apply safe_unchanged|]. destruct r as [run|e].
  - destruct Hr as [Hrun Ho]. destruct (inv_runs _ Hi _ _ Hrun) as [Hid _].
    eexists O, _. split_and!; [apply own_step_refl|apply stable_known| |by apply Hok].
    exists run. rewrite Hd, Hid. done.
  - exists O, (λ _, True). split_and!; [apply own_step_refl|apply stable_true|done|done].
Qed.

(** A finished run overwrites its row, whatever is there by now. *)
Lemma safe_Update O id o ws run actor (Φ : res () → gset string → (World X → Prop) → Prop) :
  finished run → run_OrganizationID run = o → run_ID run = id →
  (∀ u, Φ (Ok u) O (over id)) → (∀ e, Φ (Err e) O (λ _, True)) →
  safe O (known id o ws) (RunRepository_Update run actor) Φ.
Proof.
  intros Hfin Horg <- Hok Herr. apply safe_txn. intros w r w' Hi (row & Hrow & Ho & _) _ Hex.
  apply RunRepository_Update_exec in Hex as [Hf Hr]. destruct r as [u|e].
  - assert (run_row (db w) (run_OrganizationID run) (run_ID run) (λ _, true) = Some row) as Hrr.
    { apply run_row_Some. split_and!; [done|congruence|done]. }
    assert (runs (db w') = <[run_ID run := overwrite run row]> (runs (db w)) ∧
            workspaces (db w') = workspaces (db w)) as [Hrs Hws].
    { unfold updated in Hr. rewrite Hrr in Hr.
      destruct (update_event _); [destruct Hr as (ev & _ & _ & _ & ->)|rewrite Hr]; done. }
    split.
    + eapply (change_run O w w' (run_ID run) row); [by split_and!|done|done|done|done|done|done].
    + exists O, (over (run_ID run)).
      split_and!; [apply own_step_refl|apply stable_over| |done].
      exists (overwrite run row). rewrite Hrs, lookup_insert_eq. done.
  - split; [by apply safe_unchanged|].
    exists O, (λ _, True). split_and!; [apply own_step_refl|apply stable_true|done|done].
Qed.

Lemma safe_TryStartApplying O K o id ws (Φ : res bool → gset string → (World X → Prop) → Prop) :
  (∀ r, Φ r O (λ _, True)) →
  safe O K (RunRepository_TryStartApplying o id ws) Φ.
Proof.
  intros HΦ. apply safe_txn. intros w r w' Hi _ _ Hex.
  apply RunRepository_TryStartApplying_exec in Hex as [Hf Hr].
  split; [|exists O, (λ _, True); split_and!; [apply own_step_refl|apply stable_true|done|done]].
  destruct r as [[|]|e]; [|by destruct Hr as [_ ?]; apply safe_unchanged|by apply safe_unchanged].
  destruct Hr as (row & ev & Hrow & _ & _ & _ & _ & _ & Hd).
  apply run_row_Some in Hrow as (Hrow & _ & Hq). unfold is_status in Hq. bools.
  eapply (change_run O w w' id row (start_run (clock w) row)); [|done..| |done].
  - by eapply changes_event.
  - unfold finished. by rewrite Hq.
Qed.

Lemma safe_RevertToQueued O K o id (Φ : res () → gset string → (World X → Prop) → Prop) :
  (∀ r, Φ r O (λ _, True)) →
  safe O K (RunRepository_RevertToQueued o id) Φ.
Proof.
  intros HΦ. apply safe_txn. intros w r w' Hi _ _ Hex.
  apply RunRepository_RevertToQueued_exec in Hex as [Hf Hr].
  split; [|exists O, (λ _, True); split_and!; [apply own_step_refl|apply stable_true|done|done]].
  destruct r as [u|e]; [|by apply safe_unchanged].
  destruct (run_row (db w) o id (is_status RunStatusApplying)) as [row|] eqn:Hrow;
    [|by apply safe_unchanged].
  apply run_row_Some in Hrow as (Hrow & _ & Hq). unfold is_status in Hq. bools.
  eapply (change_run O w w' id row (set_started None
    (set_status RunStatusQueued (run_FinishedAt row) row))); [|done..| |done].
  - split; [done|]. by rewrite Hr.
  - unfold finished. by rewrite Hq.
Qed.

Lemma safe_MarkErrored O K o id (Φ : res bool → gset string → (World X → Prop) → Prop) :
  Φ (Ok true) O (over id) → (∀ r, r ≠ Ok true → Φ r O (λ _, True)) →
  safe O K (RunRepository_MarkErroredIfStillApplying o id) Φ.
Proof.
  intros Htrue Hother. apply safe_txn. intros w r w' Hi _ _ Hex.
  apply RunRepository_MarkErroredIfStillApplying_exec in Hex as [Hf Hr].
  destruct r as [[|]|e].
  - destruct Hr as (row & ev & Hrow & _ & _ & _ & Hd).
    apply run_row_Some in Hrow as (Hrow & _ & Hq).
    assert (changes w w' (<[id := set_status RunStatusErrored (Some (clock w)) row]> (runs (db w)))
      (workspaces (db w))) as Hc by (by eapply changes_event).
    split; [by eapply (change_run O w w' id row)|].
    exists O, (over id). split_and!; [apply own_step_refl|apply stable_over| |done].
    destruct Hc as (_ & Hrs & _). eexists. rewrite Hrs, lookup_insert_eq. done.
  - destruct Hr as [_ Hd]. split; [by apply safe_unchanged|].
    exists O, (λ _, True). split_and!; [apply own_step_refl|apply stable_true|done|by apply Hother].
  - split; [by apply safe_unchanged|].
    exists O, (λ _, True). split_and!; [apply own_step_refl|apply stable_true|done|by apply Hother].
Qed.
End operations.

(** ** The services *)

Section services.
Context {X : Type} `{!ScopedPermissionChecker X, !OrganizationChecker X,
  !WorkspaceChecker X, !WorkspaceEngineReader X, !VariableResolver X,
  !WorkerDispatcher X, !WorkerCanceler X, !RunTracker X} {calm_ports : CalmPorts X}.
Notation safe := (safe Inv G drawn).
Notation anything := (any (W:=World X)).

Lemma safe_ensure O K b e (Φ : res () → gset string → (World X → Prop) → Prop) :
  (b = true → Φ (Ok tt) O K) → (b = false → Φ (Err e) O K) → safe O K (ensure b e) Φ.
Proof. destruct b; simpl; auto. Qed.

Lemma safe_lift {A} O K (r : res A) (Φ : res A → gset string → (World X → Prop) → Prop) :
  Φ r O K → safe O K (lift r) Φ.
Proof. by destruct r. Qed.

(** One step that only reads. *)
Lemma safe_read {A B} O K (p : prog (World X) A) (f : A → prog (World X) B)
    (Φ : res B → gset string → (World X → Prop) → Prop) :
  stable Inv G O K → steps_in quiet p →
  (∀ e, Φ (Err e) O K) → (∀ a, safe O K (f a) Φ) → safe O K (p ≫= f) Φ.
Proof. intros HK Hp He Hf. apply safe_bind, safe_quiet; [done..|]. intros [a|e]; auto. Qed.

Lemma safe_check {B} O K b e (f : () → prog (World X) B)
    (Φ : res B → gset string → (World X → Prop) → Prop) :
  Φ (Err e) O K → (b = true → safe O K (f tt) Φ) → safe O K (ensure b e ≫= f) Φ.
Proof. intros He Hf. apply safe_bind. apply safe_ensure; auto. Qed.

Lemma safe_TriggerRun ctx inp : safe ∅ (λ _, True) (TriggerRun ctx inp) anything.
Proof using calm_ports.
  unfold TriggerRun.
  apply safe_read; [apply stable_true|apply calm_quiet, calm_exists|done|intros b1].
  apply safe_check; [done|intros _].
  apply safe_read; [apply stable_true|apply calm_quiet, calm_permission|done|intros b2].
  apply safe_check; [done|intros _].
  apply safe_read; [apply stable_true|apply calm_quiet, calm_archived|done|intros b3].
  apply safe_check; [done|intros _].
  apply safe_bind, safe_new_uuid. intros id.
  apply safe_bind, safe_time_now; [apply stable_unborn; set_solver|]. intros now.
  apply safe_bind, safe_lift.
  destruct (NewRun _ _ _ _ _) as [run|e] eqn:Hnew; [|done].
  apply NewRun_ok in Hnew as (_ & _ & _ & Hrun).
  assert (run_ID run = id) as Hid by by subst.
  assert (run_WorkspaceID run = tr_WorkspaceID inp) as Hws by by subst.
  rewrite <- Hid. apply safe_bind, safe_TryLock.
  2:{ intros [[]|e] Hr; [done| |done]. by apply safe_check. }
  apply safe_check; [done|intros _]. rewrite <- Hws.
  apply safe_bind, safe_try, safe_Create; [by subst|done|]. intros e.
  apply safe_bind, safe_try, safe_Unlock; [|done].
  intros w [? _]. left. split; [set_solver|done].
Qed.

(** Finish a run read before, then release its lock. *)
Lemma safe_finish {A} O o ws ws' run actor (k : prog (World X) A) :
  finished run → run_OrganizationID run = o →
  steps_in quiet k →
  safe O (known (run_ID run) o ws)
    (RunRepository_Update run actor;; k;;
     WorkspaceRepository_Unlock o ws' (run_ID run)) anything.
Proof.
  intros Hfin Ho Hk. apply safe_bind, safe_Update; [done|done|done| |done]. intros u.
  apply safe_read; [apply stable_over|done|done|intros a].
  apply safe_Unlock; [|done]. intros w Hov. by right.
Qed.

Lemma safe_CancelRun ctx o p ws id u : safe ∅ (λ _, True) (CancelRun ctx o p ws id u) anything.
Proof using calm_ports.
  unfold CancelRun.
  apply safe_read; [apply stable_true|apply calm_quiet, calm_permission|done|intros b1].
  apply safe_check; [done|intros _].
  apply safe_bind, safe_GetByID; [|done]. intros run Ho Hid.
  apply safe_check; [done|intros _].
  apply safe_bind, safe_time_now; [apply stable_known|intros now].
  apply safe_bind, safe_lift. destruct (Cancel now run) as [run'|e] eqn:Hc; [|done].
  apply Cancel_ok in Hc as [_ ->].
  apply safe_bind, safe_Update; [done|done|done| |done]. intros ?.
  apply safe_bind, safe_Unlock; [intros w Hov; by right|]. intros [?|e]; [|done].
  apply safe_bind, safe_try, safe_quiet; [apply stable_true|apply calm_quiet, calm_cancel|done].
Qed.

Lemma safe_finish_report O o ws ws' out run :
  finished run → run_OrganizationID run = o →
  safe O (known (run_ID run) o ws) (finish_report o ws' out run) anything.
Proof using calm_ports.
  intros Hfin Ho. unfold finish_report. cbv zeta.
  set (run1 := if negb (out =ₛ "") then set_output (Some out) run else run).
  assert (finished run1 ∧ run_OrganizationID run1 = o ∧ run_ID run1 = run_ID run)
    as (Hf1 & Ho1 & Hid1) by (unfold run1; by destruct (negb _)).
  rewrite <- Hid1. apply safe_finish; [done|done|apply calm_quiet, calm_forget].
Qed.

Lemma safe_HandleReport o id ws status line err :
  safe ∅ (λ _, True) (HandleReport o id ws status line err) anything.
Proof using calm_ports.
  unfold HandleReport. apply safe_bind, safe_GetByID; [|done]. intros run Ho Hid.
  assert (∀ mark, (∀ now run', mark now run = Ok run' →
      finished run' ∧ run_OrganizationID run' = o ∧ run_ID run' = run_ID run) →
    safe ∅ (known (run_ID run) o (run_WorkspaceID run))
      (now ← time_now;
       match mark now run with
       | Ok run0 => finish_report o ws (report_output line err) run0
       | Err err0 => if bool_decide (err0 = ErrInvalidTransition) then Ret () else Throw err0
       end) anything) as Htrans.
  { intros mark Hmark. apply safe_bind, safe_time_now; [apply stable_known|intros now].
    destruct (mark now run) as [run'|e] eqn:Hm; [|by case_bool_decide].
    destruct (Hmark _ _ Hm) as (Hf & Ho' & Hid'). rewrite <- Hid'.
    by apply safe_finish_report. }
  cbv zeta. destruct (status =ₛ "applied").
  { apply Htrans. intros now run' [_ ->]%MarkApplied_ok. done. }
  destruct (_ || _); [|done].
  apply Htrans. intros now run' [_ ->]%MarkFailed_ok. done.
Qed.

Lemma safe_dispatch_fail O o ws run ws' (Φ : res () → gset string → (World X → Prop) → Prop) :
  run_OrganizationID run = o → (∀ r O' K', Φ r O' K') →
  safe O (known (run_ID run) o ws) (dispatch_fail run ws') Φ.
Proof.
  intros Ho HΦ. unfold dispatch_fail.
  apply safe_bind, safe_time_now; [apply stable_known|intros now].
  apply safe_bind, safe_lift. destruct (MarkFailed now run) as [run'|e] eqn:Hm; [|done].
  apply MarkFailed_ok in Hm as [_ ->].
  apply safe_bind, safe_Update; [done|done|done| |intros; apply HΦ]. intros ?.
  apply safe_Unlock; [|intros; apply HΦ]. intros w Hov. by right.
Qed.

Lemma safe_HandleEvent ev : safe ∅ (λ _, True) (HandleEvent ev) anything.
Proof using calm_ports.
  unfold HandleEvent. destruct (negb _); [done|]. cbv zeta.
  apply safe_bind, safe_TryStartApplying. intros [[|]|e]; [|done..]. cbn [negb].
  apply safe_bind, safe_GetByID; [|done]. intros run Ho Hid.
  apply safe_read; [apply stable_known|apply calm_quiet, calm_engine|done|intros engine].
  destruct (configVariableKeyByEngine !! engine) as [key|];
    [|by apply safe_dispatch_fail].
  apply safe_read; [apply stable_known|apply calm_quiet, calm_resolve|done|intros [config|]];
    [|by apply safe_dispatch_fail].
  apply safe_read; [apply stable_known| |done|intros [cred|]];
    [| |by apply safe_dispatch_fail].
  { unfold resolve_credential. destruct (_ !! _); [apply calm_quiet, calm_resolve|done]. }
  apply safe_read; [apply stable_known|apply calm_quiet, calm_dispatch|done|intros [|]]; [done|].
  by apply safe_bind, safe_RevertToQueued; intros [?|?].
Qed.

Lemma safe_reap_one c : safe ∅ (λ _, True) (reap_one c) anything.
Proof using calm_ports.
  unfold reap_one. apply safe_bind, safe_try, safe_MarkErrored.
  2:{ intros [[]|] Hr; done. }
  apply safe_bind, safe_try, safe_Unlock; [intros w Hov; by right|]. intros [?|?]; [|done].
  apply safe_quiet; [apply stable_true|apply calm_quiet, calm_forget|done].
Qed.

Lemma safe_reapOnce staleAfter : safe ∅ (λ _, True) (reapOnce staleAfter) anything.
Proof using calm_ports.
  unfold reapOnce. apply safe_bind, safe_time_now; [apply stable_true|intros now].
  apply safe_read; [apply stable_true| |done|intros cands].
  - apply quiet_txn; [tx_frame_steps|tx_in_steps].
  - apply safe_range; [apply G_mono|apply safe_reap_one].
Qed.
End services.
