(* ===== verification/Interleaving.v ===== *)
(** * Any interleaving of the control plane's requests

    The requests that may arrive at any replica, and the theorem that the
    workspace lock survives every interleaving of their atomic steps. *)
From S2P Require Import Prelude Prog Rely RunDomain WorkspaceDomain VariableDomain RbacDomain.
From S2P Require Import TenancyDomain IdentityDomain Store Outbox RunRepo WorkspaceRepo TenancyRepo RbacRepo.
From S2P Require Import Principal Ports Registry Execution AuditLog WorkspaceApp.
From S2P Require Import VariableApp RbacApp Wiring Scenario LockInvariant.

(** ** Requests that touch neither runs nor workspaces *)

(** A table that is neither of the two. *)
Class Aside (T : Type) `{!Table T} : Prop :=
  aside : ∀ (m : gmap string T) (d : DB), same_tables d (tset m d).

Section aside.
#[local] Ltac by_aside := by intros m d.
#[export] Instance aside_membership : Aside OrganizationMembership. Proof. by_aside. Qed.
#[export] Instance aside_environment : Aside Environment. Proof. by_aside. Qed.
#[export] Instance aside_variable : Aside VariableT. Proof. by_aside. Qed.
#[export] Instance aside_role : Aside Role. Proof. by_aside. Qed.
#[export] Instance aside_role_binding : Aside RoleBinding. Proof. by_aside. Qed.
#[export] Instance aside_team_membership : Aside TeamMembership. Proof. by_aside. Qed.
#[export] Instance aside_outbox : Aside OutboxEvent. Proof. by_aside. Qed.
#[export] Instance aside_entry : Aside Entry. Proof. by_aside. Qed.
#[export] Instance aside_idempotency : Aside IdempotencyKey. Proof. by_aside. Qed.
End aside.

(** Go through a program's statements, all on tables aside. *)
Ltac quiet_steps :=
  repeat first
    [ exact I
    | apply steps_in_bind; [|intros ?]
    | apply steps_in_try | apply steps_in_ensure | apply steps_in_lift | apply steps_in_void
    | apply steps_in_range; intros ?
    | apply quiet_txn;
        [ solve [tx_frame_steps]
        | solve [tx_in_steps; first
            [ apply tx_in_update_pk; [typeclasses eauto|intros; apply aside]
            | apply tx_in_insert; [typeclasses eauto|intros; apply aside]
            | apply tx_in_insert_or_nothing; [typeclasses eauto|intros; apply aside]
            | apply tx_in_delete; [apply _|intros; apply aside]
            | apply tx_in_update_where; intros; apply aside ]] ]
    | apply steps_in_call; intros ?; by split_and!; simpl; auto
    | case_match ].

Section quiet.
Context {X : Type}.

Lemma quiet_RecordEntry ev : steps_in quiet (RecordEntry (X:=X) ev).
Proof. unfold RecordEntry, AuditEntryRepository_Create. quiet_steps. Qed.

Lemma quiet_mark_published id :
  steps_in quiet (txn (X:=X) (AppRole None) (mark_published id)).
Proof. quiet_steps. Qed.
End quiet.

Section requests.
Context {R : Type} `{!RedisOps R}.
(** The Secrets context: it reads mounts and asks Vault. *)
Context `{!SecretResolver (Cluster R)}.
Context (calm_secrets : ∀ o m p, steps_in calm (ResolveSecret (X:=Cluster R) o m p)).
Notation X := (Cluster R).
Notation safe := (safe Inv G drawn).
Notation anything := (any (W:=World X)).

(** What can be asked of the replica [self]: [CreateWorkspace], the
    services that run on the lock, the two background loops up to any
    number of ticks, and anything that leaves runs and workspaces alone.
    (Purging a workspace is not among them.) *)
Inductive request (self : string)
    (map_order : list (string * workerEntry) → list (string * workerEntry))
    : prog (World X) () → Prop :=
| req_create_workspace ctx inp : request self map_order (void (CreateWorkspace ctx inp))
| req_trigger ctx inp : request self map_order (void (TriggerRun ctx inp))
| req_cancel ctx o p ws run u : request self map_order
    (void (CancelRun (WorkerCanceler0 := worker_canceler self) ctx o p ws run u))
| req_report o run ws status line err : request self map_order
    (HandleReport (RunTracker0 := run_tracker self) o run ws status line err)
| req_relay n : request self map_order
    (Relay_Run (combinedHandler (WorkerDispatcher0 := worker_dispatcher self map_order)) n)
| req_reaper staleAfter n : request self map_order
    (StaleRunReaper_Run (RunTracker0 := run_tracker self) staleAfter n)
| req_aside p : steps_in quiet p → request self map_order p.

Lemma safe_void {A} O K (p : prog (World X) A) :
  safe O K p anything → safe O K (void p) anything.
Proof. intros Hp. apply safe_bind. eapply safe_mono; [|exact Hp]. by intros [a|e]. Qed.

Lemma safe_aside {A} (p : prog (World X) A) :
  steps_in quiet p → safe ∅ (λ _, True) p anything.
Proof. intros Hp. by apply safe_quiet; [apply stable_true| |]. Qed.

Lemma safe_WorkspaceCreate ws :
  lock_wf ws → safe ∅ (λ _, True) (WorkspaceRepository_Create ws) anything.
Proof.
  intros Hwf. apply safe_txn. intros w r w' Hi _ _ Hex.
  split; [|exists ∅, (λ _, True); split_and!; [apply own_step_refl|apply stable_true|done|done]].
  apply exec_txn in Hex as [Hf Hr]; [|tx_frame_steps].
  destruct r as [u|e]; [|by apply safe_unchanged]. destruct Hr as [fs Hr].
  apply insert_row_ok in Hr as (_ & Hn & _ & _ & ->). simpl in *.
  destruct Hi as [H1 H2 H3 H4]. split; split; simpl; try done; eauto.
  - intros k ws0 [[<- <-]|[_ Hk]]%lookup_insert_Some; eauto.
  - intros k r Hk Ha. destruct (H4 k r Hk Ha) as (ws0 & Hws0 & Hby). exists ws0.
    rewrite lookup_insert_ne; [done|congruence].
  - intros k ws0 Hk. exists ws0. rewrite lookup_insert_ne by congruence. auto.
Qed.

Lemma safe_CreateWorkspace ctx inp :
  safe ∅ (λ _, True) (CreateWorkspace ctx inp) anything.
Proof.
  unfold CreateWorkspace.
  repeat match goal with
  | |- safe _ _ (lift _ ≫= _) _ => fail 1
  | _ => apply safe_read; [apply stable_true| |done|intros ?]
  end.
  9: {
    apply safe_bind, safe_lift. destruct (NewWorkspace _ _ _ _ _ _ _) as [ws|e] eqn:Hnew; [|done].
    apply NewWorkspace_lock_wf in Hnew.
    apply safe_bind. eapply safe_mono; [|by apply safe_WorkspaceCreate]. by intros [[]|e]. }
  - apply calm_quiet. unfold project_gate. ports.
    calm_steps; auto using calm_IsMember, calm_ProjectExists.
  - apply calm_quiet, calm_HasPermissionAtScope.
  - apply steps_in_ensure.
  - apply calm_quiet, calm_IsArchived.
  - apply steps_in_ensure.
  - unfold check_environment, EnvironmentRepository_GetByID. quiet_steps.
  - quiet_steps.
  - quiet_steps.
Qed.

Section replica.
Context (self : string).
Context (map_order : list (string * workerEntry) → list (string * workerEntry)).
#[local] Instance dispatcher : WorkerDispatcher X := worker_dispatcher self map_order.
#[local] Instance canceler : WorkerCanceler X := worker_canceler self.
#[local] Instance tracker : RunTracker X := run_tracker self.
#[local] Instance replica_ports : CalmPorts X := replica_calm calm_secrets self map_order.

Lemma safe_combinedHandler ev : safe ∅ (λ _, True) (combinedHandler ev) anything.
Proof using calm_secrets.
  unfold combinedHandler.
  apply safe_seq; [apply G_mono|apply safe_aside, quiet_RecordEntry|intros ?].
  apply safe_HandleEvent.
Qed.

Lemma safe_relayBatch : safe ∅ (λ _, True) (relayBatch combinedHandler) anything.
Proof using calm_secrets.
  unfold relayBatch.
  apply safe_read; [apply stable_true|unfold unpublished_batch; quiet_steps|done|intros es].
  apply safe_range; [apply G_mono|intros e]. unfold relay_one.
  apply safe_try_any; [apply G_mono|apply safe_combinedHandler|intros [?|?]]; [|done].
  apply safe_aside, quiet_mark_published.
Qed.

Lemma safe_Relay_Run n : safe ∅ (λ _, True) (Relay_Run combinedHandler n) anything.
Proof using calm_secrets.
  induction n as [|n IH]; cbn [Relay_Run]; [done|].
  apply safe_seq; [apply G_mono| |done].
  apply safe_void, safe_try. apply safe_relayBatch.
Qed.

Lemma safe_StaleRunReaper_Run staleAfter n :
  safe ∅ (λ _, True) (StaleRunReaper_Run staleAfter n) anything.
Proof using map_order calm_secrets.
  induction n as [|n IH]; cbn [StaleRunReaper_Run]; [done|].
  apply safe_seq; [apply G_mono| |done].
  apply safe_void, safe_try. apply safe_reapOnce.
Qed.
End replica.

Lemma request_safe self map_order p :
  request self map_order p → safe ∅ (λ _, True) p anything.
Proof using calm_secrets.
  pose proof (replica_calm calm_secrets self map_order) as Hq.
  destruct 1.
  - apply safe_void, safe_CreateWorkspace.
  - apply safe_void, (safe_TriggerRun (calm_ports := Hq)).
  - apply safe_void, (safe_CancelRun (calm_ports := Hq)).
  - apply (safe_HandleReport (calm_ports := Hq)).
  - apply safe_Relay_Run.
  - by apply safe_StaleRunReaper_Run.
  - by apply safe_aside.
Qed.

(** A request at some replica. *)
Definition any_request (p : prog (World X) ()) : Prop :=
  ∃ self map_order, request self map_order p.

(** Between steps, time passes, failures are scheduled, and the store and
    the replicas' registries may do anything. *)
Definition passing (w w' : World X) : Prop :=
  db w' = db w ∧ uuid_at w' = uuid_at w ∧ uuid_next w ≤ uuid_next w'.

Lemma requests_invariant c c' :
  Inv c.1 → Forall any_request c.2 → pool_steps passing any_request c c' →
  Inv c'.1 ∧ ∀ O K, stable Inv G O K → owned drawn O c.1 → K c.1 → K c'.1.
Proof using calm_secrets.
  intros Hi Hall Hsteps. eapply (pool_safe Inv G drawn drawn_G); [..|exact Hsteps].
  - intros w w' Hiw (Hd & Hu & Hn).
    assert (quiet w w') as Hq by (unfold quiet; by rewrite Hd).
    split; [by eapply quiet_Inv|by apply quiet_G].
  - intros p (self & map_order & Hp). by eapply request_safe.
  - done.
  - eapply Forall_impl; [exact Hall|]. intros p (self & map_order & Hp).
    by eapply request_safe.
Qed.

(** ** What the invariant gives *)

(** A deployment before its first run. *)
Record fresh_start (w : World X) : Prop := {
  fs_uuids : ∀ i j, uuid_at w i = uuid_at w j → i = j;
  fs_runs : runs (db w) = ∅;
  fs_locks : ∀ k ws, workspaces (db w) !! k = Some ws → lock_wf ws;
}.

Lemma fresh_start_Inv w : fresh_start w → Inv w.
Proof. intros [Hu Hr Hl]. split; [done| |done|]; rewrite Hr; by intros k r ?%lookup_empty_Some. Qed.

(** "This IS the Workspace's lock_status": a run that has not finished
    holds the lock of its workspace. *)
Definition holds_its_lock (d : DB) : Prop := ∀ k r,
  runs d !! k = Some r → IsTerminal (run_Status r) = false →
  ∃ ws, workspaces d !! run_WorkspaceID r = Some ws ∧
    ws_Locked ws = true ∧ ws_LockedByRunID ws = Some k.

Definition one_run_per_workspace (d : DB) : Prop := ∀ k1 k2 r1 r2,
  runs d !! k1 = Some r1 → runs d !! k2 = Some r2 →
  IsTerminal (run_Status r1) = false → IsTerminal (run_Status r2) = false →
  run_WorkspaceID r1 = run_WorkspaceID r2 → k1 = k2.

Lemma Inv_holds_its_lock (w : World X) : Inv w → holds_its_lock (db w).
Proof.
  intros [_ _ Hwf Hlock] k r Hk Ha. destruct (Hlock k r Hk Ha) as (ws & Hws & Hby).
  exists ws. split_and!; [done| |done]. apply (Hwf _ _ Hws). eauto.
Qed.

Lemma holds_its_lock_one d : holds_its_lock d → one_run_per_workspace d.
Proof.
  intros Hl k1 k2 r1 r2 H1 H2 Ha1 Ha2 Hw.
  destruct (Hl _ _ H1 Ha1) as (ws1 & Hws1 & _ & Hby1).
  destruct (Hl _ _ H2 Ha2) as (ws2 & Hws2 & _ & Hby2). congruence.
Qed.



(** A lock whose holder never came to be is held for good: when a replica
    dies between [TryLock] and [Create], no request of any replica, no
    relay and no reaper ever releases the workspace. *)
Theorem orphan_lock_is_permanent c c' id ws row :
  Inv c.1 → Forall any_request c.2 → drawn c.1 id →
  runs (db c.1) !! id = None →
  workspaces (db c.1) !! ws = Some row → ws_LockedByRunID row = Some id →
  pool_steps passing any_request c c' →
  ∃ row', workspaces (db c'.1) !! ws = Some row' ∧ ws_LockedByRunID row' = Some id ∧
    runs (db c'.1) !! id = None.
Proof using calm_secrets.
  intros Hi Hall Hd Hn Hrow Hby Hsteps.
  destruct (requests_invariant c c' Hi Hall Hsteps) as [_ HK].
  destruct (HK {[id]} (holds id ws)) as [Hn' (row' & Hrow' & Hby')]; [..|by eauto].
  - apply stable_holds. set_solver.
  - by intros x ->%elem_of_singleton.
  - split; eauto.
Qed.
End requests.

(** ** Witnesses *)

Definition demo_trigger : prog (World (Cluster Keyspace)) () :=
  void (TriggerRun background demo_input).

(** Two requests for the same workspace, step by step in turn. *)
Definition two_triggers : World (Cluster Keyspace) * pool (W:=World (Cluster Keyspace)) :=
  (demo, [demo_trigger; demo_trigger]).
Definition in_turn : list nat := concat (repeat [0; 1] 8).

Lemma demo_fresh : fresh_start demo.
Proof.
  split; [apply uuid_inj|done|]. intros k ws. simpl.
  intros [<- <-]%lookup_singleton_Some. split; simpl; [done|by intros [? ?]].
Qed.

Lemma demo_trigger_request : any_request demo_trigger.
Proof. exists "cp-1", (λ l, l). apply req_trigger. Qed.


(** One trigger, then one tick of the relay: the run is being applied. *)
Definition demo_relay : prog (World (Cluster Keyspace)) () := Relay_Run combinedHandler 1.
Definition demo_dispatched : World (Cluster Keyspace) * pool (W:=World (Cluster Keyspace)) :=
  sched (replicate 12 0 ++ replicate 30 1) (demo, [demo_trigger; demo_relay]).

Lemma demo_dispatched_Inv : Inv demo_dispatched.1.
Proof.
  refine (proj1 (requests_invariant calm_secrets_demo
    (demo, [demo_trigger; demo_relay]) _ _ _ _)).
  - apply fresh_start_Inv, demo_fresh.
  - repeat constructor; [exact demo_trigger_request|]. exists "cp-1", (λ l, l). apply req_relay.
  - apply sched_steps.
Qed.

Definition demo_report : prog (World (Cluster Keyspace)) () :=
  HandleReport "org" "uuid-0" "ws" "applied" "done" "".
Definition demo_cancel : prog (World (Cluster Keyspace)) () :=
  void (CancelRun background "org" "project" "ws" "uuid-0" "alice").

Definition racing : World (Cluster Keyspace) * pool (W:=World (Cluster Keyspace)) :=
  (demo_dispatched.1, [demo_report; demo_cancel]).

(** The cancellation reads the run, the report finishes it, ... *)
Definition racing_reported := sched (replicate 3 1 ++ replicate 6 0) racing.
(** ... and the cancellation writes what it computed from its own read. *)
Definition racing_canceled := sched (replicate 6 1) racing_reported.

Definition status_of (id : string) (w : World (Cluster Keyspace)) : option RunStatus :=
  run_Status <$> runs (db w) !! id.

Lemma racing_requests : Forall any_request racing.2.
Proof.
  repeat constructor; exists "cp-1", (λ l, l); [apply req_report|apply req_cancel].
Qed.

Lemma racing_reported_Inv : Inv racing_reported.1.
Proof.
  refine (proj1 (requests_invariant calm_secrets_demo racing _
    demo_dispatched_Inv racing_requests _)).
  apply sched_steps.
Qed.

(** After the run is applied: another cancellation, and a relay. *)
Definition afterwards : World (Cluster Keyspace) * pool (W:=World (Cluster Keyspace)) :=
  (racing_reported.1, [demo_cancel; demo_relay]).


(** A cancellation that read the run before the worker's report commits
    overwrites it: the run the worker applied ends up canceled, and the
    outbox holds both [RunApplied] and [RunCanceled] for it. *)
Theorem cancel_overwrites_applied :
  status_of "uuid-0" racing_reported.1 = Some RunStatusApplied ∧
  status_of "uuid-0" racing_canceled.1 = Some RunStatusCanceled ∧
  Forall (λ t, List.Exists (λ ev : OutboxEvent, oe_EventType ev = t ∧ field "target_id" (oe_Payload ev) = "uuid-0")
    (rows (db racing_canceled.1))) ["RunApplied"; "RunCanceled"].
Proof.
  split; [by vm_compute|]. split; [by vm_compute|].
  apply (bool_decide_unpack _). vm_compute. exact I.
Qed.


(** The replica dies right after [TryLock]; the user tries again. *)
Definition after_crash : World (Cluster Keyspace) * pool (W:=World (Cluster Keyspace)) :=
  ((sched (replicate 6 0) (demo, [demo_trigger])).1, [demo_trigger; demo_relay]).

Lemma after_crash_Inv : Inv after_crash.1.
Proof.
  refine (proj1 (requests_invariant calm_secrets_demo (demo, [demo_trigger])
    (sched (replicate 6 0) (demo, [demo_trigger])) _ _ _)).
  - apply fresh_start_Inv, demo_fresh.
  - repeat constructor. exact demo_trigger_request.
  - apply sched_steps.
Qed.

Lemma orphan_lock_is_permanent_witness :
  let c' := sched (replicate 12 0 ++ replicate 12 1) after_crash in
  c'.2 = [Throw ErrWorkspaceLocked; Ret ()] ∧
  ∃ row', workspaces (db c'.1) !! "ws" = Some row' ∧ ws_LockedByRunID row' = Some "uuid-0" ∧
    runs (db c'.1) !! "uuid-0" = None.
Proof.
  split; [by vm_compute|].
  apply (orphan_lock_is_permanent calm_secrets_demo after_crash _ "uuid-0" "ws"
    (set_lock true (Some "uuid-0") the_workspace)).
  - exact after_crash_Inv.
  - repeat constructor; [exact demo_trigger_request|]. exists "cp-1", (λ l, l). apply req_relay.
  - exists 0. split; [by vm_compute; lia|done].
  - by vm_compute.
  - by vm_compute.
  - done.
  - apply sched_steps.
Defined.
