(* ===== verification/HttpSpec.v ===== *)
(** * The middlewares: authentication, idempotency keys

    What a handler wrapped by the middlewares of main.go may rely on, and
    what a client that retries may. *)
From S2P Require Import Prelude Prog RunDomain TenancyDomain IdentityDomain Store Principal Ports Execution.
From S2P Require Import Json RateLimit Http Registry Wiring Scenario HttpScenario HttpWorkspace.

(** ** Authentication *)

Section authentication.
Context {X : Type}.
Context (parse_jwt : string → string → Z → option string).
Context (resolveAPIKey : option (string → prog (World X) (string * list string))).
Context (secret : string).
Implicit Types w : World X.

(** The request presents a credential of [subject]: a token the JWT library
    accepts now, or an opaque key the resolver accepts. *)
Definition presents (rq : Request) (subject : string) (scopes : list string) w w1 : Prop :=
  ∃ token, cut_prefix "Bearer " (rq_Authorization rq) = Some token ∧ token ≠ "" ∧
    if bool_decide (count_dots token = 2)
    then parse_jwt secret token (clock w) = Some subject ∧ subject ≠ "" ∧ scopes = [] ∧ w1 = w
    else ∃ resolve, resolveAPIKey = Some resolve ∧
           exec (resolve token) w = (Ok (subject, scopes), w1).

(** No credential, and so no subject. *)
Ltac refused Hdots :=
  split; [|do 2 eexists; split; [reflexivity|done]];
  intros ? ? ? (? & [= <-] & ? & Hcred); rewrite Hdots in Hcred; naive_solver congruence.

Lemma authenticate_cases rq w :
  (∃ subject scopes w1, presents rq subject scopes w w1 ∧
     exec (authenticate parse_jwt resolveAPIKey secret rq) w = (Ok (Some (subject, scopes)), w1)) ∨
  (∀ subject scopes w1, ¬ presents rq subject scopes w w1) ∧
  (∃ r w1, exec (authenticate parse_jwt resolveAPIKey secret rq) w = (r, w1) ∧
     ∀ p, r ≠ Ok (Some p)).
Proof.
  unfold authenticate, presents.
  destruct (cut_prefix "Bearer " (rq_Authorization rq)) as [token|]; [|right].
  2:{ split; [by intros ? ? ? (? & ? & _)|do 2 eexists; split; [reflexivity|done]]. }
  case_bool_decide as Hempty; [right|].
  { split; [by intros ? ? ? (? & [= <-] & ? & _)|do 2 eexists; split; [reflexivity|done]]. }
  destruct (bool_decide (count_dots token = 2)) eqn:Hdots.
  - unfold time_now. rewrite exec_bind, exec_call, exec_bind, exec_lift. unfold ParseAccessToken.
    destruct (parse_jwt secret token (clock w)) as [subject|] eqn:Hp.
    2:{ right. refused Hdots. }
    destruct (decide (subject = "")) as [Hs|Hs]; [rewrite bool_decide_true by done|rewrite bool_decide_false by done].
    { right. refused Hdots. }
    left. exists subject, [], w. split; [|done]. exists token. by rewrite Hdots.
  - destruct resolveAPIKey as [resolve|].
    2:{ right. refused Hdots. }
    rewrite exec_bind. destruct (exec (resolve token) w) as [[[subject scopes]|e] w1] eqn:Hr.
    + left. exists subject, scopes, w1. split; [|done]. exists token. rewrite Hdots. naive_solver.
    + right. refused Hdots.
Qed.

(** Who presents a credential is let through as its subject. *)
Lemma presents_runs (next : HandlerFunc) rq subject scopes w w1 :
  presents rq subject scopes w w1 →
  exec (RequireAuth parse_jwt resolveAPIKey secret next rq) w =
    exec (next (with_ctx (mkCtx (Some subject) (Some scopes)) rq)) w1.
Proof.
  intros (token & Htok & Hne & Hp). unfold RequireAuth, authenticate.
  rewrite exec_bind, exec_try, Htok, bool_decide_false by done.
  destruct (bool_decide (count_dots token = 2)).
  - destruct Hp as (Hp & Hs & -> & ->). unfold time_now, ParseAccessToken.
    rewrite exec_bind, exec_call, exec_bind, exec_lift. simpl.
    by rewrite Hp, bool_decide_false by done.
  - destruct Hp as (resolve & -> & Hr). by rewrite exec_bind, Hr.
Qed.

(** A handler behind [RequireAuth] runs exactly when the request presents
    a valid token or API key, and then as the subject it belongs to and with
    the scopes of that key; any other request is answered 401 and the handler
    is not run. *)
Theorem RequireAuth_spec (next : HandlerFunc) rq w :
  (∃ subject scopes w1, presents rq subject scopes w w1 ∧
     exec (RequireAuth parse_jwt resolveAPIKey secret next rq) w =
       exec (next (with_ctx (mkCtx (Some subject) (Some scopes)) rq)) w1) ∨
  (∀ subject scopes w1, ¬ presents rq subject scopes w w1) ∧
  ∃ w1, exec (RequireAuth parse_jwt resolveAPIKey secret next rq) w =
    (Ok (WriteProblem (rq_XRequestID rq) StatusUnauthorized
           "missing or malformed Authorization header" ""), w1).
Proof.
  unfold RequireAuth. rewrite exec_bind, exec_try.
  destruct (authenticate_cases rq w) as [(subject & scopes & w1 & Hp & ->)|[Hno (r & w1 & -> & Hr)]].
  - left. exists subject, scopes, w1. by split.
  - right. split; [done|]. exists w1. destruct r as [[[subject scopes]|]|e]; [|done..].
    by destruct (Hr (subject, scopes)).
Qed.
End authentication.

(** ** Idempotency keys *)

(** The response a key is good for, at time [now]. *)
Definition cached (o u key : string) (now : Z) (d : DB) : option (Z * string) :=
  match filter (λ k, visible (AppRole (Some o)) k &&
                     (ik_for o u key k && bool_decide (now - Window < ik_CreatedAt k)%Z))
          (rows d) with
  | [] => None
  | k :: _ => Some (ik_ResponseStatus k, ik_ResponseBody k)
  end.

(** The UNIQUE constraint on (organization, user, key). *)
Definition keys_unique (d : DB) : Prop :=
  ∀ i j (a b : IdempotencyKey), idempotency_keys d !! i = Some a →
    idempotency_keys d !! j = Some b → tunique a b = true → a = b.

Lemma ik_visible o u key k : ik_for o u key k = true → visible (AppRole (Some o)) k = true.
Proof. unfold ik_for. simpl. unfold tenant_is. intros H. bools. subst. by case_bool_decide. Qed.

Lemma cached_row o u key now d i k :
  keys_unique d → idempotency_keys d !! i = Some k → ik_for o u key k = true →
  (now - Window < ik_CreatedAt k)%Z →
  cached o u key now d = Some (ik_ResponseStatus k, ik_ResponseBody k).
Proof.
  intros Hu Hi Hk Ht. unfold cached.
  destruct (filter _ _) as [|k' l] eqn:Hf.
  - exfalso. eapply (not_elem_of_nil k). rewrite <- Hf. apply list_elem_of_filter.
    split; [|apply elem_of_rows; eauto]. rewrite (ik_visible o u key), Hk, bool_decide_true; done.
  - assert (k' ∈ k' :: l) as Hin by (apply elem_of_cons; by left).
    rewrite <- Hf in Hin. apply list_elem_of_filter in Hin as [Hk' [j Hj]%elem_of_rows].
    apply Is_true_true in Hk'. bools. rewrite (Hu i j k k'); [done..|].
    unfold ik_for in *. bools. simpl. subst.
    by rewrite !bool_decide_true by congruence.
Qed.

Lemma cached_none o u key now d :
  (∀ i k, idempotency_keys d !! i = Some k → ik_for o u key k = true →
     (ik_CreatedAt k ≤ now - Window)%Z) → cached o u key now d = None.
Proof.
  intros Hn. unfold cached. destruct (filter _ _) as [|k l] eqn:Hf; [done|].
  assert (k ∈ k :: l) as Hin by (apply elem_of_cons; by left).
  rewrite <- Hf in Hin. apply list_elem_of_filter in Hin as [Hk [i Hi]%elem_of_rows].
  apply Is_true_true in Hk. bools. assert (ik_for o u key k = true) as Hk by done. specialize (Hn i k Hi Hk). lia.
Qed.

Section idempotency.
Context {X : Type} `{!JSON}.
Implicit Types w : World X.

Lemma Store_Get_exec o u key w :
  faults w = [] → exec (Store_Get o u key) w = (Ok (cached o u key (clock w) (db w)), w).
Proof. intros Hf. unfold Store_Get, org_txn, txn. by rewrite exec_call, run_txn_nofault. Qed.

(** The row [Save] writes. *)
Definition saved_row (o u key : string) (status : Z) (body : string) w : IdempotencyKey :=
  mkIdempotencyKey (uuid_at w (uuid_next w)) o u key status body (clock w).

Lemma Store_Save_exec o u key status body w :
  faults w = [] → is_Some (organizations (db w) !! o) →
  idempotency_keys (db w) !! uuid_at w (uuid_next w) = None →
  (∀ i k, idempotency_keys (db w) !! i = Some k → ik_for o u key k = false) →
  ∃ w', exec (Store_Save o u key status body) w = (Ok (), w') ∧
    idempotency_keys (db w') !! uuid_at w (uuid_next w) = Some (saved_row o u key status body w).
Proof.
  intros Hf Ho Hid Hno. unfold Store_Save, org_txn, txn. rewrite exec_call, run_txn_nofault by done.
  unfold mbind, tx_bind, tx_uuid, sql_now, insert_or_nothing. simpl.
  unfold tenant_is. rewrite bool_decide_true by done. simpl.
  assert (conflicts (saved_row o u key status body w) (db w) = false) as Hc.
  { apply existsb_rows_false. intros i k Hi. specialize (Hno i k Hi). unfold ik_for in Hno.
    simpl. rewrite <- Hno. unfold saved_row; simpl.
    repeat case_bool_decide; naive_solver. }
  unfold saved_row in *. rewrite Hc, Hid.
  rewrite (bool_decide_false (is_Some None)) by (by intros []). simpl.
  unfold references. rewrite bool_decide_true by done. simpl.
  eexists. split; [reflexivity|]. simpl. by rewrite lookup_insert_eq.
Qed.

(** The request is [user]'s, for organization [o], with idempotency key [key]. *)
Definition keyed_request (o user key : string) (rq : Request) : Prop :=
  rq_IdempotencyKey rq = key ∧ key ≠ "" ∧ ctx_userID (rq_ctx rq) = Some user ∧ path rq "id" = o.

Lemma Idempotency_eq next rq w o user key :
  faults w = [] → keyed_request o user key rq →
  exec (Idempotency next rq) w =
    match cached o user key (clock w) (db w) with
    | Some (status, body) => (Ok (mkResponse status (BodyBytes body) (rq_XRequestID rq) true None), w)
    | None =>
        exec (resp ← next rq;
              _ ← (if bool_decide (200 ≤ rs_Status resp < 300)%Z then
                     void (try (Store_Save o user key (rs_Status resp) (encode (rs_Body resp))))
                   else Ret ());
              Ret resp) w
    end.
Proof.
  intros Hf (Hk & Hne & Hu & Ho). unfold Idempotency, UserIDFromContext.
  rewrite Hk, Hu, Ho, bool_decide_false by done. cbn [negb].
  rewrite exec_bind, exec_try, Store_Get_exec by done.
  by destruct (cached _ _ _ _ _) as [[]|].
Qed.

(** C35: Retrying with the same idempotency key is safe: once a request with a
    fresh key was answered with success, any request of the same user to the
    same organization with that key, within the window, is answered with the
    recorded status and body and runs nothing, whatever happened to the rest
    of the database in between. *)
Theorem idempotent_replay next next' o user key rq rq' r w w1 :
  keyed_request o user key rq → keyed_request o user key rq' →
  faults w = [] → cached o user key (clock w) (db w) = None →
  exec (next rq) w = (Ok r, w1) → (200 ≤ rs_Status r < 300)%Z →
  faults w1 = [] → is_Some (organizations (db w1) !! o) →
  idempotency_keys (db w1) !! uuid_at w1 (uuid_next w1) = None →
  (∀ i k, idempotency_keys (db w1) !! i = Some k → ik_for o user key k = false) →
  ∃ w2, exec (Idempotency next rq) w = (Ok r, w2) ∧
    ∀ w3, idempotency_keys (db w2) ⊆ idempotency_keys (db w3) → keys_unique (db w3) →
      faults w3 = [] → (clock w3 < clock w1 + Window)%Z →
      exec (Idempotency next' rq') w3 =
        (Ok (mkResponse (rs_Status r) (BodyBytes (encode (rs_Body r))) (rq_XRequestID rq') true None), w3).
Proof.
  intros Hrq Hrq' Hf Hnone Hnext Hr Hf1 Ho Hid Hno.
  destruct (Store_Save_exec o user key (rs_Status r) (encode (rs_Body r)) w1) as (w2 & Hsave & Hrow);
    [done..|]. exists w2. split.
  - erewrite Idempotency_eq, Hnone by done. rewrite exec_bind, Hnext.
    rewrite bool_decide_true, exec_bind by done. unfold void. by rewrite exec_bind, exec_try, Hsave.
  - intros w3 Hsub Hu Hf3 Ht. erewrite Idempotency_eq by done.
    rewrite (cached_row o user key _ _ _ _ Hu (lookup_weaken _ _ _ _ Hrow Hsub)); [done|..];
      unfold saved_row, ik_for; simpl.
    + by rewrite !bool_decide_eq_true_2.
    + lia.
Qed.

(** The sweep is invisible: after it every key left is within the window,
    and at no later time is a key answered differently than if the sweep had
    not happened. *)
Theorem reaper_transparent w :
  keys_unique (db w) → faults w = [] →
  ∃ w', exec Reaper_reapOnce w = (Ok (), w') ∧
    map_Forall (λ _ k, (clock w - Window < ik_CreatedAt k)%Z) (idempotency_keys (db w')) ∧
    ∀ o user key now, (clock w ≤ now)%Z →
      cached o user key now (db w') = cached o user key now (db w).
Proof.
  intros Hu Hf. unfold Reaper_reapOnce, txn. rewrite exec_call, run_txn_nofault by done.
  unfold mbind, tx_bind, sql_now. rewrite delete_where_free by done. unfold delete_rows.
  cbn [fst snd]. eexists. split; [reflexivity|].
  cbn. set (m := filter _ (idempotency_keys (db w))).
  assert (∀ i k, m !! i = Some k ↔ idempotency_keys (db w) !! i = Some k ∧
    (clock w - Window < ik_CreatedAt k)%Z) as Hm.
  { intros i k. unfold m. rewrite map_lookup_filter_Some. simpl. rewrite bool_decide_eq_false.
    split; intros [? ?]; split; done || lia. }
  split; [by intros i k [_ ?]%Hm|]. intros o user key now Hnow.
  destruct (cached o user key now (db w)) as [[st body]|] eqn:Hc.
  - unfold cached in Hc. destruct (filter _ (rows (db w))) as [|k l] eqn:Hfil; [done|].
    injection Hc as <- <-. assert (k ∈ k :: l) as Hin by (apply elem_of_cons; by left).
    rewrite <- Hfil in Hin. apply list_elem_of_filter in Hin as [Hk [i Hi]%elem_of_rows].
    apply Is_true_true in Hk. bools. apply (cached_row _ _ _ _ _ i).
    + intros j1 j2 a b [Ha _]%Hm [Hb _]%Hm. by apply (Hu j1 j2).
    + apply Hm. split; [done|lia].
    + done.
    + done.
  - apply cached_none. intros i k [Hi Ht]%Hm Hk.
    destruct (decide (ik_CreatedAt k ≤ now - Window)%Z) as [|Hlt]; [done|].
    rewrite (cached_row o user key now _ i k) in Hc; [done..|lia].
Qed.
End idempotency.

(** ** Concrete requests *)

(** alice's [POST .../runs] with an idempotency key. *)
Definition demo_request : Request :=
  mkRequest "POST" [] ∅ "" "Bearer token" "req-1" "key-1" "10.0.0.1"
    {["id" := "org"; "projectID" := "project"; "workspaceID" := "ws"]}
    (mkCtx (Some "alice") (Some [])).

Definition trigger_handler : HandlerFunc (X:=Cluster Keyspace) := TriggerRunHandler.

Definition first_answer : res Response * World (Cluster Keyspace) :=
  exec (trigger_handler demo_request) demo.
Definition created : Response :=
  match first_answer.1 with Ok r => r | Err _ => WriteProblem "" 0 "" "" end.

Lemma idempotent_replay_witness :
  ∃ w2, exec (Idempotency trigger_handler demo_request) demo = (Ok created, w2) ∧
    ∀ w3, idempotency_keys (db w2) ⊆ idempotency_keys (db w3) → keys_unique (db w3) →
      faults w3 = [] → (clock w3 < clock first_answer.2 + Window)%Z →
      exec (Idempotency trigger_handler demo_request) w3 =
        (Ok (mkResponse 201 (BodyBytes (encode (rs_Body created))) "req-1" true None), w3).
Proof.
  apply (idempotent_replay trigger_handler trigger_handler "org" "alice" "key-1"
    demo_request demo_request created demo first_answer.2); try (by vm_compute).
  apply (bool_decide_unpack _). by vm_compute.
Defined.

(** A key saved [Window] ago, and one saved just now. *)
Definition old_key : IdempotencyKey :=
  mkIdempotencyKey "ik-1" "org" "alice" "key-1" 201 "old" (1000 - Window).

Definition with_old_key : World (Cluster Keyspace) :=
  set_db (tset {["ik-1" := old_key]} (db demo)) demo.

Lemma reaper_transparent_witness :
  ∃ w', exec Reaper_reapOnce with_old_key = (Ok (), w') ∧
    map_Forall (λ _ k, (1000 - Window < ik_CreatedAt k)%Z) (idempotency_keys (db w')) ∧
    ∀ o user key now, (1000 ≤ now)%Z →
      cached o user key now (db w') = cached o user key now (db with_old_key).
Proof.
  apply (reaper_transparent with_old_key); [|done].
  intros i j a b Ha Hb _. unfold with_old_key in Ha, Hb. simpl in Ha, Hb. apply lookup_singleton_Some in Ha as [_ <-].
  by apply lookup_singleton_Some in Hb as [_ <-].
Defined.

(** While the row of an expired use of a key is still there, [Save]'s ON
    CONFLICT DO NOTHING drops the new response: the retry of a request
    answered 201 a moment ago runs the handler again, here to be told that
    the workspace is locked by the very run the first request queued. *)
Lemma expired_key_reexecutes :
  let p := Idempotency trigger_handler demo_request in
  let first := exec p with_old_key in
  (r ← first.1; Ok (rs_Status r)) = Ok 201%Z ∧
  (r ← (exec p first.2).1; Ok (rs_Status r)) = Ok 409%Z.
Proof. by vm_compute. Qed.
