(* ===== verification/RoutesSpec.v ===== *)
(** * What the API as a whole guarantees

    Theorems about every route of the table at once: each request is
    answered, and a failure inside tells nothing; without a credential no
    route but the six public ones does anything; someone outside an
    organization gets nothing from its routes. *)
From S2P Require Import Prelude Prog IdentityDomain FleetDomain Store Envelope Principal Ports IdentityRepo.
From S2P Require Import TenancyApp IdentityApp Wiring FleetMachines Secrets Cursor Json Http Mux.
From S2P Require Import HttpTenancy HttpIdentity HttpWorkspace HttpSecrets.
From S2P Require Import HttpFleet DeployExecutor Stream Routes RbacSpec HttpSpec.

(** ** Responses *)

(** A response tells its request's id; an error is a problem document of its
    status, an error of the server has the id in the document, and a 500 has
    no detail: nothing of what went wrong inside. *)
Definition well_formed (id : string) (r : Response) : Prop :=
  rs_XRequestID r = id ∧
  match rs_Body r with
  | BodyProblem p =>
      p_Status p = rs_Status r ∧ (400 ≤ rs_Status r < 600)%Z ∧
      p_RequestID p = (if bool_decide (500 ≤ rs_Status r)%Z then id else "") ∧
      (rs_Status r = StatusInternalServerError → p_Detail p = "")
  | BodyJSON _ => (200 ≤ rs_Status r < 300)%Z ∨ rs_Status r = StatusServiceUnavailable
  | BodyEmpty | BodyStream _ => (200 ≤ rs_Status r < 300)%Z
  | BodyBytes _ => True
  end.

(** Every error a writer maps becomes a problem. *)
Definition maps_errors (writeError : string → error → Response) : Prop :=
  ∀ id err, well_formed id (writeError id err) ∧ (400 ≤ rs_Status (writeError id err))%Z.

Lemma mapped id status title detail :
  (400 ≤ status < 600)%Z → (status = StatusInternalServerError → detail = "") →
  well_formed id (WriteProblem id status title detail) ∧
  (400 ≤ rs_Status (WriteProblem id status title detail))%Z.
Proof. intros ??. split; [done|simpl; lia]. Qed.

Create HintDb http.

(** Case analysis on the error a writer is given. *)
Ltac writer :=
  intros id []; simpl; repeat case_match;
  first [by apply mapped | match goal with H : maps_errors ?f |- _ => apply H end].

Lemma write_failure_maps title : maps_errors (write_failure title).
Proof. writer. Qed.
Lemma writeTenancyError_maps a b c : maps_errors (writeTenancyError a b c).
Proof. writer. Qed.
#[export] Hint Resolve write_failure_maps writeTenancyError_maps : http.
Lemma writeValidated_maps f : maps_errors f → maps_errors (writeValidated f).
Proof. intros Hf. writer. Qed.
Lemma writeCreateOrganizationError_maps : maps_errors writeCreateOrganizationError.
Proof. writer. Qed.
Lemma writeMissingOrganization_maps a : maps_errors (writeMissingOrganization a).
Proof. writer. Qed.
Lemma writeArchiveError_maps : maps_errors writeArchiveError.
Proof. writer. Qed.
Lemma writeCreateProjectError_maps : maps_errors writeCreateProjectError.
Proof. writer. Qed.
Lemma writeProjectError_maps a b : maps_errors (writeProjectError a b).
Proof. writer. Qed.
Lemma writeTeamError_maps a : maps_errors (writeTeamError a).
Proof. writer. Qed.
Lemma writeRBACError_maps : maps_errors writeRBACError.
Proof. writer. Qed.
Lemma writeCreateUserError_maps : maps_errors writeCreateUserError.
Proof. writer. Qed.
Lemma writePlatformAdminError_maps : maps_errors writePlatformAdminError.
Proof. writer. Qed.
Lemma writeOwnUserError_maps : maps_errors writeOwnUserError.
Proof. writer. Qed.
Lemma writeLoginError_maps : maps_errors writeLoginError.
Proof. writer. Qed.
Lemma writeRefreshError_maps : maps_errors writeRefreshError.
Proof. writer. Qed.
Lemma writeConfirmError_maps : maps_errors writeConfirmError.
Proof. writer. Qed.
Lemma writeIdentityError_maps a : maps_errors (writeIdentityError a).
Proof. writer. Qed.
Lemma writeNotFoundOrForbidden_maps a b : maps_errors (writeNotFoundOrForbidden a b).
Proof. writer. Qed.
Lemma writeCreateError_maps a : maps_errors (writeCreateError a).
Proof. writer. Qed.
Lemma writeVariablesError_maps a : maps_errors (writeVariablesError a).
Proof. writer. Qed.
Lemma writeExecutionError_maps a : maps_errors (writeExecutionError a).
Proof. writer. Qed.
Lemma writeSecretsError_maps : maps_errors writeSecretsError.
Proof. writer. Qed.
Lemma writeTestConnectionError_maps text : maps_errors (writeTestConnectionError text).
Proof. writer. Qed.
Lemma writeWriteSecretError_maps text : maps_errors (writeWriteSecretError text).
Proof. writer. Qed.
Lemma writeAuditError_maps : maps_errors writeAuditError.
Proof. writer. Qed.
Lemma writeFleetError_maps a : maps_errors (writeFleetError a).
Proof. writer. Qed.
#[export] Hint Resolve writeValidated_maps writeCreateOrganizationError_maps
  writeMissingOrganization_maps writeArchiveError_maps writeCreateProjectError_maps
  writeProjectError_maps writeTeamError_maps writeRBACError_maps writeCreateUserError_maps
  writePlatformAdminError_maps writeOwnUserError_maps writeLoginError_maps
  writeRefreshError_maps writeConfirmError_maps writeIdentityError_maps
  writeNotFoundOrForbidden_maps writeCreateError_maps writeVariablesError_maps
  writeExecutionError_maps writeSecretsError_maps writeTestConnectionError_maps
  writeWriteSecretError_maps writeAuditError_maps writeFleetError_maps : http.

(** ** Every request is answered *)
Section answers.
Context {X : Type} `{!JSON}.
Implicit Types w : World X.

(** Whatever the state and whatever fails in it, [p] ends with a response. *)
Definition answered (rq : Request) (p : prog (World X) Response) : Prop :=
  ∀ w, ∃ resp w', exec p w = (Ok resp, w') ∧ well_formed (rq_XRequestID rq) resp.
Definition answers (h : HandlerFunc (X:=X)) : Prop := ∀ rq, answered rq (h rq).

(** A result is written as a success. *)
Definition writes {A} (write : string → A → Response) : Prop :=
  ∀ id a, well_formed id (write id a).

Lemma write_json_writes {A} status (f : A → json) :
  (200 ≤ status < 300)%Z → writes (write_json status f).
Proof. intros ???. split; [done|by left]. Qed.
Lemma write_list_writes {A} (f : A → json) : writes (write_list f).
Proof. split; [done|by left]. Qed.
Lemma write_status_writes {A} status : (200 ≤ status < 300)%Z → writes (write_status (A:=A) status).
Proof. intros ???. by split. Qed.
Lemma write_page_writes : writes write_page.
Proof. split; [done|by left]. Qed.

Lemma answered_ret rq resp : well_formed (rq_XRequestID rq) resp → answered rq (Ret resp).
Proof. intros ? w. by exists resp, w. Qed.

Lemma answered_problem rq status title detail :
  (400 ≤ status < 600)%Z → (status = StatusInternalServerError → detail = "") →
  answered rq (Ret (WriteProblem (rq_XRequestID rq) status title detail)).
Proof. intros. by apply answered_ret, mapped. Qed.

(** After a step that cannot fail. *)
Lemma answered_bind {A} rq (p : prog (World X) A) f :
  (∀ w, ∃ a w', exec p w = (Ok a, w')) → (∀ a, answered rq (f a)) → answered rq (p ≫= f).
Proof.
  intros Hp Hf w. destruct (Hp w) as (a & w1 & Hx). rewrite exec_bind, Hx. apply Hf.
Qed.

Lemma try_total {A} (p : prog (World X) A) w : ∃ r w', exec (try p) w = (Ok r, w').
Proof. rewrite exec_try. destruct (exec p w). eauto. Qed.

Lemma answered_attempt {A} rq writeError (service : prog (World X) A) k :
  maps_errors writeError → (∀ a, answered rq (k a)) →
  answered rq (attempt rq writeError service k).
Proof.
  intros He Hk. apply answered_bind; [apply try_total|]. intros [a|e]; [apply Hk|].
  apply answered_ret, He.
Qed.

Lemma answered_reply {A} rq writeError write (service : prog (World X) A) :
  maps_errors writeError → writes write → answered rq (reply rq writeError write service).
Proof. intros He Hw. apply answered_attempt; [done|]. intros a. apply answered_ret, Hw. Qed.

Lemma answered_decode {A} type d (zero : A) rq k :
  (∀ a, answered rq (k a)) → answered rq (decode_body type d zero rq k).
Proof.
  intros Hk. unfold decode_body. repeat case_match; try apply Hk; by apply answered_problem.
Qed.

Lemma answered_authenticated k rq : (∀ userID, answered rq (k userID)) → answered rq (authenticated k rq).
Proof.
  intros Hk. unfold authenticated. destruct (UserIDFromContext _) as [u []]; [apply Hk|].
  by apply answered_problem.
Qed.

Lemma Idempotency_answers next : answers next → answers (Idempotency next).
Proof.
  intros Hn rq. unfold Idempotency. case_bool_decide; [apply Hn|].
  destruct (UserIDFromContext _) as [u []]; [|by apply answered_problem].
  apply answered_bind; [apply try_total|]. intros [[[status body]|]|e]; [by apply answered_ret| |].
  - intros w. destruct (Hn rq w) as (resp & w1 & Hx & Hwf). rewrite exec_bind, Hx.
    rewrite exec_bind. case_bool_decide; [|by exists resp, w1].
    unfold void. rewrite exec_bind, exec_try.
    destruct (exec (Store_Save _ _ _ _ _) w1) as [r w2]. by exists resp, w2.
  - by apply answered_problem.
Qed.

Lemma log_loop_total poll events w : ∃ r w', exec (log_loop (X:=X) poll events) w = (Ok r, w').
Proof.
  revert w. induction events as [|[|payload| |] events IH]; intros w; simpl; eauto.
  - destruct (read_message payload) as [m|]; [|done]. destruct (lm_Done m); [simpl; eauto|].
    rewrite exec_bind. destruct (IH w) as (r & w1 & ->). simpl. eauto.
  - rewrite exec_bind, exec_try. destruct (exec poll w) as [[o|e] w1]; [|apply IH].
    destruct (finished o); [simpl; eauto|apply IH].
Qed.

Lemma StreamOperationHandler_answers `{!MembershipChecker X, !PermissionChecker X} flushes events :
  answers (λ rq, StreamOperationHandler flushes (events rq) rq).
Proof.
  intros rq. apply answered_authenticated. intros u.
  apply answered_attempt; [auto with http|]. intros o.
  destruct flushes; simpl; [|by apply answered_problem].
  destruct (finished o); [by apply answered_ret|].
  apply answered_bind; [apply log_loop_total|]. intros r. by apply answered_ret.
Qed.

Lemma ListAuditLogHandler_answers `{!TimeText, !PermissionChecker X} : answers ListAuditLogHandler.
Proof.
  intros rq. apply answered_authenticated. intros u.
  destruct (page_size rq); [|by apply answered_problem].
  apply answered_reply; [auto with http|apply write_page_writes].
Qed.

Lemma DuplicateMachineHandler_answers `{!MembershipChecker X, !PermissionChecker X} :
  answers DuplicateMachineHandler.
Proof.
  intros rq. apply answered_authenticated. intros u.
  assert (∀ p : prog (World X) Machine, answered rq
    (reply rq (writeFleetError "machine not found") (write_json StatusCreated toMachineResponse) p)) as Hd.
  { intros p. apply answered_reply; [auto with http|by apply write_json_writes]. }
  unfold DuplicateMachineHandler. cbv zeta.
  destruct (json_decode _); first [apply Hd|apply answered_decode; intros; apply Hd].
Qed.

(** *** Middlewares *)
Context (parse_jwt : string → string → Z → option string).
Context (resolveAPIKey : option (string → prog (World X) (string * list string))).
Context (secret : string).

Lemma RequireAuth_answers next :
  answers next → answers (RequireAuth parse_jwt resolveAPIKey secret next).
Proof.
  intros Hn rq. apply answered_bind; [apply try_total|].
  intros [[[subject scopes]|]|e]; [apply (Hn (with_ctx _ rq))|by apply answered_problem..].
Qed.

Lemma bootstrap_answers count next : answers next → answers (bootstrap count next).
Proof.
  intros Hn rq. apply answered_bind; [apply try_total|].
  intros [n|e]; [|by apply answered_problem]. case_bool_decide; [by apply answered_problem|apply Hn].
Qed.

Lemma RequireAuthOrFirstUserBootstrap_answers count next : answers next →
  answers (RequireAuthOrFirstUserBootstrap parse_jwt resolveAPIKey secret count next).
Proof.
  intros Hn rq. unfold RequireAuthOrFirstUserBootstrap.
  destruct (cut_prefix _ _); [|by apply bootstrap_answers].
  case_bool_decide; [by apply bootstrap_answers|]. apply answered_bind; [apply try_total|].
  intros [[[subject scopes]|]|e]; [apply (Hn (with_ctx _ rq))|by apply answered_problem..].
Qed.

(** A limiter's critical section has no error to return. *)
Definition never_fails (allow : string → prog (World X) (bool * Z)) : Prop :=
  ∀ key w, ∃ r w', exec (allow key) w = (Ok r, w').

Lemma RateLimit_answers allow next : never_fails allow → answers next → answers (RateLimit allow next).
Proof.
  intros Ha Hn rq. apply answered_bind; [apply Ha|]. intros [[] retryAfter]; [apply Hn|].
  by apply answered_ret.
Qed.

Lemma ServeMux_answers (table : list (string * HandlerFunc)) :
  Forall (λ r, answers r.2) table → answers (ServeMux table).
Proof.
  intros Ht rq. unfold ServeMux. destruct (find_handler _ _ _) as [c|] eqn:Hc.
  - apply find_handler_route in Hc as (r & Hr & -> & _ & _). rewrite Forall_forall in Ht.
    apply (Ht r Hr (with_path_values _ rq)).
  - case_bool_decide; by apply answered_ret.
Qed.
End answers.

#[export] Hint Resolve @write_list_writes @write_page_writes @StreamOperationHandler_answers
  @ListAuditLogHandler_answers @DuplicateMachineHandler_answers : http.

(** A handler of the common shape: who asks, what the body says, what the
    service answers. *)
Ltac handler :=
  intros rq;
  repeat first
    [ apply answered_authenticated; intros ?
    | apply answered_decode; intros ?
    | apply answered_reply ];
  first [ by auto with http | by apply write_json_writes | by apply write_status_writes ].

Ltac each tac := repeat (apply Forall_cons; split; [tac|]); apply Forall_nil; exact I.

(** ** Refusals *)
Section refusals.
Context {X : Type} `{!JSON}.
Implicit Types w : World X.

(** A service that fails, and changes nothing. *)
Definition denied {A} (p : prog (World X) A) w : Prop :=
  ∃ e w', exec p w = (Err e, w') ∧ db w' = db w.

Lemma denied_bind {A B} (p : prog (World X) A) (f : A → prog (World X) B) w :
  denied p w → denied (p ≫= f) w.
Proof. intros (e & w' & Hx & Hd). exists e, w'. by rewrite exec_bind, Hx. Qed.

(** A check before the gate fails or does not matter. *)
Lemma denied_ensure {B} b e (f : () → prog (World X) B) w :
  denied (f ()) w → denied (ensure b e ≫= f) w.
Proof. destruct b; [done|]. intros _. by exists e, w. Qed.

Lemma denied_lift {A B} (r : res A) (f : A → prog (World X) B) w :
  (∀ a, denied (f a) w) → denied (lift r ≫= f) w.
Proof. intros Hf. destruct r as [a|e]; [apply Hf|by exists e, w]. Qed.

(** Nor do an id and the time. *)
Lemma denied_uuid {B} (f : string → prog (World X) B) w :
  (∀ id w1, db w1 = db w → denied (f id) w1) → denied (new_uuid ≫= f) w.
Proof.
  intros Hf. unfold denied, new_uuid. rewrite exec_bind, exec_call.
  destruct (Hf (uuid_at w (uuid_next w)) (next_uuid w) eq_refl) as (e & w' & Hx & Hd).
  by exists e, w'.
Qed.
Lemma denied_time {B} (f : Z → prog (World X) B) w :
  (∀ t, denied (f t) w) → denied (time_now ≫= f) w.
Proof. intros Hf. unfold denied, time_now. rewrite exec_bind, exec_call. apply Hf. Qed.

Lemma denied_member {B} e o u (k : () → prog (World X) B) w :
  ¬ is_member (db w) o u →
  denied (isMember ← IsMember o u; ensure isMember e ≫= k) w.
Proof.
  intros Hno. unfold denied. rewrite exec_bind.
  destruct (exec (IsMember o u) w) as [r w1] eqn:Hx. apply IsMember_exec in Hx as [[Hd _] Hm].
  destruct r as [[]|e']; [by destruct Hno; apply Hm|by exists e, w1|by exists e', w1].
Qed.

Lemma denied_gate e o u w :
  ¬ is_member (db w) o u → denied (member_gate e o u) w.
Proof.
  intros Hno. apply (denied_member e o u Ret) in Hno as (e' & w' & Hx & Hd). exists e', w'.
  split; [|done]. rewrite <- Hx. unfold member_gate. rewrite !exec_bind.
  destruct (exec (IsMember o u) w) as [[[]|] ?]; reflexivity.
Qed.

(** A response that says so, and changes nothing. *)
Definition rejected (p : prog (World X) Response) w : Prop :=
  ∃ resp w', exec p w = (Ok resp, w') ∧ (400 ≤ rs_Status resp)%Z ∧ db w' = db w.

Lemma rejected_attempt {A} rq writeError (service : prog (World X) A) k w :
  maps_errors writeError → denied service w → rejected (attempt rq writeError service k) w.
Proof.
  intros Hw (e & w' & Hx & Hd). unfold rejected, attempt. rewrite exec_bind, exec_try, Hx.
  exists (writeError (rq_XRequestID rq) e), w'. split; [done|]. split; [apply Hw|done].
Qed.

Lemma rejected_reply {A} rq writeError write (service : prog (World X) A) w :
  maps_errors writeError → denied service w → rejected (reply rq writeError write service) w.
Proof. apply rejected_attempt. Qed.

Lemma rejected_decode {A} type d (zero : A) rq k w :
  (∀ a, rejected (k a) w) → rejected (decode_body type d zero rq k) w.
Proof.
  intros Hk. unfold decode_body. repeat case_match; try apply Hk;
    (do 2 eexists; split; [reflexivity|done]).
Qed.

Lemma rejected_authenticated k rq u w :
  ctx_userID (rq_ctx rq) = Some u → rejected (k u) w → rejected (authenticated k rq) w.
Proof. intros Hu Hk. unfold authenticated, UserIDFromContext. by rewrite Hu. Qed.

(** [h] lets nobody but members of the path's organization through. *)
Definition members_only (h : HandlerFunc (X:=X)) : Prop := ∀ rq u w,
  ctx_userID (rq_ctx rq) = Some u → ¬ is_member (db w) (path rq "id") u →
  rq_IdempotencyKey rq = "" → rejected (h rq) w.
End refusals.

(** Down a service to its gate. *)
Ltac head_of p := match p with ?f _ => head_of f | _ => p end.
Ltac stranger := by (repeat match goal with H : db _ = db _ |- _ => rewrite H; clear H end).
Ltac deny :=
  first
    [ apply denied_member; stranger | apply denied_gate; stranger
    | apply denied_ensure; deny
    | apply denied_lift; intros ?; deny
    | apply denied_uuid; intros ? ? ?; deny
    | apply denied_time; intros ?; deny
    | apply denied_bind; deny
    | match goal with |- denied ?p _ =>
        let h := head_of p in progress unfold h; cbn beta iota zeta; deny end ].

Section table.
Context {X : Type}.
Context `{!JSON, !TimeText, !Crypto, !Aead, !VaultAPI X, !SSHRunner X}.
Context (parse_jwt : string → string → Z → option string).
Context (sign_jwt : string → string → Z → Z → res string).
Context (error_text : error → string).
Context (yaml_unmarshal : string → string + option (gmap string any)).
Context (quote : string → string).
Context (map_order : gmap string any → list (string * any)).
Context (string_map_order : gmap string string → list (string * string)).
Context `{!WorkerCanceler X}.
Context (generalAllow loginAllow : string → prog (World X) (bool * Z)).
Context (ping : prog (World X) ()).
Context (flushes : bool) (events : Request → list stream_event).
Context (secret masterKey : string).
Implicit Types w : World X.

Notation organization_routes := (organization_routes (X:=X) error_text yaml_unmarshal quote
  map_order string_map_order flushes events masterKey).
Notation public_routes := (public_routes parse_jwt sign_jwt error_text loginAllow ping secret).
Notation routes := (routes parse_jwt sign_jwt error_text yaml_unmarshal quote map_order
  string_map_order loginAllow ping flushes events secret masterKey).
Notation mux := (mux parse_jwt sign_jwt error_text yaml_unmarshal quote map_order
  string_map_order loginAllow ping flushes events secret masterKey).
Notation server_Handler := (server_Handler parse_jwt sign_jwt error_text yaml_unmarshal quote
  map_order string_map_order generalAllow loginAllow ping flushes events secret masterKey).

(** *** Every handler answers *)

Ltac route := simpl snd; first [solve [auto with http] | apply Idempotency_answers; handler | handler].

Lemma organization_routes_answer : Forall (λ r, answers r.2) organization_routes.
Proof. each route. Qed.

Lemma account_routes_answer : Forall (λ r, answers r.2) (account_routes (X:=X)).
Proof. each route. Qed.

Lemma healthHandler_answers : answers (healthHandler error_text ping).
Proof.
  intros rq. apply answered_bind; [apply try_total|].
  intros []; apply answered_ret; split; (done || by (left + right)).
Qed.

Lemma LoginHandler_answers : never_fails loginAllow → answers (LoginHandler sign_jwt secret loginAllow).
Proof.
  intros Ha rq. apply answered_decode. intros req. apply answered_bind; [apply Ha|].
  intros [[] retryAfter]; [|by apply answered_ret]. cbn [negb].
  do 2 (apply answered_attempt; [auto with http|intros ?]).
  apply answered_reply; [auto with http|by apply write_json_writes].
Qed.

Lemma RefreshTokenHandler_answers : answers (X:=X) (RefreshTokenHandler sign_jwt secret).
Proof.
  intros rq. apply answered_decode. intros token. apply answered_attempt; [auto with http|].
  intros [userID newToken]. apply answered_reply; [auto with http|by apply write_json_writes].
Qed.

Lemma public_routes_answer : never_fails loginAllow → Forall (λ r, answers r.2) public_routes.
Proof.
  intros Ha. unfold Routes.public_routes.
  each ltac:(simpl snd; first [apply healthHandler_answers | by apply LoginHandler_answers
    | apply RefreshTokenHandler_answers | apply RequireAuthOrFirstUserBootstrap_answers; handler
    | handler]).
Qed.


(** ** Without a credential *)

(** The resolver writes only when it accepts the key. *)
Lemma calm_GetByHash hash : steps_in calm (APIKeyRepository_GetByHash (X:=X) hash).
Proof. unfold APIKeyRepository_GetByHash. calm_steps. Qed.

Lemma apiKeyResolver_refuses key w e w1 :
  exec (apiKeyResolver key) w = (Err e, w1) → db w1 = db w.
Proof.
  unfold apiKeyResolver. rewrite exec_bind.
  destruct (exec (APIKeyRepository_GetByHash _) w) as [[k|e'] w2] eqn:Hg;
    apply calm_exec in Hg as [Hd _]; try apply calm_GetByHash; [|by intros [= _ <-]].
  unfold time_now. rewrite exec_bind, exec_call, exec_bind, exec_ensure.
  destruct (key_valid _ _); [|by intros [= _ <-]].
  rewrite exec_bind, exec_try. by destruct (exec _ w2) as [r w3].
Qed.

Lemma authenticate_refuses rq w r w1 :
  exec (authenticate parse_jwt (Some apiKeyResolver) secret rq) w = (r, w1) →
  (∀ p, r ≠ Ok (Some p)) → db w1 = db w.
Proof.
  unfold authenticate. destruct (cut_prefix _ _) as [token|]; [|by intros [= _ <-]].
  case_bool_decide; [by intros [= _ <-]|]. case_bool_decide.
  - unfold time_now. rewrite exec_bind, exec_call, exec_bind, exec_lift.
    by destruct (ParseAccessToken _ _ _ _); intros [= _ <-].
  - rewrite exec_bind. destruct (exec (apiKeyResolver token) w) as [[p|e] w2] eqn:Hr.
    + intros [= <- <-] Hno. by destruct (Hno p).
    + intros [= _ <-] _. by apply apiKeyResolver_refuses in Hr.
Qed.

(** C9: A request to any route but the six public ones that presents no valid
    access token and no valid API key is answered 401 (or 404 or 405, where
    there is no such route), and nothing in the database changes. *)
Theorem no_credential_no_effect rq w :
  find_handler (rq_Method rq) (rq_Path rq) public_routes = None →
  (∀ subject scopes w1, ¬ presents parse_jwt (Some apiKeyResolver) secret rq subject scopes w w1) →
  ∃ resp w', exec (mux rq) w = (Ok resp, w') ∧ db w' = db w ∧
    rs_Status resp ∈ [StatusUnauthorized; StatusNotFound; StatusMethodNotAllowed].
Proof.
  intros Hpublic Hno. unfold Routes.mux, ServeMux, Routes.routes.
  rewrite (find_handler_app _ _ _ _ Hpublic).
  destruct (find_handler _ _ (map _ _)) as [c|] eqn:Hc.
  2:{ do 2 eexists. split; [reflexivity|]. split; [reflexivity|].
      rewrite !elem_of_cons. case_bool_decide; simpl; auto. }
  apply find_handler_route in Hc as (r & Hr & -> & _ & _).
  apply list_elem_of_fmap in Hr as (r0 & -> & _).
  set (rq' := with_path_values _ rq). unfold protected, RequireAuth. simpl snd.
  rewrite exec_bind, exec_try.
  destruct (authenticate_cases parse_jwt (Some apiKeyResolver) secret rq' w)
    as [(subject & scopes & w1 & Hp & _)|[_ (r & w1 & Hx & Hr)]].
  { by destruct (Hno subject scopes w1). }
  rewrite Hx. apply authenticate_refuses in Hx; [|done].
  destruct r as [[p|]|e]; [by destruct (Hr p)|do 2 eexists; (split; [reflexivity|]);
    split; [done|]; rewrite !elem_of_cons; simpl; auto..].
Qed.

(** ** Outside an organization *)

Ltac members := intros rq u w Hu Hno Hkey; simpl snd;
  try (unfold Idempotency; rewrite bool_decide_true by done);
  apply (rejected_authenticated _ _ u); [done|];
  repeat (apply rejected_decode; intros ?);
  first [apply rejected_reply|apply rejected_attempt];
  [by auto with http|deny].

(** The services that ask for a permission and not for membership. *)
Definition unchecked : list string := [
  "POST /api/v1/orgs/{id}/projects/{projectID}/workspaces/{workspaceID}/runs";
  "POST /api/v1/orgs/{id}/projects/{projectID}/workspaces/{workspaceID}/runs/{runID}/cancel";
  "GET /api/v1/orgs/{id}/audit-log"].

Lemma DuplicateMachineHandler_members : members_only (X:=X) DuplicateMachineHandler.
Proof.
  intros rq u w Hu Hno Hkey. apply (rejected_authenticated _ _ u); [done|]. cbv beta zeta.
  assert (∀ name, rejected (reply rq (writeFleetError "machine not found")
    (write_json StatusCreated toMachineResponse) (DuplicateMachine (rq_ctx rq)
      {| dm_OrganizationID := path rq "id"; dm_RequestingUserID := u;
         dm_MachineID := path rq "machineID"; dm_Name := name |})) w) as Hr.
  { intros name. apply rejected_reply; [auto with http|]. deny. }
  destruct (json_decode _); first [apply Hr|apply rejected_decode; intros; apply Hr].
Qed.

Lemma organization_routes_members :
  Forall (λ r, r.1 ∈ unchecked ∨ members_only r.2) organization_routes.
Proof.
  each ltac:(first [left; by apply (bool_decide_unpack _)
    |right; first [apply DuplicateMachineHandler_members|members]]).
Qed.

(** The patterns of an organization's routes: [/api/v1/orgs/{id}...]. *)
Definition under_org (p : list segment) : bool :=
  match p with
  | Literal a :: Literal b :: Literal c :: Wildcard i :: _ =>
      (a =ₛ "api") && (b =ₛ "v1") && (c =ₛ "orgs") && (i =ₛ "id")
  | _ => false
  end.

Lemma organization_patterns :
  Forall (λ r, under_org (parse_pattern r.1).2 = true) organization_routes.
Proof. each ltac:(cbn [fst]; by vm_compute). Qed.

Lemma under_org_id p o rest values :
  under_org p = true → match_path p ("api" :: "v1" :: "orgs" :: o :: rest) = Some values →
  values !! "id" = Some o.
Proof.
  unfold under_org. intros Hp Hm. repeat (case_match; try done). bools. subst. simpl in Hm.
  case_bool_decide; [done|]. apply fmap_Some in Hm as (v & _ & ->). by rewrite lookup_insert_eq.
Qed.

Lemma other_patterns o rest :
  Forall (λ r, match_path (parse_pattern r.1).2 ("api" :: "v1" :: "orgs" :: o :: rest) = None)
    (public_routes ++ account_routes (X:=X)).
Proof. each ltac:(cbn [fst]; by vm_compute). Qed.


(** ** The table has no conflicts *)

Lemma routes_compatible : all_pairs (λ r r', compatible r.1 r'.1) routes = true.
Proof. by vm_compute. Qed.

End table.
