(* ===== verification/PurgeSpec.v ===== *)
(** * Erasing organizations and projects

    The two purges are long transactions whose statements must come in an
    order that foreign keys accept; here each is refined to one operation on
    the whole database, [erase] and [erase_project]. *)
From S2P Require Import Prelude Prog RunDomain WorkspaceDomain RbacDomain VariableDomain.
From S2P Require Import TenancyDomain IdentityDomain FleetDomain Store Outbox TenancyRepo.
From S2P Require Import Principal Ports TenancyApp Registry Wiring Scenario.

(** ** Erasing an organization *)

(** The primary keys of the rows with property [P]. *)
Definition ids_of {T} (key : T → string) (P : T → bool) (m : gmap string T) : list string :=
  key <$> filter P (map_to_list m).*2.

(** The specification of [Purge]: in every table the organization's rows are
    gone, and so are the attachments and variables, whoever owns them, of its
    compose files, networks, volumes and projects; nothing else changes. *)
Definition erase (o : string) (d : DB) : DB :=
  let cfs := ids_of cf_ID (λ c, cf_OrganizationID c =ₛ o) (compose_files d) in
  let nets := ids_of net_ID (λ n, net_OrganizationID n =ₛ o) (networks d) in
  let vols := ids_of vol_ID (λ v, vol_OrganizationID v =ₛ o) (volumes d) in
  let projs := ids_of proj_ID (λ p, proj_OrganizationID p =ₛ o) (projects d) in
  mkDB
    (drop_rows (λ r, org_ID r =ₛ o) (organizations d))
    (drop_rows (λ r, om_OrganizationID r =ₛ o) (organization_memberships d))
    (drop_rows (λ r, sa_OrganizationID r =ₛ o) (service_accounts d))
    (drop_rows (λ r, proj_OrganizationID r =ₛ o) (projects d))
    (drop_rows (λ r, env_OrganizationID r =ₛ o) (environments d))
    (drop_rows (λ r, ws_OrganizationID r =ₛ o) (workspaces d))
    (drop_rows (λ r, run_OrganizationID r =ₛ o) (runs d))
    (drop_rows (λ r, var_OrganizationID r =ₛ o) (variables d))
    (drop_rows (λ r, bool_decide (role_OrganizationID r = Some o)) (roles d))
    (drop_rows (λ r, rb_OrganizationID r =ₛ o) (role_bindings d))
    (drop_rows (λ r, team_OrganizationID r =ₛ o) (teams d))
    (drop_rows (λ r, tm_OrganizationID r =ₛ o) (team_memberships d))
    (drop_rows (λ r, oe_OrganizationID r =ₛ o) (outbox_events d))
    (drop_rows (λ r, entry_OrganizationID r =ₛ o) (audit_entries d))
    (drop_rows (λ r, ik_OrganizationID r =ₛ o) (idempotency_keys d))
    (mkIdentityDB (users d) (refresh_tokens d) (password_reset_tokens d)
      (drop_rows (λ r, akr_OrganizationID r =ₛ o) (api_keys d)))
    (mkFleetDB
      (drop_rows (λ r, sm_OrganizationID r =ₛ o) (secret_mounts d))
      (drop_rows (λ r, mach_OrganizationID r =ₛ o) (machines d))
      (drop_rows (λ r, net_OrganizationID r =ₛ o) (networks d))
      (drop_rows (λ r, vol_OrganizationID r =ₛ o) (volumes d))
      (drop_rows (λ r, cf_OrganizationID r =ₛ o) (compose_files d))
      (drop_rows (λ a, (na_OrganizationID a =ₛ o) || ((na_ComposeFileID a ∈ₛ cfs) ||
                        (na_NetworkID a ∈ₛ nets))) (compose_file_networks d))
      (drop_rows (λ a, (va_OrganizationID a =ₛ o) || ((va_ComposeFileID a ∈ₛ cfs) ||
                        (va_VolumeID a ∈ₛ vols))) (compose_file_volumes d))
      (drop_rows (λ a, (pa_OrganizationID a =ₛ o) || ((pa_ComposeFileID a ∈ₛ cfs) ||
                        (pa_ProjectID a ∈ₛ projs))) (compose_file_projects d))
      (drop_rows (λ v, (fv_OrganizationID v =ₛ o) || (fv_ComposeFileID v ∈ₛ cfs))
        (fleet_variables d))
      (drop_rows (λ r, op_OrganizationID r =ₛ o) (operations d))).

(** What foreign keys that RESTRICT deletion point from a row to a row of
    [o], they point from [o]'s own rows; and a compose file that [o] attached
    to a project is [o]'s, or the project is.  The services keep it so: they
    look the parent up in the organization before they write the child. *)
Record tenant_closed (o : string) (d : DB) : Prop := {
  closed_runs k r k' ws : runs d !! k = Some r → workspaces d !! k' = Some ws →
    run_WorkspaceID r = ws_ID ws → ws_OrganizationID ws = o → run_OrganizationID r = o;
  closed_workspaces k ws k' p : workspaces d !! k = Some ws → projects d !! k' = Some p →
    ws_ProjectID ws = proj_ID p → proj_OrganizationID p = o → ws_OrganizationID ws = o;
  closed_environments k e k' p : environments d !! k = Some e → projects d !! k' = Some p →
    env_ProjectID e = proj_ID p → proj_OrganizationID p = o → env_OrganizationID e = o;
  closed_bindings k b k' r : role_bindings d !! k = Some b → roles d !! k' = Some r →
    rb_RoleID b = role_ID r → role_OrganizationID r = Some o → rb_OrganizationID b = o;
  closed_team_memberships k m k' t : team_memberships d !! k = Some m → teams d !! k' = Some t →
    tm_TeamID m = team_ID t → team_OrganizationID t = o → tm_OrganizationID m = o;
  closed_machines k p k' m : operations d !! k = Some p → machines d !! k' = Some m →
    op_MachineID p = mach_ID m → mach_OrganizationID m = o → op_OrganizationID p = o;
  closed_compose_files k p k' c : operations d !! k = Some p → compose_files d !! k' = Some c →
    op_ComposeFileID p = cf_ID c → cf_OrganizationID c = o → op_OrganizationID p = o;
  closed_attachments k a : compose_file_projects d !! k = Some a → pa_OrganizationID a = o →
    pa_ComposeFileID a ∈ ids_of cf_ID (λ c, cf_OrganizationID c =ₛ o) (compose_files d) ∨
    pa_ProjectID a ∈ ids_of proj_ID (λ p, proj_OrganizationID p =ₛ o) (projects d);
}.

(** ** Deleting rows *)

Section drop.
Context {A : Type}.
Implicit Types (P Q : A → bool) (m : gmap string A).

Lemma lookup_drop_rows P m k r :
  drop_rows P m !! k = Some r ↔ m !! k = Some r ∧ P r = false.
Proof. unfold drop_rows. rewrite map_lookup_filter_Some. done. Qed.

Lemma drop_rows_ext P Q m :
  (∀ k r, m !! k = Some r → P r = Q r) → drop_rows P m = drop_rows Q m.
Proof.
  intros H. unfold drop_rows. apply map_filter_ext. intros k r Hk. simpl. by rewrite (H k r Hk).
Qed.

Lemma drop_rows_drop P Q m : drop_rows P (drop_rows Q m) = drop_rows (λ r, Q r || P r) m.
Proof.
  apply map_eq. intros k. apply option_eq. intros r.
  rewrite !lookup_drop_rows, orb_false_iff. tauto.
Qed.

Lemma drop_rows_none m : drop_rows (λ _, false) m = m.
Proof. apply map_eq. intros k. apply option_eq. intros r. rewrite lookup_drop_rows. naive_solver. Qed.

Lemma child_false m P : child m P = false ↔ ∀ k r, m !! k = Some r → P r = false.
Proof.
  unfold child. split.
  - intros H k r Hk. destruct (P r) eqn:HP; [|done].
    rewrite <- H. symmetry. apply existsb_exists. exists r. split; [|done].
    apply list_elem_of_In, list_elem_of_fmap. exists (k, r).
    split; [done|]. by apply elem_of_map_to_list.
  - intros H. apply not_true_iff_false. rewrite existsb_exists. intros (r & Hr & HP).
    apply list_elem_of_In, list_elem_of_fmap in Hr as ([k x] & -> & Hk%elem_of_map_to_list).
    simpl in HP. by rewrite (H k x Hk) in HP.
Qed.

(** No row of what was dropped is left. *)
Lemma child_dropped P Q m :
  (∀ r, Q r = true → P r = true) → child (drop_rows P m) Q = false.
Proof.
  intros H. apply child_false. intros k r [_ HP]%lookup_drop_rows.
  destruct (Q r) eqn:HQ; [|done]. by rewrite H in HP.
Qed.

Lemma elem_of_ids_of key P m id :
  id ∈ ids_of key P m ↔ ∃ k r, m !! k = Some r ∧ P r = true ∧ key r = id.
Proof.
  unfold ids_of. rewrite list_elem_of_fmap. split.
  - intros (r & -> & [HP Hr]%list_elem_of_filter).
    apply list_elem_of_fmap in Hr as ([k x] & -> & Hk%elem_of_map_to_list). apply Is_true_true in HP. eauto 6.
  - intros (k & r & Hk & HP & <-). exists r. split; [done|]. apply list_elem_of_filter.
    rewrite Is_true_true. split; [done|]. apply list_elem_of_fmap. exists (k, r).
    split; [done|]. by apply elem_of_map_to_list.
Qed.
End drop.

Section deletes.
Context {X : Type}.
Implicit Types w : World X.

(** What [DELETE ... WHERE P] leaves when every row of [P] is visible. *)
Definition wiped `{Table T} (P : T → bool) (d : DB) : DB :=
  cascade (R:=T) (ids_of pk P (tget d)) (tset (drop_rows P (tget d)) d).

(** The policy adds its own condition. *)
Lemma delete_visible `{Table T} (P : T → bool) o w :
  (∀ k r, tget (db w) !! k = Some r → rls (Some o) r = true → P r = true →
     blocked (wiped (λ r, rls (Some o) r && P r) (db w)) r = false) →
  ∃ n, delete_where P (AppRole (Some o)) w =
    (Ok n, set_db (wiped (λ r, rls (Some o) r && P r) (db w)) w).
Proof.
  intros Hb. exists (length (doomed P (AppRole (Some o)) (db w))).
  unfold delete_where.
  change (delete_rows P (AppRole (Some o)) (db w)) with (wiped (λ r, rls (Some o) r && P r) (db w)).
  destruct (existsb _ _) eqn:He; [|done]. exfalso.
  apply existsb_exists in He as (r & Hr & Hbl). apply list_elem_of_In in Hr.
  unfold doomed in Hr. apply list_elem_of_filter in Hr as [HP Hr].
  apply Is_true_true, andb_true_iff in HP as [Hv HP]. apply elem_of_rows in Hr as [k Hk].
  by rewrite (Hb k r Hk Hv HP) in Hbl.
Qed.

Lemma wiped_ext `{Table T} (P Q : T → bool) d : (∀ r, P r = Q r) → wiped P d = wiped Q d.
Proof.
  intros H'. unfold wiped, ids_of. f_equal.
  - f_equal. apply list_filter_iff. intros r. by rewrite H'.
  - f_equal. apply drop_rows_ext. auto.
Qed.

Lemma delete_step `{Table T} (P : T → bool) o w :
  (∀ r : T, P r = true → rls (Some o) r = true) →
  (∀ k r, tget (db w) !! k = Some r → P r = true → blocked (wiped P (db w)) r = false) →
  ∃ n, delete_where P (AppRole (Some o)) w = (Ok n, set_db (wiped P (db w)) w).
Proof.
  intros Hv Hb.
  assert (wiped (λ r, rls (Some o) r && P r) (db w) = wiped P (db w)) as Heq.
  { apply wiped_ext. intros r. destruct (P r) eqn:HP; [by rewrite Hv|by rewrite andb_false_r]. }
  rewrite <- Heq in Hb |- *. apply delete_visible. intros k r Hk _. eauto.
Qed.

Lemma purge_step `{Table T} (org : T → string) o w :
  (∀ r, org r = o → rls (Some o) r = true) →
  (∀ k r, tget (db w) !! k = Some r → org r = o →
     blocked (wiped (λ r, org r =ₛ o) (db w)) r = false) →
  purge_org org o (AppRole (Some o)) w = (Ok (), set_db (wiped (λ r, org r =ₛ o) (db w)) w).
Proof.
  intros Hv Hb. unfold purge_org. rewrite tx_bind_eq.
  edestruct (delete_step (λ r, org r =ₛ o) o w) as [n ->]; [| |done].
  - intros r Hr%bool_decide_eq_true. auto.
  - intros k r Hk Hr%bool_decide_eq_true. eauto.
Qed.

Lemma tx_then {A B} (t : Tx X A) (f : A → Tx X B) s w a w1 r :
  t s w = (Ok a, w1) → f a s w1 = r → (t ≫= f) s w = r.
Proof. intros H1 H2. by rewrite tx_bind_eq, H1. Qed.
End deletes.

(** The statements of [OrganizationRepository_Purge] erase the organization. *)
Section purge.
Context {X : Type}.
Implicit Types w : World X.

(** One statement of the transaction, its result put in normal form; [tac]
    shows that no foreign key keeps a row. *)
Ltac purge_one tac :=
  eapply tx_then;
  [apply purge_step;
    [intros ? ?; first [done|apply bool_decide_eq_true; congruence]
    |intros ? ? ? ?; cbn in *; solve [tac]]
  |unfold wiped, drop_attachments, set_db; cbn -[drop_rows ids_of]; rewrite ?drop_rows_none].

(** The children left belong to other organizations. *)
Ltac no_children :=
  rewrite ?orb_false_iff; split_and?; apply child_false; intros ? ? [? ?]%lookup_drop_rows;
  bools; apply bool_decide_eq_false; intros ?; naive_solver.

Lemma purge_statements o w :
  tenant_closed o (db w) →
  purge_organization o (AppRole (Some o)) w = (Ok (), set_db (erase o (db w)) w).
Proof.
  intros [C1 C2 C3 C4 C5 C6 C7 C8]. unfold purge_organization.
  destruct w as [[orgs oms sas prs envs wss rns vrs rls_ rbs tms tmms evs aes iks
    [us rts prts aks] [sms ms ns vs cfs cfns cfvs cfps fvs ops]] clk ua un fs ax].
  cbn in C1, C2, C3, C4, C5, C6, C7, C8.
  do 20 purge_one ltac:(first [done|no_children]).
  edestruct (delete_step (X:=X) (λ r, bool_decide (role_OrganizationID r = Some o)) o)
    as [n Hn]; [| |eapply tx_then; [exact Hn|]; clear Hn n].
  { intros r Hr%bool_decide_eq_true. simpl. rewrite Hr. by apply bool_decide_eq_true. }
  { intros k r Hk Hr%bool_decide_eq_true. cbn in *. no_children. }
  unfold wiped, set_db; cbn -[drop_rows ids_of].
  do 3 purge_one ltac:(first [done|no_children]).
  rewrite !drop_rows_drop.
  rewrite (drop_rows_ext _ (λ a, (pa_OrganizationID a =ₛ o) ||
    ((pa_ComposeFileID a ∈ₛ ids_of cf_ID (λ c, cf_OrganizationID c =ₛ o) cfs) ||
     (pa_ProjectID a ∈ₛ ids_of proj_ID (λ p, proj_OrganizationID p =ₛ o) prs))) cfps); cycle 1.
  { intros k a Ha. destruct (decide (pa_OrganizationID a = o)) as [Ho|Ho];
      [|by rewrite (bool_decide_false _ Ho)].
    destruct (C8 k a Ha Ho) as [H|H]; rewrite !(bool_decide_true _ H), ?orb_true_r; done. }
  rewrite purge_step; [done|..].
  - intros r Hr. apply bool_decide_eq_true. congruence.
  - intros k r _ Hr. unfold wiped. cbn -[drop_rows ids_of child orb]. rewrite Hr.
    unfold org_has_rows; cbn -[drop_rows child orb].
    rewrite !orb_false_iff. split_and!; apply child_dropped; intros x Hx; rewrite ?Hx; done.
Qed.

(** C27: Purging is atomic: it erases the organization, whatever the rows of other
    organizations reference, or, when the connection is lost, does nothing. *)
Theorem Purge_erases o w r w' :
  tenant_closed o (db w) → exec (OrganizationRepository_Purge o) w = (r, w') →
  r = Ok () ∧ db w' = erase o (db w) ∨ r = Err (PgError "08006") ∧ db w' = db w.
Proof.
  intros Hc He. apply (exec_txn_sure _ _ _ () (erase o (db w))) in He as [? _]; [tauto|].
  intros w1 Hw. rewrite <- Hw in Hc |- *. by apply purge_statements.
Qed.
End purge.

(** ** Erasing a project *)

(** The specification of [ProjectRepository_Purge]: the project of the
    organization, its workspaces and environments, their runs, the variables
    and bindings scoped to them, and the project's attachments. *)
Definition erase_project (o p : string) (d : DB) : DB :=
  let mine org := tenant_is org (Some o) in
  let wss := ids_of ws_ID (λ w, mine (ws_OrganizationID w) && (ws_ProjectID w =ₛ p))
    (workspaces d) in
  let envs := ids_of env_ID (λ e, mine (env_OrganizationID e) && (env_ProjectID e =ₛ p))
    (environments d) in
  let projs := ids_of proj_ID (λ x, mine (proj_OrganizationID x) && (proj_in_org o x &&
    (proj_ID x =ₛ p))) (projects d) in
  mkDB (organizations d) (organization_memberships d) (service_accounts d)
    (drop_rows (λ x, mine (proj_OrganizationID x) && (proj_in_org o x && (proj_ID x =ₛ p)))
      (projects d))
    (drop_rows (λ e, mine (env_OrganizationID e) && (env_ProjectID e =ₛ p)) (environments d))
    (drop_rows (λ w, mine (ws_OrganizationID w) && (ws_ProjectID w =ₛ p)) (workspaces d))
    (drop_rows (λ r, mine (run_OrganizationID r) && (run_WorkspaceID r ∈ₛ wss)) (runs d))
    (drop_rows (λ v, mine (var_OrganizationID v) &&
       (scoped_to (var_ScopeType v) (var_ScopeID v) "project" [p] ||
        scoped_to (var_ScopeType v) (var_ScopeID v) "environment" envs ||
        scoped_to (var_ScopeType v) (var_ScopeID v) "workspace" wss)) (variables d))
    (roles d)
    (drop_rows (λ b, mine (rb_OrganizationID b) &&
       (scoped_to (rb_ScopeType b) (rb_ScopeID b) "project" [p] ||
        scoped_to (rb_ScopeType b) (rb_ScopeID b) "workspace" wss)) (role_bindings d))
    (teams d) (team_memberships d) (outbox_events d) (audit_entries d) (idempotency_keys d)
    (identity_db d)
    (mkFleetDB (secret_mounts d) (machines d) (networks d) (volumes d) (compose_files d)
      (compose_file_networks d) (compose_file_volumes d)
      (drop_rows (λ a, mine (pa_OrganizationID a) && (pa_ProjectID a =ₛ p) ||
                       (pa_ProjectID a ∈ₛ projs)) (compose_file_projects d))
      (fleet_variables d) (operations d)).

Lemma tenant_is_true x o : tenant_is x (Some o) = true ↔ x = o.
Proof. unfold tenant_is. rewrite bool_decide_eq_true. naive_solver. Qed.

(** The rows left all lack [Q], if those of the organization with [Q] were
    dropped and only the organization has some. *)
Lemma no_child_left {A} (org : A → string) (P Q : A → bool) o m :
  (∀ k x, m !! k = Some x → Q x = true → org x = o ∧ P x = true) →
  child (drop_rows (λ x, tenant_is (org x) (Some o) && P x) m) Q = false.
Proof.
  intros H. apply child_false. intros k x [Hx HP]%lookup_drop_rows.
  destruct (Q x) eqn:HQ; [|done]. destruct (H k x Hx HQ) as [Ho HP'].
  by rewrite (proj2 (tenant_is_true _ _) Ho), HP' in HP.
Qed.

Section project_purge.
Context {X : Type}.
Implicit Types w : World X.

Lemma delete_then `{Table T} {B} (P : T → bool) (f : nat → Tx X B) o w res :
  (∀ k r, tget (db w) !! k = Some r → rls (Some o) r = true → P r = true →
     blocked (wiped (λ r, rls (Some o) r && P r) (db w)) r = false) →
  (∀ n, f n (AppRole (Some o)) (set_db (wiped (λ r, rls (Some o) r && P r) (db w)) w) = res) →
  (delete_where P ≫= f) (AppRole (Some o)) w = res.
Proof. intros Hb Hf. destruct (delete_visible P o w Hb) as [n Hn]. by eapply tx_then. Qed.

Ltac erase_one tac :=
  apply delete_then;
  [intros ? ? ? ? ?; cbn -[drop_rows ids_of tenant_is scoped_to orb andb] in *; solve [tac]
  |intros ?; unfold wiped, drop_attachments, set_db;
   cbn -[drop_rows ids_of tenant_is scoped_to orb andb]; rewrite ?drop_rows_none].

Lemma project_statements o p w :
  tenant_closed o (db w) →
  purge_project o p (AppRole (Some o)) w = (Ok (), set_db (erase_project o p (db w)) w).
Proof.
  intros [C1 C2 C3 _ _ _ _ _].
  destruct w as [[orgs oms sas prs envs wss rns vrs rls_ rbs tms tmms evs aes iks
    [us rts prts aks] [sms ms ns vs cfs cfns cfvs cfps fvs ops]] clk ua un fs ax].
  cbn in C1, C2, C3. unfold purge_project.
  do 2 (eapply tx_then; [reflexivity|cbn beta zeta]).
  match goal with |- context [map ws_ID ?l] => change (map ws_ID l) with (ids_of ws_ID
    (λ x, tenant_is (ws_OrganizationID x) (Some o) && (ws_ProjectID x =ₛ p)) wss) end.
  match goal with |- context [map env_ID ?l] => change (map env_ID l) with (ids_of env_ID
    (λ e, tenant_is (env_OrganizationID e) (Some o) && (env_ProjectID e =ₛ p)) envs) end.
  do 4 erase_one ltac:(done).
  apply delete_then.
  { intros k r Hk Hv HP. cbn -[drop_rows ids_of tenant_is] in *.
    apply no_child_left. intros k' x Hx Hid%bool_decide_eq_true. split.
    - apply tenant_is_true in Hv. by eapply C1.
    - apply bool_decide_eq_true, elem_of_ids_of. exists k, r. by rewrite Hv, HP. }
  intros ?; unfold wiped, drop_attachments, set_db; cbn -[drop_rows ids_of tenant_is scoped_to orb andb].
  erase_one ltac:(done).
  apply delete_then.
  { intros k r Hk Hv HP. cbn -[drop_rows ids_of tenant_is child orb] in *. bools.
    apply tenant_is_true in Hv. apply orb_false_iff.
    split; apply no_child_left; intros k' x Hx Hid%bool_decide_eq_true;
      (split; [by eauto|apply bool_decide_eq_true; congruence]). }
  intros ?. unfold wiped, set_db; cbn -[drop_rows ids_of tenant_is scoped_to orb andb].
  unfold drop_attachments; cbn -[drop_rows ids_of tenant_is scoped_to orb andb].
  by rewrite !drop_rows_none, drop_rows_drop.
Qed.

(** Purging a project is atomic: it removes the project and what is scoped to
    it in this organization, or, when the connection is lost, nothing. *)
Theorem ProjectPurge_erases o p w r w' :
  tenant_closed o (db w) → exec (ProjectRepository_Purge o p) w = (r, w') →
  r = Ok () ∧ db w' = erase_project o p (db w) ∨ r = Err (PgError "08006") ∧ db w' = db w.
Proof.
  intros Hc He. apply (exec_txn_sure _ _ _ () (erase_project o p (db w))) in He as [? _]; [tauto|].
  intros w1 Hw. rewrite <- Hw in Hc |- *. by apply project_statements.
Qed.
End project_purge.

(** ** The purge reaper *)

Lemma closed_erase o o' d : tenant_closed o d → tenant_closed o (erase o' d).
Proof.
  intros [C1 C2 C3 C4 C5 C6 C7 C8]. split; cbn -[drop_rows ids_of].
  1-7: by intros ???? [? _]%lookup_drop_rows [? _]%lookup_drop_rows; eauto.
  intros k a [Ha Hleft]%lookup_drop_rows Ho. apply orb_false_iff in Hleft as [Ho' _]. bools.
  destruct (C8 k a Ha Ho) as [H|H]; [left|right]; apply elem_of_ids_of in H as (k' & x & Hx & Hown & Hid);
    apply elem_of_ids_of; exists k', x; (split; [|done]); apply lookup_drop_rows; (split; [done|]);
    apply bool_decide_eq_true in Hown; apply bool_decide_eq_false; congruence.
Qed.

(** The organizations an [OrganizationArchived] event from before [cutoff]
    names, as [FindOrganizationsPastPurgeWindow] finds them. *)
Definition past_window (cutoff : Z) (d : DB) : list string :=
  map (λ e, field "target_id" (oe_Payload e))
    (filter (λ e, (oe_EventType e =ₛ "OrganizationArchived") &&
                  bool_decide (oe_OccurredAt e < cutoff)%Z) (rows d)).

Section reaper.
Context {X : Type}.
Implicit Types w : World X.

Lemma purge_all os w r w' :
  (∀ o, tenant_closed o (db w)) → faults w = [] →
  exec (range os (λ o, void (try (OrganizationRepository_Purge (X:=X) o)))) w = (r, w') →
  r = Ok () ∧ db w' = foldl (λ d o, erase o d) (db w) os.
Proof.
  revert w. induction os as [|o os IH]; intros w Hc Hf; cbn [range foldl].
  { by intros [= <- <-]. }
  unfold void. rewrite !exec_bind, exec_try.
  destruct (exec (OrganizationRepository_Purge o) w) as [r1 w1] eqn:H1.
  unfold OrganizationRepository_Purge, org_txn in H1.
  apply (exec_txn_sure _ _ _ () (erase o (db w))) in H1 as (Hd & Hf1 & _).
  2:{ intros w2 Hw. rewrite <- Hw. apply purge_statements. by rewrite Hw. }
  destruct Hd as [[_ Hd]|(_ & _ & Hf')]; [|by destruct Hf'].
  cbn. rewrite <- Hd. intros H. apply IH in H; [done|..].
  - intros o'. rewrite Hd. by apply closed_erase.
  - by rewrite Hf1, Hf.
Qed.

(** One sweep erases exactly the organizations whose archival is older than
    the window, and nothing else. *)
Theorem PurgeReaper_erases purgeAfter w r w' :
  (∀ o, tenant_closed o (db w)) → faults w = [] →
  exec (PurgeReaper_reapOnce purgeAfter) w = (r, w') →
  r = Ok () ∧
  db w' = foldl (λ d o, erase o d) (db w) (past_window (clock w - purgeAfter) (db w)).
Proof.
  intros Hc Hf. unfold PurgeReaper_reapOnce, time_now, OrganizationRepository_FindOrganizationsPastPurgeWindow.
  rewrite exec_bind, exec_call, exec_bind. cbn [fst snd].
  match goal with |- context [exec (txn ?s ?t) w] => destruct (exec (txn s t) w) as [r1 w1] eqn:H1 end.
  apply (exec_txn_sure _ _ _ (past_window (clock w - purgeAfter) (db w)) (db w)) in H1
    as ([[-> Hd]|(_ & _ & [])] & Hf1 & _); [|done|].
  - intros H. apply purge_all in H; [by rewrite Hd in H|by rewrite Hd|by rewrite Hf1, Hf].
  - intros w2 Hw. unfold past_window. rewrite <- Hw. destruct w2. reflexivity.
Qed.
End reaper.

(** ** Witnesses *)

(** The demonstration database after its organization was archived. *)
Definition archival_event : OutboxEvent :=
  mkOutboxEvent "event-1" "org" "OrganizationArchived"
    (payload [("actor", "alice"); ("target_type", "organization"); ("target_id", "org")]) 10 None.
Definition archived_db : DB := put_row "event-1" archival_event demo_db.

Lemma archived_closed o : tenant_closed o archived_db.
Proof.
  split; cbn; intros; repeat match goal with
    | H : _ !! _ = Some _ |- _ => first [by rewrite lookup_empty in H
        |apply lookup_singleton_Some in H as [? <-]]
    end; cbn in *; congruence.
Qed.

Lemma Purge_erases_witness :
  let w := demo_at archived_db demo_cluster in
  db (exec (OrganizationRepository_Purge "org") w).2 = erase "org" archived_db.
Proof.
  intros w. destruct (exec (OrganizationRepository_Purge "org") w) as [r w'] eqn:H.
  assert (r = Ok ()) as ->
    by (assert (r = (exec (OrganizationRepository_Purge "org") w).1) as -> by (by rewrite H); by vm_compute).
  by destruct (Purge_erases "org" w _ w' (archived_closed "org") H) as [[_ ?]|[? _]].
Defined.

Lemma ProjectPurge_erases_witness :
  let w := demo_at archived_db demo_cluster in
  db (exec (ProjectRepository_Purge "org" "project") w).2 =
    erase_project "org" "project" archived_db ∧
  workspaces (erase_project "org" "project" archived_db) = ∅.
Proof.
  intros w. split; [|by vm_compute].
  destruct (exec (ProjectRepository_Purge "org" "project") w) as [r w'] eqn:H.
  assert (r = Ok ()) as ->
    by (assert (r = (exec (ProjectRepository_Purge "org" "project") w).1) as -> by (by rewrite H);
        by vm_compute).
  by destruct (ProjectPurge_erases "org" "project" w _ w' (archived_closed "org") H)
    as [[_ ?]|[? _]].
Defined.

Lemma PurgeReaper_erases_witness :
  let w := demo_at archived_db demo_cluster in
  organizations (db (exec (PurgeReaper_reapOnce 30) w).2) = ∅.
Proof.
  intros w. destruct (exec (PurgeReaper_reapOnce 30) w) as [r w'] eqn:H.
  destruct (PurgeReaper_erases 30 w r w' archived_closed eq_refl H) as [_ Hd].
  cbn [snd]. rewrite Hd. by vm_compute.
Defined.
