(* ===== verification/TenancySpec.v ===== *)
(** * What the tenancy services do

    Creating organizations, projects and memberships, and removing members. *)
From S2P Require Import Prelude Prog RunDomain WorkspaceDomain RbacDomain VariableDomain.
From S2P Require Import TenancyDomain IdentityDomain FleetDomain Store Outbox TenancyRepo IdentityRepo.
From S2P Require Import RbacRepo Principal Ports TenancyApp Registry Wiring RbacSpec Gates RbacMutations.
From S2P Require Import Scenario PurgeSpec.

(** ** Organizations *)

Definition is_platform_admin (d : DB) (u : string) : Prop :=
  ∃ row, users d !! u = Some row ∧ user_IsPlatformAdmin row = true.

(** [b] gives [u] the built-in role [name] over the whole organization. *)
Definition grants_builtin (d : DB) (o u name : string) (b : RoleBinding) : Prop :=
  org_scope_user_binding o u b = true ∧ rb_Effect b = EffectAllow ∧
  ∃ k role, roles d !! k = Some role ∧ role_ID role = rb_RoleID b ∧ role_Name role = name ∧
    role_OrganizationID role = None.

Lemma NewOrganization_ok id now name slug org :
  NewOrganization id now name slug = Ok org ↔
  name ≠ "" ∧ slugPattern slug = true ∧
  org = mkOrganization id name slug OrganizationStatusActive None now.
Proof.
  unfold NewOrganization. repeat case_bool_decide; [naive_solver|].
  destruct (slugPattern slug); naive_solver.
Qed.

Section organizations.
Context {X : Type}.
Implicit Types w : World X.

Lemma rows_nil `{Table T} (d : DB) : length (rows (R:=T) d) = 0 ↔ tget (R:=T) d = ∅.
Proof.
  unfold rows. rewrite length_fmap. split.
  - intros H'%nil_length_inv. by apply map_to_list_empty_iff.
  - intros ->. by rewrite map_to_list_empty.
Qed.

Lemma CountOrganizations_exec w n w' :
  exec (RootMembershipRepository_CountOrganizations (X:=X)) w = (Ok n, w') →
  calm w w' ∧ (n = 0 ↔ organizations (db w) = ∅).
Proof.
  intros H. split.
  { eapply calm_exec; [|exact H]. unfold RootMembershipRepository_CountOrganizations. calm_steps. }
  apply exec_txn in H as [_ [fs H]]; [|tx_frame_steps]. tx_inv H.
  apply select_ok in Hst as [-> ->]. subst. rewrite filter_all by by apply Forall_true.
  exact (rows_nil (T:=Organization) (db w)).
Qed.

(** Making someone a platform admin changes the users and nothing else. *)
Lemma SetPlatformAdmin_exec u b w w' :
  exec (UserRepository_SetPlatformAdmin (X:=X) u b) w = (Ok (), w') →
  db w' = tset (alter (set_admin b) u (users (db w))) (db w).
Proof.
  intros H. apply exec_txn in H as [_ [fs H]]; [|tx_frame_steps]. tx_inv H.
  apply update_pk_ok in Hst as [(_ & r & Hr & _ & _ & ->)|(_ & -> & Hn)]; subst; simpl in *.
  - do 2 f_equal. apply map_eq. intros k. destruct (decide (k = u)) as [->|Hk].
    + by rewrite lookup_insert_eq, lookup_alter_eq, Hr.
    + by rewrite lookup_insert_ne, lookup_alter_ne by done.
  - destruct (users (db w) !! u) as [r|] eqn:Hu; [by specialize (Hn r eq_refl)|].
    assert (alter (set_admin b) u (users (db w)) = users (db w)) as ->.
    { apply map_eq. intros k. destruct (decide (k = u)) as [->|Hk].
      - by rewrite lookup_alter_eq, Hu.
      - by rewrite lookup_alter_ne. }
    by destruct (db w) as [???????????????[] ?].
Qed.

Lemma IsPlatformAdmin_exec u w b w' :
  exec (UserRepository_IsPlatformAdmin (X:=X) u) w = (Ok b, w') →
  calm w w' ∧ (b = true ↔ is_platform_admin (db w) u).
Proof.
  intros H. split.
  { eapply calm_exec; [|exact H]. unfold UserRepository_IsPlatformAdmin. calm_steps. }
  apply exec_txn in H as [_ [fs H]]; [|tx_frame_steps]. tx_inv H.
  apply get_row_ok in Hst as [-> (Hr & _)%row_at_Some]. subst. unfold is_platform_admin. simpl in *.
  naive_solver.
Qed.

(** [UNIQUE (slug)], read off an accepted insertion. *)
Lemma slug_free (org : Organization) d :
  conflicts org d = false →
  ∀ k row, organizations d !! k = Some row → org_Slug row ≠ org_Slug org.
Proof.
  intros Hc k row Hk Hs. apply (proj1 (existsb_rows_false _ _)) with (id := k) (r := row) in Hc;
    [|done]. simpl in Hc. by rewrite Hs, bool_decide_true in Hc.
Qed.

Lemma Organization_Create_ok org u w w' :
  exec (OrganizationRepository_Create (X:=X) org u) w = (Ok (), w') →
  organizations (db w) !! org_ID org = None ∧
  (∀ k row, organizations (db w) !! k = Some row → org_Slug row ≠ org_Slug org) ∧
  ∃ ev, oe_EventType ev = "OrganizationCreated" ∧ oe_OrganizationID ev = org_ID org ∧
    oe_PublishedAt ev = None ∧
    db w' = put_row (oe_ID ev) ev (put_row (org_ID org) org (db w)).
Proof.
  intros H. apply exec_txn in H as [_ [fs H]]; [|unfold Write; tx_frame_steps].
  apply tx_bind_ok in H as ([] & w1 & H1 & H).
  apply on_code_ok, insert_row_ok in H1 as (_ & Hn & Hc & _ & ->).
  unfold Write in H. tx_inv H. apply insert_row_ok in H as (_ & _ & _ & _ & ->).
  split_and!; [done|by apply slug_free|]. eexists (mkOutboxEvent _ _ _ _ _ _).
  split_and!; [reflexivity..|]. reflexivity.
Qed.

Lemma Membership_Create_ok m w w' :
  exec (MembershipRepository_Create (X:=X) m) w = (Ok (), w') →
  db w' = put_row (om_ID m) (set_blocked_at None m) (db w).
Proof.
  intros H. apply exec_txn in H as [_ [fs H]]; [|tx_frame_steps].
  by apply insert_row_ok in H as (_ & _ & _ & _ & ->).
Qed.

Lemma AssignRole_ok o u name w w' :
  exec (RoleBindingRepository_AssignRole (X:=X) o u name) w = (Ok (), w') →
  ∃ b, role_bindings (db w) !! rb_ID b = None ∧ grants_builtin (db w) o u name b ∧
    db w' = put_row (rb_ID b) b (db w).
Proof.
  intros H. apply exec_txn in H as [_ [fs H]];
    [|unfold insert_org_binding; tx_frame_steps; apply builtin_role_id_frame].
  apply tx_bind_ok in H as (rid & w1 & H1 & H).
  apply builtin_role_id_ok in H1 as (-> & k & role & Hk & <- & Hn & Ho).
  unfold insert_org_binding in H. tx_inv H. apply insert_row_ok in H as (_ & Hf & _ & _ & ->).
  eexists. split_and!; [exact Hf| |reflexivity]. split; [apply new_org_binding_matches|].
  split; [done|]. exists k, role. done.
Qed.

(** An organization is created only by a platform admin, or as the very first
    one; its slug is well-formed and new.  The creator is a member of it and
    has the built-in owner role over it, the creation is in the outbox, and
    whoever creates the first organization becomes a platform admin. *)
Theorem CreateOrganization_ok inp w org w' :
  exec (CreateOrganization (X:=X) inp) w = (Ok org, w') →
  let u := co_CreatedByUserID inp in let o := org_ID org in
  (organizations (db w) = ∅ ∨ is_platform_admin (db w) u) ∧
  (org_Name org = co_Name inp ∧ org_Slug org = co_Slug inp ∧ slugPattern (org_Slug org) = true ∧
    org_Status org = OrganizationStatusActive) ∧
  organizations (db w) !! o = None ∧
  (∀ k row, organizations (db w) !! k = Some row → org_Slug row ≠ org_Slug org) ∧
  organizations (db w') = <[o := org]> (organizations (db w)) ∧
  is_member (db w') o u ∧
  (∃ k b, role_bindings (db w) !! k = None ∧
    role_bindings (db w') = <[k := b]> (role_bindings (db w)) ∧
    grants_builtin (db w') o u "owner" b) ∧
  (∃ k ev, outbox_events (db w') = <[k := ev]> (outbox_events (db w)) ∧
    oe_EventType ev = "OrganizationCreated" ∧ oe_OrganizationID ev = o ∧ oe_PublishedAt ev = None) ∧
  users (db w') = (if decide (organizations (db w) = ∅)
                   then alter (set_admin true) u (users (db w)) else users (db w)).
Proof.
  unfold CreateOrganization. ports. cbn [AssignRole role_manager IsPlatformAdmin SetPlatformAdmin
    platform_admins]. intros H. cbv zeta.
  apply exec_bind_ok in H as (n & w1 & H1 & H). apply CountOrganizations_exec in H1 as [[Hd1 _] Hn].
  apply exec_bind_ok in H as ([] & w2 & H2 & H).
  assert (db w2 = db w1 ∧ (n = 0 ∨ is_platform_admin (db w) (co_CreatedByUserID inp))) as [Hd2 Hadm].
  { case_bool_decide; [injection H2 as <-; auto|].
    apply exec_bind_ok in H2 as (b & w3 & H3 & [-> ->]%exec_ensure_ok).
    apply IsPlatformAdmin_exec in H3 as [[Hd3 _] Hb]. rewrite Hd1 in Hb. split; [done|]. right. by apply Hb. }
  apply exec_bind_ok in H as (id & w3 & [= <- <-] & H).
  apply exec_bind_ok in H as (now & w4 & [= <- <-] & H).
  apply exec_bind_ok in H as (org' & w5 & H5 & H). rewrite exec_lift in H5. injection H5 as H5 <-.
  apply exec_bind_ok in H as ([] & w6 & H6 & H).
  apply Organization_Create_ok in H6 as (Hfresh & Hslug & ev & Hev1 & Hev2 & Hev3 & Hd6).
  apply exec_bind_ok in H as (mid & w7 & [= <- <-] & H).
  apply exec_bind_ok in H as (joined & w8 & [= <- <-] & H).
  apply exec_bind_ok in H as ([] & w9 & H9 & H). apply Membership_Create_ok in H9.
  apply exec_bind_ok in H as ([] & w10 & H10 & H).
  apply AssignRole_ok in H10 as (b & Hb & (Hm & He & k & role & Hk & Hrole) & H10).
  apply exec_bind_ok in H as ([] & w11 & H11 & [= <- <-]).
  apply NewOrganization_ok in H5 as (Hname & Hsl & ->). simpl in *.
  rewrite Hd2, Hd1 in *. rewrite H9, Hd6 in *. simpl in *.
  assert (db w11 = tset (if decide (organizations (db w) = ∅)
    then alter (set_admin true) (co_CreatedByUserID inp) (users (db w)) else users (db w)) (db w10))
    as Hd11.
  { case_bool_decide as Hz.
    - apply SetPlatformAdmin_exec in H11. rewrite H11. apply Hn in Hz. rewrite Hz.
      rewrite decide_True by done. f_equal. rewrite H10. done.
    - injection H11 as <-. rewrite decide_False by (by intros ?%Hn).
      rewrite H10. by destruct (db w) as [???????????????[] ?]. }
  rewrite Hd11, H10. cbn -[alter decide]. split_and!; try done.
  - destruct Hadm as [Hz|Hz]; [left; by apply Hn|by right].
  - left. eexists _, _. split; [apply lookup_insert_eq|done].
  - exists (rb_ID b), b. split_and!; [done..|]. split_and!; [done..|]. exists k, role. done.
  - exists (oe_ID ev), ev. done.
Qed.
End organizations.

(** ** Projects and members *)

Section members.
Context {X : Type}.
Implicit Types w : World X.

Lemma tenancy_gate_ok ctx o u p w w' :
  exec (tenancy_gate (X:=X) ctx o u p) w = (Ok (), w') →
  calm w w' ∧ is_member (db w) o u ∧ may (db w) ctx o u p.
Proof. apply permission_gate_ok. Qed.

Lemma Organization_GetByID_ok o w org w' :
  exec (OrganizationRepository_GetByID (X:=X) o) w = (Ok org, w') →
  calm w w' ∧ organizations (db w) !! o = Some org.
Proof.
  intros H. split.
  { eapply calm_exec; [|exact H]. unfold OrganizationRepository_GetByID. calm_steps. }
  apply exec_txn in H as [_ [fs H]]; [|tx_frame_steps].
  by apply get_row_ok in H as [-> (Hr & _)%row_at_Some].
Qed.

Lemma NewProject_ok id now o name slug desc p :
  NewProject id now o name slug desc = Ok p ↔
  o ≠ "" ∧ name ≠ "" ∧ slugPattern slug = true ∧ p = mkProject id o name slug desc now.
Proof.
  unfold NewProject. repeat case_bool_decide; [naive_solver..|].
  destruct (slugPattern slug); naive_solver.
Qed.

(** A project is created only by a member who may manage projects of an
    organization that is not archived; its slug is well-formed and new in the
    organization, and nothing else in the database changes. *)
Theorem CreateProject_ok ctx inp w p w' :
  exec (CreateProject (X:=X) ctx inp) w = (Ok p, w') →
  let o := cp_OrganizationID inp in let u := cp_RequestingUserID inp in
  is_member (db w) o u ∧ may (db w) ctx o u "project:manage" ∧ is_active (db w) o ∧
  proj_OrganizationID p = o ∧ proj_Name p = cp_Name inp ∧ proj_Slug p = cp_Slug inp ∧
  slugPattern (proj_Slug p) = true ∧ projects (db w) !! proj_ID p = None ∧
  (∀ k row, projects (db w) !! k = Some row → proj_OrganizationID row = o →
     proj_Slug row ≠ proj_Slug p) ∧
  db w' = put_row (proj_ID p) p (db w).
Proof.
  unfold CreateProject. intros H. cbv zeta.
  apply exec_bind_ok in H as ([] & w1 & H1 & H). apply tenancy_gate_ok in H1 as ([Hd1 _] & Hm & Hp).
  apply exec_bind_ok in H as (org & w2 & H2 & H). apply Organization_GetByID_ok in H2 as [[Hd2 _] Ho].
  apply exec_bind_ok in H as ([] & w2' & [Ha ->]%exec_ensure_ok & H).
  apply exec_bind_ok in H as (id & w3 & [= <- <-] & H).
  apply exec_bind_ok in H as (now & w4 & [= <- <-] & H).
  apply exec_bind_ok in H as (row & w5 & H5 & H). rewrite exec_lift in H5. injection H5 as H5 <-.
  apply NewProject_ok in H5 as (_ & _ & Hslug & ->).
  apply exec_bind_ok in H as ([] & w6 & H6 & [= <- <-]).
  apply exec_txn in H6 as [_ [fs H6]]; [|tx_frame_steps].
  apply on_code_ok, insert_row_ok in H6 as (_ & Hn & Hc & _ & ->). simpl in *.
  rewrite Hd2, Hd1 in *. split_and!; try done.
  - exists org. bools. done.
  - intros k row Hk Hor Hs. apply (proj1 (existsb_rows_false _ _)) with (id := k) (r := row) in Hc;
      [|done]. simpl in Hc. by rewrite Hor, Hs, !bool_decide_true in Hc.
Qed.

(** A repository method that is one deletion. *)
Lemma exec_delete `{Table T} o (P : T → bool) w w' :
  exec (org_txn (X:=X) o (_ ← delete_where P; mret ())) w = (Ok (), w') →
  db w' = wiped (λ r, rls (Some o) r && P r) (db w).
Proof.
  intros H'. apply exec_txn in H' as [_ [fs H']]; [|tx_frame_steps]. tx_inv H'.
  by apply delete_where_ok in Hst as (_ & -> & _); subst.
Qed.

Lemma target_gate_ok ctx inp w w' :
  exec (target_gate (X:=X) ctx inp) w = (Ok (), w') →
  calm w w' ∧ is_member (db w) (mi_OrganizationID inp) (mi_RequestingUserID inp) ∧
  may (db w) ctx (mi_OrganizationID inp) (mi_RequestingUserID inp) "organization:manage".
Proof.
  unfold target_gate. intros H.
  apply exec_bind_ok in H as ([] & w1 & H1 & H). apply tenancy_gate_ok in H1 as (Hc1 & Hm & Hp).
  apply exec_bind_ok in H as (b & w2 & H2 & [-> ->]%exec_ensure_ok). split; [|done].
  etrans; [done|]. eapply calm_exec; [|exact H2].
  unfold MembershipRepository_MembershipExists. calm_steps.
Qed.

(** The rows of [table] left are those that are not [gone]. *)
Definition only_without {T} (gone : T → Prop) (before after : gmap string T) : Prop :=
  ∀ k r, after !! k = Some r ↔ before !! k = Some r ∧ ¬ gone r.

(** Only a manager removes a member; the membership and the user's own
    bindings in the organization are gone and nothing else is, in particular
    not the user's places in its teams. *)
Theorem RemoveMember_ok ctx inp w w' :
  exec (RemoveMember (X:=X) ctx inp) w = (Ok (), w') →
  let o := mi_OrganizationID inp in let t := mi_TargetUserID inp in
  is_member (db w) o (mi_RequestingUserID inp) ∧
  may (db w) ctx o (mi_RequestingUserID inp) "organization:manage" ∧
  only_without (λ m, om_OrganizationID m = o ∧ om_UserID m = t)
    (organization_memberships (db w)) (organization_memberships (db w')) ∧
  only_without (λ b, rb_OrganizationID b = o ∧ rb_SubjectType b = "user" ∧ rb_SubjectID b = t)
    (role_bindings (db w)) (role_bindings (db w')) ∧
  db w' = tset (organization_memberships (db w')) (tset (role_bindings (db w')) (db w)).
Proof.
  unfold RemoveMember. ports. cbn [DeleteForSubject role_manager]. intros H. cbv zeta.
  apply exec_bind_ok in H as ([] & w1 & H1 & H). apply target_gate_ok in H1 as ([Hd1 _] & Hm & Hp).
  apply exec_bind_ok in H as ([] & w2 & H2 & H).
  apply exec_delete in H2. apply exec_delete in H. rewrite H, H2, Hd1. unfold wiped.
  split_and!; [done..| | |done]; intros k r; cbn -[drop_rows]; rewrite lookup_drop_rows.
  - unfold om_in, tenant_is. rewrite !andb_false_iff, !bool_decide_eq_false.
    destruct (decide (om_OrganizationID r = mi_OrganizationID inp)),
      (decide (om_UserID r = mi_TargetUserID inp)); intuition congruence.
  - unfold rb_org, tenant_is, subjectTypeUser. rewrite !andb_false_iff, !bool_decide_eq_false.
    destruct (decide (rb_OrganizationID r = mi_OrganizationID inp)),
      (decide (rb_SubjectType r = "user")), (decide (rb_SubjectID r = mi_TargetUserID inp));
      intuition congruence.
Qed.
End members.

(** ** Witnesses *)

Definition org_two : CreateOrganizationInput :=
  {| co_Name := "Second"; co_Slug := "second-org"; co_CreatedByUserID := "alice" |}.

Lemma CreateOrganization_ok_witness : ∃ org w',
  exec (CreateOrganization org_two) demo = (Ok org, w') ∧ is_member (db w') (org_ID org) "alice".
Proof.
  destruct (exec (CreateOrganization org_two) demo) as [[org|e] w'] eqn:H; [|by vm_compute in H].
  exists org, w'. split; [done|]. destruct (CreateOrganization_ok org_two demo org w' H)
    as (_ & _ & _ & _ & _ & Hm & _). exact Hm.
Defined.

Definition blog : CreateProjectInput :=
  {| cp_OrganizationID := "org"; cp_RequestingUserID := "alice"; cp_Name := "Blog";
     cp_Slug := "blog"; cp_Description := "" |}.

Lemma CreateProject_ok_witness : ∃ p w',
  exec (CreateProject background blog) demo = (Ok p, w') ∧ is_active (db demo) "org".
Proof.
  destruct (exec (CreateProject background blog) demo) as [[p|e] w'] eqn:H; [|by vm_compute in H].
  exists p, w'. split; [done|]. destruct (CreateProject_ok background blog demo p w' H)
    as (_ & _ & Ha & _). exact Ha.
Defined.

Definition alice_on_bob : MemberInput :=
  {| mi_OrganizationID := "org"; mi_RequestingUserID := "alice"; mi_TargetUserID := "bob" |}.

Lemma RemoveMember_ok_witness : ∃ w',
  exec (RemoveMember background alice_on_bob) demo = (Ok (), w') ∧
  organization_memberships (db w') !! "m-2" = None.
Proof.
  destruct (exec (RemoveMember background alice_on_bob) demo) as [[[]|e] w'] eqn:H;
    [|by vm_compute in H].
  exists w'. split; [done|].
  destruct (RemoveMember_ok background alice_on_bob demo w' H) as (_ & _ & Hm & _).
  destruct (organization_memberships (db w') !! "m-2") as [m|] eqn:Hk; [|done].
  apply Hm in Hk as [Hk Hn]. clear H. destruct Hn. vm_compute in Hk. injection Hk as <-.
  split; reflexivity.
Defined.

(** ** What they allow *)

(** bob is in a team that may do everything in the organization. *)
Definition team_db : DB :=
  put_row "binding-2" (NewRoleBinding "binding-2" 0 "org" "role-owner" "team" "ops"
    "organization" "org" EffectAllow)
    (put_row "tm-1" (mkTeamMembership "tm-1" "ops" "org" "bob" 0)
      (put_row "ops" (mkTeam "ops" "org" "Ops" 0) demo_db)).

Definition bob_triggers : Execution.TriggerRunInput :=
  {| Execution.tr_OrganizationID := "org"; Execution.tr_ProjectID := "project";
     Execution.tr_WorkspaceID := "ws"; Execution.tr_RequestingUserID := "bob" |}.

(** Removing a member leaves their team memberships, and triggering a run
    asks for a permission only: someone removed from the organization still
    runs its workspaces. *)
Theorem removed_member_triggers :
  let w := (exec (RemoveMember background alice_on_bob) (demo_at team_db demo_cluster)).2 in
  (exec (MembershipRepository_IsMember "org" "bob") w).1 = Ok false ∧
  ∃ run w', exec (Execution.TriggerRun background bob_triggers) w = (Ok run, w') ∧
    RunDomain.run_OrganizationID run = "org".
Proof. intros w. split; [by vm_compute|]. apply exec_ok_intro. by vm_compute. Qed.

(** Adding a member is two transactions: when the second is lost the member
    has no role, and asking again is refused by the first. *)
Theorem add_member_half_done :
  let carol := {| mi_OrganizationID := "org"; mi_RequestingUserID := "alice";
                  mi_TargetUserID := "carol" |} in
  let d := put_row "carol" (demo_user "carol" "carol" "carol@acme.io" false)
    (put_row "role-read" (mkRole "role-read" None "read" ["organization:read"]) demo_db) in
  let w0 := set_faults [false; false; false; true] (demo_at d demo_cluster) in
  let w := (exec (AddMember background carol) w0).2 in
  (exec (AddMember background carol) w0).1 = Err (PgError "08006") ∧
  (exec (MembershipRepository_IsMember "org" "carol") w).1 = Ok true ∧
  (exec (RoleBindingRepository_GetOrgScopeRoleName "org" "carol") w).1 = Ok ("", false) ∧
  (exec (AddMember background carol) w).1 = Err (PgError "23505").
Proof. by vm_compute. Qed.
