(* ===== verification/Credentials.v ===== *)
(** * Credentials: refresh tokens, reset tokens and API keys

    Three tables hold secrets by their hash.  A [Credential] states what they
    share; whatever the identity services do, a credential keeps its terms
    and, once spent, stays spent. *)
From S2P Require Import Prelude Prog Rely RbacDomain TenancyDomain IdentityDomain Store TenancyRepo IdentityRepo.
From S2P Require Import Principal Ports TenancyApp IdentityApp Registry Wiring RbacSpec Gates.

(** ** The interface *)

(** The terms of a credential: the hash of its secret, its subject, its
    scopes and its expiry. *)
Class Credential (T : Type) `{Table T} := {
  terms : T → string * (string * list string * Z);
  spent : T → bool;
}.

Class CredentialLaws (T : Type) `{Credential T} : Prop := {
  cred_get (m : gmap string T) d : tget (tset m d) = m;
  cred_unique (a b : T) : tunique a b = ((terms a).1 =ₛ (terms b).1);
}.

#[export] Instance refresh_credential : Credential RefreshToken := {|
  terms t := (rt_TokenHash t, (rt_UserID t, [], rt_ExpiresAt t));
  spent t := negb (bool_decide (rt_RevokedAt t = None)) |}.
#[export] Instance reset_credential : Credential PasswordResetToken := {|
  terms t := (prt_TokenHash t, (prt_UserID t, [], prt_ExpiresAt t));
  spent t := negb (bool_decide (prt_UsedAt t = None)) |}.
#[export] Instance key_credential : Credential APIKeyRow := {|
  terms r := let k := akr_Key r in (ak_KeyHash k, (ak_OwnerID k, ak_Scopes k, ak_ExpiresAt k));
  spent r := negb (bool_decide (ak_RevokedAt (akr_Key r) = None)) |}.

#[export] Instance refresh_credential_laws : CredentialLaws RefreshToken.
Proof. by split. Qed.
#[export] Instance reset_credential_laws : CredentialLaws PasswordResetToken.
Proof. by split. Qed.
#[export] Instance key_credential_laws : CredentialLaws APIKeyRow.
Proof. by split. Qed.

(** ** How a table of them evolves *)

Section credential.
Context (T : Type) `{CredentialLaws T}.

(** The table's keys: rows sit at their id, hashes are UNIQUE. *)
Definition cred_wf (d : DB) : Prop :=
  (∀ k (r : T), tget d !! k = Some r → pk r = k) ∧
  (∀ k1 k2 (r1 r2 : T), tget d !! k1 = Some r1 → tget d !! k2 = Some r2 →
     (terms r1).1 = (terms r2).1 → k1 = k2).

(** Rows are never deleted, keep their terms and, once spent, stay so. *)
Definition cred_evolve (d d' : DB) : Prop := cred_wf d →
  cred_wf d' ∧
  ∀ k (r : T), tget d !! k = Some r →
    ∃ r', tget d' !! k = Some r' ∧ terms r' = terms r ∧ (spent r = true → spent r' = true).

#[export] Instance cred_evolve_preorder : PreOrder cred_evolve.
Proof using Type.
  split; [intros d Hwf; split; [done|]; eauto|].
  intros d1 d2 d3 H12 H23 Hwf. destruct (H12 Hwf) as [Hwf2 H2']. destruct (H23 Hwf2) as [Hwf3 H3].
  split; [done|]. intros k r Hk. destruct (H2' k r Hk) as (r2 & Hk2 & Hh2 & Hr2).
  destruct (H3 k r2 Hk2) as (r3 & Hk3 & Hh3 & Hr3).
  exists r3. split_and!; [done|congruence|auto].
Qed.

Lemma same_table d d' : tget (R:=T) d' = tget d → cred_evolve d d'.
Proof using Type. intros He Hwf. unfold cred_wf. rewrite He. split; [done|]. eauto. Qed.

Lemma insert_evolves (r : T) d :
  tget d !! pk r = None → conflicts r d = false → cred_evolve d (put_row (pk r) r d).
Proof using All.
  intros Hn Hc [Hkey Huniq]. pose proof (proj1 (existsb_rows_false d _) Hc) as Hfree.
  assert (∀ k (r' : T), tget d !! k = Some r' → (terms r).1 ≠ (terms r').1) as Hne.
  { intros k r' Hk. specialize (Hfree k r' Hk). rewrite cred_unique in Hfree.
    by apply bool_decide_eq_false in Hfree. }
  unfold cred_wf, put_row. rewrite !cred_get. split; [split|].
  - intros k r' [[<- <-]|[_ ?]]%lookup_insert_Some; eauto.
  - intros k1 k2 r1 r2 [[<- <-]|[_ H1']]%lookup_insert_Some [[<- <-]|[_ H2']]%lookup_insert_Some Hh;
      [done| | |by eapply Huniq].
    + by destruct (Hne _ _ H2').
    + by destruct (Hne _ _ H1').
  - intros k r' Hk. exists r'. rewrite lookup_insert_ne; [done|]. intros <-. congruence.
Qed.

Lemma replace_evolves k (r r' : T) d :
  tget d !! k = Some r → pk r' = pk r → terms r' = terms r →
  (spent r = true → spent r' = true) → cred_evolve d (put_row k r' d).
Proof using All.
  intros Hk Hid Ht Hs [Hkey Huniq]. unfold cred_wf, put_row. rewrite !cred_get. split; [split|].
  - intros j x [[<- <-]|[_ ?]]%lookup_insert_Some; [|eauto]. rewrite Hid. by apply Hkey.
  - intros k1 k2 r1 r2 [[<- <-]|[_ H1']]%lookup_insert_Some [[<- <-]|[_ H2']]%lookup_insert_Some Hh;
      [done| | |by eapply Huniq]; eapply Huniq; try done; congruence.
  - intros j x Hj. destruct (decide (j = k)) as [->|Hne].
    + rewrite Hk in Hj. injection Hj as <-. eexists. by rewrite lookup_insert_eq.
    + exists x. by rewrite lookup_insert_ne.
Qed.

(** The row of a hash is the only one. *)
Lemma cred_same d k1 k2 (r1 r2 : T) :
  cred_wf d → tget d !! k1 = Some r1 → tget d !! k2 = Some r2 →
  (terms r1).1 = (terms r2).1 → k1 = k2 ∧ r1 = r2.
Proof using Type.
  intros [_ Hu] H1' H2' Hh. assert (k1 = k2) as -> by eauto. split; [done|congruence].
Qed.
End credential.

(** The three of them. *)
Definition credentials_wf (d : DB) : Prop :=
  cred_wf RefreshToken d ∧ cred_wf PasswordResetToken d ∧ cred_wf APIKeyRow d.
Definition credentials_evolve (d d' : DB) : Prop :=
  cred_evolve RefreshToken d d' ∧ cred_evolve PasswordResetToken d d' ∧ cred_evolve APIKeyRow d d'.

#[export] Instance credentials_evolve_preorder : PreOrder credentials_evolve.
Proof.
  split; [intros d; split_and!; reflexivity|].
  intros d1 d2 d3 (?&?&?) (?&?&?). split_and!; by etrans.
Qed.

Lemma credentials_evolve_wf d d' :
  credentials_evolve d d' → credentials_wf d → credentials_wf d'.
Proof. intros (H1 & H2 & H3) (W1 & W2 & W3). split_and!; [by apply H1|by apply H2|by apply H3]. Qed.

(** One statement's effect on the three tables. *)
Ltac cred_step :=
  split_and!;
  first [ by apply same_table | by apply insert_evolves
        | match goal with Hk : tget _ !! _ = Some _ |- _ =>
            by apply (replace_evolves _ _ _ _ _ Hk) end ].

(** ** The services *)

Section requests.
Context {X : Type} {crypto : Crypto}.
Implicit Types w : World X.

Definition evolves w w' : Prop := credentials_evolve (db w) (db w').
#[export] Instance evolves_preorder : PreOrder evolves.
Proof. unfold evolves. split; [intros w; reflexivity|]. intros w1 w2 w3 ??. by etrans. Qed.

Lemma calm_evolves {A} (p : prog (World X) A) : steps_in calm p → steps_in evolves p.
Proof. apply steps_in_mono. intros w w' [Hd _]. unfold evolves. by rewrite Hd. Qed.

Lemma evolves_txn {A} s (t : Tx X A) : tx_in credentials_evolve s t → steps_in evolves (txn s t).
Proof. apply (txn_in credentials_evolve). Qed.

(** Walk down a program, statement by statement. *)
Ltac token_steps :=
  repeat first
    [ exact I
    | match goal with |- steps_in _ (lift ?r) => by destruct r end
    | match goal with |- steps_in _ (ensure ?b _) => by destruct b end
    | apply steps_in_bind; [|intros ?] | apply steps_in_try | apply steps_in_void
    | apply evolves_txn; tx_in_steps;
      solve [ apply tx_in_insert; [exact _|intros d ????; cred_step]
            | apply tx_in_insert_or_nothing; [exact _|intros d ????; cred_step]
            | apply tx_in_update_pk; [exact _|intros d ????; cred_step] ]
    | apply calm_evolves; apply steps_in_call; intros ?; by split_and!; unfold healthy; simpl; auto
    | case_match ].

Lemma Issue_evolves u : steps_in evolves (RefreshToken_Issue u).
Proof.
  unfold RefreshToken_Issue, GenerateOpaqueToken, RefreshTokenRepository_Create.
  token_steps.
Qed.

Lemma Refresh_evolves tok : steps_in evolves (RefreshToken_Refresh tok).
Proof.
  unfold RefreshToken_Refresh, RefreshTokenRepository_GetByHash, UserRepository_GetByID,
    RefreshTokenRepository_Revoke.
  token_steps; apply Issue_evolves.
Qed.
Lemma gate_evolves e ctx o u : steps_in evolves (identity_gate (X:=X) e ctx o u).
Proof.
  apply calm_evolves. unfold identity_gate, permission_gate, member_gate. ports. simpl HasPermission.
  calm_steps; auto using calm_IsMember, calm_HasPermission.
Qed.

Lemma CreateOrganization_evolves inp : steps_in evolves (CreateOrganization (X:=X) inp).
Proof.
  unfold CreateOrganization. ports. cbn [AssignRole role_manager IsPlatformAdmin SetPlatformAdmin
    platform_admins].
  unfold RootMembershipRepository_CountOrganizations, UserRepository_IsPlatformAdmin,
    OrganizationRepository_Create, Outbox.Write, MembershipRepository_Create,
    RbacRepo.RoleBindingRepository_AssignRole, RbacRepo.builtin_role_id, RbacRepo.insert_org_binding,
    UserRepository_SetPlatformAdmin.
  token_steps.
Qed.

Lemma CreateUser_evolves inp : steps_in evolves (CreateUser (X:=X) inp).
Proof.
  unfold CreateUser, GenerateFromPassword, UserRepository_Count, UserRepository_Create.
  cbn [BootstrapDefaultOrganization default_org_bootstrapper].
  token_steps; apply CreateOrganization_evolves.
Qed.

Lemma reset_evolves email : steps_in evolves (RequestReset (X:=X) email).
Proof.
  unfold RequestReset, UserRepository_GetByEmail, GenerateOpaqueToken,
    PasswordResetTokenRepository_Create.
  token_steps.
Qed.

Lemma ConfirmReset_evolves tok pw : steps_in evolves (ConfirmReset (X:=X) tok pw).
Proof.
  unfold ConfirmReset, PasswordResetTokenRepository_GetByHash, GenerateFromPassword,
    UserRepository_UpdatePasswordHash, PasswordResetTokenRepository_MarkUsed.
  token_steps.
Qed.

Lemma SetUserPlatformAdmin_evolves inp : steps_in evolves (SetUserPlatformAdmin (X:=X) inp).
Proof.
  unfold SetUserPlatformAdmin, UserRepository_IsPlatformAdmin, UserRepository_GetByID,
    UserRepository_SetPlatformAdmin.
  token_steps.
Qed.

Lemma CreateServiceAccount_evolves ctx inp : steps_in evolves (CreateServiceAccount (X:=X) ctx inp).
Proof.
  unfold CreateServiceAccount, ServiceAccountRepository_Create.
  apply steps_in_bind; [apply gate_evolves|intros ?]. token_steps.
Qed.

Lemma CreateAPIKey_evolves ctx inp : steps_in evolves (CreateAPIKey (X:=X) ctx inp).
Proof.
  unfold CreateAPIKey, ServiceAccountRepository_GetByID, GenerateOpaqueToken, APIKeyRepository_Create.
  apply steps_in_bind; [apply gate_evolves|intros ?]. token_steps.
Qed.

Lemma RevokeAPIKey_evolves ctx inp : steps_in evolves (RevokeAPIKey (X:=X) ctx inp).
Proof.
  unfold RevokeAPIKey, APIKeyRepository_Revoke.
  apply steps_in_bind; [apply gate_evolves|intros ?]. token_steps.
Qed.

Lemma apiKeyResolver_evolves key : steps_in evolves (apiKeyResolver (X:=X) key).
Proof. unfold apiKeyResolver, APIKeyRepository_GetByHash, APIKeyRepository_TouchLastUsed. token_steps. Qed.

(** The requests of this context that write. *)
Inductive identity_request : prog (World X) () → Prop :=
| ireq_create_user inp : identity_request (void (CreateUser inp))
| ireq_issue u : identity_request (void (RefreshToken_Issue u))
| ireq_refresh tok : identity_request (void (RefreshToken_Refresh tok))
| ireq_request_reset email : identity_request (void (RequestReset email))
| ireq_confirm_reset tok pw : identity_request (ConfirmReset tok pw)
| ireq_set_admin inp : identity_request (SetUserPlatformAdmin inp)
| ireq_service_account ctx inp : identity_request (void (CreateServiceAccount ctx inp))
| ireq_create_key ctx inp : identity_request (void (CreateAPIKey ctx inp))
| ireq_revoke_key ctx inp : identity_request (RevokeAPIKey ctx inp)
| ireq_use_key key : identity_request (void (apiKeyResolver key))
| ireq_create_org inp : identity_request (void (CreateOrganization inp)).

Lemma identity_request_evolves p : identity_request p → steps_in evolves p.
Proof.
  destruct 1; try apply steps_in_void;
    auto using CreateUser_evolves, Issue_evolves, Refresh_evolves, reset_evolves,
      ConfirmReset_evolves, SetUserPlatformAdmin_evolves, CreateServiceAccount_evolves,
      CreateAPIKey_evolves, RevokeAPIKey_evolves, apiKeyResolver_evolves, CreateOrganization_evolves.
Qed.

(** Interleaved with each other, in any order, and with anything that leaves
    the data alone. *)
Lemma identity_pool_evolves w ps c' :
  Forall identity_request ps →
  pool_steps (λ w w', db w' = db w) identity_request (w, ps) c' → evolves w c'.1.
Proof.
  intros Hps. apply (pool_steps_in _ identity_request evolves (w, ps) c').
  - intros w3 w4 Hd. unfold evolves. by rewrite Hd.
  - apply identity_request_evolves.
  - eapply Forall_impl; [exact Hps|apply identity_request_evolves].
Qed.
End requests.
