(* ===== verification/IdentitySpec.v ===== *)
(** * What the identity services do

    Passwords, rotating refresh tokens, API keys, and the first user of an
    installation. *)
From S2P Require Import Prelude Prog RbacDomain TenancyDomain IdentityDomain Store TenancyRepo IdentityRepo.
From S2P Require Import Principal Ports TenancyApp IdentityApp Registry Wiring RbacSpec Gates Credentials.
From S2P Require Import Http Scenario TenancySpec.

(** ** Single statements *)

Section statements.
Context {X : Type}.
Implicit Types w : World X.

(** [SELECT ... WHERE P] of a table everyone sees. *)
Lemma first_row_cases `{Table T} (P : T → bool) e w :
  (∀ r : T, rls None r = true) →
  (∃ r, first_row P e (AppRole None) w = (Ok r, w) ∧ P r = true ∧ ∃ k, tget (db w) !! k = Some r) ∨
  (first_row P e (AppRole None) w = (Err e, w) ∧ ∀ k r, tget (db w) !! k = Some r → P r = false).
Proof.
  intros Hv. unfold first_row, mbind, tx_bind, select. cbn [fst snd].
  destruct (filter _ (rows (db w))) as [|x l] eqn:Hl; [right|left].
  - unfold tx_fail. split; [done|]. intros k r Hk. destruct (P r) eqn:HP; [|done].
    assert (r ∈ filter (λ r, visible (AppRole None) r && P r) (rows (db w))) as Hin.
    { apply elem_of_selected. simpl. eauto. }
    rewrite Hl in Hin. by apply not_elem_of_nil in Hin.
  - assert (x ∈ filter (λ r, visible (AppRole None) r && P r) (rows (db w))) as Hin
      by (rewrite Hl; set_solver).
    apply elem_of_selected in Hin as (Hk & _ & HP). unfold mret, tx_ret. eauto.
Qed.

(** The same, as a transaction of its own while nothing fails. *)
Lemma first_row_nofault `{Table T} (P : T → bool) e w :
  faults w = [] → (∀ r : T, rls None r = true) →
  (∃ r, exec (txn (AppRole None) (first_row P e)) w = (Ok r, w) ∧
     P r = true ∧ ∃ k, tget (db w) !! k = Some r) ∨
  (exec (txn (AppRole None) (first_row P e)) w = (Err e, w) ∧
     ∀ k r, tget (db w) !! k = Some r → P r = false).
Proof.
  intros Hf Hv.
  destruct (exec_txn_nofault (AppRole None) (first_row P e) w) as [-> _];
    [apply tx_frame_first_row|done|].
  destruct (first_row_cases P e w Hv) as [(r & -> & ?)|[-> ?]]; [left; eauto|right].
  split; [f_equal; by destruct w|done].
Qed.

(** A token's row is found by its hash. *)
Lemma first_row_exec `{Table T} (P : T → bool) e w r w' :
  exec (txn (AppRole None) (first_row P e)) w = (Ok r, w') →
  calm w w' ∧ P r = true ∧ ∃ k, tget (db w) !! k = Some r.
Proof.
  intros Hx. split.
  { eapply calm_exec; [|exact Hx]. apply calm_txn; [tx_frame_steps|tx_in_steps]. }
  apply exec_txn in Hx as [_ [fs Hx]]; [|tx_frame_steps].
  apply first_row_ok in Hx as [-> (k & Hk & _ & HP)]. eauto.
Qed.

(** [UPDATE ... WHERE id = $1] of such a table. *)
Lemma update_pk_all `{Table T} id (f : T → T) w n w' :
  (∀ r : T, rls None r = true) → (∀ d, tset (tget (R:=T) d) d = d) →
  update_pk id (λ _ : T, true) f (AppRole None) w = (Ok n, w') →
  db w' = tset (alter f id (tget (db w))) (db w).
Proof.
  intros Hv Hsame [(_ & r & Hr & _ & _ & ->)|(_ & -> & Hn)]%update_pk_ok; simpl.
  - f_equal. apply map_eq. intros j. destruct (decide (j = id)) as [->|].
    + by rewrite lookup_insert_eq, lookup_alter_eq, Hr.
    + by rewrite lookup_insert_ne, lookup_alter_ne.
  - rewrite alter_id, Hsame; [done|]. intros r Hr. specialize (Hn r Hr). simpl in Hn. by rewrite Hv in Hn.
Qed.

Lemma update_row_exec `{Table T} id (f : T → T) w w' :
  (∀ r : T, rls None r = true) → (∀ d, tset (tget (R:=T) d) d = d) →
  exec (txn (AppRole None) (_ ← update_pk id (λ _ : T, true) f; mret ())) w = (Ok (), w') →
  db w' = tset (alter f id (tget (db w))) (db w).
Proof.
  intros Hv Hsame [_ [fs Hx]]%exec_txn; [|tx_frame_steps]. tx_inv Hx. subst.
  by apply update_pk_all in Hst.
Qed.

Lemma update_now_exec `{Table T} id (f : Z → T → T) w w' :
  (∀ r : T, rls None r = true) → (∀ d, tset (tget (R:=T) d) d = d) →
  exec (txn (AppRole None) (now ← sql_now; _ ← update_pk id (λ _ : T, true) (f now); mret ())) w =
    (Ok (), w') →
  ∃ now, db w' = tset (alter (f now) id (tget (db w))) (db w).
Proof.
  intros Hv Hsame [_ [fs Hx]]%exec_txn; [|tx_frame_steps]. tx_inv Hx. subst.
  exists (clock w). by apply update_pk_all in Hst.
Qed.
End statements.

(** ** Signing in *)

(** [pw] is the password of a local user [u]. *)
Definition signs_in `{!Crypto} (d : DB) (name pw : string) (u : User) : Prop :=
  (∃ k, users d !! k = Some u) ∧ user_Username u = name ∧ user_AuthSource u = AuthSourceLocal ∧
  ∃ hash, user_PasswordHash u = Some hash ∧ bcrypt_compare hash pw = true.

(** [UNIQUE (username)] *)
Definition usernames_unique (d : DB) : Prop := ∀ k1 k2 u1 u2,
  users d !! k1 = Some u1 → users d !! k2 = Some u2 →
  user_Username u1 = user_Username u2 → k1 = k2.

Section signing_in.
Context {X : Type} {crypto : Crypto}.
Implicit Types w : World X.

Lemma Authenticate_total name pw w :
  faults w = [] → usernames_unique (db w) →
  let '(r, w') := exec (Authenticate (X:=X) name pw) w in
  w' = w ∧ (∀ u, r = Ok u ↔ signs_in (db w) name pw u) ∧
  ((¬ ∃ u, signs_in (db w) name pw u) → r = Err ErrInvalidCredentials).
Proof.
  intros Hf Huniq. unfold Authenticate, UserRepository_GetByUsername.
  rewrite exec_bind, exec_try.
  destruct (first_row_nofault (T:=User) (λ u, user_Username u =ₛ name) ErrUserNotFound w Hf)
    as [(u & -> & Hn & k & Hk)|(-> & Hnone)]; [done| |].
  - apply bool_decide_eq_true in Hn.
    assert (∀ u', signs_in (db w) name pw u' → u' = u) as Hsame.
    { intros u' ((k' & Hk') & Hn' & _).
      assert (k' = k) as -> by (eapply Huniq; [done..|congruence]). simpl in Hk. congruence. }
    destruct (user_PasswordHash u) as [hash|] eqn:Hh.
    + rewrite exec_bind, exec_ensure.
      destruct ((user_AuthSource u =ₛ AuthSourceLocal) && bcrypt_compare hash pw) eqn:Hb.
      * bools. assert (signs_in (db w) name pw u) as Hs by (split_and!; eauto).
        split_and!; [done| |intros Hno; destruct Hno; eauto].
        intros u'. split; [by intros [= <-]|]. by intros ->%Hsame.
      * assert (∀ u', ¬ signs_in (db w) name pw u') as Hno.
        { intros u' Hs. pose proof (Hsame u' Hs) as ->. destruct Hs as (_ & _ & Hl & h & Hh' & Hc).
          rewrite Hh in Hh'. injection Hh' as <-. by rewrite Hl, Hc, bool_decide_true in Hb. }
        split_and!; [done| |done]. intros u'. split; [done|]. by intros ?%Hno.
    + assert (∀ u', ¬ signs_in (db w) name pw u') as Hno.
      { intros u' Hs. pose proof (Hsame u' Hs) as ->. destruct Hs as (_ & _ & _ & h & Hh' & _). congruence. }
      split_and!; [done| |done]. intros u'. split; [done|]. by intros ?%Hno.
  - assert (∀ u', ¬ signs_in (db w) name pw u') as Hno.
    { intros u' ((k' & Hk') & Hn' & _). specialize (Hnone k' u' Hk').
      by rewrite bool_decide_true in Hnone. }
    rewrite decide_True by done. split_and!; [done| |done]. intros u'. split; [done|]. by intros ?%Hno.
Qed.

(** C32: Signing in succeeds exactly with a local user's name and password, and
    every other attempt is answered in the same way, whether the name exists
    or not; nothing is written. *)
Theorem Authenticate_spec name pw w :
  faults w = [] → usernames_unique (db w) →
  let '(r, w') := exec (Authenticate (X:=X) name pw) w in
  w' = w ∧ (∀ u, r = Ok u ↔ signs_in (db w) name pw u) ∧
  ((¬ ∃ u, signs_in (db w) name pw u) → r = Err ErrInvalidCredentials).
Proof. apply Authenticate_total. Qed.
End signing_in.

(** ** Refresh tokens *)

Section refreshing.
Context {X : Type} {crypto : Crypto}.
Implicit Types w : World X.

(** A refresh needs a token that is not revoked, and revokes it. *)
Lemma Refresh_needs_live tok w res w' :
  credentials_wf (db w) → exec (RefreshToken_Refresh tok) w = (Ok res, w') →
  ∃ k t, refresh_tokens (db w) !! k = Some t ∧ rt_TokenHash t = hash_opaque tok ∧
    rt_UserID t = res.1 ∧ rt_RevokedAt t = None ∧ (clock w < rt_ExpiresAt t)%Z ∧
    ∃ t', refresh_tokens (db w') !! k = Some t' ∧ rt_TokenHash t' = hash_opaque tok ∧
      rt_RevokedAt t' ≠ None.
Proof.
  unfold RefreshToken_Refresh. intros Hwf H.
  apply exec_bind_ok in H as (t & w1 & H1 & H).
  apply first_row_exec in H1 as ((Hd1 & Hclk & _) & Hh & k & Hk). apply bool_decide_eq_true in Hh.
  apply exec_bind_ok in H as (now & w2 & [= <- <-] & H).
  apply exec_bind_ok in H as ([] & w2 & [Hv ->]%exec_ensure_ok & H).
  unfold refresh_valid in Hv. bools. rewrite Hclk in *.
  apply exec_bind_ok in H as (u & w3 & H3 & H).
  assert (calm w1 w3) as [Hd3 _].
  { eapply calm_exec; [|exact H3]. unfold UserRepository_GetByID. calm_steps. }
  apply exec_bind_ok in H as ([] & w4 & H4 & H).
  apply exec_bind_ok in H as (new & w5 & H5 & [= <- <-]).
  pose proof (steps_in_exec evolves _ w4 (Issue_evolves (rt_UserID t))) as Hev.
  rewrite H5 in Hev. clear H5.
  apply exec_txn in H4 as [_ [fs H4]]; [|tx_frame_steps]. tx_inv H4.
  exists k, t. split_and!; [done..|].
  pose proof (proj1 (proj1 Hwf) k t Hk) as Hid. simpl in Hid.
  apply update_pk_ok in Hst as [(_ & r & Hr & _ & _ & ->)|(_ & _ & Hn)]; cbn in *;
    rewrite Hd3, Hd1, Hid in *; [|by specialize (Hn t Hk)].
  rewrite Hk in Hr. injection Hr as <-.
  unfold evolves in Hev. subst w4. cbn in Hev.
  assert (cred_evolve RefreshToken (db w) (put_row k (revoke_token (clock w3) t) (db w))) as Hrv
    by by apply (replace_evolves RefreshToken k t).
  destruct (Hrv (proj1 Hwf)) as [Hwf' _]. unfold put_row in Hwf'. cbn in Hwf'.
  destruct (proj1 Hev Hwf') as [_ Hkeep].
  destruct (Hkeep k (revoke_token (clock w3) t)) as (t' & Ht' & [= Hh' _ _] & Hr').
  { cbn. by rewrite lookup_insert_eq. }
  exists t'. split_and!; [done|by rewrite Hh'|]. specialize (Hr' eq_refl). cbn in Hr'. by bools.
Qed.

(** C30: Refresh tokens are single-use: whatever requests are interleaved after a
    refresh has succeeded, the token it was given is never accepted again. *)
Theorem refresh_single_use tok w res w' ps c' res2 w2 :
  credentials_wf (db w) → exec (RefreshToken_Refresh tok) w = (Ok res, w') →
  Forall identity_request ps →
  pool_steps (λ w w', db w' = db w) identity_request (w', ps) c' →
  exec (RefreshToken_Refresh tok) c'.1 = (res2, w2) → is_ok res2 = false.
Proof.
  intros Hwf H Hps Hsteps H2.
  destruct (Refresh_needs_live tok w res w' Hwf H) as (k & _ & _ & _ & _ & _ & _ & t & Ht & Hh & Hr).
  pose proof (steps_in_exec evolves _ w (Refresh_evolves tok)) as Hev. rewrite H in Hev.
  pose proof (credentials_evolve_wf _ _ Hev Hwf) as Hwf'.
  pose proof (identity_pool_evolves _ _ _ Hps Hsteps) as Hlater.
  pose proof (credentials_evolve_wf _ _ Hlater Hwf') as Hwf2.
  destruct (proj2 (proj1 Hlater (proj1 Hwf')) k t Ht) as (t2 & Ht2 & [= Hh2 _ _] & Hr2).
  destruct res2 as [res2|e]; [|done].
  destruct (Refresh_needs_live tok c'.1 res2 w2 Hwf2 H2) as (k3 & t3 & Ht3 & Hh3 & _ & Hlive & _).
  destruct (cred_same RefreshToken _ _ _ _ _ (proj1 Hwf2) Ht2 Ht3) as [_ ->]; [simpl; congruence|].
  simpl in Hr2. rewrite Hlive, bool_decide_false in Hr2 by done. by specialize (Hr2 eq_refl).
Qed.
End refreshing.

(** ** Password resets *)

Section resetting.
Context {X : Type} {crypto : Crypto} {laws : CryptoLaws crypto}.
Implicit Types w : World X.

Lemma GenerateFromPassword_exec pw w hash w' :
  exec (GenerateFromPassword (X:=X) pw) w = (Ok hash, w') →
  calm w w' ∧ bcrypt_compare hash pw = true.
Proof using laws.
  intros H. split; [eapply calm_exec; [|exact H]; unfold GenerateFromPassword; calm_steps;
    by destruct (bcrypt_hash a pw)|].
  apply exec_bind_ok in H as (salt & w1 & [= <- <-] & H). rewrite exec_lift in H.
  injection H as H <-. by apply bcrypt_ok in H.
Qed.

(** A reset needs a live token and a password of eight bytes or more; it
    changes that user's password and spends the token. *)
Lemma ConfirmReset_exec tok pw w w' :
  credentials_wf (db w) → exec (ConfirmReset (X:=X) tok pw) w = (Ok (), w') →
  8 ≤ String.length pw ∧
  ∃ k t hash now, password_reset_tokens (db w) !! k = Some t ∧ prt_TokenHash t = hash_opaque tok ∧
    prt_UsedAt t = None ∧ (clock w < prt_ExpiresAt t)%Z ∧ bcrypt_compare hash pw = true ∧
    db w' = tset (<[k := use_token now t]> (password_reset_tokens (db w)))
      (tset (alter (set_password (Some hash)) (prt_UserID t) (users (db w))) (db w)).
Proof using laws.
  unfold ConfirmReset. intros Hwf H.
  apply exec_bind_ok in H as ([] & w0 & [Hlen ->]%exec_ensure_ok & H). bools. split; [done|].
  apply exec_bind_ok in H as (t & w1 & H1 & H).
  apply first_row_exec in H1 as ((Hd1 & Hclk & _) & Hh & k & Hk). apply bool_decide_eq_true in Hh.
  apply exec_bind_ok in H as (now & w2 & [= <- <-] & H).
  apply exec_bind_ok in H as ([] & w2 & [Hv ->]%exec_ensure_ok & H).
  unfold reset_valid in Hv. bools. rewrite Hclk in *.
  apply exec_bind_ok in H as (hash & w3 & [(Hd3 & Hclk3 & _) Hb]%GenerateFromPassword_exec & H).
  apply exec_bind_ok in H as ([] & w4 & H4 & H5).
  apply update_row_exec in H4; [|done|by intros [???????????????[]?]].
  apply (update_now_exec (T:=PasswordResetToken) _ use_token) in H5 as [now H5];
    [|done|by intros [???????????????[]?]].
  pose proof (proj1 (proj1 (proj2 Hwf)) k t Hk) as Hid. simpl in Hid, Hk. rewrite Hid in H5.
  exists k, t, hash, now. rewrite H5, H4, Hd3, Hd1. split_and!; try done.
  f_equal. simpl. apply map_eq. intros j. destruct (decide (j = k)) as [->|].
  - by rewrite lookup_insert_eq, lookup_alter_eq, Hk.
  - by rewrite lookup_insert_ne, lookup_alter_ne.
Qed.

(** Setting passwords keeps the usernames apart. *)
Lemma usernames_unique_alter d d' hash id :
  users d' = alter (set_password hash) id (users d) → usernames_unique d → usernames_unique d'.
Proof using Type.
  intros He Hu k1 k2 u1 u2. rewrite He.
  assert (∀ k u, alter (set_password hash) id (users d) !! k = Some u →
    ∃ u0, users d !! k = Some u0 ∧ user_Username u = user_Username u0 ∧
      u = if decide (k = id) then set_password hash u0 else u0) as Hold.
  { intros k u Hk. destruct (decide (k = id)) as [->|].
    - rewrite lookup_alter_eq in Hk. apply fmap_Some in Hk as (u0 & ? & ->). by exists u0.
    - rewrite lookup_alter_ne in Hk by done. by exists u. }
  intros (a & Ha & Hna & _)%Hold (b & Hb & Hnb & _)%Hold Hn. eapply Hu; [done..|congruence].
Qed.

(** C31: A password reset lets the user in with the new password, and its token
    is spent: a reset succeeds only with a live token and a password of eight
    bytes or more, it changes nothing but the token and the password of the
    user the token was sent to, who then signs in with it; and whatever
    requests are interleaved after it, the token is never accepted again. *)
Theorem ConfirmReset_ok tok pw w w' :
  credentials_wf (db w) → usernames_unique (db w) →
  exec (ConfirmReset (X:=X) tok pw) w = (Ok (), w') →
  8 ≤ String.length pw ∧
  ∃ k t hash now, password_reset_tokens (db w) !! k = Some t ∧ prt_TokenHash t = hash_opaque tok ∧
    prt_UsedAt t = None ∧ (clock w < prt_ExpiresAt t)%Z ∧
    db w' = tset (<[k := use_token now t]> (password_reset_tokens (db w)))
      (tset (alter (set_password (Some hash)) (prt_UserID t) (users (db w))) (db w)) ∧
    (∀ u w2, users (db w) !! prt_UserID t = Some u → user_AuthSource u = AuthSourceLocal →
       users (db w2) = users (db w') → faults w2 = [] →
       exec (Authenticate (X:=X) (user_Username u) pw) w2 = (Ok (set_password (Some hash) u), w2)) ∧
    (∀ ps c' pw', Forall identity_request ps →
       pool_steps (λ w w', db w' = db w) identity_request (w', ps) c' →
       is_ok (exec (ConfirmReset (X:=X) tok pw') c'.1).1 = false).
Proof using laws.
  intros Hwf Hu H.
  pose proof (steps_in_exec evolves _ w (ConfirmReset_evolves tok pw)) as Hev. rewrite H in Hev.
  apply ConfirmReset_exec in H as (Hlen & k & t & hash & now & Hk & Hh & Hused & Hexp & Hc & Hd); [|done].
  split; [done|]. exists k, t, hash, now. split_and!; try done.
  - intros u w2 Hid Hl Hus Hf. rewrite Hd in Hus. simpl in Hus.
    pose proof (Authenticate_total (user_Username u) pw w2 Hf) as Ha.
    destruct (exec _ w2) as [r w3]. destruct Ha as (-> & Hok & _).
    { by eapply usernames_unique_alter. }
    f_equal. apply Hok. split_and!; [|done..|by exists hash].
    exists (prt_UserID t). by rewrite Hus, lookup_alter_eq, Hid.
  - intros ps c' pw' Hps Hsteps.
    pose proof (credentials_evolve_wf _ _ Hev Hwf) as Hwf'.
    pose proof (identity_pool_evolves _ _ _ Hps Hsteps) as Hlater.
    pose proof (credentials_evolve_wf _ _ Hlater Hwf') as Hwf2.
    destruct (exec _ c'.1) as [[[]|e] w2] eqn:H2; [|done].
    apply ConfirmReset_exec in H2 as (_ & k3 & t3 & _ & _ & Hk3 & Hh3 & Hu3 & _); [|done].
    destruct (proj2 (proj1 (proj2 Hlater) (proj1 (proj2 Hwf'))) k (use_token now t))
      as (t2 & Ht2 & [= Hh2 _ _] & Hs2).
    { rewrite Hd. simpl. by rewrite lookup_insert_eq. }
    destruct (cred_same PasswordResetToken _ _ _ _ _ (proj1 (proj2 Hwf2)) Ht2 Hk3) as [_ ->];
      [simpl; congruence|].
    simpl in Hs2. rewrite Hu3 in Hs2. by specialize (Hs2 eq_refl).
Qed.
End resetting.

(** ** API keys *)

Section api_keys.
Context {X : Type} {crypto : Crypto}.
Implicit Types w : World X.

Lemma valid_scopes_ok scopes : valid_scopes scopes = Ok () ↔ Forall (λ s, s ∈ AllPermissions) scopes.
Proof.
  induction scopes as [|s scopes IH]; simpl; [by split|]. unfold IsValidScope.
  rewrite Forall_cons. case_bool_decide; naive_solver.
Qed.

Lemma NewAPIKey_ok id now t o name hash scopes expiry k :
  NewAPIKey id now t o name hash scopes expiry = Ok k →
  k = mkAPIKey id t o name hash scopes (default (now + DefaultAPIKeyTTL)%Z expiry) None None now ∧
  (∀ e, expiry = Some e → (now < e)%Z).
Proof.
  unfold NewAPIKey. destruct (negb _); [done|]. do 2 (case_bool_decide; [done|]).
  destruct expiry as [e|]; [case_bool_decide|]; simpl; naive_solver.
Qed.

Lemma identity_gate_ok e ctx o u w w' :
  exec (identity_gate (X:=X) e ctx o u) w = (Ok (), w') →
  calm w w' ∧ is_member (db w) o u ∧ may (db w) ctx o u "organization:manage".
Proof. apply permission_gate_ok. Qed.

(** The only row of [api_keys] with hash [h] is [k]'s, of organization [o]. *)
Definition sole_key (d : DB) (o h : string) (k : APIKey) : Prop :=
  api_keys d !! ak_ID k = Some (mkAPIKeyRow o k) ∧ ak_KeyHash k = h ∧
  ∀ id row, api_keys d !! id = Some row → ak_KeyHash (akr_Key row) = h → row = mkAPIKeyRow o k.

Lemma CreateAPIKey_exec ctx inp w k plain w' :
  exec (CreateAPIKey (X:=X) ctx inp) w = (Ok (k, plain), w') →
  let o := cak_OrganizationID inp in
  is_member (db w) o (cak_RequestingUserID inp) ∧
  may (db w) ctx o (cak_RequestingUserID inp) "organization:manage" ∧
  (∃ a, service_accounts (db w) !! cak_ServiceAccountID inp = Some a ∧ sa_OrganizationID a = o) ∧
  Forall (λ s, s ∈ AllPermissions) (cak_Scopes inp) ∧
  ak_OwnerID k = cak_ServiceAccountID inp ∧ ak_Scopes k = cak_Scopes inp ∧ ak_RevokedAt k = None ∧
  (clock w < ak_ExpiresAt k)%Z ∧ (∃ id, plain = opaque id) ∧
  sole_key (db w') o (hash_opaque plain) k ∧ db w' = put_row (ak_ID k) (mkAPIKeyRow o k) (db w).
Proof.
  unfold CreateAPIKey. intros H. cbv zeta.
  apply exec_bind_ok in H as ([] & w1 & H1 & H).
  apply identity_gate_ok in H1 as ((Hd1 & Hc1 & _) & Hm & Hp).
  apply exec_bind_ok in H as (a & w2 & H2 & H).
  assert (calm w1 w2) as (Hd2 & Hc2 & _).
  { eapply calm_exec; [|exact H2]. unfold ServiceAccountRepository_GetByID. calm_steps. }
  apply exec_txn in H2 as [_ [fs H2]]; [|tx_frame_steps].
  apply get_row_ok in H2 as [_ (Ha & _ & Ho)%row_at_Some]. simpl in Ha. rewrite Hd1 in Ha. bools.
  apply exec_bind_ok in H as ([] & w2' & H3 & H). rewrite exec_lift in H3. injection H3 as Hs <-.
  apply valid_scopes_ok in Hs. unfold GenerateOpaqueToken in H.
  apply exec_bind_ok in H as (p & w3 & H3 & H). injection H3 as <- <-.
  apply exec_bind_ok in H as (id & w4 & [= <- <-] & H).
  apply exec_bind_ok in H as (now & w5 & [= <- <-] & H).
  apply exec_bind_ok in H as (key & w6 & H6 & H). rewrite exec_lift in H6. injection H6 as H6 <-.
  apply NewAPIKey_ok in H6 as [-> Hexp]. simpl in Hexp. rewrite Hc2, Hc1 in *.
  apply exec_bind_ok in H as ([] & w7 & H7 & [= <- <- <-]).
  apply exec_txn in H7 as [_ [fs' H7]]; [|tx_frame_steps].
  apply insert_row_ok in H7 as (_ & Hn & Hc & _ & ->). simpl in *. rewrite Hd2, Hd1 in *.
  split_and!; try done; [by exists a| |by eexists|].
  - destruct (cak_ExpiresAt inp) as [e|]; simpl; [by apply Hexp|].
    unfold DefaultAPIKeyTTL, second_ns. lia.
  - split; [apply lookup_insert_eq|]. split; [done|]. simpl. intros j row.
    intros [[<- <-]|[_ Hj]]%lookup_insert_Some Hh; [done|].
    apply (proj1 (existsb_rows_false _ _)) with (id := j) (r := row) in Hc; [|done].
    simpl in Hc. by rewrite Hh, bool_decide_true in Hc.
Qed.

(** The resolver's answer for a key in the table. *)
Lemma resolver_exec plain w id row :
  credentials_wf (db w) → faults w = [] →
  api_keys (db w) !! id = Some row → ak_KeyHash (akr_Key row) = hash_opaque plain →
  (exec (apiKeyResolver (X:=X) plain) w).1 =
    if key_valid (clock w) (akr_Key row) then Ok (ak_OwnerID (akr_Key row), ak_Scopes (akr_Key row))
    else Err ErrAPIKeyInvalid.
Proof.
  intros Hwf Hf Hrow Hh. unfold apiKeyResolver, APIKeyRepository_GetByHash. rewrite exec_bind.
  destruct (exec_txn_nofault (AppRole None)
    (row ← first_row (λ k, ak_KeyHash (akr_Key k) =ₛ HashOpaqueToken plain) ErrAPIKeyInvalid;
     mret (akr_Key row)) w) as [-> _]; [tx_frame_steps|done|].
  unfold mbind at 1, tx_bind.
  destruct (first_row_cases (λ k, ak_KeyHash (akr_Key k) =ₛ HashOpaqueToken plain) ErrAPIKeyInvalid w)
    as [(r & -> & HP & k & Hk)|[-> Hn]]; [done| |].
  2:{ specialize (Hn id row Hrow). by rewrite Hh, bool_decide_true in Hn. }
  bools. destruct (cred_same APIKeyRow _ _ _ _ _ (proj2 (proj2 Hwf)) Hrow Hk) as [_ <-];
    [simpl; by rewrite Hh, HP|].
  simpl. unfold ensure. destruct (key_valid (clock w) (akr_Key row)); [|done].
  simpl. by destruct (run_txn _ _ w) as [[]].
Qed.

(** What later requests may do to a key. *)
Lemma key_kept w ps c' id row :
  credentials_wf (db w) → Forall identity_request ps →
  pool_steps (λ w w', db w' = db w) identity_request (w, ps) c' →
  api_keys (db w) !! id = Some row →
  credentials_wf (db c'.1) ∧
  ∃ row', api_keys (db c'.1) !! id = Some row' ∧ terms row' = terms row ∧
    (ak_RevokedAt (akr_Key row) ≠ None → ak_RevokedAt (akr_Key row') ≠ None).
Proof.
  intros Hwf Hps Hsteps Hrow. pose proof (identity_pool_evolves _ _ _ Hps Hsteps) as Hlater.
  split; [by eapply credentials_evolve_wf|].
  destruct (proj2 (proj2 (proj2 Hlater) (proj2 (proj2 Hwf))) id row Hrow) as (row' & Hr & Ht & Hs).
  exists row'. split_and!; [done..|]. intros Hne. simpl in Hs.
  rewrite bool_decide_false in Hs by done. specialize (Hs eq_refl). by bools.
Qed.

Context (parse_jwt : string → string → Z → option string) (secret : string).

(** The credential of an opaque key is the resolver's answer. *)
Lemma RequireAuth_key (next : HandlerFunc) rq plain w :
  rq_Authorization rq = "Bearer " +:+ plain → plain ≠ "" → count_dots plain ≠ 2 →
  ∃ w1, exec (RequireAuth parse_jwt (Some apiKeyResolver) secret next rq) w =
    match (exec (apiKeyResolver plain) w).1 with
    | Ok (subject, scopes) => exec (next (with_ctx (mkCtx (Some subject) (Some scopes)) rq)) w1
    | Err _ => (Ok (WriteProblem (rq_XRequestID rq) StatusUnauthorized
                      "missing or malformed Authorization header" ""), w1)
    end.
Proof.
  intros Hrq Hne Hdots. unfold RequireAuth. rewrite exec_bind, exec_try. unfold authenticate.
  rewrite Hrq. replace (cut_prefix _ _) with (Some plain) by reflexivity.
  rewrite !bool_decide_false by done. rewrite exec_bind.
  destruct (exec (apiKeyResolver plain) w) as [[[subject scopes]|e] w1]; by exists w1.
Qed.


(** C29: Revoking an API key is for good: a manager of its organization revokes a
    key that was not revoked, and whatever requests are interleaved after
    that, a request that presents its text is answered 401. *)
Theorem RevokeAPIKey_final ctx inp w w' ps c' (next : HandlerFunc) rq plain :
  credentials_wf (db w) → exec (RevokeAPIKey (X:=X) ctx inp) w = (Ok (), w') →
  Forall identity_request ps →
  pool_steps (λ w w', db w' = db w) identity_request (w', ps) c' →
  faults c'.1 = [] → rq_Authorization rq = "Bearer " +:+ plain → plain ≠ "" → count_dots plain ≠ 2 →
  let o := rak_OrganizationID inp in
  is_member (db w) o (rak_RequestingUserID inp) ∧
  may (db w) ctx o (rak_RequestingUserID inp) "organization:manage" ∧
  ∃ row, api_keys (db w) !! rak_APIKeyID inp = Some row ∧ akr_OrganizationID row = o ∧
    ak_RevokedAt (akr_Key row) = None ∧
    (ak_KeyHash (akr_Key row) = hash_opaque plain →
     ∃ w1, exec (RequireAuth parse_jwt (Some apiKeyResolver) secret next rq) c'.1 =
       (Ok (WriteProblem (rq_XRequestID rq) StatusUnauthorized
              "missing or malformed Authorization header" ""), w1)).
Proof using All.
  intros Hwf H Hps Hsteps Hf Hrq Hne Hdots. cbv zeta.
  pose proof (steps_in_exec evolves _ w (RevokeAPIKey_evolves ctx inp)) as Hev. rewrite H in Hev.
  pose proof (credentials_evolve_wf _ _ Hev Hwf) as Hwf'.
  unfold RevokeAPIKey in H. apply exec_bind_ok in H as ([] & w1 & H1 & H).
  apply identity_gate_ok in H1 as ((Hd1 & _) & Hm & Hp). split_and!; [done..|].
  apply exec_txn in H as [_ [fs H]]; [|tx_frame_steps]. tx_inv H.
  apply affected_ok in H as (n & H & Hn).
  apply update_pk_ok in H as [(-> & row & Hrow & _ & HP & ->)|(-> & _)]; [|done].
  simpl in Hrow. rewrite Hd1 in Hrow. bools.
  exists row. split_and!; [done..|]. intros Hh.
  destruct (key_kept _ _ _ (rak_APIKeyID inp) (set_key (set_revoked (clock w1)) row) Hwf' Hps Hsteps)
    as (Hwf2 & row2 & Hrow2 & [= Ht1 Ht2 Ht3 Ht4] & Hr); [simpl; by rewrite lookup_insert_eq|].
  destruct (RequireAuth_key next rq plain c'.1 Hrq Hne Hdots) as [w2 ->].
  rewrite (resolver_exec plain c'.1 _ row2) by (done || congruence). unfold key_valid.
  rewrite bool_decide_false; [|by apply Hr]. by exists w2.
Qed.
End api_keys.

(** ** A concrete installation *)

(** Hashing made visible. *)
#[local] Instance demo_crypto : Crypto := {|
  bcrypt_hash salt password := Ok ("bcrypt:" +:+ password);
  bcrypt_compare hash password := hash =ₛ "bcrypt:" +:+ password;
  opaque entropy := "token-" +:+ entropy;
  hash_opaque token := "sha256:" +:+ token |}.

#[local] Instance demo_crypto_laws : CryptoLaws demo_crypto.
Proof. split. intros salt pw hash [= <-]. by apply bool_decide_eq_true. Qed.

(** alice has a password, and her organization a service account. *)
Definition signed_up : DB :=
  put_row "alice" (set_password (Some "bcrypt:open sesame")
                     (demo_user "alice" "alice" "alice@acme.io" true))
    (put_row "sa" (mkServiceAccount "sa" "org" "ci" "" 0) demo_db).
Definition home : World (Cluster Keyspace) := demo_at signed_up demo_cluster.

Lemma signed_up_usernames : usernames_unique signed_up.
Proof.
  intros k1 k2 u1 u2. unfold signed_up. simpl.
  rewrite !lookup_insert_Some, !lookup_singleton_Some. naive_solver.
Qed.

Lemma signed_up_wf : credentials_wf signed_up.
Proof. split_and!; split; by intros. Qed.

Lemma Authenticate_spec_witness :
  faults home = [] ∧ usernames_unique (db home) ∧
  ∃ u, exec (Authenticate "alice" "open sesame") home = (Ok u, home) ∧
    signs_in (db home) "alice" "open sesame" u.
Proof.
  split; [done|]. split; [exact signed_up_usernames|].
  pose proof (Authenticate_spec "alice" "open sesame" home eq_refl signed_up_usernames) as H.
  destruct (exec (Authenticate "alice" "open sesame") home) as [[u|e] w'] eqn:Hx; [|by vm_compute in Hx].
  destruct H as (-> & Hok & _). exists u. split; [done|]. by apply Hok.
Defined.

(** alice's refresh token, and a world in which it was used once. *)
Definition with_token : World (Cluster Keyspace) := (exec (RefreshToken_Issue "alice") home).2.
Definition alice_token : string := "token-uuid-0".

Lemma with_token_wf : credentials_wf (db with_token).
Proof.
  eapply credentials_evolve_wf; [|exact signed_up_wf].
  exact (steps_in_exec evolves _ home (Issue_evolves "alice")).
Qed.

(** Another token issued, and the first one tried, in between. *)
Definition others : pool (W:=World (Cluster Keyspace)) :=
  [void (RefreshToken_Issue "bob"); void (RefreshToken_Refresh alice_token)].

Lemma others_requests : Forall identity_request others.
Proof. repeat constructor. Qed.

Lemma refresh_single_use_witness : ∃ res w',
  exec (RefreshToken_Refresh alice_token) with_token = (Ok res, w') ∧
  let c' := sched (replicate 6 0 ++ replicate 6 1) (w', others) in
  is_ok (exec (RefreshToken_Refresh alice_token) c'.1).1 = false.
Proof.
  destruct (exec (RefreshToken_Refresh alice_token) with_token) as [[res|e] w'] eqn:H;
    [|by vm_compute in H].
  exists res, w'. split; [done|]. intros c'.
  apply (refresh_single_use alice_token with_token res w' others c' _
           (exec (RefreshToken_Refresh alice_token) c'.1).2
           with_token_wf H others_requests (sched_steps _ _ _ _)).
  apply surjective_pairing.
Defined.

(** A refresh is four transactions: two with the same token that overlap
    both succeed. *)
Theorem refresh_used_twice : ∃ c',
  c' = sched (replicate 3 0 ++ replicate 10 1 ++ replicate 10 0)
    (with_token, [_ ← RefreshToken_Refresh alice_token; Ret ();
                  _ ← RefreshToken_Refresh alice_token; Ret ()]) ∧
  c'.2 = [Ret (); Ret ()] ∧ size (refresh_tokens (db c'.1)) = 3.
Proof. eexists. split; [reflexivity|]. by vm_compute. Qed.

(** alice forgets her password. *)
Definition asked : World (Cluster Keyspace) := (exec (RequestReset "alice@acme.io") home).2.

Lemma asked_wf : credentials_wf (db asked).
Proof.
  eapply credentials_evolve_wf; [|exact signed_up_wf].
  exact (steps_in_exec evolves _ home (reset_evolves "alice@acme.io")).
Qed.

Lemma ConfirmReset_ok_witness : ∃ w',
  exec (ConfirmReset alice_token "tr0ub4dor") asked = (Ok (), w') ∧
  is_ok (exec (Authenticate "alice" "tr0ub4dor") w').1 = true ∧
  is_ok (exec (ConfirmReset alice_token "correct horse") w').1 = false.
Proof.
  destruct (exec (ConfirmReset alice_token "tr0ub4dor") asked) as [[[]|e] w'] eqn:H;
    [|by vm_compute in H].
  exists w'. split; [done|].
  assert (usernames_unique (db asked)) as Hu.
  { intros k1 k2 u1 u2. replace (users (db asked)) with (users signed_up) by by vm_compute.
    apply signed_up_usernames. }
  destruct (ConfirmReset_ok alice_token "tr0ub4dor" asked w' asked_wf Hu H)
    as (_ & k & t & hash & now & Hk & _ & _ & _ & _ & Hin & Hspent).
  split; [|by apply (Hspent [] (w', [])); [constructor|apply rtc_refl]].
  clear Hin Hspent Hk. by vm_compute in H; injection H as <-; vm_compute.
Defined.

(** alice makes a key for the service account; a request presents it. *)
Definition make_key : CreateAPIKeyInput :=
  {| cak_OrganizationID := "org"; cak_RequestingUserID := "alice"; cak_ServiceAccountID := "sa";
     cak_Name := "deploy"; cak_Scopes := [PermissionWorkspaceApply]; cak_ExpiresAt := None |}.
Definition whoami : HandlerFunc (X:=Cluster Keyspace) := λ rq,
  Ret (respond (default "" (ctx_userID (rq_ctx rq))) StatusOK BodyEmpty).
Definition with_key : Request := mkRequest "GET" [] ∅ "" ("Bearer " +:+ alice_token) "" "" "" ∅
  background.
Definition no_jwt (secret token : string) (now : Z) : option string := None.

(** A password reset and a use of the key go on meanwhile. *)
Definition meanwhile : pool (W:=World (Cluster Keyspace)) :=
  [void (RequestReset "alice@acme.io"); void (apiKeyResolver alice_token)].

Lemma meanwhile_requests : Forall identity_request meanwhile.
Proof. repeat constructor. Qed.


(** The key in the table, to be revoked. *)
Definition keyed : World (Cluster Keyspace) := (exec (CreateAPIKey background make_key) home).2.
Definition revoke_key : RevokeAPIKeyInput :=
  {| rak_OrganizationID := "org"; rak_RequestingUserID := "alice"; rak_APIKeyID := "uuid-1" |}.

Lemma RevokeAPIKey_final_witness : ∃ w',
  exec (RevokeAPIKey background revoke_key) keyed = (Ok (), w') ∧
  let c' := sched (replicate 8 0 ++ replicate 8 1) (w', meanwhile) in
  ∃ row, api_keys (db keyed) !! "uuid-1" = Some row ∧
    (ak_KeyHash (akr_Key row) = "sha256:token-uuid-0" →
     ∃ w1, exec (RequireAuth no_jwt (Some apiKeyResolver) "secret" whoami with_key) c'.1 =
       (Ok (WriteProblem "" StatusUnauthorized "missing or malformed Authorization header" ""), w1)).
Proof.
  destruct (exec (RevokeAPIKey background revoke_key) keyed) as [[[]|e] w'] eqn:H;
    [|by vm_compute in H].
  exists w'. split; [done|]. intros c'.
  assert (credentials_wf (db keyed)) as Hwf.
  { eapply credentials_evolve_wf; [|exact signed_up_wf].
    exact (steps_in_exec evolves _ home (CreateAPIKey_evolves background make_key)). }
  destruct (RevokeAPIKey_final no_jwt "secret" background revoke_key keyed w' meanwhile c'
    whoami with_key alice_token Hwf H meanwhile_requests (sched_steps _ _ _ _))
    as (_ & _ & row & Hrow & _ & _ & Hrun).
  - clear -H. by vm_compute in H; injection H as <-; vm_compute.
  - done.
  - done.
  - done.
  - exists row. split; [exact Hrow|exact Hrun].
Defined.
