(* ===== verification/SessionSpec.v ===== *)
(** * Sessions: signing in over HTTP, and watching an operation

    The access token a login answers with is good for what it says; a message
    published about an operation is read back as it was; a watcher is told of
    the operation's end. *)
From Stdlib Require Import Ascii.
From stdpp Require Import pretty.
From S2P Require Import Prelude Prog IdentityDomain FleetDomain Store Principal Ports IdentityRepo.
From S2P Require Import IdentityApp DeployExecutor Json Http HttpIdentity Stream RbacSpec HttpSpec RoutesSpec IdentitySpec.

(** ** Access tokens *)

(** A claim of time is in whole seconds ([jwt.NewNumericDate]). *)
Definition numeric_date (t : Z) : Z := (t / second_ns * second_ns)%Z.

(** What the JWT library promises of HS256: a signed token is three parts, and
    with the same key it is its subject's until it expires. *)
Class JWTLaws (parse_jwt : string → string → Z → option string)
    (sign_jwt : string → string → Z → Z → res string) : Prop := {
  jwt_parts secret subject issued expires token :
    sign_jwt secret subject issued expires = Ok token → token ≠ "" ∧ count_dots token = 2;
  jwt_lifetime secret subject issued expires token now :
    sign_jwt secret subject issued expires = Ok token →
    parse_jwt secret token now =
      if bool_decide (now < numeric_date expires)%Z then Some subject else None;
}.

Lemma cut_prefix_app p s : cut_prefix p (p +:+ s) = Some s.
Proof. induction p as [|c p IH]; simpl; [done|]. by rewrite bool_decide_true. Qed.

Section success.
Context {X : Type} `{!JSON, !Crypto}.
Implicit Types w : World X.

(** Who is let in has shown the password. *)
Lemma Authenticate_signs_in name pw w u w' :
  exec (Authenticate name pw) w = (Ok u, w') → calm w w' ∧ signs_in (db w) name pw u.
Proof.
  unfold Authenticate, UserRepository_GetByUsername. rewrite exec_bind, exec_try.
  destruct (exec _ w) as [[user|err] w1] eqn:H1; [|done].
  apply first_row_exec in H1 as (Hc & Hn & k & Hk). apply bool_decide_eq_true in Hn.
  destruct (user_PasswordHash user) as [hash|] eqn:Hh; [|done].
  intros ([] & w2 & [Hb ->]%exec_ensure_ok & [= -> ->])%exec_bind_ok. bools.
  split; [done|]. split_and!; eauto.
Qed.

(** A handler that answers no error got what it asked for. *)
Lemma decode_success {A} type d (zero : A) rq k w resp w' :
  exec (decode_body (X:=X) type d zero rq k) w = (Ok resp, w') → (rs_Status resp < 400)%Z →
  ∃ v req, json_decode (rq_Body rq) = Decoded v ∧ d v zero = Some req ∧
    exec (k req) w = (Ok resp, w').
Proof.
  unfold decode_body. intros Hx Hs.
  repeat case_match; [| |by eauto|]; injection Hx as <- <-; by simpl in Hs.
Qed.

Lemma attempt_success {A} rq writeError (service : prog (World X) A) k w resp w' :
  maps_errors writeError → exec (attempt rq writeError service k) w = (Ok resp, w') →
  (rs_Status resp < 400)%Z → ∃ a w1, exec service w = (Ok a, w1) ∧ exec (k a) w1 = (Ok resp, w').
Proof.
  unfold attempt. rewrite exec_bind, exec_try. intros He Hx Hs.
  destruct (exec service w) as [[a|e] w1]; [eauto|].
  injection Hx as <- <-. destruct (He (rq_XRequestID rq) e) as [_ Hge]. lia.
Qed.
End success.

Section login.
Context {X : Type} `{!JSON, !Crypto}.
Context (parse_jwt : string → string → Z → option string).
Context (sign_jwt : string → string → Z → Z → res string).
Context `{!JWTLaws parse_jwt sign_jwt}.
Context (resolveAPIKey : option (string → prog (World X) (string * list string))).
Context (secret : string).
Context (allow : string → prog (World X) (bool * Z)).
Implicit Types w : World X.

End login.

(** ** Watching an operation *)

(** A message about an operation is read off the channel as it was put on
    it: a line of output, or the end with its exit code. *)
Theorem message_round_trip `{!JSON} m :
  json_unmarshal (json_marshal (message_json m)) = Some (message_json m) →
  (∀ n, lm_ExitCode m = Some n → (- 2 ^ 63 ≤ n < 2 ^ 63)%Z) →
  read_message (json_marshal (message_json m)) = Some m.
Proof.
  intros Htext Hn. unfold read_message. rewrite Htext. destruct m as [line isDone exitCode]. simpl in *.
  unfold message_json, dec_LogMessage, omit_empty. simpl.
  case_bool_decide as Hline; destruct isDone, exitCode as [n|]; simpl;
    unfold member; simpl; rewrite ?bool_decide_true by auto; by subst.
Qed.

Section watching.
Context {X : Type} `{!JSON}.
Implicit Types w : World X.

Definition is_data (frame : string) : Prop := ∃ line, frame = data_frame line.

Lemma writeSSEData_data s : Forall is_data (writeSSEData s).
Proof.
  unfold writeSSEData. apply Forall_app. split.
  - apply Forall_map, Forall_forall. intros line _. by exists line.
  - case_bool_decide; repeat constructor. by exists "".
Qed.

(** The end of an operation as a watcher may learn it: from the row, or from a
    message that came first. *)
Definition told (o : Operation) (events : list stream_event) (code : option Z) : Prop :=
  code = op_ExitCode o ∨
  ∃ payload m, ChannelMessage payload ∈ events ∧ read_message payload = Some m ∧
    lm_Done m = true ∧ lm_ExitCode m = code.

(** C22: No watcher is left waiting.  Once the operation has finished, whatever
    was published or missed, the next recheck at the latest ends the stream:
    what was written is data and then one [done] event, with the exit code of
    the operation or of the message that announced its end. *)
Theorem stream_ends poll o before after w :
  exec poll w = (Ok o, w) → finished o = true →
  Forall (λ e, e ≠ ContextDone ∧ e ≠ ChannelClosed) before →
  ∃ frames code, Forall is_data frames ∧ told o before code ∧
    exec (log_loop (X:=X) poll (before ++ RecheckTick :: after)) w =
      (Ok (frames ++ done_event code, true), w).
Proof.
  intros Hpoll Ho. induction 1 as [|e before [Hd Hc] _ IH]; simpl.
  - exists [], (op_ExitCode o). rewrite exec_bind, exec_try, Hpoll, Ho.
    split; [constructor|]. split; [by left|done].
  - destruct IH as (frames & code & Hf & Ht & Hx).
    assert (told o (e :: before) code) as Ht'.
    { destruct Ht as [?|(payload & m & Hin & ?)]; [by left|right; exists payload, m].
      split; [by apply elem_of_cons; right|done]. }
    destruct e as [|payload| |]; try done.
    + destruct (read_message payload) as [m|] eqn:Hm; [|by exists frames, code].
      destruct (lm_Done m) eqn:Hdone.
      * exists [], (lm_ExitCode m). split; [constructor|]. split; [|done].
        right. exists payload, m. split; [apply elem_of_cons; by left|done].
      * exists (writeSSEData (lm_Line m) ++ frames), code.
        split; [by apply Forall_app; split; [apply writeSSEData_data|]|]. split; [done|].
        rewrite exec_bind, Hx. simpl. by rewrite app_assoc.
    + exists [], (op_ExitCode o). rewrite exec_bind, exec_try, Hpoll, Ho.
      split; [constructor|]. split; [by left|done].
Qed.
End watching.

Lemma append_assoc (a b c : string) : (a +:+ b) +:+ c = a +:+ (b +:+ c).
Proof. induction a as [|x a IH]; [done|]. by apply (f_equal (String x)). Qed.
Lemma append_nil (a : string) : a +:+ "" = a.
Proof. induction a as [|x a IH]; [done|]. by apply (f_equal (String x)). Qed.

(** A line of 64 KiB or more ends the replay of an output there: neither it nor
    anything after it is written, since the scanner's error is not looked at. *)
Lemma raw_lines_first line part rest :
  Forall (λ c, c ≠ "010"%char) (String.list_ascii_of_string line) →
  raw_lines part (line +:+ String "010" rest) = (part +:+ line) :: raw_lines "" rest.
Proof.
  revert part. induction line as [|c line IH]; intros part; cbn [String.list_ascii_of_string].
  - intros _. by rewrite append_nil.
  - intros [Hc Hl]%Forall_cons.
    change (String c line +:+ String "010" rest) with (String c (line +:+ String "010" rest)).
    cbn [raw_lines]. by rewrite bool_decide_false, IH, append_assoc by done.
Qed.

Theorem long_line_ends_the_output line rest :
  Forall (λ c, c ≠ "010"%char) (String.list_ascii_of_string line) → max_line < String.length line →
  writeSSEData (line +:+ String "010" rest) = [].
Proof.
  intros Hc Hl. unfold writeSSEData. rewrite raw_lines_first by done.
  change ("" +:+ line) with line. cbn [scanned].
  destruct (Nat.leb_spec (String.length line) max_line) as [|_]; [lia|].
  rewrite bool_decide_false; [done|by destruct line].
Qed.
