(* ===== verification/FleetTextSpec.v ===== *)
(** * What the deploy executor's text functions guarantee

    Scrubbed text holds no secret; a quoted path is one shell word; a deploy
    directory's name is made of the words of the compose file's name; a
    template is rendered only when every variable is defined. *)
From S2P Require Import Prelude FleetDomain FleetText.

(** ** Occurrences *)

Definition occurs (p s : bytes) : Prop := ∃ a b, s = a ++ p ++ b.

Lemma has_prefix_spec p s : has_prefix p s = true ↔ ∃ b, s = p ++ b.
Proof.
  revert s; induction p as [|a p IH]; intros [|c s]; simpl; try naive_solver.
  rewrite andb_true_iff, bool_decide_eq_true, IH. naive_solver.
Qed.

Lemma occurs_cons p c s : p ≠ [] → occurs p (c :: s) ↔ has_prefix p (c :: s) = true ∨ occurs p s.
Proof.
  intros Hp. rewrite has_prefix_spec. split.
  - intros ([|x a] & b & Heq); simpl in Heq; [left; eauto|right].
    injection Heq as -> ->. by exists a, b.
  - intros [[b Heq]|(a & b & ->)]; [by exists [], b|by exists (c :: a), b].
Qed.

(** ** Replacing *)

Section replacing.
Context (mask : bytes).

(** [p] shares no byte with the mask. *)
Definition mask_free (p : bytes) : Prop := ∀ c, c ∈ p → c ∉ mask.

(** What follows a match is scanned on its own. *)
Lemma replace_from_skip old n s :
  replace_from old mask n s = replace_from old mask 0 (drop n s).
Proof. revert n; induction s as [|c s IH]; intros [|n]; simpl; try done. Qed.

Lemma replace_match old s :
  old ≠ [] → replace_from old mask 0 (old ++ s) = mask ++ replace_from old mask 0 s.
Proof.
  intros Hold. destruct old as [|c old]; [done|]. simpl.
  assert (has_prefix (c :: old) (c :: old ++ s) = true) as Hpre.
  { apply has_prefix_spec. by exists s. }
  simpl in Hpre. rewrite Hpre, replace_from_skip, Nat.sub_0_r. by rewrite drop_app_length.
Qed.

(** Occurrences of a mask-free text in [mask ++ s] are occurrences in [s]. *)
Lemma occurs_after_mask p s : p ≠ [] → mask_free p → occurs p (mask ++ s) → occurs p s.
Proof.
  intros Hp Hfree. destruct p as [|x p]; [done|].
  assert (∀ m, (∀ c, c ∈ m → c ∈ mask) → occurs (x :: p) (m ++ s) → occurs (x :: p) s) as Hm.
  { induction m as [|c m IH]; [done|]. intros Hsub [Hpre|Hocc]%occurs_cons; [| |done].
    - simpl in Hpre. bools. subst. exfalso. apply (Hfree c); [by left|]. apply Hsub. by left.
    - apply IH; [|done]. intros y Hy. apply Hsub. by right. }
  apply Hm. auto.
Qed.

Context (old : bytes) (Hold : old ≠ []) (Hmask : mask ≠ []).

(** A scan either stands at a match or passes one byte over. *)
Lemma replace_cases c s :
  (∃ rest, c :: s = old ++ rest ∧ length rest ≤ length s ∧
     replace_from old mask 0 (c :: s) = mask ++ replace_from old mask 0 rest) ∨
  (has_prefix old (c :: s) = false ∧
     replace_from old mask 0 (c :: s) = c :: replace_from old mask 0 s).
Proof using Hold.
  destruct (has_prefix old (c :: s)) eqn:Hpre.
  - left. apply has_prefix_spec in Hpre as [rest Heq]. exists rest. rewrite Heq.
    split_and!; [done| |by apply replace_match].
    apply (f_equal length) in Heq. rewrite length_app in Heq. simpl in Heq.
    destruct old; [done|]. simpl in Heq. lia.
  - right. split; [done|]. cbn [replace_from]. by rewrite Hpre.
Qed.

Lemma prefix_replaced p s :
  mask_free p → has_prefix p (replace_from old mask 0 s) = true → has_prefix p s = true.
Proof using Hold Hmask.
  revert s; induction p as [|x p IH]; intros s Hfree Hpre; [done|].
  destruct s as [|c s]; [done|].
  destruct (replace_cases c s) as [(rest & _ & _ & He)|[_ He]]; rewrite He in Hpre.
  - destruct mask as [|m ms] eqn:Hms; [done|]. simpl in Hpre. bools. subst x.
    exfalso. by apply (Hfree m); rewrite ?Hms; left.
  - simpl in Hpre |- *. bools. apply andb_true_iff. split; [by apply bool_decide_eq_true|].
    apply IH; [|done]. intros y Hy. apply Hfree. by right.
Qed.

(** Replacing brings no mask-free text in. *)
Lemma occurs_replaced p s :
  p ≠ [] → mask_free p → occurs p (replace_from old mask 0 s) → occurs p s.
Proof using Hold Hmask.
  intros Hp Hfree. induction s as [s IH] using (induction_ltof1 _ length). unfold ltof in IH.
  destruct s as [|c s]; [done|]. intros Hocc.
  destruct (replace_cases c s) as [(rest & Heq & Hlen & He)|[_ He]]; rewrite He in Hocc.
  - apply occurs_after_mask in Hocc; [|done..].
    apply IH in Hocc as (a & b & ->); [|simpl; lia]. rewrite Heq. exists (old ++ a), b.
    by rewrite <- app_assoc.
  - apply occurs_cons; [done|]. apply occurs_cons in Hocc as [Hpre|Hocc]; [|right|done].
    + left. rewrite <- He in Hpre. by apply prefix_replaced.
    + apply IH; [simpl; lia|done].
Qed.

(** And it leaves no occurrence of what is replaced. *)
Lemma replaced_gone s : mask_free old → ¬ occurs old (replace_from old mask 0 s).
Proof using Hold Hmask.
  intros Hfree. induction s as [s IH] using (induction_ltof1 _ length). unfold ltof in IH.
  destruct s as [|c s].
  { intros (a & b & Heq). symmetry in Heq. apply app_eq_nil in Heq as [_ [? _]%app_eq_nil]. done. }
  intros Hocc. destruct (replace_cases c s) as [(rest & Heq & Hlen & He)|[Hno He]]; rewrite He in Hocc.
  - apply occurs_after_mask in Hocc; [|done..]. eapply IH, Hocc. simpl; lia.
  - apply occurs_cons in Hocc as [Hpre|Hocc]; [| |done].
    + rewrite <- He in Hpre. apply prefix_replaced in Hpre; [congruence|done].
    + eapply IH, Hocc. simpl; lia.
Qed.
End replacing.

Lemma scrub_brings_nothing values text p :
  p ≠ [] → mask_free (to_bytes MaskedValue) p → Forall (.≠ []) values →
  occurs p (scrub values text) → occurs p text.
Proof.
  intros Hp Hfree. unfold scrub. revert text.
  induction values as [|u values IH]; cbn [foldl]; intros text Hne Hocc; [done|].
  apply Forall_cons in Hne as [Hu Hne]. specialize (IH _ Hne Hocc).
  by apply (occurs_replaced (to_bytes MaskedValue) u Hu) in IH.
Qed.

Lemma scrub_gone values text v :
  v ∈ values → v ≠ [] → Forall (.≠ []) values → mask_free (to_bytes MaskedValue) v →
  ¬ occurs v (scrub values text).
Proof.
  intros Hin Hv Hne Hfree. revert text.
  induction values as [|u values IH]; [by apply elem_of_nil in Hin|]. intros text.
  apply Forall_cons in Hne as [Hu Hne].
  apply elem_of_cons in Hin as [->|Hin]; [|by apply IH].
  change (scrub (u :: values) text) with (scrub values (ReplaceAll text u (to_bytes MaskedValue))).
  intros Hocc%scrub_brings_nothing; [|done..]. by apply replaced_gone in Hocc.
Qed.

Lemma bytes_of_text s : to_bytes (of_bytes s) = s.
Proof. apply String.list_ascii_of_string_of_list_ascii. Qed.
Lemma text_of_bytes s : of_bytes (to_bytes s) = s.
Proof. apply String.string_of_list_ascii_of_string. Qed.

(** C15: No secret survives scrubbing: a value that is scrubbed, and that has no
    byte in common with the bullets written in its place, does not occur in
    what is published or stored. *)
Theorem scrub_hides_secrets text values v :
  v ∈ values → v ≠ "" → "" ∉ values → (∀ c, c ∈ to_bytes v → c ∉ to_bytes MaskedValue) →
  ¬ occurs (to_bytes v) (to_bytes (scrubSecrets text values)).
Proof.
  intros Hin Hv Hne Hfree. unfold scrubSecrets. rewrite bytes_of_text.
  assert (∀ u, u ≠ "" → to_bytes u ≠ []) as Hnil by (by intros []).
  apply scrub_gone; [|by apply Hnil| |exact Hfree].
  - by apply list_elem_of_fmap_2.
  - apply Forall_fmap, Forall_forall. intros u Hu. apply Hnil. by intros ->.
Qed.

Lemma scrub_hides_secrets_witness :
  ¬ occurs (to_bytes "hunter2") (to_bytes (scrubSecrets "password=hunter2; hunter2" ["a"; "hunter2"])).
Proof.
  apply (scrub_hides_secrets "password=hunter2; hunter2" ["a"; "hunter2"] "hunter2").
  - right. left.
  - done.
  - by apply (bool_decide_unpack ("" ∉ ["a"; "hunter2"])).
  - apply Forall_forall. by apply (bool_decide_unpack
      (Forall (λ c, c ∉ to_bytes MaskedValue) (to_bytes "hunter2"))).
Defined.

(** Scrubbing replaces one value after another, in the order of a Go map:
    when one secret begins with another, its tail is left in the clear. *)
Theorem scrub_leaks_a_tail :
  scrubSecrets "password=hunter2-prod" ["hunter2"; "hunter2-prod"] =
    "password=" +:+ MaskedValue +:+ "-prod".
Proof. by vm_compute. Qed.

(** The lines of an operation are scrubbed one by one: a secret of more than
    one line is published as it is. *)
Theorem scrub_misses_lines :
  let nl := String "010"%char "" in
  let secret := "-----BEGIN KEY-----" +:+ nl +:+ "c2VjcmV0" in
  scrubSecrets "-----BEGIN KEY-----" [secret] = "-----BEGIN KEY-----" ∧
  scrubSecrets "c2VjcmV0" [secret] = "c2VjcmV0".
Proof. by vm_compute. Qed.

(** ** Quoting *)

(** A POSIX shell's reading of one word: within single quotes everything is
    literal; outside them a backslash takes the next byte literally, and any
    other byte is left to the shell ([None]: not a plain word). *)
Fixpoint sh_word (quoted : bool) (s : bytes) : option bytes :=
  match s with
  | [] => if quoted then None else Some []
  | c :: rest =>
      if bool_decide (c = "'"%char) then sh_word (negb quoted) rest
      else if quoted then cons c <$> sh_word true rest
      else if bool_decide (c = "\"%char) then
        match rest with c' :: rest => cons c' <$> sh_word false rest | [] => None end
      else None
  end.

Lemma sh_word_quoted s :
  sh_word true (replace_from (to_bytes "'") (to_bytes "'\''") 0 s ++ to_bytes "'") = Some s.
Proof.
  induction s as [|c s IH]; [done|]. cbn [replace_from].
  destruct (has_prefix (to_bytes "'") (c :: s)) eqn:Hpre.
  - simpl in Hpre. bools. subst. simpl in IH |- *. by rewrite IH.
  - simpl in Hpre. rewrite andb_true_r in Hpre. bools.
    simpl. rewrite bool_decide_false by congruence. simpl in IH. by rewrite IH.
Qed.

(** C20: Whatever the path, [shellQuote] makes it one word of the remote command,
    which a shell reads back as the path itself. *)
Theorem shellQuote_round_trip s : sh_word false (to_bytes (shellQuote s)) = Some (to_bytes s).
Proof.
  unfold shellQuote, quote_bytes. rewrite bytes_of_text. apply sh_word_quoted.
Qed.

(** ** Deploy directories *)

(** The maximal runs of letters and digits. *)
Fixpoint words_from (word : bytes) (s : bytes) : list bytes :=
  let flush := if bool_decide (word = []) then [] else [rev word] in
  match s with
  | [] => flush
  | c :: s => if is_slug_char c then words_from (c :: word) s else flush ++ words_from [] s
  end.
Definition words_of (s : bytes) : list bytes := words_from [] s.

Definition dash : bytes := to_bytes "-".

(** The dash of a last run of other bytes. *)
Definition last_dash (s : bytes) : bytes :=
  match last s with Some c => if is_slug_char c then [] else dash | None => [] end.

Lemma last_dash_cons c d s : last_dash (c :: d :: s) = last_dash (d :: s).
Proof. done. Qed.

Lemma words_from_nil w s : words_from w s = [] → w = [] ∧ ∀ c, c ∈ s → is_slug_char c = false.
Proof.
  revert w; induction s as [|c s IH]; intros w; simpl.
  - case_bool_decide; [|done]. intros _. split; [done|]. intros c Hc. by apply elem_of_nil in Hc.
  - destruct (is_slug_char c) eqn:Hc; [by intros [? _]%IH|].
    intros [Hw Hs]%app_eq_nil. apply IH in Hs as [_ Hs]. split; [by case_bool_decide|].
    intros x [->|Hx]%elem_of_cons; auto.
Qed.

Lemma dash_runs_words s :
  (dash_runs true s = join_with dash (words_from [] s) ++
     if decide (words_from [] s = []) then [] else last_dash s) ∧
  (∀ w, w ≠ [] → rev w ++ dash_runs false s = join_with dash (words_from w s) ++ last_dash s).
Proof.
  induction s as [|c s [IHt IHf]].
  { split; [done|]. intros w Hw. simpl. by rewrite bool_decide_false. }
  cbn [dash_runs words_from]. destruct (is_slug_char c) eqn:Hc.
  - assert (last_dash (c :: s) = last_dash s) as Hl by (destruct s; [unfold last_dash; simpl; by rewrite Hc|done]).
    split.
    + rewrite decide_False, Hl by (by intros [? _]%words_from_nil). by rewrite <- IHf.
    + intros w Hw. rewrite Hl, <- IHf by done. simpl. by rewrite <- app_assoc.
  - rewrite bool_decide_true by done. simpl ([] ++ _). split.
    + rewrite IHt. case_decide as Hw; [done|]. by destruct s.
    + intros w Hw. rewrite bool_decide_false by done. rewrite IHt. simpl.
      case_decide as Hws.
      * rewrite Hws. apply words_from_nil in Hws as [_ Hws]. simpl. f_equal. unfold last_dash.
        destruct (last (c :: s)) as [x|] eqn:Hx; [|by apply last_None in Hx].
        apply last_Some in Hx as [l Hl].
        assert (x ∈ c :: s) as [->|Hin]%elem_of_cons; [rewrite Hl; set_solver|by rewrite Hc|by rewrite Hws].
      * destruct (words_from [] s) as [|v vs] eqn:Hvs; [done|]. cbn [app join_with].
        rewrite <- app_assoc. cbn. do 2 f_equal. by destruct s.
Qed.

(** Words are made of letters and digits, and not empty. *)
Definition slug_word (w : bytes) : Prop := w ≠ [] ∧ ∀ c, c ∈ w → is_slug_char c = true.

Lemma words_from_slug w s :
  (∀ c, c ∈ w → is_slug_char c = true) → Forall slug_word (words_from w s).
Proof.
  assert (∀ w : bytes, (∀ c, c ∈ w → is_slug_char c = true) →
            Forall slug_word (if bool_decide (w = []) then [] else [rev w])) as Hflush.
  { intros v Hv. case_bool_decide as Hw; [constructor|]. apply Forall_singleton. split.
    - intros Hr. apply Hw. by apply (f_equal (@rev ascii)) in Hr; rewrite rev_involutive in Hr.
    - intros c Hc. apply Hv. by apply list_elem_of_In, in_rev, list_elem_of_In. }
  revert w; induction s as [|c s IH]; intros w Hw; simpl; [by apply Hflush|].
  destruct (is_slug_char c) eqn:Hc.
  - apply IH. intros x [->|Hx]%elem_of_cons; auto.
  - apply Forall_app. split; [by apply Hflush|]. apply IH. intros x Hx. by apply elem_of_nil in Hx.
Qed.

(** The words joined by dashes begin and end with a letter or digit. *)
Lemma join_ends ws :
  ws ≠ [] → Forall slug_word ws →
  ∃ a b l, is_slug_char a = true ∧ is_slug_char b = true ∧
    (join_with dash ws = [a] ∧ a = b ∨ join_with dash ws = a :: l ++ [b]).
Proof.
  induction ws as [|w ws IH]; [done|]. intros _ [[Hw Hc] Hws]%Forall_cons.
  destruct w as [|a w]; [done|]. destruct ws as [|v vs].
  - exists a. destruct w as [|b w _] using rev_ind.
    + exists a, []. split_and!; [apply Hc; set_solver..|]. by left.
    + exists b, w. split_and!; [apply Hc; set_solver..|]. by right.
  - destruct IH as (a' & b & l & Ha' & Hb & [[He <-]|He]); [done|done| |].
    + exists a, a', (w ++ dash). split_and!; [apply Hc; set_solver|done|]. right.
      cbn [join_with] in *. rewrite He. simpl. by rewrite <- app_assoc.
    + exists a, b, (w ++ dash ++ a' :: l). split_and!; [apply Hc; set_solver|done|]. right.
      cbn [join_with] in *. rewrite He. simpl. by rewrite <- !app_assoc.
Qed.

Lemma not_dash c : is_slug_char c = true → c ≠ "-"%char.
Proof. intros Hc ->. by vm_compute in Hc. Qed.

Lemma last_dash_cases s : last_dash s = [] ∨ last_dash s = dash.
Proof. unfold last_dash. repeat case_match; auto. Qed.

(** Trimming takes the dashes at the ends away, and those only. *)
Lemma trim_ends ws d1 d2 :
  Forall slug_word ws → ws ≠ [] → (d1 = [] ∨ d1 = dash) → (d2 = [] ∨ d2 = dash) →
  trim_dashes (d1 ++ join_with dash ws ++ d2) = join_with dash ws.
Proof.
  intros Hws Hne H1 H2. destruct (join_ends ws Hne Hws) as (a & b & l & Ha & Hb & HJ).
  apply not_dash in Ha, Hb. unfold trim_dashes.
  assert (∃ x r, join_with dash ws = x :: r ∧ x ≠ "-"%char) as (x & r & Hx & Hxd)
    by (destruct HJ as [[-> _]| ->]; eauto).
  assert (∃ y q, rev (join_with dash ws) = y :: q ∧ y ≠ "-"%char) as (y & q & Hy & Hyd).
  { destruct HJ as [[-> <-]| ->]; [by exists a, []|].
    exists b, (rev l ++ [a]). split; [|done]. simpl. by rewrite rev_app_distr. }
  assert (∀ d t, d = [] ∨ d = dash → trim_left (d ++ t) = trim_left t) as Hd.
  { by intros d t [-> | ->]. }
  rewrite Hd, Hx by done. simpl. rewrite bool_decide_false by done. rewrite <- Hx.
  rewrite (app_comm_cons r d2 x), <- Hx, rev_app_distr, Hd, Hy by (destruct H2 as [-> | ->]; auto).
  simpl. rewrite bool_decide_false by done. rewrite <- Hy. by rewrite rev_involutive.
Qed.

(** A deploy directory's name is the words of the compose file's name, in
    lower case, joined by single dashes: only letters, digits and inner
    dashes, whatever the name. *)
Theorem slugify_words name :
  let ws := words_of (to_lower (to_bytes name)) in
  slugify name = of_bytes (join_with dash ws) ∧ Forall slug_word ws.
Proof.
  intros ws. assert (Forall slug_word ws) as Hws.
  { apply words_from_slug. intros c Hc. by apply elem_of_nil in Hc. }
  split; [|done]. unfold slugify, slug. f_equal. subst ws.
  set (s := to_lower (to_bytes name)) in *. unfold words_of in *.
  destruct s as [|c s]; [done|]. cbn [dash_runs words_from] in *.
  destruct (is_slug_char c) eqn:Hc.
  - change (c :: dash_runs false s) with (rev [c] ++ dash_runs false s).
    rewrite (proj2 (dash_runs_words s) [c]) by done.
    apply (trim_ends _ []); [done| |by left|apply last_dash_cases].
    by intros [? _]%words_from_nil.
  - rewrite bool_decide_true in * by done. simpl app in *.
    rewrite (proj1 (dash_runs_words s)). case_decide as Hn; [by rewrite Hn|].
    apply (trim_ends _ dash); [done|done|by right|apply last_dash_cases].
Qed.

(** Names that differ share a directory, and a name without letters or digits
    has none of its own. *)
Theorem slugs_collide :
  slugify "My App" = slugify "my-app" ∧ slugify "App!" = slugify "app" ∧ slugify "***" = "" ∧
  path_Join "/opt/deploy" (slugify "***") = "/opt/deploy".
Proof. by vm_compute. Qed.

(** A file variable's target path is joined as it is: it may leave the deploy
    directory. *)
Theorem target_path_escapes :
  path_Join (path_Join "/opt/deploy" (slugify "web")) "../../../etc/cron.d/job" = "/etc/cron.d/job".
Proof. by vm_compute. Qed.

(** ** Templates *)

(** The language of [placeholderPattern]. *)
Definition identifier (key : bytes) : Prop :=
  ∃ c rest, key = c :: rest ∧ is_key_start c = true ∧ Forall (λ c, is_key_char c = true) rest.
Definition blanks (b : bytes) : Prop := Forall (λ c, is_blank c = true) b.
Definition matches (key raw : bytes) : Prop :=
  ∃ b1 b2, raw = to_bytes "{{" ++ b1 ++ key ++ b2 ++ to_bytes "}}" ∧
    blanks b1 ∧ blanks b2 ∧ identifier key.

(** What it is to render a text: from the left, each match is replaced by
    its variable's value, which must exist, and other bytes are kept. *)
Inductive renders (values : gmap string string) : bytes → bytes → Prop :=
| renders_nil : renders values [] []
| renders_hole key raw v rest out :
    matches key raw → values !! of_bytes key = Some v →
    renders values rest out → renders values (raw ++ rest) (to_bytes v ++ out)
| renders_lit c rest out :
    (∀ key raw rest', matches key raw → c :: rest ≠ raw ++ rest') →
    renders values rest out → renders values (c :: rest) (c :: out).

Lemma span_spec P s :
  s = (span P s).1 ++ (span P s).2 ∧ Forall (λ c, P c = true) (span P s).1.
Proof.
  induction s as [|c s [IH1 IH2]]; simpl; [done|]. destruct (P c) eqn:Hc; [|done].
  destruct (span P s) as [a b]. simpl in *. split; [by rewrite <- IH1|by constructor].
Qed.

Lemma span_app (P : ascii → bool) a b :
  Forall (λ c, P c = true) a → (∀ c, head b = Some c → P c = false) → span P (a ++ b) = (a, b).
Proof.
  intros Ha Hb. induction Ha as [|c a Hc Ha IH]; simpl.
  - destruct b as [|c b]; [done|]. simpl. by rewrite (Hb c).
  - by rewrite Hc, IH.
Qed.

Lemma key_start_facts c : is_key_start c = true → is_blank c = false ∧ is_key_char c = true.
Proof.
  intros Hc. unfold is_key_char. rewrite Hc. split; [|done].
  destruct c as [[] [] [] [] [] [] [] []]; vm_compute in Hc |- *; done.
Qed.
Lemma blank_not_key c : is_blank c = true → is_key_char c = false.
Proof. destruct c as [[] [] [] [] [] [] [] []]; vm_compute; done. Qed.

Lemma placeholder_complete key raw rest :
  matches key raw → placeholder (raw ++ rest) = Some (key, length raw).
Proof.
  intros (b1 & b2 & -> & Hb1 & Hb2 & c & k & -> & Hc & Hk).
  destruct (key_start_facts c Hc) as [Hcb Hck].
  rewrite <- !app_assoc. unfold placeholder. cbn [String.list_ascii_of_string app has_prefix drop].
  rewrite drop_0, !bool_decide_true by done. cbn [andb].
  rewrite (span_app is_blank b1) by (done || by intros ? [= <-]). cbn [snd app].
  rewrite (app_comm_cons k _ c), (span_app is_key_char (c :: k)); [| |].
  2:{ by constructor. }
  2:{ destruct b2 as [|x b2]; [by intros ? [= <-]|]. apply Forall_cons in Hb2 as [Hx _].
      intros y [= <-]. by apply blank_not_key. }
  rewrite (span_app is_blank b2) by (done || by intros ? [= <-]). cbn [snd]. rewrite Hc. simpl.
  rewrite drop_0. do 2 f_equal. rewrite !length_app. simpl. rewrite !length_app. simpl. lia.
Qed.

Lemma placeholder_sound s key n :
  placeholder s = Some (key, n) → ∃ raw rest, s = raw ++ rest ∧ matches key raw ∧ n = length raw.
Proof.
  unfold placeholder. destruct (has_prefix _ s) eqn:Hpre; [|done].
  apply has_prefix_spec in Hpre as [s0 ->]. cbn [String.list_ascii_of_string app drop]. rewrite drop_0.
  destruct (span_spec is_blank s0) as [He1 Hb1]. destruct (span is_blank s0) as [b1 s1].
  destruct (span_spec is_key_char s1) as [He2 Hk]. cbn [fst snd] in *.
  destruct (span is_key_char s1) as [k s2].
  destruct (span_spec is_blank s2) as [He3 Hb2]. destruct (span is_blank s2) as [b2 s3]. cbn [fst snd] in *.
  destruct k as [|c k]; [done|]. destruct (is_key_start c && _) eqn:Hb; [|done]. bools.
  intros [= <- <-]. rename select (has_prefix _ s3 = true) into Hend.
  apply has_prefix_spec in Hend as [rest ->]. cbn [String.list_ascii_of_string app drop] in *. rewrite drop_0.
  exists (to_bytes "{{" ++ b1 ++ (c :: k) ++ b2 ++ to_bytes "}}"), rest. subst. split_and!.
  - simpl. by repeat (rewrite <- app_assoc; simpl).
  - exists b1, b2. split_and!; [done..|]. apply Forall_cons in Hk as [_ Hk]. by exists c, k.
  - rewrite ?drop_0. simpl. rewrite !length_app. simpl. rewrite !length_app. simpl. lia.
Qed.

Lemma matches_nonempty key raw : matches key raw → ∃ c r, raw = c :: r.
Proof. intros (b1 & b2 & -> & _). simpl. eauto. Qed.

Lemma pieces_skip n s : pieces n s = pieces 0 (drop n s).
Proof. revert n; induction s as [|c s IH]; intros [|n]; simpl; done. Qed.

Lemma pieces_hole key raw rest :
  matches key raw → pieces 0 (raw ++ rest) = Hole key raw :: pieces 0 rest.
Proof.
  intros Hm. destruct (matches_nonempty key raw Hm) as (c & r & ->).
  cbn [app pieces]. change (c :: r ++ rest) with ((c :: r) ++ rest).
  rewrite (placeholder_complete key (c :: r) rest Hm), pieces_skip, take_app_length.
  simpl. by rewrite Nat.sub_0_r, drop_app_length.
Qed.

(** Either a match stands at the front, or no match does. *)
Lemma pieces_cases s :
  s = [] ∨ (∃ key raw rest, s = raw ++ rest ∧ matches key raw ∧ length rest < length s) ∨
  (∃ c rest, s = c :: rest ∧ pieces 0 s = Lit c :: pieces 0 rest ∧
     ∀ key raw rest', matches key raw → s ≠ raw ++ rest').
Proof.
  destruct s as [|c s]; [by left|right]. destruct (placeholder (c :: s)) as [[key n]|] eqn:Hp; [left|right].
  - apply placeholder_sound in Hp as (raw & rest & He & Hm & _). exists key, raw, rest.
    split_and!; [done..|]. destruct (matches_nonempty key raw Hm) as (x & r & ->).
    rewrite He. simpl. rewrite length_app. lia.
  - exists c, s. split_and!; [done|cbn [pieces]; by rewrite Hp|].
    intros key raw rest' Hm He. rewrite He, (placeholder_complete key) in Hp; done.
Qed.

Lemma renders_pieces values s out :
  renders values s out ↔
  (∀ k, k ∈ piece_keys (pieces 0 s) → is_Some (values !! k)) ∧
  out = concat (map (fill values) (pieces 0 s)).
Proof.
  split.
  - induction 1 as [|key raw v rest out Hm Hv _ [IH1 ->]|c rest out Hno _ [IH1 ->]].
    + split; [intros k Hk; by apply elem_of_nil in Hk|done].
    + rewrite (pieces_hole key raw rest Hm). simpl. split; [|by rewrite Hv].
      intros k [->|Hk]%elem_of_cons; [by exists v|by apply IH1].
    + destruct (pieces_cases (c :: rest)) as [?|[(key & raw & r & He & Hm & _)|(c' & r & He & -> & _)]];
        [done|by destruct (Hno key raw r Hm)|]. injection He as <- <-. done.
  - revert out. induction s as [s IH] using (induction_ltof1 _ length). unfold ltof in IH.
    intros out [Hdef ->].
    destruct (pieces_cases s) as [->|[(key & raw & r & -> & Hm & Hlen)|(c & r & -> & He & Hno)]].
    + constructor.
    + rewrite (pieces_hole key raw r Hm) in *. simpl in *.
      destruct (Hdef (of_bytes key)) as [v Hv]; [by left|]. rewrite Hv. simpl.
      apply (renders_hole values key); [done..|]. apply IH; [done|]. split; [|done].
      intros k Hk. apply Hdef. by right.
    + rewrite He in *. simpl in *. apply renders_lit; [done|]. apply IH; [simpl; lia|done].
Qed.

(** C18: Rendering a template is strict: it succeeds exactly when every variable
    its placeholders name is defined, and then it is the text in which each
    placeholder is replaced by its variable's value and nothing else is
    changed. *)
Theorem SubstituteTemplateVars_spec content values out :
  SubstituteTemplateVars content values = Ok out ↔
  renders values (to_bytes content) (to_bytes out).
Proof.
  rewrite renders_pieces. unfold SubstituteTemplateVars.
  set (ps := pieces 0 (to_bytes content)).
  set (missing := filter _ _).
  assert (missing = [] ↔ ∀ k, k ∈ piece_keys ps → is_Some (values !! k)) as Hmiss.
  { unfold missing. split.
    - intros Hnil k Hk. destruct (values !! k) eqn:Hv; [by eexists|exfalso].
      eapply (not_elem_of_nil k). rewrite <- Hnil. apply list_elem_of_filter. split; [done|].
      by apply elem_of_remove_dups.
    - intros Hall. destruct (filter _ _) as [|k l] eqn:Hf; [done|exfalso].
      assert (k ∈ k :: l) as Hk by by left. rewrite <- Hf in Hk.
      apply list_elem_of_filter in Hk as [Hn Hk]. rewrite elem_of_remove_dups in Hk.
      apply Hall in Hk as [v Hv]. congruence. }
  pose proof (merge_sort_Permutation string_le missing) as Hperm.
  destruct (merge_sort string_le missing) as [|k l] eqn:Hs.
  - apply Permutation_nil in Hperm. rewrite <- Hmiss, Hperm. split.
    + intros [= <-]. split; [done|]. by rewrite bytes_of_text.
    + intros [_ Ho]. by rewrite <- Ho, text_of_bytes.
  - split; [done|]. intros [Hall _]. apply Hmiss in Hall. rewrite Hall in Hperm.
    by apply symmetry, Permutation_nil_cons in Hperm.
Qed.
