(* ===== verification/ComposeSpec.v ===== *)
(** * What rendering does to a compose file

    The merge keeps every service and every setting it is not about, and
    brings in each variable, network and volume attached to the file. *)
From S2P Require Import Prelude FleetDomain FleetRepo FleetText Compose.

Lemma lookup_each_service f services name :
  each_service f services !! name =
    (λ v, match v with AMap svc => AMap (f svc) | v => v end) <$> services !! name.
Proof. apply lookup_fmap. Qed.

(** ** One service *)

(** What a merge may do to a service: settings other than these three stay. *)
Definition keeps_other (keys : list string) (svc svc' : gmap string any) : Prop :=
  ∀ k, k ∉ keys → svc' !! k = svc !! k.

Lemma injectEnv_other envVars svc : keeps_other ["environment"] svc (injectEnv envVars svc).
Proof.
  intros k Hk. assert ("environment" ≠ k) by set_solver.
  unfold injectEnv. repeat case_match; rewrite ?lookup_insert_ne; done.
Qed.
Lemma append_names_other key names svc : keeps_other [key] svc (append_names key names svc).
Proof. intros k Hk. unfold append_names. apply lookup_insert_ne. set_solver. Qed.

Lemma missing_names_spec existing names n :
  n ∈ missing_names existing names ↔ n ∈ names ∧ n ∉ existing.
Proof.
  revert existing; induction names as [|x names IH]; intros existing; simpl; [set_solver|].
  case_bool_decide as Hx.
  - rewrite IH. set_solver.
  - rewrite elem_of_cons, IH. destruct (decide (n = x)) as [->|]; set_solver.
Qed.

Lemma missing_names_NoDup existing names : NoDup (missing_names existing names).
Proof.
  revert existing; induction names as [|x names IH]; intros existing; simpl; [constructor|].
  case_bool_decide; [done|]. constructor; [|done]. rewrite missing_names_spec. set_solver.
Qed.

(** The list at [key] afterwards: what it held, and each name once more if it
    was missing. *)
Definition appended (key : string) (names : list string) (svc svc' : gmap string any) : Prop :=
  ∃ more, svc' !! key = Some (AList (as_list (svc !! key) ++ map AString more)) ∧ NoDup more ∧
    ∀ n, n ∈ more ↔ n ∈ names ∧ n ∉ stringSetFromList (svc !! key).

Lemma append_names_appended key names svc : appended key names svc (append_names key names svc).
Proof.
  exists (missing_names (stringSetFromList (svc !! key)) names). split_and!.
  - apply lookup_insert_eq.
  - apply missing_names_NoDup.
  - apply missing_names_spec.
Qed.

(** The environment afterwards: what the service sets itself always wins. *)
Definition env_merged (envVars : gmap string string) (svc svc' : gmap string any) : Prop :=
  match svc !! "environment" with
  | Some (AMap env) => svc' !! "environment" = Some (AMap (env ∪ (AString <$> envVars)))
  | Some (AList env) =>
      ∃ more, svc' !! "environment" = Some (AList (env ++ map AString more)) ∧
        ∀ e, e ∈ more ↔ ∃ k v, e = k +:+ "=" +:+ v ∧ envVars !! k = Some v ∧ k ∉ env_keys env
  | None | Some ANull =>
      envVars = ∅ ∧ svc' !! "environment" = svc !! "environment" ∨
      svc' !! "environment" = Some (AMap (AString <$> envVars))
  | v => svc' !! "environment" = v
  end.

Lemma injectEnv_merged envVars svc : env_merged envVars svc (injectEnv envVars svc).
Proof.
  unfold env_merged, injectEnv. repeat case_match; simplify_eq; rewrite ?lookup_insert_eq; auto.
  eexists. rewrite <- map_map with (f := λ kv : string * string, kv.1 +:+ "=" +:+ kv.2).
  split; [done|]. intros e. rewrite list_elem_of_In, in_map_iff. setoid_rewrite <- list_elem_of_In.
  setoid_rewrite list_elem_of_filter. unfold sorted_env. setoid_rewrite merge_sort_Permutation.
  split.
  - intros ([k v] & <- & Hk & Hin). apply elem_of_map_to_list in Hin. eauto.
  - intros (k & v & -> & Hin & Hk). exists (k, v). split_and!; [done..|]. by apply elem_of_map_to_list.
Qed.

Lemma env_merged_empty svc : env_merged ∅ svc svc.
Proof.
  unfold env_merged. repeat case_match; simplify_eq; auto.
  - exists []. rewrite app_nil_r. split; [done|]. intros e. rewrite elem_of_nil. naive_solver.
  - by rewrite fmap_empty, map_union_empty.
Qed.

(** ** The whole document *)

(** The services of a document, normalized or not. *)
Definition services_of (doc : gmap string any) : gmap string any :=
  default ∅ (as_map (normalizeTopLevel doc !! "services")).

(** What becomes of one service. *)
Definition service_merged (envVars : gmap string string) (networks : list Network)
    (volumes : list VolumeAttachmentView) (v v' : any) : Prop :=
  match v with
  | AMap svc => ∃ svc', v' = AMap svc' ∧
      keeps_other ["environment"; "networks"; "volumes"] svc svc' ∧
      env_merged envVars svc svc' ∧
      (if decide (networks = []) then svc' !! "networks" = svc !! "networks"
       else appended "networks" (map net_Name networks) svc svc') ∧
      (if decide (volumes = []) then svc' !! "volumes" = svc !! "volumes"
       else appended "volumes" (map bind_mount volumes) svc svc')
  | v => v' = v
  end.

Definition merge_env (envVars : gmap string string) (svc : gmap string any) : gmap string any :=
  if bool_decide (envVars = ∅) then svc else injectEnv envVars svc.
Definition merge_names {A} (key : string) (name : A → string) (l : list A)
    (svc : gmap string any) : gmap string any :=
  match l with [] => svc | _ => append_names key (map name l) svc end.

Lemma each_service_id services : each_service (λ svc, svc) services = services.
Proof.
  apply map_eq. intros name. rewrite lookup_each_service.
  destruct (services !! name) as [[]|]; done.
Qed.
Lemma each_service_comp f g services :
  each_service f (each_service g services) = each_service (f ∘ g) services.
Proof.
  apply map_eq. intros name. rewrite !lookup_each_service.
  destruct (services !! name) as [[]|]; done.
Qed.

(** The top-level [networks]. *)
Definition top_networks (networks : list Network) (m : gmap string any) : gmap string any :=
  foldl (λ m n, <[net_Name n := AMap {["external" := ABool (net_External n)]}]> m) m networks.

Lemma merge_compose_eq envVars networks volumes doc :
  merge_compose envVars networks volumes doc =
    <["services" := AMap (each_service
        (merge_names "volumes" bind_mount volumes ∘
         (merge_names "networks" net_Name networks ∘ merge_env envVars)) (services_of doc))]>
    (match networks with
     | [] => normalizeTopLevel doc
     | _ => <["networks" := AMap (top_networks networks
              (default ∅ (as_map (normalizeTopLevel doc !! "networks"))))]> (normalizeTopLevel doc)
     end).
Proof.
  unfold merge_compose, injectNetworks, injectVolumes, services_of.
  set (services := default ∅ (as_map (normalizeTopLevel doc !! "services"))).
  assert (each_service (merge_env envVars) services =
    if bool_decide (envVars = ∅) then services else each_service (injectEnv envVars) services) as He.
  { unfold merge_env. case_bool_decide; [apply each_service_id|done]. }
  rewrite <- He. rewrite <- !each_service_comp.
  destruct networks as [|n ns], volumes as [|va vs]; cbn [merge_names]; rewrite ?each_service_id; done.
Qed.

Lemma merge_names_other {A} key (name : A → string) l svc :
  keeps_other [key] svc (merge_names key name l svc).
Proof. unfold merge_names. case_match; [done|]. apply append_names_other. Qed.
Lemma merge_env_other envVars svc : keeps_other ["environment"] svc (merge_env envVars svc).
Proof. unfold merge_env. case_match; [done|]. apply injectEnv_other. Qed.

Lemma merge_names_at {A} key (name : A → string) (l : list A) svc0 svc :
  svc !! key = svc0 !! key →
  if decide (l = []) then merge_names key name l svc !! key = svc0 !! key
  else appended key (map name l) svc0 (merge_names key name l svc).
Proof.
  intros He. destruct l as [|x l]; [done|]. rewrite decide_False by done.
  destruct (append_names_appended key (map name (x :: l)) svc) as (more & H1 & H2 & H3).
  exists more. cbn [merge_names]. by rewrite <- He.
Qed.

(** One service is merged setting by setting. *)
Lemma merge_service_spec envVars networks volumes svc :
  service_merged envVars networks volumes (AMap svc)
    (AMap (merge_names "volumes" bind_mount volumes
            (merge_names "networks" net_Name networks (merge_env envVars svc)))).
Proof.
  set (s1 := merge_env envVars svc). set (s2 := merge_names "networks" net_Name networks s1).
  assert (keeps_other ["environment"] svc s1) as H1 by apply merge_env_other.
  assert (keeps_other ["networks"] s1 s2) as H2 by apply merge_names_other.
  pose proof (merge_names_other "volumes" bind_mount volumes s2) as H3.
  simpl. eexists. split_and!; [done| | | |].
  - intros k Hk. rewrite H3, H2, H1; [done|set_solver..].
  - assert (∀ t, t !! "environment" = s1 !! "environment" → env_merged envVars svc t) as Ht.
    { intros t Ht. assert (env_merged envVars svc s1) as Hm.
      { unfold s1, merge_env. case_bool_decide as He; [rewrite He; apply env_merged_empty|].
        apply injectEnv_merged. }
      unfold env_merged in *. by rewrite Ht. }
    apply Ht. rewrite H3, H2; [done|set_solver..].
  - assert (∀ t, t !! "networks" = s2 !! "networks" →
      if decide (networks = []) then t !! "networks" = svc !! "networks"
      else appended "networks" (map net_Name networks) svc t) as Ht.
    { intros t Ht. unfold appended. rewrite Ht.
      apply (merge_names_at "networks" net_Name networks svc s1). apply H1. set_solver. }
    apply Ht. apply H3. set_solver.
  - apply merge_names_at. rewrite H2, H1; [done|set_solver..].
Qed.


(** The networks of a service may also be a mapping, with aliases and
    addresses; attaching one network to the file drops all of them. *)
Theorem merge_drops_network_mapping :
  let svc := {["networks" := AMap {["backend" := AMap {["ipv4_address" := AString "10.0.0.2"]}]}]} in
  let doc := {["services" := AMap {["web" := AMap svc]}]} in
  let proxy := mkNetwork "n" "org" "proxy" true "alice" 0 in
  merge_compose ∅ [proxy] [] doc !! "services" =
    Some (AMap {["web" := AMap {["networks" := AList [AString "proxy"]]}]}).
Proof. by vm_compute. Qed.

(** ** Validation and scanning *)

Section yaml_spec.
Context (yaml_unmarshal : string → string + option (gmap string any)).
Context (quote : string → string).
Context (map_order : gmap string any → list (string * any)).
Hypothesis map_order_perm : ∀ m, map_order m ≡ₚ map_to_list m.

Lemma check_services_ok services :
  check_services quote services = Ok () ↔ Forall (λ kv, runnable kv.2 = true) services.
Proof.
  induction services as [|[name v] services IH]; [split; [constructor|done]|].
  rewrite Forall_cons. destruct v as [| | | | |svc]; try by (split; [done|intros [? _]]).
  cbn [check_services snd]. destruct (runnable (AMap svc)); [|naive_solver]. rewrite IH. naive_solver.
Qed.

(** A compose file is accepted exactly when it is YAML with at least one
    service, each of them a mapping with an image or a build, in whatever
    order Go walks the services. *)
Theorem ValidateComposeContent_spec content :
  ValidateComposeContent yaml_unmarshal quote map_order content = Ok () ↔
  ∃ doc, yaml_unmarshal content = inr (Some doc) ∧ services_of doc ≠ ∅ ∧
    ∀ name v, services_of doc !! name = Some v →
      ∃ svc, v = AMap svc ∧ (is_Some (svc !! "image") ∨ is_Some (svc !! "build")).
Proof using map_order_perm.
  assert (∀ v, runnable v = true ↔
    ∃ svc, v = AMap svc ∧ (is_Some (svc !! "image") ∨ is_Some (svc !! "build"))) as Hrun.
  { intros [| | | | |svc]; simpl; try naive_solver.
    rewrite orb_true_iff, !bool_decide_eq_true. naive_solver. }
  unfold ValidateComposeContent, parse_document.
  destruct (yaml_unmarshal content) as [msg|[doc|]]; simpl; [naive_solver| |naive_solver].
  fold (services_of doc). case_bool_decide as Hs.
  - split; [done|]. intros (d & [= <-] & Hne & _). done.
  - rewrite check_services_ok. rewrite (map_order_perm (services_of doc)). setoid_rewrite <- Hrun.
    rewrite Forall_forall. split.
    + intros Hall. exists doc. split_and!; [done..|]. intros name v Hv.
      by apply (Hall (name, v)), elem_of_map_to_list.
    + intros (d & [= <-] & _ & Hall) [name v] Hin%elem_of_map_to_list. by apply (Hall name).
Qed.
End yaml_spec.

(** A file with one service, in the old style. *)
Definition one_service : gmap string any := {["web" := AMap {["image" := AString "nginx"]}]}.

Lemma ValidateComposeContent_spec_witness :
  ValidateComposeContent (λ _, inr (Some one_service)) (λ s, s) map_to_list "web: {image: nginx}" = Ok ().
Proof.
  apply ValidateComposeContent_spec; [done|].
  assert (services_of one_service = one_service) as Hs by by vm_compute.
  exists one_service. rewrite Hs. split; [reflexivity|]. split; [by vm_compute|].
  intros name v Hv. unfold one_service in Hv. apply lookup_singleton_Some in Hv as [<- <-].
  eexists. split; [reflexivity|]. left. by eexists.
Defined.

(** Two services that set a variable differently: which value is stored
    depends on the order in which Go walks the map of services. *)
Theorem scan_depends_on_order :
  let env v := AMap {["environment" := AMap {["MODE" := AString v]}]} in
  let parse (_ : string) := inr (Some {["services" := AMap {["a" := env "one"; "b" := env "two"]}]}) in
  scanComposeEnvironment parse map_to_list "" ≠ scanComposeEnvironment parse (λ m, reverse (map_to_list m)) "".
Proof. by vm_compute. Qed.
