(* ===== verification/SecretsSpec.v ===== *)
(** * What the Secrets context guarantees

    A secret written to Vault through a mount is what a later resolution
    reads, and neither the credential of a mount nor the value of a secret
    variable is ever stored in the clear. *)
From S2P Require Import Prelude Prog TenancyDomain FleetDomain Store Outbox Envelope FleetRepo.
From S2P Require Import FleetText Compose Principal Ports Registry FleetMachines FleetFiles Secrets.
From S2P Require Import Wiring RbacRepo TenancyRepo RbacSpec Gates FleetLife.

(** Reading the database leaves everything else alone as well. *)
Section reads.
Context {X : Type}.
Implicit Types w : World X.

Definition reads w w' : Prop := db w' = db w ∧ aux w' = aux w.
#[export] Instance reads_preorder : PreOrder reads.
Proof. split; [done|]. intros w1 w2 w3 [??] [??]. split; congruence. Qed.

Lemma reads_txn {A} s (t : Tx X A) : tx_frame t → tx_in eq s t → steps_in reads (txn s t).
Proof.
  intros Hf Ht. apply steps_in_call. intros w. split.
  - symmetry. by apply (run_txn_in eq).
  - by destruct (run_txn_frame s t w Hf) as (_ & ? & _).
Qed.

Lemma reads_gate ctx o u p : steps_in reads (fleet_gate (X:=X) ctx o u p).
Proof.
  unfold fleet_gate, permission_gate, member_gate, RoleBindingRepository_HasPermission.
  ports. cbn [HasPermission permission_checker].
  unfold MembershipRepository_IsMember, RoleBindingRepository_HasPermission,
    RoleBindingRepository_HasPermissionAtScope.
  repeat first
    [ exact I | apply steps_in_ensure | apply steps_in_bind; [|intros ?]
    | apply reads_txn; [solve [tx_frame_steps]|solve [tx_in_steps]] | case_match ].
Qed.

Lemma gate_reads ctx o u p w r w' : exec (fleet_gate ctx o u p) w = (r, w') → reads w w'.
Proof. intros H. pose proof (steps_in_exec reads _ w (reads_gate ctx o u p)) as Hr. by rewrite H in Hr. Qed.
End reads.

Section secrets.
Context {X : Type} {aead : Aead} `{!VaultAPI X, !VaultLaws X}.
Context (masterKey : string).
Implicit Types w : World X.

Lemma calm_vault_call {A} (p : prog (World X) A) : steps_in calm p → steps_in calm (vault_call p).
Proof using Type.
  intros Hp. unfold vault_call. apply steps_in_bind; [by apply steps_in_try|by intros [a|e]].
Qed.

Lemma calm_login a r s : steps_in calm (login (X:=X) a r s).
Proof using VaultLaws0.
  unfold login. apply steps_in_bind; [apply calm_vault_call, calm_vault_write|intros sec].
  by destruct (sec ≫= _) as [t|]; [destruct (given t)|].
Qed.

Lemma calm_on_vault {A} m (p : prog (World X) A) : steps_in calm p → steps_in calm (on_vault m p).
Proof using Type. intros Hp. unfold on_vault. by case_match. Qed.

Lemma calm_mount_row o m : steps_in calm (SecretMountRepository_GetByID (X:=X) o m).
Proof using Type. unfold SecretMountRepository_GetByID. calm_steps. Qed.

Lemma calm_resolve_secret o m p :
  steps_in calm (ResolveSecretService_ResolveValue (X:=X) masterKey o m p).
Proof using VaultLaws0.
  unfold ResolveSecretService_ResolveValue, Client_ReadSecret.
  apply steps_in_bind; [apply calm_mount_row|intros row].
  apply steps_in_bind; [by apply steps_in_lift|intros id]. apply calm_on_vault.
  apply steps_in_bind; [apply calm_login|intros t].
  apply steps_in_bind; [apply calm_vault_call, calm_vault_read|intros s]. by apply steps_in_lift.
Qed.

Lemma calm_write_secret o m p v :
  steps_in calm (WriteSecretService_WriteValue (X:=X) masterKey o m p v).
Proof using VaultLaws0.
  unfold WriteSecretService_WriteValue, Client_WriteSecret.
  apply steps_in_bind; [apply calm_mount_row|intros row].
  apply steps_in_bind; [by apply steps_in_lift|intros id]. apply calm_on_vault.
  apply steps_in_bind; [apply calm_login|intros t].
  apply steps_in_bind; [apply calm_vault_call, calm_vault_write|done].
Qed.

Lemma calm_mount_exists o m : steps_in calm (secret_mount_exists (X:=X) o m).
Proof using Type.
  unfold secret_mount_exists. apply steps_in_bind; [apply steps_in_try, calm_mount_row|].
  intros [row|e]; [done|by case_match].
Qed.

(** ** Reading what was written *)

Lemma mount_row_ok o m w row w' :
  exec (SecretMountRepository_GetByID o m) w = (Ok row, w') →
  secret_mounts (db w) !! m = Some row ∧ db w' = db w ∧ aux w' = aux w.
Proof using Type.
  intros H. pose proof (calm_exec _ _ _ _ (calm_mount_row o m) H) as [Hd _].
  apply exec_txn in H as [(_ & Ha & _) [fs H]]; [|tx_frame_steps].
  apply get_row_ok in H as [_ (Hrow & _)%row_at_Some]. done.
Qed.

Lemma vault_call_ok {A} (p : prog (World X) A) w a w' :
  exec (vault_call p) w = (Ok a, w') → exec p w = (Ok a, w').
Proof using Type.
  unfold vault_call. rewrite exec_bind, exec_try. destruct (exec p w) as [[b|e] w1]; simpl; naive_solver.
Qed.

Lemma login_kv a r s w t w' b q :
  exec (login a r s) w = (t, w') → kv (aux w') b q = kv (aux w) b q.
Proof using VaultLaws0.
  unfold login, vault_call. rewrite !exec_bind, exec_try.
  destruct (exec (vault_write _ _ _ _) w) as [sec w1] eqn:Hw. intros H.
  transitivity (kv (aux w1) b q); [|by eapply kv_elsewhere; [left|]].
  destruct sec as [sec|e]; simpl in H; [|by injection H as _ <-].
  destruct (sec ≫= _) as [tok|]; [|by injection H as _ <-].
  by destruct (given tok); simpl in H; injection H as _ <-.
Qed.

(** A successful write stores the value at its path and, at most, there. *)
Lemma WriteValue_ok o m path v w w' :
  path ≠ login_path → exec (WriteSecretService_WriteValue masterKey o m path v) w = (Ok (), w') →
  db w' = db w ∧ ∃ mount, secret_mounts (db w) !! m = Some mount ∧
    kv (aux w') (sm_Address mount) path = Some (AMap {[secretValueKey := AString v]}) ∧
    ∀ q, q ≠ path → kv (aux w') (sm_Address mount) q = kv (aux w) (sm_Address mount) q.
Proof using VaultLaws0.
  intros Hp H. pose proof (calm_exec _ _ _ _ (calm_write_secret o m path v) H) as [Hd _].
  split; [done|]. unfold WriteSecretService_WriteValue in H.
  apply exec_bind_ok in H as (mount & w1 & (Hm & Hd1 & Ha1)%mount_row_ok & H).
  apply exec_bind_ok in H as (sid & w2 & H2 & H). rewrite exec_lift in H2. injection H2 as _ <-.
  unfold on_vault in H. case_match; [|done]. unfold Client_WriteSecret in H.
  apply exec_bind_ok in H as (tok & w3 & H3 & H).
  apply exec_bind_ok in H as (sec & w4 & H4%vault_call_ok & H). injection H as <-.
  exists mount. split; [done|]. split.
  - eapply kv_written; [done| |exact H4]. by rewrite lookup_singleton_eq.
  - intros q Hq. rewrite <-Ha1.
    transitivity (kv (aux w3) (sm_Address mount) q); [|by eapply login_kv].
    eapply kv_elsewhere; [|exact H4]. right. by apply not_eq_sym.
Qed.

(** A successful resolution returns the value stored at its path. *)
Lemma ResolveValue_ok o m path v w s w' mount :
  secret_mounts (db w) !! m = Some mount →
  kv (aux w) (sm_Address mount) path = Some (AMap {[secretValueKey := AString v]}) →
  exec (ResolveSecretService_ResolveValue masterKey o m path) w = (Ok s, w') → s = v.
Proof using VaultLaws0.
  intros Hmount Hkv H. unfold ResolveSecretService_ResolveValue in H.
  apply exec_bind_ok in H as (mount' & w1 & (Hm & Hd1 & Ha1)%mount_row_ok & H).
  assert (mount' = mount) as -> by congruence.
  apply exec_bind_ok in H as (sid & w2 & H2 & H). rewrite exec_lift in H2. injection H2 as _ <-.
  unfold on_vault in H. case_match; [|done]. unfold Client_ReadSecret in H.
  apply exec_bind_ok in H as (tok & w3 & H3 & H).
  apply exec_bind_ok in H as (sec & w4 & H4%vault_call_ok & H).
  rewrite <-Ha1 in Hkv. rewrite <-(login_kv _ _ _ _ _ _ _ _ H3) in Hkv.
  destruct (kv_read _ _ _ _ _ _ _ Hkv H4) as (secret & data & -> & Hdata & Hv).
  rewrite exec_lift in H. injection H as H _. unfold kv2_value in H. simpl in H.
  rewrite Hdata in H. simpl in H. rewrite Hv in H. simpl in H.
  rewrite lookup_singleton_eq in H. simpl in H. by injection H.
Qed.
End secrets.

(** ** Secret variables of compose files *)

Section secret_variables.
Context {X : Type} {aead : Aead} `{!VaultAPI X, !VaultLaws X}.
Context (masterKey : string).
Implicit Types w : World X.
#[local] Instance writer : SecretWriter X := secret_writer masterKey.
#[local] Instance resolver : SecretResolver X := secret_resolver masterKey.
#[local] Instance mount_checker : SecretMountChecker X := secret_mount_checker.

Definition sealed_value (v : string) : any := AMap {[secretValueKey := AString v]}.

(** Writing one value at several paths leaves it at each of them. *)
Lemma range_WriteValue_ok {P} (ps : list P) (path : P → string) o m v w w' :
  (∀ p, path p ≠ login_path) →
  exec (range ps (λ p, WriteValue o m (path p) v)) w = (Ok (), w') →
  db w' = db w ∧ (∀ p, p ∈ ps → is_Some (secret_mounts (db w) !! m)) ∧
  ∀ mount, secret_mounts (db w) !! m = Some mount →
    (∀ q, kv (aux w) (sm_Address mount) q = Some (sealed_value v) →
          kv (aux w') (sm_Address mount) q = Some (sealed_value v)) ∧
    ∀ p, p ∈ ps → kv (aux w') (sm_Address mount) (path p) = Some (sealed_value v).
Proof using VaultLaws0.
  intros Hpath. revert w. induction ps as [|p ps IH]; intros w; cbn [range].
  - intros [= <-]. split; [done|]. split; [by intros p ?%not_elem_of_nil|].
    intros mount _. split; [done|]. by intros p ?%not_elem_of_nil.
  - intros ([] & w1 & H1 & H)%exec_bind_ok.
    cbn [WriteValue writer secret_writer] in H1.
    apply (WriteValue_ok masterKey) in H1 as (Hd1 & mount1 & Hm1 & Hkv & Helse); [|apply Hpath].
    apply IH in H as (Hd & _ & H). split; [congruence|]. split; [eauto|]. intros mount Hm.
    assert (mount1 = mount) as -> by congruence.
    rewrite Hd1 in H. destruct (H mount Hm) as [Hkeep Hps]. split.
    + intros q Hq. apply Hkeep. destruct (decide (q = path p)) as [->|Hne]; [done|].
      by rewrite Helse.
    + intros p' [->|Hp']%elem_of_cons; [by apply Hkeep|by apply Hps].
Qed.

(** The projects a compose file is linked to. *)
Definition linked (d : DB) (organizationID composeFileID projectID : string) : Prop :=
  ∃ k a k' p, compose_file_projects d !! k = Some a ∧ pa_OrganizationID a = organizationID ∧
    pa_ComposeFileID a = composeFileID ∧ pa_ProjectID a = projectID ∧
    projects d !! k' = Some p ∧ proj_OrganizationID p = organizationID ∧ proj_ID p = projectID.

Lemma linked_projects_ok o c w ps w' :
  exec (AttachmentRepository_ListProjectsForComposeFile o c) w = (Ok ps, w') →
  db w' = db w ∧ ∀ id, linked (db w) o c id → ∃ s, s ∈ ps ∧ ps_ID s = id.
Proof using Type.
  intros H. apply exec_txn in H as [_ [fs H]]; [|tx_frame_steps]. tx_inv H. subst.
  apply select_ok in Hst as [-> ->]. apply select_ok in Hst0 as [-> ->]. split; [done|].
  intros id (k & a & k' & p & Ha & Hao & Hac & Hap & Hp & Hpo & Hpi).
  exists (mkProjectSummary (proj_ID p) (proj_Name p) (proj_Slug p)). split; [|done].
  rewrite merge_sort_Permutation. apply list_elem_of_fmap. exists (a, p). split; [done|].
  unfold join. apply list_elem_of_bind. exists a. split.
  - apply list_elem_of_bind. exists p. split; [by apply list_elem_of_singleton|].
    apply list_elem_of_filter. split; [congruence|]. apply elem_of_selected.
    simpl. unfold tenant_is. rewrite Hpo, bool_decide_true by done. eauto.
  - apply elem_of_selected. simpl. unfold tenant_is. rewrite Hao, Hac, !bool_decide_true by done. eauto.
Qed.

Lemma VariableCreate_ok u v w w' :
  exec (FleetVariableRepository_Create u v) w = (Ok (), w') →
  wframe w w' ∧ secret_mounts (db w') = secret_mounts (db w) ∧
  fleet_variables (db w') = <[fv_ID v := fleet_variable_row v]> (fleet_variables (db w)).
Proof using Type.
  intros H. apply exec_txn in H as [Hf [fs H]]; [|tx_frame_steps]. split; [done|]. tx_inv H.
  apply on_code_ok, insert_row_ok in Hst as (_ & _ & _ & _ & ->).
  apply Write_ok in H as (_ & _ & Hd). by rewrite Hd.
Qed.

Lemma variable_row_ok o id w v w' :
  exec (FleetVariableRepository_GetByID o id) w = (Ok v, w') →
  fleet_variables (db w) !! id = Some v ∧ db w' = db w ∧ aux w' = aux w.
Proof using Type.
  intros H. apply exec_txn in H as [(_ & Ha & _) [fs H]]; [|tx_frame_steps].
  by apply get_row_ok in H as [-> (Hrow & _)%row_at_Some].
Qed.

Lemma secret_path_not_login p c k : secret_variable_path p c k ≠ login_path.
Proof using Type. done. Qed.

Lemma NewSecretRef_ok id now o c k m p v :
  NewFleetVariableWithSecretRef id now o c k m p = Ok v →
  v = mkFleetVariable id o c k VarTypeSecret "" (Some (mkFleetSecretReference m p)) "" now.
Proof using Type.
  unfold NewFleetVariableWithSecretRef.
  destruct (validateFleetVariableFields _ _ _ _ _); [|done].
  cbn. destruct (given m && given p); [|done]. by intros [= <-].
Qed.

Definition creates_secret_variable ctx (inp : CreateSecretVariableInput) w v w1 : Prop :=
  exec (CreateSecretVariable ctx inp) w = (Ok v, w1).

(** C16: A secret variable is created by a manager of compose files only; its row
    refers to Vault and holds no value, the value is in Vault under every
    project the file is linked to, and revealing the variable answers with
    that value. *)
Theorem secret_variable_reveals ctx inp w v w1 :
  creates_secret_variable ctx inp w v w1 →
  may (db w) ctx (csv_OrganizationID inp) (csv_RequestingUserID inp) permissionComposeFileManage ∧
  fleet_variables (db w1) !! fv_ID v = Some v ∧ fv_Value v = "" ∧
  (∃ mount, secret_mounts (db w) !! csv_MountID inp = Some mount ∧
     ∀ project, linked (db w) (csv_OrganizationID inp) (csv_ComposeFileID inp) project →
       kv (aux w1) (sm_Address mount)
         (secret_variable_path project (csv_ComposeFileID inp) (csv_Key inp)) =
       Some (sealed_value (csv_Value inp))) ∧
  ∀ ctx' u s w2,
    exec (RevealVariable ctx' (csv_OrganizationID inp) u (fv_ID v)) w1 = (Ok s, w2) →
    s = csv_Value inp.
Proof using VaultLaws0.
  unfold creates_secret_variable, CreateSecretVariable. intros H.
  apply exec_bind_ok in H as ([] & wa & (Hca & _ & Hmay)%permission_gate_ok & H).
  split; [done|].
  apply exec_bind_ok in H as ([] & wb & [_ ->]%exec_ensure_ok & H).
  apply exec_bind_ok in H as ([] & wc & Hc & H).
  assert (db wc = db wa) as Hdc.
  { apply (calm_exec _ _ _ _ (steps_in_bind _ _ _ (calm_mount_exists _ _)
      (λ b, steps_in_ensure _ b _)) Hc). }
  apply exec_bind_ok in H as (ps & wd & [Hdd Hlinked]%linked_projects_ok & H).
  destruct Hca as [Hda _].
  destruct (merge_sort _ ps) as [|first rest] eqn:Hsort; [done|].
  apply exec_bind_ok in H as ([] & we & (Hde & Hsome & Hkv)%range_WriteValue_ok & H);
    [|intros p; apply secret_path_not_login].
  apply exec_bind_ok in H as (id & wf & [= <- <-] & H).
  apply exec_bind_ok in H as (now & wg & [= <- <-] & H).
  apply exec_bind_ok in H as (row & wh & H8 & H). rewrite exec_lift in H8. injection H8 as H8 <-.
  apply exec_bind_ok in H as ([] & wi & (Hf & Hsm & Hrows)%VariableCreate_ok & H).
  injection H as <- <-. apply NewSecretRef_ok in H8 as ->.
  assert (first ∈ merge_sort (by_text ps_ID) ps) as Hfirst by (rewrite Hsort; by left).
  rewrite <-Hsort in Hkv, Hsome. destruct (Hsome first Hfirst) as [mount Hmount].
  destruct (Hkv mount Hmount) as [_ Hat].
  assert (db wd = db w) as Hd by congruence.
  destruct Hf as (_ & Haux & _). simpl in Hrows, Haux.
  split; [by rewrite Hrows, lookup_insert_eq|]. split; [done|]. split.
  - exists mount. split; [by rewrite <-Hd|]. intros project Hp. rewrite Haux; simpl.
    destruct (Hlinked project) as (s & Hs & <-); [by rewrite Hdc, Hda|].
    apply Hat. by rewrite merge_sort_Permutation.
  - intros ctx' u s w2 H. unfold RevealVariable in H.
    apply exec_bind_ok in H as ([] & wj & Hgate & H).
    apply exec_bind_ok in H as (row & wk & (Hrow & Hdk & Hak)%variable_row_ok & H).
    apply gate_reads in Hgate as [Hdj Haj].
    rewrite Hdj, Hrows in Hrow. simpl in Hrow. rewrite lookup_insert_eq in Hrow.
    injection Hrow as <-. cbn [fv_SecretRef fleet_variable_row fv_VarType] in H.
    apply exec_bind_ok in H as ([] & wl & [_ ->]%exec_ensure_ok & H).
    cbn [ResolveSecret resolver secret_resolver fsr_MountID fsr_Path] in H.
    eapply (ResolveValue_ok masterKey _ _ _ (csv_Value inp)); [| |exact H].
    + rewrite Hdk, Hdj, Hsm. simpl. by rewrite Hde.
    + rewrite Hak, Haj, Haux. simpl. by apply Hat.
Qed.
End secret_variables.

(** ** Mounts *)

Section mounts.
Context {X : Type} {aead : Aead} {aead_laws : AeadLaws aead} `{!VaultAPI X}.
Context (masterKey : string).
Implicit Types w : World X.

Lemma NewSecretMount_ok id now o n b a r c nn s m :
  NewSecretMount id now o n b a r c nn s = Ok m → m = mkSecretMount id o n b a r c nn s now.
Proof using Type. unfold NewSecretMount. destruct (require_all _ _); [|done]. by intros [= <-]. Qed.

(** C26: A mount is created by a manager of the organization only.  What is stored
    of its credential is sealed, and opens, under the master key, to exactly
    the credential given: the one every later login uses. *)
Theorem CreateSecretMount_ok ctx inp w m w1 :
  exec (CreateSecretMount masterKey ctx inp) w = (Ok m, w1) →
  may (db w) ctx (csm_OrganizationID inp) (csm_RequestingUserID inp) "organization:manage" ∧
  secret_mounts (db w1) = <[sm_ID m := m]> (secret_mounts (db w)) ∧
  secret_mounts (db w) !! sm_ID m = None ∧
  (sm_OrganizationID m, sm_Name m, sm_BackendType m, sm_Address m, sm_RoleID m) =
    (csm_OrganizationID inp, csm_Name inp, BackendTypeVault, csm_Address inp, csm_RoleID inp) ∧
  decryptSecretID masterKey m = Ok (csm_SecretID inp).
Proof using aead_laws.
  unfold CreateSecretMount, secrets_gate. intros H.
  apply exec_bind_ok in H as ([] & wa & ((Hda & _) & _ & Hmay)%permission_gate_ok & H).
  split; [done|].
  apply exec_bind_ok in H as ([] & wb & [Hb ->]%exec_ensure_ok & H). bools.
  apply exec_bind_ok in H as ([] & wc & [_ ->]%exec_ensure_ok & H).
  apply exec_bind_ok in H as (sealed & wd & Hseal & H).
  pose proof (Seal_Open _ _ _ _ _ Hseal) as Hopen. apply Seal_db in Hseal as [Hdd _].
  apply exec_bind_ok in H as (id & we & [= <- <-] & H).
  apply exec_bind_ok in H as (now & wf & [= <- <-] & H).
  apply exec_bind_ok in H as (row & wg & H8 & H). rewrite exec_lift in H8. injection H8 as H8 <-.
  apply NewSecretMount_ok in H8. apply exec_bind_ok in H as ([] & wh & Hc & H).
  injection H as <- <-. apply exec_txn in Hc as [_ [fs Hc]]; [|tx_frame_steps].
  apply insert_row_ok in Hc as (_ & Hnone & _ & _ & ->). simpl in *.
  rewrite Hdd, Hda in Hnone. subst row. simpl in *. rewrite Hdd, Hda.
  split_and!; [done|done|by rewrite Hb|]. unfold decryptSecretID. simpl.
  by destruct sealed.
Qed.
End mounts.
