(* ===== verification/FleetSpec.v ===== *)
(** * What the Fleet services and the deploy executor do *)
From stdpp Require Import pretty.
From S2P Require Import Prelude Prog TenancyDomain FleetDomain Store Outbox Envelope FleetRepo.
From S2P Require Import FleetText Compose Principal Ports Registry FleetMachines FleetFiles.
From S2P Require Import DeployExecutor Wiring RbacRepo TenancyRepo RbacSpec Gates FleetLife.

(** ** Triggering an operation *)

Section trigger.
Context {X : Type}.
Implicit Types w : World X.

Lemma fleet_row_ok `{Table T} o id (P : T → bool) e w row w' :
  exec (org_txn o (get_row id P e)) w = (Ok row, w') →
  tget (db w) !! id = Some row ∧ P row = true ∧ db w' = db w.
Proof.
  intros Hx. apply exec_txn in Hx as [_ [fs Hx]]; [|tx_frame_steps].
  by apply get_row_ok in Hx as [-> (Hrow & _ & HP)%row_at_Some].
Qed.

Lemma NewOperation_ok id now o c m t u op :
  NewOperation id now o c m t u = Ok op →
  op = mkOperation id o c m t OperationStatusQueued u now None None None "" ∧
  operation_type_valid t = true.
Proof.
  unfold NewOperation. simpl. repeat (case_match; simpl; try done). by intros [= <-].
Qed.

Definition operation_created (op : Operation) (ev : OutboxEvent) : Prop :=
  oe_OrganizationID ev = op_OrganizationID op ∧ oe_EventType ev = "FleetOperationCreated" ∧
  oe_PublishedAt ev = None ∧
  oe_Payload ev !! "target_id" = Some (op_ID op) ∧ oe_Payload ev !! "actor" = Some (op_TriggeredBy op).

(** An operation is triggered by a member who may deploy, on a compose file
    and a machine of the organization that is not archived.  It is queued,
    its event is in the outbox, and nothing else changes. *)
Theorem TriggerOperation_ok ctx inp w op w' :
  exec (TriggerOperation ctx inp) w = (Ok op, w') →
  (is_member (db w) (to_OrganizationID inp) (to_RequestingUserID inp) ∧
   may (db w) ctx (to_OrganizationID inp) (to_RequestingUserID inp) permissionOperationDeploy) ∧
  (∃ file, compose_files (db w) !! to_ComposeFileID inp = Some file ∧
     cf_OrganizationID file = to_OrganizationID inp) ∧
  (∃ machine, machines (db w) !! to_MachineID inp = Some machine ∧
     mach_OrganizationID machine = to_OrganizationID inp ∧ mach_Archived machine = false) ∧
  op = mkOperation (op_ID op) (to_OrganizationID inp) (to_ComposeFileID inp) (to_MachineID inp)
    (to_OperationType inp) OperationStatusQueued (to_RequestingUserID inp) (op_CreatedAt op)
    None None None "" ∧
  operation_type_valid (to_OperationType inp) = true ∧
  operations (db w) !! op_ID op = None ∧
  ∃ ev, operation_created op ev ∧ db w' = add_event ev (put_row (op_ID op) op (db w)).
Proof.
  unfold TriggerOperation. intros H.
  apply exec_bind_ok in H as ([] & w1 & ((Hd1 & _) & Hmem & Hmay)%permission_gate_ok & H).
  apply exec_bind_ok in H as (file & w2 & (Hfile & Hfo & Hd2)%fleet_row_ok & H).
  apply exec_bind_ok in H as (machine & w3 & (Hm & Hmo & Hd3)%fleet_row_ok & H).
  apply exec_bind_ok in H as ([] & w4 & [Ha ->]%exec_ensure_ok & H).
  apply exec_bind_ok in H as (id & w5 & [= <- <-] & H).
  apply exec_bind_ok in H as (now & w6 & [= <- <-] & H).
  apply exec_bind_ok in H as (op' & w7 & H7 & H). rewrite exec_lift in H7. injection H7 as H7 <-.
  apply exec_bind_ok in H as ([] & w8 & H8 & H). injection H as <- <-.
  apply NewOperation_ok in H7 as [Hop Hvalid].
  apply exec_txn in H8 as [_ [fs H8]]; [|tx_frame_steps]. tx_inv H8.
  apply insert_row_ok in Hst as (_ & Hnone & _ & _ & ->).
  apply Write_ok in H8 as (_ & _ & Hd8). unfold cf_in, mach_in in *. bools. simpl in *.
  rewrite Hd1 in Hfile. rewrite Hd2, Hd1 in Hm. rewrite Hd3, Hd2, Hd1 in Hnone.
  split_and!; [done|done|by exists file|by exists machine|by subst op'|done|done|].
  eexists. split; [|rewrite Hd8; simpl; by rewrite Hd3, Hd2, Hd1]. by subst op'.
Qed.
End trigger.

(** ** Duplicating a machine

    The loop over candidate names ends, at the first free name or after fifty
    taken ones. *)

(** While nothing fails, whoever passes the gate's questions passes it. *)
Lemma permission_gate_passes {X} notMember forbidden ctx o u p (w : World X) :
  faults w = [] → is_member (db w) o u → may (db w) ctx o u p →
  exec (permission_gate notMember forbidden ctx o u p) w = (Ok (), w).
Proof.
  intros Hf Hm Hmay. unfold permission_gate, member_gate. ports. simpl HasPermission.
  rewrite !exec_bind.
  destruct (exec (MembershipRepository_IsMember o u) w) as [r w1] eqn:H.
  pose proof H as H0. unfold MembershipRepository_IsMember, org_txn in H0.
  match type of H0 with exec (txn ?s ?t) _ = _ =>
    destruct (exec_txn_nofault s t w) as [Hx _]; [tx_frame_steps|done|] end.
  rewrite H0 in Hx. cbn in Hx. injection Hx as Hr Hw.
  apply IsMember_exec in H as [_ Hiff]. subst r. rewrite Hw.
  rewrite (proj2 Hiff Hm). cbn. by rewrite exec_bind, (HasPermission_may ctx o u p w Hf Hmay).
Qed.

Section duplicate.
Context {X : Type}.
Implicit Types w : World X.

(** A machine of the organization has the name. *)
Definition name_taken (d : DB) (organizationID name : string) : Prop :=
  ∃ k m, machines d !! k = Some m ∧ mach_OrganizationID m = organizationID ∧ mach_Name m = name.

Lemma append_char_inj c : Inj (=) (=) (λ s, s +:+ String c "").
Proof.
  intros a. induction a as [|x a IH]; intros [|y b]; simpl; try done.
  - intros [= _ Hb]. by destruct b.
  - intros [= _ Ha]. by destruct a.
  - intros [= -> H%IH]. by f_equal.
Qed.

Lemma duplicateName_inj name : Inj (=) (=) (duplicateName name).
Proof.
  intros i j. unfold duplicateName. repeat case_bool_decide; subst; try done;
    intros Heq%(inj (String.append name)); try done.
  apply (inj (String.append " (copy ")), append_char_inj, (inj pretty) in Heq. done.
Qed.

(** Uuids that are drawn from here on name no machine and no event. *)
Definition fresh_uuids w : Prop := ∀ i, uuid_next w ≤ i →
  machines (db w) !! uuid_at w i = None ∧ outbox_events (db w) !! uuid_at w i = None.

(** From [w] on nothing happened but that uuids were drawn. *)
Definition only_drew w w' : Prop :=
  db w' = db w ∧ clock w' = clock w ∧ uuid_at w' = uuid_at w ∧ uuid_next w ≤ uuid_next w' ∧
  faults w' = [].

Lemma only_drew_fresh w w' : only_drew w w' → fresh_uuids w → fresh_uuids w'.
Proof. intros (Hd & _ & Hu & Hn & _) Hw i Hi. rewrite Hd, Hu. apply Hw. lia. Qed.

Lemma only_drew_trans w1 w2 w3 : only_drew w1 w2 → only_drew w2 w3 → only_drew w1 w3.
Proof. intros (?&?&?&?&?) (?&?&?&?&?). repeat split; [congruence..|lia|done]. Qed.

Definition cloned w (actor : string) (source : Machine) (name : string) (clone : Machine) w' : Prop :=
  clone = clone_machine source (mach_ID clone) (clock w) name ∧
  machines (db w) !! mach_ID clone = None ∧
  ∃ ev, oe_EventType ev = "FleetMachineCreated" ∧
    oe_OrganizationID ev = mach_OrganizationID source ∧
    oe_Payload ev !! "target_id" = Some (mach_ID clone) ∧ oe_Payload ev !! "actor" = Some actor ∧
    db w' = add_event ev (put_row (mach_ID clone) (machine_row clone) (db w)).

Lemma conflicts_name m d :
  conflicts (machine_row m) d = true ↔ name_taken d (mach_OrganizationID m) (mach_Name m).
Proof.
  unfold conflicts. rewrite existsb_rows. unfold name_taken. simpl.
  setoid_rewrite andb_true_iff. setoid_rewrite bool_decide_eq_true. naive_solver.
Qed.

(** One attempt. *)
Lemma create_clone_exec actor source name w :
  faults w = [] → fresh_uuids w → is_Some (organizations (db w) !! mach_OrganizationID source) →
  (name_taken (db w) (mach_OrganizationID source) name ∧
   ∃ w', exec (create_clone actor source name) w = (Err ErrMachineNameTaken, w') ∧ only_drew w w') ∨
  (¬ name_taken (db w) (mach_OrganizationID source) name ∧
   ∃ clone w', exec (create_clone actor source name) w = (Ok clone, w') ∧
     cloned w actor source name clone w').
Proof.
  intros Hf Hfresh Horg.
  set (clone := clone_machine source (uuid_at w (uuid_next w)) (clock w) name).
  assert (exec (create_clone actor source name) w =
    exec (MachineRepository_Create actor clone;; Ret clone) (next_uuid w)) as -> by done.
  rewrite exec_bind. unfold MachineRepository_Create, org_txn.
  match goal with |- context [txn ?s ?t] =>
    destruct (exec_txn_nofault s t (next_uuid w)) as [-> _];
      [apply tx_frame_bind; [tx_frame_steps|intros _; apply tx_frame_event]|done|] end.
  rewrite tx_bind_eq. unfold on_code, insert_row. cbn [checks machine_table negb].
  assert (visible (AppRole (Some (mach_OrganizationID clone))) (machine_row clone) = true) as ->.
  { simpl. unfold tenant_is. by rewrite bool_decide_true. }
  cbn [negb]. rewrite bool_decide_false.
  2:{ intros [m Hm]. simpl in Hm. destruct (Hfresh (uuid_next w)) as [Hn _]; [done|].
      rewrite Hn in Hm. done. }
  cbn [orb]. destruct (conflicts (machine_row clone) (db (next_uuid w))) eqn:Hc.
  - apply conflicts_name in Hc. left. split; [done|]. eexists. split; [reflexivity|].
    repeat split; simpl; [lia|done].
  - right. split.
    { intros Ht. pose proof (proj2 (conflicts_name clone (db w)) Ht). simpl in Hc. congruence. }
    assert (fk (db (next_uuid w)) (machine_row clone) = true) as Hfk.
    { simpl. unfold references. by rewrite bool_decide_true. }
    rewrite Hfk. cbn [negb]. unfold fleet_event, Write. rewrite tx_bind_eq. unfold tx_uuid.
    rewrite tx_bind_eq. unfold sql_now, insert_row. cbn.
    destruct (Hfresh (S (uuid_next w))) as [_ Hev]; [lia|]. rewrite Hev.
    rewrite bool_decide_false by (by intros []). cbn.
    unfold conflicts. cbn. replace (existsb _ _) with false.
    2:{ symmetry. induction (rows _); [done|]. by simpl. }
    cbn. unfold references. rewrite bool_decide_true by done. cbn.
    eexists _, _. split; [reflexivity|]. split; [done|].
    split; [by destruct (Hfresh (uuid_next w)) as [? _]|]. exists (new_event (next_uuid w) (mach_OrganizationID source) "FleetMachineCreated" (payload
      [("actor", actor); ("target_type", "machine"); ("target_id", mach_ID clone);
       ("name", name); ("host", mach_Host source)])).
    by split_and!.
Qed.

(** The attempts from the [n]-th on, [k] of them. *)
Lemma try_names_exec actor source n k w :
  faults w = [] → fresh_uuids w → is_Some (organizations (db w) !! mach_OrganizationID source) →
  let taken i := name_taken (db w) (mach_OrganizationID source)
    (duplicateName (mach_Name source) i) in
  ((∀ i, n ≤ i < n + k → taken i) ∧
   ∃ w' e, exec (try_names actor source n k) w = (Err (ValidationError Fleet e), w') ∧
     db w' = db w) ∨
  ∃ i clone w', n ≤ i < n + k ∧ ¬ taken i ∧ (∀ j, n ≤ j < i → taken j) ∧
    exec (try_names actor source n k) w = (Ok clone, w') ∧
    cloned w actor source (duplicateName (mach_Name source) i) clone w'.
Proof.
  intros Hf Hfr Horg taken. subst taken. revert n w Hf Hfr Horg.
  induction k as [|k IH]; intros n w Hf Hfr Horg; cbn [try_names].
  { left. split; [lia|]. by eexists _, _. }
  rewrite exec_bind, exec_try.
  destruct (create_clone_exec actor source (duplicateName (mach_Name source) n) w Hf Hfr Horg)
    as [(Ht & w1 & -> & Hw1)|(Hn & clone & w1 & -> & Hc)]; cbn.
  - destruct (IH (S n) w1) as [(Hall & w' & e & Hx & Hd)|(i & c & w' & Hi & Hni & Hlt & Hx & Hc)];
      [apply Hw1|by eapply only_drew_fresh|destruct Hw1 as [-> _]; done|..];
      destruct Hw1 as (Hd1 & Hclk & _); rewrite Hd1 in *.
    + left. split; [|exists w', e; split; [exact Hx|congruence]].
      intros i Hi. destruct (decide (i = n)) as [->|?]; [done|]. apply Hall. lia.
    + right. exists i, c, w'. split_and!; [lia|lia|done| |exact Hx|].
      * intros j Hj. destruct (decide (j = n)) as [->|?]; [done|]. apply Hlt. lia.
      * unfold cloned in *. by rewrite Hclk, Hd1 in Hc.
  - right. exists n, clone, w1. split_and!; [lia|lia|done|lia|done|done].
Qed.

(** Fifty taken names are fifty machines. *)
Lemma all_taken d o name k :
  (∀ i, 1 ≤ i < 1 + k → name_taken d o (duplicateName name i)) →
  k ≤ length (filter (λ m, mach_OrganizationID m = o) (rows d)).
Proof.
  intros Hall.
  set (names := map (duplicateName name) (seq 1 k)).
  transitivity (length names); [unfold names; by rewrite length_map, length_seq|].
  transitivity (length (map mach_Name (filter (λ m, mach_OrganizationID m = o) (rows d))));
    [|by rewrite length_map].
  apply submseteq_length, NoDup_submseteq.
  - apply NoDup_fmap_2; [apply duplicateName_inj|apply NoDup_seq].
  - intros x (i & -> & Hi)%list_elem_of_fmap. apply elem_of_seq in Hi.
    destruct (Hall i Hi) as (key & m & Hm & Ho & Hn). rewrite <-Hn.
    apply list_elem_of_fmap. exists m. split; [done|]. apply list_elem_of_filter.
    split; [done|]. apply elem_of_rows. eauto.
Qed.

(** C21: Duplicating a machine without naming the copy ends: it takes the first
    of the names "... (copy)", "... (copy 2)", ... that no machine of the
    organization has, however many attempts failed before; only when fifty
    machines hold all of the fifty names is nothing written and the request
    invalid. *)
Theorem DuplicateMachine_ends ctx inp w source :
  faults w = [] → fresh_uuids w → dm_Name inp = "" →
  is_member (db w) (dm_OrganizationID inp) (dm_RequestingUserID inp) →
  may (db w) ctx (dm_OrganizationID inp) (dm_RequestingUserID inp) permissionMachineManage →
  machines (db w) !! dm_MachineID inp = Some source →
  mach_OrganizationID source = dm_OrganizationID inp →
  is_Some (organizations (db w) !! dm_OrganizationID inp) →
  let taken i := name_taken (db w) (dm_OrganizationID inp)
    (duplicateName (mach_Name source) i) in
  (∃ i clone w', 1 ≤ i ≤ maxDuplicateNameAttempts ∧ ¬ taken i ∧ (∀ j, 1 ≤ j < i → taken j) ∧
     exec (DuplicateMachine ctx inp) w = (Ok clone, w') ∧
     cloned w (dm_RequestingUserID inp) source (duplicateName (mach_Name source) i) clone w') ∨
  (maxDuplicateNameAttempts ≤
     length (filter (λ m, mach_OrganizationID m = dm_OrganizationID inp) (rows (db w))) ∧
   (∀ i, 1 ≤ i ≤ maxDuplicateNameAttempts → taken i) ∧
   ∃ w' e, exec (DuplicateMachine ctx inp) w = (Err (ValidationError Fleet e), w') ∧
     db w' = db w).
Proof.
  intros Hf Hfr Hname Hm Hmay Hsrc Ho Horg.
  assert (exec (DuplicateMachine ctx inp) w =
    exec (try_names (dm_RequestingUserID inp) source 1 maxDuplicateNameAttempts) w) as Hx.
  { unfold DuplicateMachine, fleet_gate. rewrite exec_bind, permission_gate_passes by done.
    rewrite exec_bind. unfold MachineRepository_GetByID, org_txn.
    match goal with |- context [txn ?s ?t] =>
      destruct (exec_txn_nofault s t w) as [-> _]; [tx_frame_steps|done|] end.
    rewrite (proj2 (get_row_ok _ _ _ _ _ source w)); [by rewrite Hname|].
    split; [done|]. apply row_at_Some. split; [done|]. simpl. unfold tenant_is, mach_in.
    by rewrite Ho, !bool_decide_true. }
  rewrite Hx, <-Ho in *. unfold maxDuplicateNameAttempts in *.
  destruct (try_names_exec (dm_RequestingUserID inp) source 1 50 w Hf Hfr Horg)
    as [(Hall & w' & e & He & Hd)|(i & clone & w' & Hi & H)].
  - right. split; [by eapply all_taken|]. split; [intros i Hi; apply Hall; lia|eauto].
  - left. exists i, clone, w'. split; [lia|done].
Qed.
End duplicate.
