(* ===== verification/ExecutorSpec.v ===== *)
(** * What the deploy executor does

    The effective variables of a compose file, and that an operation handed
    to [execute] is always finished: with the exit status of the command, or
    with the error that kept it from running. *)
From S2P Require Import Prelude Prog TenancyDomain FleetDomain Store Outbox Envelope FleetRepo.
From S2P Require Import FleetText Compose Principal Ports Registry FleetMachines FleetFiles.
From S2P Require Import DeployExecutor FleetLife.

(** ** An operation is finished *)

Section finishes.
Context {X : Type}.
Context `{calm_fleet : CalmFleet X, !Aead}.
Context (masterKey : string).
Context (yaml_unmarshal : string → string + option (gmap string Prelude.any)).
Context (yaml_marshal : gmap string Prelude.any → res string).
Context (string_map_order : gmap string string → list (string * string)).
Context (error_text : error → string) (quote : string → string).
Implicit Types w : World X.

(** What is recorded of an operation: its status, exit code and output. *)
Notation record := (string → option Z → string → Prop) (only parsing).

(** What [execute] may record of an operation on a compose file, in the
    database [d]: the exit code of the command and its scrubbed output, or
    the error that came before it. *)
Definition executed (d : DB) (organizationID composeFileID : string)
    (status : string) (ec : option Z) (out : string) : Prop :=
  (status = OperationStatusFailed ∧ ec = None ∧ ∃ msg, out = "internal error: " +:+ msg) ∨
  (∃ code raw resolved w w', ec = Some code ∧
     status = (if bool_decide (code = 0%Z) then OperationStatusSuccess else OperationStatusFailed) ∧
     db w = d ∧ exec (resolveComposeVariables organizationID composeFileID) w = (Ok resolved, w') ∧
     out = scrubSecrets raw (secretValuesFor string_map_order resolved)).

Section one_operation.
Context (w0 : World X) (organizationID id : string) (o : Operation).
Context (Ho : operations (db w0) !! id = Some o) (Horg : op_OrganizationID o = organizationID).

(** Where the executor is until it writes. *)
Definition unwritten w : Prop := db w = db w0 ∧ clock w = clock w0 ∧ faults w = [].

(** Run to its end, [p] fails nowhere and leaves one of the records [Q]. *)
Definition finishes (Q : record) (p : prog (World X) ()) : Prop := ∀ w, unwritten w →
  ∃ w' status ec out, exec p w = (Ok (), w') ∧ Q status ec out ∧
    db w' = put_row id (finish_operation status (clock w0) ec out o) (db w0).

Lemma unwritten_calm {A} (p : prog (World X) A) w r w' :
  steps_in calm p → exec p w = (r, w') → unwritten w → unwritten w'.
Proof using Type.
  intros Hp He (Hd & Hc & Hf). destruct (calm_exec _ _ _ _ Hp He) as (? & ? & _ & _ & Hh).
  repeat split; [congruence..|auto].
Qed.

Lemma exec_logged_error (p : prog (World X) ()) w : exec (logged_error p) w = (Ok (), (exec p w).2).
Proof using Type.
  unfold logged_error, void. rewrite exec_bind, exec_try. by destruct (exec p w).
Qed.

(** The last two calls of every path. *)
Lemma finishes_now (Q : record) status ec out code :
  Q status ec out →
  finishes Q (logged_error (OperationRepository_MarkFinished organizationID id status ec out);;
              logged_error (PublishEnd id code)).
Proof using All.
  intros HQ w (Hd & Hc & Hf).
  exists (exec (logged_error (PublishEnd id code))
            (exec (OperationRepository_MarkFinished organizationID id status ec out) w).2).2.
  exists status, ec, out. split; [|split; [done|]].
  { rewrite exec_bind, (exec_logged_error (OperationRepository_MarkFinished _ _ _ _ _)).
    by rewrite (exec_logged_error (PublishEnd _ _)). }
  destruct (exec (logged_error (PublishEnd id code)) _) as [r w2] eqn:Hend.
  apply calm_exec in Hend as [Hend _]; [|apply steps_in_void, steps_in_try, calm_end].
  cbn [snd]. rewrite Hend.
  unfold OperationRepository_MarkFinished, org_txn.
  destruct (exec_txn_nofault (AppRole (Some organizationID))
    (sql_now ≫= λ now, affected ErrOperationNotFound
       (update_pk id (op_in organizationID) (finish_operation status now ec out))) w)
    as [-> _]; [tx_frame_steps|done|].
  rewrite tx_bind_eq. unfold sql_now. unfold affected. rewrite tx_bind_eq.
  rewrite (update_pk_some _ _ _ _ _ o).
  - rewrite bool_decide_false by done. simpl. by rewrite Hd, Hc.
  - rewrite Hd. apply row_at_Some. split; [done|]. simpl. unfold tenant_is, op_in.
    by rewrite Horg, !bool_decide_true.
Qed.

Lemma finishes_with_error (Q : record) message :
  Q OperationStatusFailed None ("internal error: " +:+ message) →
  finishes Q (finishWithError organizationID id message).
Proof using All. apply finishes_now. Qed.

(** A step that only reads, and the rest of the function. *)
Lemma finishes_or {A} (Q : record) what (p : prog (World X) A) k :
  steps_in calm p → (∀ msg, Q OperationStatusFailed None ("internal error: " +:+ msg)) →
  (∀ a w w', unwritten w → exec p w = (Ok a, w') → finishes Q (k a)) →
  finishes Q (or_finish error_text organizationID id what p k).
Proof using All.
  intros Hp Herr Hk w Hw. unfold or_finish. rewrite exec_bind, exec_try.
  destruct (exec p w) as [[a|e] w1] eqn:He; eapply unwritten_calm in He as Hw1; try done.
  - by apply (Hk a w w1).
  - by apply finishes_with_error.
Qed.

Lemma finishes_files (Q : record) path values fvs files k :
  (∀ msg, Q OperationStatusFailed None ("internal error: " +:+ msg)) →
  (∀ files, finishes Q (k files)) →
  finishes Q (file_variables error_text quote organizationID id path values fvs files k).
Proof using All.
  intros Herr Hk. revert files. induction fvs as [|fv fvs IH]; intros files; cbn [file_variables].
  - apply Hk.
  - apply finishes_or; [by apply steps_in_lift|done|intros; apply IH].
Qed.

#[local] Notation executed := (executed (db w0) organizationID (op_ComposeFileID o)).

Lemma executed_error msg : executed OperationStatusFailed None ("internal error: " +:+ msg).
Proof using Type. left. eauto. Qed.

Lemma finishes_run target files command resolved w w' :
  unwritten w →
  exec (resolveComposeVariables organizationID (op_ComposeFileID o)) w = (Ok resolved, w') →
  finishes executed (run_operation error_text organizationID id target files command
    (secretValuesFor string_map_order resolved)).
Proof using All.
  intros [Hd _] Hr. unfold run_operation. apply finishes_or; [|apply executed_error|].
  - apply calm_run. intros line. apply steps_in_void, steps_in_try, calm_line.
  - intros [code raw] w1 w2 _ _. apply finishes_now. right.
    exists code, raw, resolved, w, w'. by split_and!.
Qed.

Lemma finishes_execute :
  finishes executed
    (execute masterKey yaml_unmarshal yaml_marshal string_map_order error_text quote
       organizationID id).
Proof using All.
  intros w Hw. unfold execute. rewrite exec_bind, exec_try.
  unfold OperationRepository_GetByID, org_txn.
  destruct (exec_txn_nofault (AppRole (Some organizationID))
    (get_row id (op_in organizationID) ErrOperationNotFound) w) as [Hx _];
    [tx_frame_steps|apply Hw|].
  assert (get_row id (op_in organizationID) ErrOperationNotFound
            (AppRole (Some organizationID)) w = (Ok o, w)) as Hget.
  { apply get_row_ok. split; [done|]. apply row_at_Some. destruct Hw as (-> & _).
    split; [done|]. simpl. unfold tenant_is, op_in. by rewrite Horg, !bool_decide_true. }
  rewrite Hget in Hx. rewrite Hx. cbn [mbind].
  refine (finishes_or executed _ _ _ _ executed_error _ w Hw); [calm_steps|intros file ? ? _ _].
  apply finishes_or; [calm_steps|apply executed_error|intros machine ? ? _ _].
  apply finishes_or; [by apply calm_credential|apply executed_error|intros secret ? ? _ _].
  apply finishes_or; [by apply calm_resolveComposeVariables|apply executed_error|].
  intros resolved wr wr' Hwr Hres. unfold deploy_files.
  case_match; [|by eapply finishes_run].
  apply finishes_or; [calm_steps|apply executed_error|intros networks ? ? _ _].
  apply finishes_or; [calm_steps|apply executed_error|intros volumes ? ? _ _].
  apply finishes_or; [by apply steps_in_lift|apply executed_error|intros rendered ? ? _ _].
  apply finishes_files; [apply executed_error|]. intros files. by eapply finishes_run.
Qed.
End one_operation.

Lemma TryClaim_queued organizationID id o w :
  faults w = [] → operations (db w) !! id = Some o → op_OrganizationID o = organizationID →
  op_Status o = OperationStatusQueued →
  ∃ w', exec (OperationRepository_TryClaim organizationID id) w = (Ok true, w') ∧
    db w' = put_row id (start_operation (clock w) o) (db w) ∧ clock w' = clock w ∧ faults w' = [].
Proof using Type.
  intros Hf Ho Horg Hq. unfold OperationRepository_TryClaim, org_txn.
  match goal with |- context [txn ?s ?t] =>
    destruct (exec_txn_nofault s t w) as [-> _]; [tx_frame_steps|done|] end.
  rewrite tx_bind_eq. unfold sql_now. rewrite tx_bind_eq.
  rewrite (update_pk_some _ _ _ _ _ o); [by eexists|]. apply row_at_Some.
  split; [done|]. simpl. unfold tenant_is, op_in. by rewrite Horg, Hq, !bool_decide_true.
Qed.

End finishes.

(** ** The variables in effect *)

Section effective.
Context (d : DB) (organizationID composeFileID : string).

(** The variable is one of the organization's compose file. *)
Definition defines (file : string) (v : FleetVariable) : Prop :=
  ∃ id, fleet_variables d !! id = Some v ∧ fv_OrganizationID v = organizationID ∧
    fv_ComposeFileID v = file.

Definition is_global (g : ComposeFile) : Prop :=
  ∃ id, compose_files d !! id = Some g ∧ cf_OrganizationID g = organizationID ∧
    cf_IsGlobal g = true.

(** A variable is in effect on a file when it is its own, or of the
    organization's global file and the file has none of its key. *)
Inductive effective (v : FleetVariable) : Prop :=
| effective_local : defines composeFileID v → effective v
| effective_global g :
    is_global g → cf_ID g ≠ composeFileID → defines (cf_ID g) v →
    (∀ u, defines composeFileID u → fv_Key u ≠ fv_Key v) → effective v.

(** What the unique indexes of the two tables give. *)
Definition keys_unique : Prop := ∀ i j u v,
  fleet_variables d !! i = Some u → fleet_variables d !! j = Some v →
  tunique u v = true → u = v.
Definition one_global_file : Prop := ∀ i j g h,
  compose_files d !! i = Some g → compose_files d !! j = Some h → tunique g h = true → g = h.
End effective.

Section resolve_spec.
Context {X : Type} `{!SecretResolver X}.
(** The secret a reference of an organization resolves to. *)
Context (secret_at : string → string → string → string).
Context (resolves : ∀ o m p (w : World X) s w',
  exec (ResolveSecret o m p) w = (Ok s, w') → s = secret_at o m p).
Implicit Types (w : World X) (r : ResolvedComposeVariables).

Definition value_of (organizationID : string) (v : FleetVariable) : string :=
  if fv_VarType v =ₛ VarTypeSecret then
    match fv_SecretRef v with
    | Some ref => secret_at organizationID (fsr_MountID ref) (fsr_Path ref)
    | None => ""
    end
  else fv_Value v.

Lemma variable_value_ok o v w x w' :
  exec (variable_value o v) w = (Ok x, w') → x = value_of o v.
Proof using resolves.
  unfold variable_value, value_of. repeat case_match; try done; [apply resolves|].
  by intros [= <- _].
Qed.

Lemma resolve_all_ok o vs r w r' w' :
  exec (resolve_all o vs r) w = (Ok r', w') →
  r' = foldl (λ r v, add_variable v (value_of o v) r) r vs.
Proof using resolves.
  revert r w. induction vs as [|v vs IH]; intros r w; cbn [resolve_all]; [by intros [= <- _]|].
  intros (x & w1 & ->%variable_value_ok & H)%exec_bind_ok. by apply IH in H.
Qed.

(** The keys of a list tell its variables apart. *)
Definition keyed (vs : list FleetVariable) : Prop :=
  ∀ u v, u ∈ vs → v ∈ vs → fv_Key u = fv_Key v → u = v.

Notation added o := (foldl (λ r v, add_variable v (value_of o v) r)).

Lemma add_variable_templates v x r :
  TemplateValues (add_variable v x r) = <[fv_Key v := x]> (TemplateValues r).
Proof using Type. unfold add_variable. by repeat case_match. Qed.
Lemma add_variable_env v x r : EnvVars (add_variable v x r) =
  if fv_VarType v =ₛ VarTypeEnv then <[fv_Key v := x]> (EnvVars r) else EnvVars r.
Proof using Type. unfold add_variable. by repeat case_match. Qed.
Lemma add_variable_files v x r : FileVariables (add_variable v x r) =
  FileVariables r ++ (if RequiresFileTargetPath (fv_VarType v) then [fv_set_value x v] else []).
Proof using Type.
  unfold add_variable. case_bool_decide as E.
  - rewrite E. simpl. by rewrite app_nil_r.
  - case_match; simpl; [done|by rewrite app_nil_r].
Qed.

(** The values of a map after the walk: of the last, so of the only,
    variable [P] of the key, or those from before. *)
Lemma walked o (P : FleetVariable → bool) (m : ResolvedComposeVariables → gmap string string) vs r k x :
  (∀ v y r, m (add_variable v y r) = if P v then <[fv_Key v := y]> (m r) else m r) →
  keyed vs →
  m (added o r vs) !! k = Some x ↔
  (∃ v, v ∈ vs ∧ P v = true ∧ fv_Key v = k ∧ x = value_of o v) ∨
  (∀ v, v ∈ vs → P v = true → fv_Key v ≠ k) ∧ m r !! k = Some x.
Proof using Type.
  intros Hm. revert r. induction vs as [|v vs IH]; intros r Hk; simpl.
  { split; [right; split; [by intros v ?%elem_of_nil|done]|].
    intros [(v & ?%elem_of_nil & _)|[_ ?]]; done. }
  rewrite IH by (intros a b Ha Hb; apply Hk; by right).
  rewrite Hm. split.
  - intros [(u & Hu & H)|[Hno H]]; [left; exists u; split; [by right|done]|].
    destruct (P v) eqn:HP.
    + destruct (decide (fv_Key v = k)) as [Hvk|Hvk].
      * rewrite Hvk, lookup_insert_eq in H. injection H as <-. left. exists v.
        split; [by left|done].
      * rewrite lookup_insert_ne in H by done. right. split; [|done].
        intros u [->|Hu]%elem_of_cons; auto.
    + right. split; [|done]. intros u [->|Hu]%elem_of_cons; [congruence|auto].
  - intros [(u & Hu & HPu & Hku & Hx)|[Hno H]].
    + destruct (decide (List.Exists (λ u, P u = true ∧ fv_Key u = k) vs))
        as [(u' & Hu' & HP' & Hk')%Exists_exists|Hnone].
      * left. exists u'. split_and!; try done. assert (u = u') as ->; [|done].
        apply Hk; [done|by right|congruence].
      * apply elem_of_cons in Hu as [->|Hu]; [|exfalso; apply Hnone, Exists_exists; eauto].
        right. split; [intros u' Hu' HP' Hk'; apply Hnone, Exists_exists; eauto|].
        rewrite HPu, Hku, lookup_insert_eq. by subst.
    + right. split; [intros u Hu; apply Hno; by right|].
      destruct (P v) eqn:HP; [|done]. rewrite lookup_insert_ne; [done|].
      apply Hno; [by left|done].
Qed.

Lemma walked_files o vs r f :
  f ∈ FileVariables (added o r vs) ↔
  f ∈ FileVariables r ∨
  ∃ v, v ∈ vs ∧ RequiresFileTargetPath (fv_VarType v) = true ∧ f = fv_set_value (value_of o v) v.
Proof using Type.
  revert r. induction vs as [|v vs IH]; intros r; simpl.
  { split; [by left|]. intros [?|(v & ?%elem_of_nil & _)]; done. }
  rewrite IH, add_variable_files, elem_of_app. split.
  - intros [[H|H]|(u & Hu & H)]; [by left| |right; exists u; split; [by right|done]].
    case_match; [|by apply elem_of_nil in H]. apply list_elem_of_singleton in H as ->.
    right. exists v. split; [by left|done].
  - intros [H|(u & [->|Hu]%elem_of_cons & HR & ->)]; [by left; left| |right; eauto].
    left. right. rewrite HR. by left.
Qed.

Lemma listed_variables o c w vs w' :
  exec (FleetVariableRepository_ListByComposeFile o c) w = (Ok vs, w') →
  db w' = db w ∧ ∀ v, v ∈ vs ↔ defines (db w) o c v.
Proof using Type.
  intros H. apply exec_txn in H as [_ [fs H]]; [|tx_frame_steps]. tx_inv H. subst.
  apply select_ok in Hst as [-> ->]. split; [done|]. intros v.
  rewrite merge_sort_Permutation, elem_of_selected. unfold defines. simpl.
  unfold tenant_is, fv_in. split.
  - intros [[id Hid] [_ H]]. bools. eauto.
  - intros (id & Hid & Ho & Hc). rewrite Ho, Hc, !bool_decide_true by done. eauto.
Qed.

Lemma fallback_ok o c w vs w' : one_global_file (db w) →
  exec (fallback_variables o c) w = (Ok vs, w') →
  ∀ v, v ∈ vs ↔ ∃ g, is_global (db w) o g ∧ cf_ID g ≠ c ∧ defines (db w) o (cf_ID g) v.
Proof using Type.
  intros Hone. unfold fallback_variables. intros (g & w1 & Hg & H)%exec_bind_ok.
  apply exec_txn in Hg as [_ [fs Hg]]; [|tx_frame_steps]. tx_inv Hg. subst.
  apply select_ok in Hst as [-> ->].
  set (gs := filter _ _) in H.
  assert (∀ g, g ∈ gs ↔ is_global (db w) o g) as Hgs.
  { intros g. unfold gs. rewrite elem_of_selected. unfold is_global. simpl.
    unfold tenant_is, cf_in. split.
    - intros [[id Hid] [_ Hg]]. bools. eauto.
    - intros (id & Hid & -> & ->). rewrite !bool_decide_true by done. eauto. }
  destruct gs as [|g rest]; simpl in H.
  { injection H as <- _. intros v. split; [by intros ?%elem_of_nil|].
    by intros (g & ?%Hgs%elem_of_nil & _). }
  assert (is_global (db w) o g) as Hg by (apply Hgs; by left).
  assert (∀ h, is_global (db w) o h → h = g) as Honly.
  { intros h (i & Hi & Hio & Hig). destruct Hg as (j & Hj & Hjo & Hjg).
    apply (Hone i j); [done..|]. simpl. unfold one_global. rewrite Hig, Hjg, Hio, Hjo.
    rewrite (bool_decide_true (o = o)) by done. by rewrite orb_true_r. }
  case_bool_decide as Hc.
  - injection H as <- _. intros v. split; [by intros ?%elem_of_nil|].
    intros (h & ->%Honly & ? & _). done.
  - apply listed_variables in H as [_ H]. intros v. rewrite H. split; [eauto|].
    by intros (h & ->%Honly & _ & ?).
Qed.

Lemma in_effect d o c local fallback :
  (∀ v, v ∈ local ↔ defines d o c v) →
  (∀ v, v ∈ fallback ↔ ∃ g, is_global d o g ∧ cf_ID g ≠ c ∧ defines d o (cf_ID g) v) →
  ∀ v, v ∈ local ++ not_overridden local fallback ↔ effective d o c v.
Proof using Type.
  intros Hl Hf v. unfold not_overridden. rewrite elem_of_app, list_elem_of_filter, Hl, Hf. split.
  - intros [H|[Hn (g & Hg & Hne & Hd)]]; [by left|]. apply (effective_global _ _ _ _ g); try done.
    intros u Hu%Hl Heq. apply Hn. rewrite <-Heq. apply list_elem_of_fmap. eauto.
  - intros [H|g Hg Hne Hd Hn]; [by left|]. right. split; [|eauto].
    intros (u & Hk & Hu%Hl)%list_elem_of_fmap. by apply (Hn u).
Qed.

Lemma effective_keyed d o c vs : keys_unique d → one_global_file d →
  (∀ v, v ∈ vs ↔ effective d o c v) → keyed vs.
Proof using Type.
  intros Hkeys Hone Hvs u v Hu%Hvs Hv%Hvs Hk.
  assert (∀ f, defines d o f u → defines d o f v → u = v) as Hsame.
  { intros f (i & Hi & _ & Hf) (j & Hj & _ & Hf'). apply (Hkeys i j); [done..|]. simpl.
    by rewrite Hf, Hf', Hk, !bool_decide_true. }
  destruct Hu as [Hu|g Hg Hne Hu Hnu], Hv as [Hv|h Hh Hne' Hv Hnv].
  - by apply (Hsame c).
  - by destruct (Hnv u Hu Hk).
  - by destruct (Hnu v Hv).
  - apply (Hsame (cf_ID g)); [done|]. assert (g = h) as ->; [|done].
    destruct Hg as (i & Hi & Hio & Hig), Hh as (j & Hj & Hjo & Hjg).
    apply (Hone i j); [done..|]. simpl. unfold one_global.
    by rewrite Hig, Hjg, Hio, Hjo, (bool_decide_true (o = o)), orb_true_r.
Qed.

End resolve_spec.
