(* ===== verification/FleetScenario.v ===== *)
(** * A concrete fleet

    A world outside the database - a Vault server, SSH targets, a log - that
    obeys the laws the theorems assume, and an organization with a machine, a
    compose file and a secret mount. *)
From S2P Require Import Prelude Prog RunDomain WorkspaceDomain RbacDomain VariableDomain.
From S2P Require Import TenancyDomain IdentityDomain FleetDomain Store Envelope FleetRepo FleetText.
From S2P Require Import Principal Ports Registry FleetMachines FleetFiles DeployExecutor Secrets FleetLife Wiring.
From S2P Require Import Scenario SecretsSpec.

(** What Vault holds, by address and path; what was published; and the
    commands that were run. *)
Record Outside := mkOutside {
  vault : gmap (string * string) any;
  published : list (string * LogMessage);
  ran : list (string * string);
}.

Definition outside {A} (f : Outside → A * Outside) : prog (World Outside) A :=
  call (λ w, let '(a, x) := f (aux w) in (Ok a, set_aux x w)).

Lemma calm_outside {A} (f : Outside → A * Outside) : steps_in calm (outside f).
Proof.
  apply steps_in_call. intros w. destruct (f (aux w)) as [a x].
  by split_and!; unfold healthy; simpl.
Qed.

(** A server that lets everybody in. *)
#[export] Instance demo_vault : VaultAPI Outside := {|
  vault_write address token path data := outside (λ x,
    if path =ₛ login_path then (Some (mkVaultSecret (Some "token") None), x)
    else (Some (mkVaultSecret None (Some ∅)),
          match data !! "data" with
          | Some d => mkOutside (<[(address, path) := d]> (vault x)) (published x) (ran x)
          | None => x
          end));
  vault_read address token path := outside (λ x,
    (option_map (λ d, mkVaultSecret None (Some {["data" := d]})) (vault x !! (address, path)), x));
  vault_lookup_self _ _ := Ret ();
|}.

#[export] Instance demo_vault_laws : VaultLaws Outside.
Proof.
  refine {| kv := λ x a p, vault x !! (a, p) |}.
  - intros. apply calm_outside.
  - intros. apply calm_outside.
  - done.
  - intros a t p d v w s w' Hp Hd. cbn. rewrite bool_decide_false by done. rewrite Hd.
    intros [= _ <-]. simpl. by rewrite lookup_insert_eq.
  - intros a t p d b q w r w' Hpq. cbn. case_bool_decide as E.
    + by intros [= _ <-].
    + destruct Hpq as [?|Hpq]; [done|]. destruct (d !! "data"); intros [= _ <-]; [|done].
      simpl. rewrite lookup_insert_ne; [done|]. congruence.
  - intros a t p v w s w' Hv. cbn. rewrite Hv. intros [= <- _].
    eexists _, _. split; [done|]. split; [done|]. by rewrite lookup_singleton_eq.
Qed.

(** A host that echoes what it is told to do. *)
#[export] Instance demo_ssh : SSHRunner Outside := {|
  Probe t := Ret (ConnectionStatusOnline, DockerStatusOK);
  RunOperation t files command onLine :=
    outside (λ x, ((), mkOutside (vault x) (published x) (ran x ++ [(ct_Host t, command)])));;
    onLine "starting";;
    onLine ("using " +:+ ct_Secret t);;
    Ret (0%Z, "started with s3cret");
|}.

#[export] Instance demo_publisher : LogPublisher Outside := {|
  PublishLine id l := outside (λ x,
    ((), mkOutside (vault x) (published x ++ [(id, mkLogMessage l false None)]) (ran x)));
  PublishEnd id c := outside (λ x,
    ((), mkOutside (vault x) (published x ++ [(id, mkLogMessage "" true (Some c))]) (ran x)));
|}.

(** A cipher that only keeps its input apart by key and nonce. *)
#[export] Instance demo_aead : Aead := {|
  random_bytes n draw := Nat.iter n (String "r") "";
  blake2b key salt := key +:+ salt;
  gcm_seal key nonce p := "sealed " +:+ p;
  gcm_open key nonce c := match c with
    | String _ (String _ (String _ (String _ (String _ (String _ (String _ p)))))) => Some p
    | _ => None
    end;
|}.

#[export] Instance demo_aead_laws : AeadLaws demo_aead.
Proof.
  split; [done|]. intros n draw. simpl. induction n as [|n IH]; simpl; [done|by rewrite IH].
Qed.

Definition demo_key : string := "0123456789abcdef0123456789abcdef".

#[export] Instance demo_resolver : SecretResolver Outside := secret_resolver demo_key.
#[export] Instance demo_writer : SecretWriter Outside := secret_writer demo_key.
#[export] Instance demo_mount_checker : SecretMountChecker Outside := secret_mount_checker.

(** ** The database *)

Definition demo_mount : SecretMount :=
  mkSecretMount "mount" "org" "main" BackendTypeVault "https://vault" "role"
    "sealed role-secret" "nonce" "salt" 1.
Definition demo_machine : Machine :=
  mkMachine "machine" "org" "web" "10.0.0.1" 22 "deploy" CredentialTypeSSHKey
    CredentialStorageLocal (mkFleetSecretReference "" "") "sealed ssh-key" "nonce" "salt"
    "/srv" ConnectionStatusUnknown DockerStatusUnknown None false 1.
Definition demo_file : ComposeFile :=
  mkComposeFile "file" "org" "Shop API" false "services" "alice" 1.
Definition demo_global : ComposeFile :=
  mkComposeFile "global" "org" "defaults" true "services" "alice" 1.
Definition demo_link : ProjectAttachment := mkProjectAttachment "link" "org" "file" "project".
Definition demo_variable (id file key type value : string) : FleetVariable :=
  mkFleetVariable id "org" file key type value None "" 1.
Definition demo_operation (id : string) : Operation :=
  mkOperation id "org" "file" "machine" "restart" OperationStatusQueued "alice" 1
    None None None "".

Definition fleet_db : DB :=
  put_row "mount" demo_mount
  (put_row "machine" demo_machine
  (put_row "file" demo_file
  (put_row "global" demo_global
  (put_row "link" demo_link
  (put_row "v1" (demo_variable "v1" "file" "TAG" VarTypeKV "v2")
  (put_row "v2" (demo_variable "v2" "global" "TAG" VarTypeKV "latest")
  (put_row "v3" (demo_variable "v3" "global" "TZ" VarTypeEnv "UTC") demo_db))))))).

Definition fleet_world : World Outside := mkWorld fleet_db 1000 uuid 0 [] (mkOutside ∅ [] []).

#[export] Instance fleet_calm : CalmFleet Outside.
Proof.
  split; intros.
  - apply calm_IsMember.
  - apply calm_HasPermission.
  - apply calm_ProjectExists.
  - apply calm_mount_exists.
  - apply calm_resolve_secret.
  - apply calm_write_secret.
  - done.
  - apply calm_outside.
  - apply calm_outside.
  - apply steps_in_bind; [apply calm_outside|intros _].
    apply steps_in_bind; [done|intros _]. by apply steps_in_bind; [|intros _].
Qed.
