(* ===== verification/FleetExamples.v ===== *)
(** * The Fleet theorems on a concrete fleet

    The theorems of FleetLife, FleetSpec, SecretsSpec and ExecutorSpec,
    applied to the world of FleetScenario; and runs on it that end as the
    code does not mean them to. *)
From S2P Require Import Prelude Prog RunDomain WorkspaceDomain RbacDomain VariableDomain.
From S2P Require Import TenancyDomain IdentityDomain FleetDomain Store Outbox Envelope FleetRepo FleetText.
From S2P Require Import Compose Principal Ports Registry FleetMachines FleetFiles DeployExecutor Secrets.
From S2P Require Import FleetLife Wiring RbacRepo TenancyRepo RbacSpec Gates Scenario.
From S2P Require Import SecretsSpec FleetSpec ExecutorSpec FleetScenario.

(** ** Parsers and printers *)

(** A document with one service. *)
Definition demo_yaml (s : string) : string + option (gmap string Prelude.any) :=
  inr (Some {["services" := AMap {["web" := AMap ∅]}]}).
Definition demo_print (m : gmap string Prelude.any) : res string := Ok "services: {web: {}}".
Definition demo_text (e : error) : string := match e with ErrYAML msg | ValidationError _ msg => msg | _ => "failed" end.
Definition demo_order {A} (m : gmap string A) : list (string * A) := map_to_list m.

Definition demo_execute (c : OperationCandidate) : prog (World Outside) () :=
  claim_and_execute demo_key demo_yaml demo_print demo_order demo_text id c.
Definition demo_candidate (id : string) : OperationCandidate := mkOperationCandidate id "org".

Definition queued_world : World Outside :=
  set_db (put_row "op" (demo_operation "op") fleet_db) fleet_world.

(** ** Witnesses *)

Lemma queued_world_inv : op_inv queued_world.
Proof.
  intros id o. cbn. rewrite lookup_insert_Some. intros [[<- <-]|[_ Ho]]; [|done].
  split; [done|by constructor].
Qed.

(** Two replicas race for one operation, and alice asks for it. *)
Definition racing_executors : World Outside * pool (W:=World Outside) :=
  (queued_world, [demo_execute (demo_candidate "op"); demo_execute (demo_candidate "op");
     void (GetOperation background "org" "alice" "op")]).
Definition interleaved : list nat :=
  [0; 1; 2; 0; 1; 2] ++ replicate 20 0 ++ replicate 5 1 ++ replicate 5 2.

Lemma operation_claimed_once_witness :
  let c' := sched interleaved racing_executors in
  claimed_once racing_executors.1 c'.1 ∧
  op_Status <$> operations (db c'.1) !! "op" = Some OperationStatusSuccess ∧
  length (ran (aux c'.1)) = 1.
Proof.
  split; [|by vm_compute].
  refine (proj2 (operation_claimed_once demo_key demo_yaml demo_print demo_order demo_text id
    demo_order racing_executors _ _ _ (sched_steps fleet_env
    (fleet_request demo_key demo_yaml demo_print demo_order demo_text id demo_order) _ _))).
  - exact queued_world_inv.
  - constructor; [right; by eexists|]. constructor; [right; by eexists|].
    constructor; [|constructor]. left. apply fs_GetOperation.
Defined.


(** The secrets of a fixed store. *)
#[local] Instance fixed_secrets : SecretResolver () :=
  {| ResolveSecret o m p := Ret ("secret of " +:+ p) |}.

Lemma fixed_resolves o m p (w : World ()) s w' :
  exec (ResolveSecret o m p) w = (Ok s, w') → s = "secret of " +:+ p.
Proof. by intros [= <- _]. Qed.

Definition secret_variable : FleetVariable :=
  mkFleetVariable "v4" "org" "file" "PW" VarTypeSecret ""
    (Some (mkFleetSecretReference "mount" "db/password")) "" 1.
Definition variables_db : DB := put_row "v4" secret_variable fleet_db.

Ltac by_rows H := repeat (apply lookup_insert_Some in H as [[? ?]|[_ H]]; [subst|]).

Lemma variables_db_keys : keys_unique variables_db.
Proof.
  intros i j u v Hu Hv. cbn in Hu, Hv. by_rows Hu; try done; by_rows Hv; done.
Qed.
Lemma variables_db_global : one_global_file variables_db.
Proof.
  intros i j u v Hu Hv. cbn in Hu, Hv. by_rows Hu; try done; by_rows Hv; done.
Qed.

Definition variables_world : World () := mkWorld variables_db 5 uuid 0 [] ().


(** ** Secrets *)

Definition alice_secret : CreateSecretVariableInput :=
  {| csv_OrganizationID := "org"; csv_RequestingUserID := "alice"; csv_ComposeFileID := "file";
     csv_Key := "PW"; csv_MountID := "mount"; csv_Value := "s3cret" |}.

Lemma secret_variable_reveals_witness :
  ∃ v w1, exec (CreateSecretVariable background alice_secret) fleet_world = (Ok v, w1) ∧
    fv_Value v = "" ∧
    ∀ ctx u s w2, exec (RevealVariable ctx "org" u (fv_ID v)) w1 = (Ok s, w2) → s = "s3cret".
Proof.
  apply exec_ok_run; [vm_compute; reflexivity|intros v w1 H].
  destruct (secret_variable_reveals demo_key background alice_secret fleet_world v w1 H)
    as (_ & _ & Hv & _ & Hreveal).
  split; [exact Hv|exact Hreveal].
Defined.

Definition alice_mount : CreateSecretMountInput :=
  {| csm_OrganizationID := "org"; csm_RequestingUserID := "alice"; csm_Name := "second";
     csm_BackendType := BackendTypeVault; csm_Address := "https://vault2"; csm_RoleID := "r";
     csm_SecretID := "role-secret" |}.

Lemma CreateSecretMount_ok_witness :
  ∃ m w1, exec (CreateSecretMount demo_key background alice_mount) fleet_world = (Ok m, w1) ∧
    secret_mounts (db w1) = <[sm_ID m := m]> (secret_mounts (db fleet_world)) ∧
    decryptSecretID demo_key m = Ok "role-secret".
Proof.
  apply exec_ok_run; [vm_compute; reflexivity|intros m w1 H].
  destruct (CreateSecretMount_ok demo_key background alice_mount fleet_world m w1 H)
    as (_ & Hrows & _ & _ & Hopen).
  split; [exact Hrows|exact Hopen].
Defined.

(** ** Requests *)

Definition alice_triggers : TriggerOperationInput :=
  {| to_OrganizationID := "org"; to_RequestingUserID := "alice"; to_ComposeFileID := "file";
     to_MachineID := "machine"; to_OperationType := "deploy" |}.

Lemma TriggerOperation_ok_witness :
  ∃ op w', exec (TriggerOperation background alice_triggers) fleet_world = (Ok op, w') ∧
    op_Status op = OperationStatusQueued ∧ operations (db fleet_world) !! op_ID op = None ∧
    ∃ ev, operation_created op ev ∧
      db w' = add_event ev (put_row (op_ID op) op (db fleet_world)).
Proof.
  apply exec_ok_run; [vm_compute; reflexivity|intros op w' H].
  destruct (TriggerOperation_ok background alice_triggers fleet_world op w' H)
    as (_ & _ & _ & Hop & _ & Hnew & Hev).
  split; [rewrite Hop; reflexivity|]. split; [exact Hnew|exact Hev].
Defined.

Lemma alice_may_manage_machines :
  may (db fleet_world) background "org" "alice" permissionMachineManage.
Proof.
  assert ((exec (RoleBindingRepository_HasPermission background "org" "alice"
    permissionMachineManage) fleet_world).1 = Ok true) as Hyes by (vm_compute; reflexivity).
  destruct (exec _ _) as [r w'] eqn:H. simpl in Hyes. subst r.
  pose proof (HasPermissionAtScope_exec background "org" "alice" permissionMachineManage
    None None fleet_world (Ok true) w' H) as [_ Hr]. by apply Hr.
Qed.

Lemma fleet_world_fresh : fresh_uuids fleet_world.
Proof.
  intros i _. cbn. unfold uuid. rewrite lookup_insert_ne by done. by rewrite !lookup_empty.
Qed.

Definition alice_duplicates : DuplicateMachineInput :=
  {| dm_OrganizationID := "org"; dm_RequestingUserID := "alice"; dm_MachineID := "machine";
     dm_Name := "" |}.

Lemma DuplicateMachine_ends_witness :
  ∃ clone w', exec (DuplicateMachine background alice_duplicates) fleet_world = (Ok clone, w') ∧
    mach_Name clone = "web (copy)" ∧ mach_EncryptedCredential clone = "sealed ssh-key".
Proof.
  destruct (DuplicateMachine_ends background alice_duplicates fleet_world demo_machine)
    as [(i & clone & w' & Hi & Hfree & Htaken & Hx & Hclone & _)|(_ & _ & w' & e & Hx & _)].
  - reflexivity.
  - exact fleet_world_fresh.
  - reflexivity.
  - left. exists "m-1". eexists. repeat split; reflexivity.
  - exact alice_may_manage_machines.
  - reflexivity.
  - reflexivity.
  - eexists. reflexivity.
  - exists clone, w'. split; [exact Hx|].
    assert ((exec (DuplicateMachine background alice_duplicates) fleet_world).1 = Ok clone) as H1
      by (rewrite Hx; reflexivity).
    vm_compute in H1. injection H1 as <-. split; reflexivity.
  - exfalso.
    assert ((exec (DuplicateMachine background alice_duplicates) fleet_world).1 =
      Err (ValidationError Fleet e)) as H1 by (rewrite Hx; reflexivity).
    vm_compute in H1. discriminate H1.
Defined.

(** ** What goes wrong *)

(** A YAML parser that quotes the text it cannot decode, as the library's
    errors do. *)
Definition strict_yaml (s : string) : string + option (gmap string Prelude.any) :=
  inl ("cannot unmarshal " +:+ s).

Definition secret_file : ComposeFile :=
  mkComposeFile "file" "org" "Shop API" false "{{ PW }}" "alice" 1.
Definition leaking_world : World Outside :=
  mkWorld (put_row "op" (mkOperation "op" "org" "file" "machine" "deploy" OperationStatusQueued
      "alice" 1 None None None "")
    (put_row "file" secret_file (put_row "v4" secret_variable fleet_db)))
    1000 uuid 0 []
    (mkOutside {[("https://vault", "db/password") := AMap {["value" := AString "s3cret"]}]} [] []).

(** The error of rendering is recorded as it is: with the secret in it. *)
Theorem error_leaks_secret :
  op_Output <$> operations (db (exec (claim_and_execute demo_key strict_yaml demo_print demo_order
    demo_text id (demo_candidate "op")) leaking_world).2) !! "op" =
  Some ("internal error: render compose file: compose content is not valid YAML: " +:+
    "cannot unmarshal s3cret").
Proof. vm_compute. reflexivity. Qed.

(** The database fails once between the claim and the read of the operation:
    it stays running and no later poll finds it. *)
Theorem claimed_operation_is_lost :
  let w' := (exec (demo_execute (demo_candidate "op"))
    (set_faults [false; true] queued_world)).2 in
  op_Status <$> operations (db w') !! "op" = Some OperationStatusRunning ∧
  faults w' = [] ∧ (exec (OperationScanner_FindQueuedCandidates batchSize) w').1 = Ok [].
Proof. vm_compute. by split_and!. Qed.

(** A network attached to a compose file is deleted, attachment and all. *)
Definition network_world : World Outside :=
  set_db (put_row "net" (mkNetwork "net" "org" "front" false "alice" 1)
    (put_row "na" (mkNetworkAttachment "na" "org" "file" "net") fleet_db)) fleet_world.

Theorem attached_network_is_deleted :
  let r := exec (DeleteNetwork background "org" "alice" "net") network_world in
  r.1 = Ok () ∧ networks (db r.2) !! "net" = None ∧ compose_file_networks (db r.2) !! "na" = None.
Proof. vm_compute. by split_and!. Qed.

(** A variable created under another organization's compose file takes the
    key there. *)
Definition two_tenants : World Outside :=
  set_db (put_row "org2" (mkOrganization "org2" "Other" "other" "active" None 0)
    (put_row "file2" (mkComposeFile "file2" "org2" "theirs" false "services" "bob" 1) fleet_db))
    fleet_world.
Definition foreign_variable : CreateFleetVariableInput :=
  {| cfv_OrganizationID := "org"; cfv_RequestingUserID := "alice"; cfv_ComposeFileID := "file2";
     cfv_Key := "TAG"; cfv_VarType := VarTypeKV; cfv_Value := "mine"; cfv_SecretMountID := "";
     cfv_SecretPath := ""; cfv_FileTargetPath := "" |}.

Theorem foreign_variable_takes_key :
  let r := exec (CreateFleetVariable background foreign_variable) two_tenants in
  is_ok r.1 = true ∧
  (exec (FleetVariableRepository_Create "bob"
    (mkFleetVariable "v9" "org2" "file2" "TAG" VarTypeKV "theirs" None "" 1)) r.2).1 =
  Err ErrVariableKeyTaken.
Proof. vm_compute. by split_and!. Qed.
