(* ===== verification/ApiExamples.v ===== *)
(** * The API on concrete requests

    A server over the fleet of FleetScenario, with a JWT library that obeys
    its laws: where the theorems of RoutesSpec and SessionSpec apply. *)
From Stdlib Require Import Ascii.
From stdpp Require Import pretty.
From S2P Require Import Prelude Prog TenancyDomain IdentityDomain FleetDomain Store Principal Ports.
From S2P Require Import IdentityRepo IdentityApp Wiring FleetFiles DeployExecutor Json Http HttpTenancy.
From S2P Require Import HttpIdentity Stream Mux Routes HttpScenario RbacSpec HttpSpec RoutesSpec.
From S2P Require Import Cursor Registry Scenario FleetScenario IdentitySpec SessionSpec.

(** ** Tokens: subject, expiry in seconds and key, in the clear *)

Definition no_dots (s : string) : bool := bool_decide (count_dots s = 0).

Definition demo_sign (secret subject : string) (issued expires : Z) : res string :=
  if no_dots secret && no_dots subject then
    Ok (subject +:+ String "." (stroke_time (expires / second_ns) +:+ String "." secret))
  else Err ErrCrypto.

Definition demo_parse (secret token : string) (now : Z) : option string :=
  match split_at "." "" token with
  | [subject; expires; key] =>
      seconds ← count_strokes expires;
      if (key =ₛ secret) && bool_decide (now < seconds * second_ns)%Z then Some subject else None
  | _ => None
  end.

Lemma count_dots_app a b : count_dots (a +:+ b) = count_dots a + count_dots b.
Proof. induction a as [|c a IH]; simpl; [done|]. case_bool_decide; lia. Qed.

Lemma split_at_here part a b :
  count_dots a = 0 → split_at "." part (a +:+ String "." b) = (part +:+ a) :: split_at "." "" b.
Proof.
  revert part. induction a as [|c a IH]; intros part Ha; simpl in *; [by rewrite append_nil|].
  case_bool_decide; [lia|]. rewrite IH by lia. by rewrite append_assoc.
Qed.
Lemma split_at_last part a : count_dots a = 0 → split_at "." part a = [part +:+ a].
Proof.
  revert part. induction a as [|c a IH]; intros part Ha; simpl in *; [by rewrite append_nil|].
  case_bool_decide; [lia|]. rewrite IH by lia. by rewrite append_assoc.
Qed.

Lemma stroke_time_no_dots t : count_dots (stroke_time t) = 0.
Proof.
  unfold stroke_time. simpl. rewrite bool_decide_false by (by case_bool_decide).
  by induction (Z.abs_nat t) as [|n IH].
Qed.

#[export] Instance demo_jwt : JWTLaws demo_parse demo_sign.
Proof.
  assert (∀ secret subject expires issued token, demo_sign secret subject issued expires = Ok token →
    count_dots secret = 0 ∧ count_dots subject = 0 ∧
    token = subject +:+ String "." (stroke_time (expires / second_ns) +:+ String "." secret)) as Hsign.
  { unfold demo_sign, no_dots. intros secret subject expires issued token.
    repeat case_bool_decide; try done. by intros [= <-]. }
  split.
  - intros secret subject issued expires token (Hsec & Hsub & ->)%Hsign.
    split; [by destruct subject|]. rewrite count_dots_app, Hsub.
    cbn [count_dots Nat.add]. rewrite bool_decide_true by done.
    rewrite count_dots_app, stroke_time_no_dots. cbn [Nat.add].
    change (count_dots (String "." secret)) with (S (count_dots secret)). by rewrite Hsec.
  - intros secret subject issued expires token now (Hsec & Hsub & ->)%Hsign. unfold demo_parse.
    rewrite split_at_here, split_at_here, split_at_last by (done || apply stroke_time_no_dots).
    assert (count_strokes (stroke_time (expires / second_ns)) = Some (expires / second_ns)%Z) as Ht
      by apply (parse_format (TimeTextLaws:=demo_times_laws)).
    cbv match. change ("" +:+ stroke_time (expires / second_ns)) with (stroke_time (expires / second_ns)).
    etrans; [exact (f_equal (mbind _) Ht)|]. cbn [mbind option_bind].
    by rewrite bool_decide_true.
Qed.

(** ** A server *)

#[local] Existing Instance demo_crypto.
#[local] Instance no_worker : WorkerCanceler Outside := {| CancelJob _ := Ret false |}.

Definition allow_all {X} (key : string) : prog (World X) (bool * Z) := Ret (true, 0%Z).
Lemma allow_all_never_fails {X} : never_fails (X:=X) allow_all.
Proof. intros key w. by exists (true, 0%Z), w. Qed.

Section server.
Notation param f := (f demo_parse demo_sign (λ _, "an error") (λ _, inl "no YAML") (λ s, s)
  map_to_list map_to_list).
Definition demo_server : HandlerFunc (X:=Outside) :=
  param server_Handler allow_all allow_all (Ret ()) true (λ _, []) "key" demo_key.
Definition demo_mux : HandlerFunc (X:=Outside) :=
  param mux allow_all (Ret ()) true (λ _, []) "key" demo_key.

(** [GET /api/v1/orgs/org/machines] with a header. *)
Definition list_machines (authorization : string) : Request :=
  mkRequest "GET" ["api"; "v1"; "orgs"; "org"; "machines"] ∅ "" authorization "req-1" "" "10.0.0.1"
    ∅ background.

(** alice and mallory, signed in before. *)
Definition token_of (subject : string) : string :=
  match demo_sign "key" subject 0 (5 * second_ns) with Ok token => token | Err _ => "" end.


Lemma no_credential_no_effect_witness : ∃ resp w',
  exec (demo_mux (list_machines "Basic alice")) fleet_world = (Ok resp, w') ∧
  db w' = db fleet_world ∧ rs_Status resp ∈ [StatusUnauthorized; StatusNotFound; StatusMethodNotAllowed].
Proof.
  apply (no_credential_no_effect demo_parse demo_sign (λ _, "an error") (λ _, inl "no YAML")
    (λ s, s) map_to_list map_to_list allow_all (Ret ()) true (λ _, []) "key" demo_key
    (list_machines "Basic alice") fleet_world); [by vm_compute|].
  by intros subject scopes w1 (token & ? & _).
Defined.


End server.

(** ** Sessions *)

(** alice signs in with her password. *)
Definition sign_in : Request :=
  mkRequest "POST" ["api"; "v1"; "auth"; "login"] ∅ "username=alice&password=open sesame" "" "req-1"
    "" "10.0.0.1" ∅ background.

Definition signed_in : res Response * World (Cluster Keyspace) :=
  exec (LoginHandler demo_sign "key" allow_all sign_in) home.


Definition a_line : LogMessage := mkLogMessage "pulling images" false None.

Lemma message_round_trip_witness :
  read_message (json_marshal (message_json a_line)) = Some a_line.
Proof. apply (message_round_trip a_line); [by vm_compute|done]. Defined.

(** An operation that finished while its watcher subscribed. *)
Definition finished_operation : Operation :=
  mkOperation "op" "org" "file" "machine" "restart" OperationStatusFailed "alice" 1
    (Some 2%Z) (Some 3%Z) (Some 7%Z) "boom".
Definition finished_world : World Outside :=
  set_db (put_row "op" finished_operation fleet_db) fleet_world.

Lemma stream_ends_witness : ∃ frames code,
  Forall is_data frames ∧ told finished_operation [ChannelMessage "line=pulling images"] code ∧
  exec (log_loop (GetOperation background "org" "alice" "op")
    [ChannelMessage "line=pulling images"; RecheckTick]) finished_world =
  (Ok (frames ++ done_event code, true), finished_world).
Proof.
  apply (stream_ends (GetOperation background "org" "alice" "op") finished_operation
    [ChannelMessage "line=pulling images"] [] finished_world).
  - by vm_compute.
  - done.
  - by repeat constructor.
Defined.
